(* ===== verification/_CoqProject ===== *)
-Q . S2P
Prelude.v
CString.v
Telegram.v
SnTracker.v
MsgQueue.v
MqPersist.v
Ledger.v
Relay.v
MsgDatabase.v
Misc.v
Log.v
Ini.v
IniWrite.v
Options.v
GroupChats.v
Bot.v
Network.v
Commands.v
Toxrelayer.v
Rooms.v
Console.v
Settings.v
Durability.v
Main.v
