(* ===== verification/Prelude.v ===== *)
(** * ToxRelayer: a verification development

    ToxRelayer ([src/src/*.c]) is a store-and-forward relay bot for the Tox network.
    A contact's message is a command for the bot, plain text to keep, or a
    _telegram_: a framed text record with a receiver, a sender, a serial number
    between 1 and 999 and a time. Telegrams for the bot are stored and their serials
    checked; a gap is answered with a request for a replay; telegrams for somebody
    else are queued for them, and the queue is delivered with retries and mirrored
    to a file.

    ** Files

    A file models the source file of the same name, and its definitions keep the
    names of the functions, types and constants they translate.

    - [Prelude.v]: bytes, machine integers, the notations [do!] and [assert!],
      automation and shared lemmas. [CString.v]: what the code uses of the C library
      on strings ([strtol], [printf] conversions, [strstr], [memcpy], stores).
    - [Telegram.v], [SnTracker.v] ([telegram.c], [telegram.h]): the codec of telegrams
      and the tracker of received serials.
    - [MsgQueue.v] ([msg_queue.c]): the delivery queue, a ring of slots, with its
      assertions. [MqPersist.v] ([mq_persist.c]): its file, over a file system
      ([world]) whose calls can fail. [Ledger.v]: what a client's calls of the queue
      can have done to the telegrams.
    - [Relay.v] ([relay.c]): the policy for an incoming record, over the callbacks of
      [relay_env]; the class [env_spec] states what an environment promises.
    - [MsgDatabase.v] ([msg_database.c]): the message store over SQLite (the class
      [sqlite]); the class [database] is what the relayer uses of it.
    - [Misc.v] ([misc.c]): number, key and name helpers and the key files.
    - [Log.v] ([log.c], [misc.c], [toxrelayer.c]): the lines of the log, time stamps,
      what the relayer reports, texts of the terminal.
    - [Ini.v], [IniWrite.v] ([minIni.c], [minGlue.h], [minIni.h]): the settings file,
      read and written through a buffer of 512 bytes over the same [world]; a
      reference describes it as a list of lines.
    - [Options.v] ([toxrelayer.c]): the options of the command line.
    - [GroupChats.v] ([groupchats.c]): the table of conferences.
    - [Bot.v] ([toxrelayer.c]): the state of the bot, the library toxcore (the class
      [toxcore]), the monad [M] of the handlers, the profile and the key lists.
    - [Commands.v] ([commands.c]): the command line of a contact and its handlers.
    - [Toxrelayer.v] ([toxrelayer.c]): the directory of contacts, the adapters that
      connect the components (the instance of [env_spec] is there), the callbacks,
      the periodic purges.
    - [Rooms.v] ([groupchats.c], [commands.c]): the record of who is in which
      conference, and the displays of conferences with the lines they print.
    - [Network.v] ([toxrelayer.c]): the bootstrap nodes.
    - [Console.v] ([toxrelayer.c]): the body of [main]: start-up, the loop around
      [tox_iterate] with its periodic work, the operator's console with its displays,
      the exit.
    - [Settings.v]: what the relayer expects of the settings file (the class
      [ini_promise]), which minIni is shown to keep, and what of the directory of
      contacts survives a restart.
    - [Durability.v]: the queue and its file while [main] runs. Every step of every
      component is related to the calls it makes of the queue's module, to its effect
      on the queue's hook and to its effect on the file.
    - [Main.v] ([toxrelayer.c]): [main] from the arguments of the process: the
      profile's old name, the options, the library started on the profile
      ([init_tox]), then the start-up, the loop and the exit. What the library does
      before it runs is the record [library].

    ** Modelling

    Buffers and strings are lists of [ascii]; a write outside an array, a failed
    [assert] and the other behaviours C leaves undefined are the result [None].
    Machine integers are [Z] with their conversions written out ([u16], [u32], [i32],
    [u64]). Errors are the codes of the source. State is passed explicitly: the queue
    ([mq]), the disk ([world]), the bot ([bot], in the monad [M]), the database
    ([msg_db]), the process around them ([relayer]), and the rest of the globals with
    the room record ([console]). The loop of [main] runs over the list of what it
    reacts to ([input]): a turn with the callbacks that ran in it, or a key.

    Code outside the repository is a parameter. [toxcore] gives the answers of the
    Tox library as functions of the calls made so far, [sqlite] those of a connection
    with the documented meaning of the module's statements, [toxpeers] the members of
    conferences, [getopt] the options found, [wall_clock] the local time, [ini_real]
    the conversions of a [float]; [tox_params] and
    [mq_config] hold the constants of the library and of the build. Two classes stand
    for parts of the program that the callbacks use through few operations:
    [database] for the message store and [ini_file] for the settings (its instance
    [min_ini] is minIni over files whose operations work). Each class has a concrete
    instance on which the witnesses run.

    Loops are structural where the code counts up. The others have fuel: the ring is
    searched [MQ_CAPACITY] slots far, which visits each once; a range of serials is
    added for at most [SN_MAX_PENDING + 1] rounds, where the set is full; the purge of
    rooms takes one turn per slot in use; a parser takes one per byte, the tokenizer
    of the console at most 128; a loop over the lines of a settings file takes one
    turn per byte of it at most; the options end with the arguments. The theorems
    about these loops state the result and so show that the fuel is enough.

    ** What is shown

    - Codec: both round trips, every result of the encoders, the bounds of whatever
      is decoded. Tracker: it classifies as a receiver with unbounded serials would;
      replays close a gap in any order; its state stays in range.
    - Queue: no sequence of calls fails an assertion or loses a message; the service
      is one tick of an abstract queue; it empties within the attempt budget when
      the transport refuses everything. File: a save is atomic, a saved queue is loaded back,
      loading anything is safe.
    - Relay: the outcome and effect of a record on every branch; two relays close a
      gap when they agree on their keys; recovery after a restart.
    - Database: the table after any calls, the rows of a replay, each branch of an
      insertion; records of one second replace each other, and the serial recovered
      after a wrap is wrong.
    - Bot: no line a contact types is undefined behaviour within the stated bounds,
      one who is not a master cannot change the bot, the password decides invitations;
      the profile is written atomically by [store_data] and not by [save_data].
    - Process: from any arguments and files to the exit, through any turns and keys
      and whatever file operations fail, nothing is undefined and the state stays well
      formed, as long as the library's lists fit and the operator names contacts that
      exist. A typed line leaves as the telegram that reads back as it. The next start
      runs on the profile as it was at the exit (one that cannot be opened is
      replaced) and what is queued at the exit is queued after it; so is what was
      queued when the process is killed with its flag for unsaved changes clear,
      whatever calls failed before. Every telegram that was accepted has been
      acknowledged by a receipt of the library, given up with a report, or is stored;
      one for a contact who is online is handed over and removed by its receipt, and
      one for a contact who is offline is given up after eight turns of the queue. The
      purges remove exactly what they should. With a proxy UDP is off. As configured,
      two relayers do not recover a gap from each other, because a receiver does not
      recognise the key it is addressed by.
    - Log: each outcome of the relay is reported on a line of its own that fits the
      buffer, or not at all.
    - Rooms: the record of a conference catches up with it in as many reports as there
      were differences, if its number is below the count of conferences; otherwise it
      has no record. A member with a long name overruns an array.
    - Settings: the parser reads what the reference on lines gives, and its search
      ends on any file; a setting that is written, quotes and comment characters
      included, is read back and every other one stays; on each of its paths
      [ini_puts] edits the list of lines. The serial a typed line takes is the
      contact's serial after a restart. When a file operation fails the settings can
      be lost while the call reports success.

    ** Not modelled

    What [/set] and [/add] report of the library's answer and the lines the callbacks
    print besides those of [Log.v], the diagnostics of [console_err], signals (the
    loop may stop after any input), the C++ class of [minIni.h], which a C compiler
    does not see, read errors of an open settings file, memory allocation failures
    other than those of the profile and the queue file, the build files, scripts and
    tests. The lines of the sources that no definition covers are includes,
    prototypes, comments and the lines printed there. *)

From Stdlib Require Export Lia ZArith Bool.
From Stdlib Require Export Ascii.
From Stdlib Require String.
From stdpp Require Export base option list numbers strings sets gmap.
Open Scope Z_scope.

(** ** Bytes

    A C [char] is an [ascii] (256 values, exactly the bytes); a buffer or the
    text of a C string is a list of them. *)
Abbreviation byte := Ascii.ascii.
Abbreviation bytes := (list Ascii.ascii).

(** Literal text of the sources: [$"ZCZC TEXT"]. *)
Declare Scope relay_scope.
Delimit Scope relay_scope with relay.
Notation "$ s" := (String.list_ascii_of_string s%string)
  (at level 1, format "$ s") : relay_scope.
Open Scope relay_scope.

Definition NUL : byte := "000"%char.
Definition TAB : byte := "009"%char.
Definition LF : byte := "010"%char.
Definition CR : byte := "013"%char.
Definition SPC : byte := " "%char.

(** Length of a buffer as the [size_t]/[int] the code computes with. *)
Definition zlen {A} (l : list A) : Z := Z.of_nat (length l).

(** Character codes. *)
Definition code (c : byte) : Z := Z.of_N (Ascii.N_of_ascii c).
Definition chr (z : Z) : byte := Ascii.ascii_of_N (Z.to_N (z mod 256)).

(** ** Machine integers *)

Definition u8 (z : Z) : Z := z mod 2 ^ 8.
Definition u16 (z : Z) : Z := z mod 2 ^ 16.
Definition u32 (z : Z) : Z := z mod 2 ^ 32.
Definition u64 (z : Z) : Z := z mod 2 ^ 64.
Definition i32 (z : Z) : Z := (z + 2 ^ 31) mod 2 ^ 32 - 2 ^ 31.

Definition INT_MAX : Z := 2 ^ 31 - 1.
Definition LONG_MAX : Z := 2 ^ 63 - 1.
Definition LONG_MIN : Z := - 2 ^ 63.

(** A boolean counted as 0 or 1. *)
Definition b2n (b : bool) : nat := if b then 1%nat else 0%nat.

(** Number of elements of a list that pass a boolean test. *)
Fixpoint count {A} (f : A -> bool) (l : list A) : nat :=
  match l with
  | [] => 0%nat
  | x :: l' => (b2n (f x) + count f l')%nat
  end.

(** Update of one element of a C array through a pointer to it. *)
Definition upd {A} (l : list A) (i : nat) (x : A) : list A := <[i := x]> l.

(** ** Operations that can fail

    [None] is a failed [assert] or an access outside an object: the behaviour C
    leaves undefined. *)
Notation "'do!' p := m ; k" := (match m with Some p => k | None => None end)
  (at level 100, p pattern, m at next level, k at level 200, right associativity,
   format "'do!'  p  :=  m ;  '//' k") : relay_scope.
Notation "'assert!' b ; k" := (if b then k else None)
  (at level 100, b at next level, k at level 200, right associativity,
   only parsing) : relay_scope.

(** * Automation *)

(** Turn the boolean tests of the code, in the hypotheses and in the goal, into
    arithmetic facts, splitting conjunctions and disjunctions on the way. *)
Ltac zbool_in H :=
  lazymatch type of H with
  | (_ && _)%bool = true => apply andb_true_iff in H; destruct H as [? ?]
  | (_ || _)%bool = false => apply orb_false_iff in H; destruct H as [? ?]
  | (_ && _)%bool = false => apply andb_false_iff in H
  | (_ || _)%bool = true => apply orb_true_iff in H
  | negb _ = true => apply negb_true_iff in H
  | negb _ = false => apply negb_false_iff in H
  | (_ <? _) = true => apply Z.ltb_lt in H
  | (_ <? _) = false => apply Z.ltb_ge in H
  | (_ <=? _) = true => apply Z.leb_le in H
  | (_ <=? _) = false => apply Z.leb_gt in H
  | (_ =? _) = true => apply Z.eqb_eq in H
  | (_ =? _) = false => apply Z.eqb_neq in H
  | bool_decide _ = true => apply bool_decide_eq_true in H
  | bool_decide _ = false => apply bool_decide_eq_false in H
  end.
Ltac zbool :=
  repeat match goal with
  | H : _ = true |- _ => zbool_in H
  | H : _ = false |- _ => zbool_in H
  end.

(** Split on the scrutinee of the first [if] or [match] of the goal (or of a
    hypothesis), keeping its equation. *)
Ltac split_match :=
  match goal with
  | |- context [match ?x with _ => _ end] => destruct x eqn:?
  end.
Ltac split_match_in H :=
  match type of H with
  | context [match ?x with _ => _ end] => destruct x eqn:?
  end.

Create HintDb relay discriminated.
Create Rewrite HintDb zlen.

(** * Lemmas shared by the components *)

Lemma zlen_nil {A} : zlen (@nil A) = 0.
Proof. reflexivity. Qed.

Lemma zlen_cons {A} (x : A) l : zlen (x :: l) = 1 + zlen l.
Proof. unfold zlen; cbn [length]; lia. Qed.

Lemma zlen_app {A} (l k : list A) : zlen (l ++ k) = zlen l + zlen k.
Proof. unfold zlen; rewrite length_app; lia. Qed.

Lemma zlen_nonneg {A} (l : list A) : 0 <= zlen l.
Proof. unfold zlen; lia. Qed.

Lemma zlen_0_nil {A} (l : list A) : zlen l = 0 -> l = [].
Proof. destruct l; [done | rewrite zlen_cons; pose proof (zlen_nonneg l); lia]. Qed.

Lemma zlen_take {A} (n : Z) (l : list A) :
  0 <= n -> zlen (take (Z.to_nat n) l) = Z.min n (zlen l).
Proof. intros; unfold zlen; rewrite length_take; lia. Qed.

#[export] Hint Rewrite @zlen_nil @zlen_cons @zlen_app : zlen.

(** Length arithmetic: expand the lengths of the literal pieces, then [lia]. *)
Ltac zlen := autorewrite with zlen in *; repeat match goal with
  | |- context [zlen ?l] => lazymatch goal with
      | _ : 0 <= zlen l |- _ => fail | _ => pose proof (zlen_nonneg l) end
  | _ : context [zlen ?l] |- _ => lazymatch goal with
      | _ : 0 <= zlen l |- _ => fail | _ => pose proof (zlen_nonneg l) end
  end; try lia.

Lemma code_range c : 0 <= code c < 256.
Proof. unfold code. pose proof (Ascii.N_ascii_bounded c). lia. Qed.

Lemma chr_code c : chr (code c) = c.
Proof.
  unfold chr. rewrite Z.mod_small by apply code_range. unfold code.
  rewrite N2Z.id. apply Ascii.ascii_N_embedding.
Qed.

Lemma code_chr z : 0 <= z < 256 -> code (chr z) = z.
Proof.
  intros. unfold code, chr. rewrite Z.mod_small by lia.
  rewrite Ascii.N_ascii_embedding by lia. lia.
Qed.

Lemma code_inj c d : code c = code d -> c = d.
Proof. intros H. rewrite <- (chr_code c), <- (chr_code d). congruence. Qed.

Lemma u32_id z : 0 <= z < 2 ^ 32 -> u32 z = z.
Proof. intros; unfold u32; apply Z.mod_small; lia. Qed.

Lemma u64_id z : 0 <= z < 2 ^ 64 -> u64 z = z.
Proof. intros; unfold u64; apply Z.mod_small; lia. Qed.

Lemma i32_id z : - 2 ^ 31 <= z < 2 ^ 31 -> i32 z = z.
Proof. intros; unfold i32; rewrite Z.mod_small; lia. Qed.

Lemma i32_u32 z : i32 (u32 z) = i32 z.
Proof. unfold i32, u32. rewrite Zplus_mod_idemp_l. reflexivity. Qed.

Lemma count_app {A} (f : A -> bool) l k : count f (l ++ k) = (count f l + count f k)%nat.
Proof. induction l; cbn; lia. Qed.

Lemma count_le_length {A} (f : A -> bool) l : (count f l <= length l)%nat.
Proof. induction l as [|x l IH]; cbn; [lia | destruct (f x); cbn; lia]. Qed.

Lemma upd_S {A} (z : A) l i x : upd (z :: l) (S i) x = z :: upd l i x.
Proof. reflexivity. Qed.

(** Updating one slot moves the count by the change of that slot. *)
Lemma count_upd {A} (f : A -> bool) l i x y :
  l !! i = Some x ->
  (count f (upd l i y) + b2n (f x))%nat = (count f l + b2n (f y))%nat.
Proof.
  revert i. induction l as [|z l IH]; intros [|i] H; try done.
  - cbn in *. injection H as ->. lia.
  - rewrite upd_S. cbn [count]. specialize (IH i H). lia.
Qed.

Lemma count_pos {A} (f : A -> bool) l i x :
  l !! i = Some x -> f x = true -> (0 < count f l)%nat.
Proof.
  revert i. induction l as [|z l IH]; intros [|i] H Hf; cbn in *; try done.
  - injection H as ->. rewrite Hf. cbn; lia.
  - specialize (IH _ H Hf). lia.
Qed.

Lemma count_exists {A} (f : A -> bool) l :
  (0 < count f l)%nat -> exists i x, l !! i = Some x /\ f x = true.
Proof.
  induction l as [|z l IH]; cbn; [lia |]. destruct (f z) eqn:E; intros H.
  - exists 0%nat, z. done.
  - destruct IH as (i & x & ? & ?); [cbn in H; lia |]. by exists (S i), x.
Qed.

Lemma count_full {A} (f : A -> bool) l :
  count f l = length l <-> (forall i x, l !! i = Some x -> f x = true).
Proof.
  induction l as [|z l IH]; cbn.
  - split; [intros _ i x H; destruct i; discriminate | done].
  - pose proof (count_le_length f l). split.
    + intros H'. destruct (f z) eqn:E; cbn in H'; [| lia].
      intros [|i] x Hx; cbn in Hx; [congruence |].
      apply (proj1 IH) with i; [lia | done].
    + intros H'. rewrite (H' 0%nat z) by done. cbn. f_equal. apply IH.
      intros i x Hx. by apply (H' (S i)).
Qed.

Lemma count_none {A} (f : A -> bool) l :
  (forall i x, l !! i = Some x -> f x = false) -> count f l = 0%nat.
Proof.
  induction l as [|z l IH]; intros H; cbn; [done |].
  rewrite (H 0%nat z), IH; [done | | done]. intros i x Hx. by apply (H (S i)).
Qed.

Lemma count_replicate {A} (f : A -> bool) n x :
  f x = false -> count f (replicate n x) = 0%nat.
Proof. intros Hx. apply count_none. intros i y [-> _]%lookup_replicate. done. Qed.

Lemma length_upd {A} (l : list A) i x : length (upd l i x) = length l.
Proof. apply length_insert. Qed.

Lemma lookup_upd_eq {A} (l : list A) i x :
  (i < length l)%nat -> upd l i x !! i = Some x.
Proof. apply list_lookup_insert_eq. Qed.

Lemma lookup_upd_ne {A} (l : list A) i j x : i <> j -> upd l i x !! j = l !! j.
Proof. apply list_lookup_insert_ne. Qed.

Lemma lookup_upd_Some {A} (l : list A) i j x y :
  upd l i x !! j = Some y ->
  (i = j /\ y = x /\ (j < length l)%nat) \/ (i <> j /\ l !! j = Some y).
Proof.
  intros H. destruct (decide (i = j)) as [-> | Hn].
  - left. assert (j < length l)%nat by (rewrite <- (length_upd l j x); by eapply lookup_lt_Some).
    rewrite lookup_upd_eq in H by done. by simplify_eq.
  - right. by rewrite lookup_upd_ne in H.
Qed.

#[export] Hint Resolve zlen_nonneg code_range : relay.
#[export] Hint Rewrite @length_upd : zlen.

Lemma list_filter_all {A} (P : A -> Prop) `{!forall x, Decision (P x)} (l : list A) :
  (forall x, x ∈ l -> P x) -> filter P l = l.
Proof.
  induction l as [|x l IH]; intros Hl; [done |].
  rewrite filter_cons_True by (apply Hl; left). rewrite IH; [done |].
  intros y Hy. apply Hl. by right.
Qed.

Lemma list_filter_none {A} (P : A -> Prop) `{!forall x, Decision (P x)} (l : list A) :
  (forall x, x ∈ l -> ~ P x) -> filter P l = [].
Proof.
  induction l as [|x l IH]; intros Hl; [done |].
  rewrite filter_cons_False by (apply Hl; left). apply IH.
  intros y Hy. apply Hl. by right.
Qed.

(** ** Rings

    [rot h l]: the elements of a circular buffer in the order a walk from index
    [h] meets them. *)
Definition rot {A} (h : nat) (l : list A) : list A := drop h l ++ take h l.

Lemma length_rot {A} h (l : list A) : length (rot h l) = length l.
Proof. unfold rot. rewrite length_app, length_drop, length_take. lia. Qed.

Lemma rot_lookup {A} h k (l : list A) :
  (h < length l)%nat -> (k < length l)%nat ->
  rot h l !! k = l !! ((h + k) mod length l)%nat.
Proof.
  intros Hh Hk. unfold rot. destruct (decide (k < length l - h)%nat) as [Hd | Hd].
  - rewrite lookup_app_l by (rewrite length_drop; lia).
    rewrite lookup_drop, Nat.mod_small by lia. done.
  - rewrite lookup_app_r by (rewrite length_drop; lia). rewrite length_drop.
    replace ((h + k) mod length l)%nat with (k - (length l - h))%nat.
    + apply lookup_take_lt. lia.
    + apply Nat.mod_unique with 1%nat; lia.
Qed.

(** Position at which the walk from [h] meets index [i]. *)
Definition off (cap h i : nat) : nat := ((i + cap - h) mod cap)%nat.

Lemma off_lt cap h i : (0 < cap)%nat -> (off cap h i < cap)%nat.
Proof. intros. apply Nat.mod_upper_bound. lia. Qed.

Lemma off_spec cap h i : (h < cap)%nat -> (i < cap)%nat ->
  off cap h i = if decide (h <= i)%nat then (i - h)%nat else (i + cap - h)%nat.
Proof.
  intros. unfold off. destruct (decide _).
  - symmetry. apply Nat.mod_unique with 1%nat; lia.
  - apply Nat.mod_small. lia.
Qed.

Lemma off_add cap h i : (h < cap)%nat -> (i < cap)%nat ->
  ((h + off cap h i) mod cap)%nat = i.
Proof.
  intros. rewrite off_spec by done. destruct (decide _).
  - rewrite Nat.mod_small; lia.
  - symmetry. apply Nat.mod_unique with 1%nat; lia.
Qed.

Lemma rot_upd {A} h i (l : list A) x : (h < length l)%nat -> (i < length l)%nat ->
  rot h (upd l i x) = upd (rot h l) (off (length l) h i) x.
Proof.
  intros Hh Hi. rewrite off_spec by done. unfold rot, upd. destruct (decide (h <= i)%nat).
  - rewrite insert_app_l by (rewrite length_drop; lia).
    rewrite drop_insert_ge, take_insert_ge by lia. done.
  - rewrite insert_app_r_alt by (rewrite length_drop; lia).
    rewrite drop_insert_lt, take_insert_lt, length_drop by lia.
    do 2 f_equal. lia.
Qed.

(** A step of the walk over index [h]. *)
Lemma rot_step {A} h (l : list A) x : l !! h = Some x ->
  exists t, rot h l = x :: t /\ rot ((h + 1) mod length l) l = t ++ [x].
Proof.
  intros Hx. pose proof (lookup_lt_Some _ _ _ Hx) as Hl. exists (drop (S h) l ++ take h l).
  split; [unfold rot; by rewrite (drop_S _ _ _ Hx) |].
  destruct (decide (S h = length l)) as [He | He].
  - replace ((h + 1) mod length l)%nat with 0%nat
      by (replace (h + 1)%nat with (length l) by lia; symmetry; apply Nat.Div0.mod_same).
    unfold rot. rewrite drop_0, take_0, app_nil_r, (drop_ge l (S h)) by lia.
    cbn [app]. rewrite <- (take_S_r _ _ _ Hx), take_ge by lia. done.
  - rewrite Nat.mod_small by lia. replace (h + 1)%nat with (S h) by lia.
    unfold rot. rewrite (take_S_r _ _ _ Hx), app_assoc. done.
Qed.

(** The list around the element a C pointer designates, before and after it is
    overwritten. *)
Lemma upd_split {A} (l : list A) i x y : l !! i = Some x ->
  l = take i l ++ x :: drop (S i) l /\ upd l i y = take i l ++ y :: drop (S i) l.
Proof.
  intros Hx. split; [symmetry; by apply take_drop_middle |].
  apply insert_take_drop. by eapply lookup_lt_Some.
Qed.
