(* ===== verification/CString.v ===== *)
(** * C strings and the C library routines the sources use

    A [const char *] argument is a list of characters without its terminating
    NUL; [None] stands for a null pointer where the code tests for one. A
    fixed-size character array that may hold a NUL in the middle is read back
    with [until_nul]. The routines below ([strtol], the [printf] conversions,
    [strstr], ...) follow the C standard for the "C" locale and an LP64 [long];
    they are the language's library, not code of the repository. *)

From S2P Require Import Prelude.

(** ** Reading a NUL-terminated array *)

Fixpoint until_nul (s : bytes) : bytes :=
  match s with
  | [] => []
  | c :: s' => if bool_decide (c = NUL) then [] else c :: until_nul s'
  end.

(** [strchr(s, c) != NULL] for a non-NUL [c]. *)
Fixpoint has_char (c : byte) (s : bytes) : bool :=
  match s with
  | [] => false
  | d :: s' => bool_decide (d = c) || has_char c s'
  end.

(** No NUL inside: what a C string can hold. *)
Definition cstring (s : bytes) : Prop := has_char NUL s = false.

(** [strcmp(a, b) == 0]. *)
Definition str_eq (a b : bytes) : bool := bool_decide (a = b).

(** Does [s] start with [p]? *)
Fixpoint starts_with (p s : bytes) : bool :=
  match p, s with
  | [], _ => true
  | c :: p', d :: s' => bool_decide (c = d) && starts_with p' s'
  | _ :: _, [] => false
  end.

(** [strstr(hay, needle) != NULL]. *)
Fixpoint strstr (hay needle : bytes) : bool :=
  starts_with needle hay ||
  match hay with
  | [] => false
  | _ :: hay' => strstr hay' needle
  end.

(** ** Character classes *)

Definition is_digit (c : byte) : bool := (48 <=? code c) && (code c <=? 57).
Definition isspace (c : byte) : bool :=
  (code c =? 32) || ((9 <=? code c) && (code c <=? 13)).
Definition tolower (c : byte) : byte :=
  if (65 <=? code c) && (code c <=? 90) then chr (code c + 32) else c.

(** [strcasecmp(a, b) == 0]. *)
Definition str_caseeq (a b : bytes) : bool :=
  bool_decide (tolower <$> a = tolower <$> b).

(** ** [strtol(s, &end, 10)] *)

(** Longest run of decimal digits, accumulated, and what follows it. *)
Fixpoint digits (acc : Z) (s : bytes) : Z * bytes :=
  match s with
  | c :: s' => if is_digit c then digits (10 * acc + (code c - 48)) s' else (acc, s)
  | [] => (acc, [])
  end.

Fixpoint skip_space (s : bytes) : bytes :=
  match s with
  | c :: s' => if isspace c then skip_space s' else s
  | [] => []
  end.

Definition sign (s : bytes) : bool * bytes :=
  match s with
  | c :: s' => if bool_decide (c = "-"%char) then (true, s')
               else if bool_decide (c = "+"%char) then (false, s') else (false, s)
  | [] => (false, [])
  end.

(** Clamp to [long]; the flag is [errno == ERANGE]. *)
Definition clamp_long (z : Z) : Z * bool :=
  if z <? LONG_MIN then (LONG_MIN, true)
  else if LONG_MAX <? z then (LONG_MAX, true) else (z, false).

(** [None]: no digits, [end == s]. [Some (value, erange, rest)]: the value
    returned, whether [errno] is [ERANGE], and the text at [end]. *)
Definition strtol (s : bytes) : option (Z * bool * bytes) :=
  let '(neg, s1) := sign (skip_space s) in
  match s1 with
  | c :: _ =>
      if is_digit c then
        let '(v, rest) := digits 0 s1 in
        let '(z, erange) := clamp_long (if neg then - v else v) in
        Some (z, erange, rest)
      else None
  | [] => None
  end.

(** ** [printf] conversions *)

Definition digit (z : Z) : byte := chr (48 + z).

(** Digits of [n >= 0], most significant first. [fuel] is the number of
    digits after the first; 19 covers every 64-bit value. *)
Fixpoint dec_go (fuel : nat) (n : Z) (acc : bytes) : bytes :=
  match fuel with
  | O => digit (n mod 10) :: acc
  | S f => if n <? 10 then digit n :: acc
           else dec_go f (n / 10) (digit (n mod 10) :: acc)
  end.
Definition dec (n : Z) : bytes := dec_go 19 n [].

(** [%d], [%ld], [%lu]. *)
Definition fmt_d (z : Z) : bytes := if z <? 0 then "-"%char :: dec (- z) else dec z.

(** [%0wd]: zero padded to [w] columns, the sign included. *)
Definition fmt_0d (w : Z) (z : Z) : bytes :=
  if z <? 0
  then "-"%char :: replicate (Z.to_nat (w - 1 - zlen (dec (- z)))) "0"%char ++ dec (- z)
  else replicate (Z.to_nat (w - zlen (dec z))) "0"%char ++ dec z.

(** [%02X] of a byte. *)
Definition hex_upper (z : Z) : byte := if z <? 10 then chr (48 + z) else chr (55 + z).
Definition fmt_02X (c : byte) : bytes := [hex_upper (code c / 16); hex_upper (code c mod 16)].

(** [snprintf(buf, size, ...)] with the formatted text [s]: what [buf] holds. *)
Definition snprintf (size : Z) (s : bytes) : bytes := take (Z.to_nat (size - 1)) s.

(** * Lemmas *)

Lemma str_eq_true a b : str_eq a b = true <-> a = b.
Proof. apply bool_decide_eq_true. Qed.

Lemma str_eq_refl a : str_eq a a = true.
Proof. by apply str_eq_true. Qed.

Lemma has_char_app c s t : has_char c (s ++ t) = has_char c s || has_char c t.
Proof. induction s as [|d s IH]; cbn; [done |]. by rewrite IH, orb_assoc. Qed.

Lemma has_char_In c s : has_char c s = true <-> In c s.
Proof.
  induction s as [|d s IH]; cbn; [done |].
  rewrite orb_true_iff, bool_decide_eq_true, IH. done.
Qed.

Lemma has_char_take c n s : has_char c s = false -> has_char c (take n s) = false.
Proof.
  revert n. induction s as [|d s IH]; intros [|n] H; cbn in *; try done.
  apply orb_false_iff in H as [-> ?]. by rewrite IH.
Qed.

Lemma has_char_replicate c d n : c <> d -> has_char c (replicate n d) = false.
Proof. intros. induction n; cbn; [done |]. by rewrite bool_decide_eq_false_2. Qed.

Lemma until_nul_cstring s : cstring s -> until_nul s = s.
Proof.
  unfold cstring. induction s as [|c s IH]; cbn; [done |]. intros H. zbool.
  rewrite bool_decide_eq_false_2 by done. by rewrite IH.
Qed.

Lemma cstring_until_nul s : cstring (until_nul s).
Proof.
  unfold cstring. induction s as [|c s IH]; cbn; [done |].
  case_bool_decide; cbn; [done |]. by rewrite bool_decide_eq_false_2.
Qed.

Lemma zlen_until_nul s : zlen (until_nul s) <= zlen s.
Proof.
  induction s as [|c s IH]; cbn; [done |].
  case_bool_decide; zlen.
Qed.

#[export] Hint Resolve cstring_until_nul str_eq_refl : relay.

Lemma skip_space_digit c s : is_digit c = true -> skip_space (c :: s) = c :: s.
Proof.
  intros H. cbn. unfold is_digit, isspace in *. zbool.
  destruct (_ =? _) eqn:E; [zbool; lia |]. cbn.
  destruct (9 <=? code c) eqn:E1; [cbn; zbool | done].
  destruct (code c <=? 13) eqn:E2; [zbool; lia | done].
Qed.

Lemma digits_app ds : forall acc s,
  Forall (fun c => is_digit c = true) ds ->
  digits acc (ds ++ s) = digits (fst (digits acc ds)) s.
Proof.
  induction ds as [|d ds IH]; intros acc s H; cbn; [done |].
  inversion H as [|? ? Hd Hds]; subst. by rewrite Hd, IH.
Qed.

Lemma digits_stop acc s :
  match s with [] => True | c :: _ => is_digit c = false end -> digits acc s = (acc, s).
Proof. destruct s as [|c s]; cbn; [done |]. by intros ->. Qed.

Lemma code_digit z : 0 <= z <= 9 -> code (digit z) = 48 + z.
Proof. intros. unfold digit. apply code_chr. lia. Qed.

Lemma is_digit_digit z : 0 <= z <= 9 -> is_digit (digit z) = true.
Proof. intros. unfold is_digit. rewrite code_digit by done. lia. Qed.

(** Every digit list produced by [dec_go] in front of [acc] reads back [n]. *)
Lemma dec_go_spec f : forall n acc, 0 <= n < 10 ^ (1 + Z.of_nat f) ->
  exists c ds, dec_go f n acc = (c :: ds) ++ acc
    /\ Forall (fun c => is_digit c = true) (c :: ds)
    /\ (forall a, fst (digits a (c :: ds)) = a * 10 ^ zlen (c :: ds) + n)
    /\ zlen (c :: ds) <= 1 + Z.of_nat f
    /\ (zlen (c :: ds) = 1 \/ 10 ^ (zlen (c :: ds) - 1) <= n).
Proof.
  assert (Hone : forall n acc, 0 <= n < 10 ->
    exists c ds, digit n :: acc = (c :: ds) ++ acc
    /\ Forall (fun c => is_digit c = true) (c :: ds)
    /\ (forall a, fst (digits a (c :: ds)) = a * 10 ^ zlen (c :: ds) + n)
    /\ zlen (c :: ds) = 1).
  { intros n acc Hn. exists (digit n), []. split; [done |].
    split; [constructor; [apply is_digit_digit; lia | done] |]. split; [| done].
    intros a. cbn [digits]. rewrite is_digit_digit by lia. cbn.
    rewrite code_digit by lia. change (zlen [digit n]) with 1. lia. }
  induction f as [|f IH]; intros n acc Hn; cbn [dec_go].
  - rewrite Z.mod_small by lia. destruct (Hone n acc) as (c & ds & -> & ? & ? & ?); [lia |].
    exists c, ds. repeat split; try done; lia.
  - destruct (n <? 10) eqn:E; zbool.
    + destruct (Hone n acc) as (c & ds & -> & ? & ? & ?); [lia |].
      exists c, ds. repeat split; try done; lia.
    + assert (Hp : 10 ^ (1 + Z.of_nat (S f)) = 10 * 10 ^ (1 + Z.of_nat f))
        by (rewrite <- Z.pow_succ_r by lia; f_equal; lia).
      pose proof (Z.div_mod n 10 ltac:(lia)) as Hdm.
      pose proof (Z.mod_pos_bound n 10 ltac:(lia)) as Hm.
      destruct (IH (n / 10) (digit (n mod 10) :: acc)) as (c & ds & Heq & Hd & Hv & Hl & Hlo).
      { split; [apply Z.div_pos; lia | apply Z.div_lt_upper_bound; lia]. }
      exists c, (ds ++ [digit (n mod 10)]).
      assert (Hz : zlen (c :: ds ++ [digit (n mod 10)]) = zlen (c :: ds) + 1) by zlen.
      split; [rewrite Heq; cbn; by rewrite <- app_assoc |].
      split; [apply Forall_app_2 with (l1 := c :: ds); [done |];
              constructor; [apply is_digit_digit; lia | done] |].
      split; [| rewrite Hz; split; [lia |]].
      * intros a. change (c :: ds ++ [digit (n mod 10)]) with ((c :: ds) ++ [digit (n mod 10)]).
        rewrite digits_app by done. rewrite Hv. cbn [digits].
        rewrite is_digit_digit by lia. cbn [fst]. rewrite code_digit by lia.
        change ((c :: ds) ++ [digit (n mod 10)]) with (c :: ds ++ [digit (n mod 10)]).
        rewrite Hz, Z.pow_add_r by zlen. lia.
      * right. pose proof (zlen_nonneg ds). replace (zlen (c :: ds) + 1 - 1) with (zlen (c :: ds)) by lia.
        destruct Hlo as [-> | Hlo]; [lia |].
        replace (zlen (c :: ds)) with (Z.succ (zlen (c :: ds) - 1)) by lia.
        rewrite Z.pow_succ_r by zlen. lia.
Qed.

(** The text after a number must not continue it. *)
Definition stops (s : bytes) : Prop :=
  match s with [] => True | c :: _ => is_digit c = false end.

Definition all_digits (s : bytes) : Prop := Forall (fun c => is_digit c = true) s.

Lemma dec_spec n : 0 <= n < 10 ^ 20 ->
  all_digits (dec n) /\ (forall a, fst (digits a (dec n)) = a * 10 ^ zlen (dec n) + n) /\
  1 <= zlen (dec n) <= 20 /\ (zlen (dec n) = 1 \/ 10 ^ (zlen (dec n) - 1) <= n).
Proof.
  intros Hn. unfold dec.
  destruct (dec_go_spec 19 n []) as (c & ds & -> & ? & ? & ? & ?); [by cbn |].
  rewrite app_nil_r. repeat split; try done; try lia. zlen.
Qed.

Lemma dec_length n k : 0 <= n < 10 ^ k -> 1 <= k <= 20 -> zlen (dec n) <= k.
Proof.
  intros Hn Hk. assert (10 ^ k <= 10 ^ 20) by (apply Z.pow_le_mono_r; lia).
  destruct (dec_spec n) as (_ & _ & ? & [-> | Hlo]); [lia | lia |].
  assert (10 ^ (zlen (dec n) - 1) < 10 ^ k) as Hlt by lia.
  apply Z.pow_lt_mono_r_iff in Hlt; lia.
Qed.

(** [strtol] on a non-empty run of digits. *)
Lemma strtol_digits ds s v : all_digits ds -> ds <> [] -> stops s ->
  fst (digits 0 ds) = v -> 0 <= v <= LONG_MAX ->
  strtol (ds ++ s) = Some (v, false, s).
Proof.
  intros Hd Hne Hs Hv Hr. destruct ds as [|c ds]; [done |].
  assert (Hc : is_digit c = true) by (by inversion Hd).
  unfold strtol. change ((c :: ds) ++ s) with (c :: (ds ++ s)).
  rewrite skip_space_digit by done. cbn [sign].
  rewrite !bool_decide_eq_false_2 by (intros ->; done).
  cbn beta iota. rewrite Hc.
  change (c :: ds ++ s) with ((c :: ds) ++ s).
  rewrite digits_app, digits_stop, Hv by done.
  unfold clamp_long, LONG_MIN, LONG_MAX in *.
  destruct (v <? _) eqn:E; zbool; [lia |].
  destruct (_ <? v) eqn:E'; zbool; [lia | done].
Qed.

Lemma strtol_minus ds s v : all_digits ds -> ds <> [] -> stops s ->
  fst (digits 0 ds) = v -> 0 <= v <= - LONG_MIN ->
  strtol ("-"%char :: ds ++ s) = Some (- v, false, s).
Proof.
  intros Hd Hne Hs Hv Hr. destruct ds as [|c ds]; [done |].
  assert (Hc : is_digit c = true) by (by inversion Hd).
  unfold strtol. cbn [skip_space]. change (isspace "-") with false. cbn [sign].
  rewrite bool_decide_eq_true_2 by done.
  change ((c :: ds) ++ s) with (c :: (ds ++ s)). cbn beta iota. rewrite Hc.
  change (c :: ds ++ s) with ((c :: ds) ++ s).
  rewrite digits_app, digits_stop, Hv by done.
  unfold clamp_long, LONG_MIN, LONG_MAX in *.
  destruct (_ <? _) eqn:E; zbool; [lia |].
  destruct (_ <? - v) eqn:E'; zbool; [lia | done].
Qed.

Lemma zlen_nonempty {A} (l : list A) : 1 <= zlen l -> l <> [].
Proof. intros H ->. rewrite zlen_nil in H. lia. Qed.

Lemma dec_long n : 0 <= n <= 2 ^ 63 -> all_digits (dec n) /\ dec n <> [] /\
  fst (digits 0 (dec n)) = n /\ zlen (dec n) <= 19.
Proof.
  intros Hn. destruct (dec_spec n) as (? & Hv & ? & _); [lia |].
  split; [done |]. split; [apply zlen_nonempty; lia |]. rewrite Hv.
  split; [lia | apply dec_length; lia].
Qed.

(** Reading back what [%ld] printed. *)
Lemma strtol_fmt_d z s : LONG_MIN <= z <= LONG_MAX -> stops s ->
  strtol (fmt_d z ++ s) = Some (z, false, s).
Proof.
  intros Hz Hs. unfold LONG_MIN, LONG_MAX, fmt_d in *. destruct (z <? 0) eqn:E; zbool.
  - destruct (dec_long (- z)) as (? & ? & ? & _); [lia |].
    rewrite <- (Z.opp_involutive z) at 2. change (("-"%char :: dec (- z)) ++ s) with ("-"%char :: dec (- z) ++ s).
    apply strtol_minus; try done. unfold LONG_MIN; lia.
  - destruct (dec_long z) as (? & ? & ? & _); [lia |].
    apply strtol_digits; try done. unfold LONG_MAX; lia.
Qed.

Lemma digits_zeros n : fst (digits 0 (replicate n "0"%char)) = 0 /\ all_digits (replicate n "0"%char).
Proof.
  split; [| by apply Forall_replicate]. induction n as [|n IH]; [done |]. exact IH.
Qed.

(** Reading back what [%0wd] printed for a non-negative number. *)
Lemma strtol_fmt_0d w z s : 0 <= z <= LONG_MAX -> stops s ->
  strtol (fmt_0d w z ++ s) = Some (z, false, s).
Proof.
  intros Hz Hs. unfold LONG_MAX, fmt_0d in *. destruct (z <? 0) eqn:E; zbool; [lia |].
  destruct (dec_long z) as (Hd & Hne & Hv & _); [lia |].
  destruct (digits_zeros (Z.to_nat (w - zlen (dec z)))) as [Hz0 Hz1].
  apply strtol_digits; try done.
  - by apply Forall_app_2.
  - by intros [_ ?]%app_eq_nil.
  - by rewrite digits_app, Hz0.
Qed.

Lemma has_char_digits c ds : all_digits ds -> is_digit c = false -> has_char c ds = false.
Proof.
  induction 1 as [|d ds Hd _ IH]; intros Hc; cbn; [done |].
  rewrite bool_decide_eq_false_2 by (intros ->; congruence). by apply IH.
Qed.

(** A printed number contains digits and at most a minus sign. *)
Lemma has_char_fmt_d c z : LONG_MIN <= z <= LONG_MAX ->
  is_digit c = false -> c <> "-"%char -> has_char c (fmt_d z) = false.
Proof.
  intros Hz Hc Hm. unfold LONG_MIN, LONG_MAX, fmt_d in *. destruct (z <? 0) eqn:E; zbool.
  - destruct (dec_long (- z)) as (? & _); [lia |]. cbn.
    rewrite bool_decide_eq_false_2 by congruence. by apply has_char_digits.
  - destruct (dec_long z) as (? & _); [lia |]. by apply has_char_digits.
Qed.

Lemma zlen_fmt_d z : LONG_MIN <= z <= LONG_MAX -> 1 <= zlen (fmt_d z) <= 20.
Proof.
  intros Hz. unfold LONG_MIN, LONG_MAX, fmt_d in *. destruct (z <? 0) eqn:E; zbool.
  - destruct (dec_long (- z)) as (_ & _ & _ & ?); [lia |]. zlen.
  - destruct (dec_long z) as (_ & ? & _ & ?); [lia |].
    destruct (dec z); [done |]. zlen.
Qed.

Lemma zlen_replicate {A} n (x : A) : zlen (replicate n x) = Z.of_nat n.
Proof. unfold zlen. by rewrite length_replicate. Qed.
#[export] Hint Rewrite @zlen_replicate : zlen.

Lemma has_char_fmt_04d c z : 0 <= z <= 9999 -> is_digit c = false ->
  has_char c (fmt_0d 4 z) = false.
Proof.
  intros Hz Hc. unfold fmt_0d. destruct (z <? 0) eqn:E; zbool; [lia |].
  destruct (dec_long z) as (? & _); [lia |].
  rewrite has_char_app, has_char_replicate by (intros ->; done).
  by rewrite has_char_digits.
Qed.

Lemma zlen_fmt_04d z : 0 <= z <= 9999 -> zlen (fmt_0d 4 z) = 4.
Proof.
  intros Hz. unfold fmt_0d. destruct (z <? 0) eqn:E; zbool; [lia |].
  pose proof (dec_length z 4 ltac:(lia) ltac:(lia)). zlen.
Qed.

Lemma snprintf_fits n s : zlen s < n -> snprintf n s = s.
Proof. intros. unfold snprintf. apply take_ge. unfold zlen in *. lia. Qed.

Lemma starts_with_spec p s : starts_with p s = true <-> exists t, s = p ++ t.
Proof.
  revert s. induction p as [|c p IH]; intros [|d s]; cbn.
  1-2: split; [eauto | done].
  - split; [done | intros [t Ht]; discriminate].
  - rewrite andb_true_iff, bool_decide_eq_true, IH. split.
    + intros [-> [t ->]]. by exists t.
    + intros [t Ht]. injection Ht as -> ->. eauto.
Qed.

Lemma strstr_spec hay needle :
  strstr hay needle = true <-> exists a b, hay = a ++ needle ++ b.
Proof.
  induction hay as [|c hay IH]; cbn [strstr].
  - rewrite orb_false_r, starts_with_spec. split.
    + intros [t Ht]. by exists [], t.
    + intros (a & b & H). symmetry in H. apply app_nil in H as [-> H]. exists b. done.
  - rewrite orb_true_iff, starts_with_spec, IH. split.
    + intros [[t ->] | (a & b & ->)]; [by exists [], t | by exists (c :: a), b].
    + intros ([|x a] & b & H); [left; eauto |].
      right. injection H as -> ->. eauto.
Qed.

(** The first separator of a text that has one. *)
Lemma has_char_split c s : has_char c s = true ->
  exists l r, s = l ++ c :: r /\ has_char c l = false.
Proof.
  induction s as [|d s IH]; cbn; [done |]. case_bool_decide as E.
  - intros _. subst. by exists [], s.
  - cbn. intros (l & r & -> & ?)%IH. exists (d :: l), r. cbn.
    by rewrite bool_decide_eq_false_2.
Qed.

(** ** Stores into a [char] array

    A store outside the array is undefined behaviour in C: [None]. *)
Definition memcpy (dst src : bytes) (n : Z) : option bytes :=
  if (0 <=? n) && (n <=? zlen dst) && (n <=? zlen src)
  then Some (take (Z.to_nat n) src ++ drop (Z.to_nat n) dst) else None.

Definition store (dst : bytes) (i : Z) (c : byte) : option bytes :=
  if (0 <=? i) && (i <? zlen dst) then Some (upd dst (Z.to_nat i) c) else None.

(** Copying [n] bytes and terminating them stays inside an array of more than
    [n] bytes, and the bytes read back are the bytes copied. *)
Lemma memcpy_store dst src n : 0 <= n -> n < zlen dst -> n <= zlen src ->
  exists b b', memcpy dst src n = Some b /\ store b n NUL = Some b' /\
    zlen b' = zlen dst /\ take (Z.to_nat n) b' = take (Z.to_nat n) src.
Proof.
  intros Hn Hd Hs. unfold memcpy, store.
  rewrite (proj2 (Z.leb_le 0 n)), (proj2 (Z.leb_le n (zlen dst))), (proj2 (Z.leb_le n (zlen src)))
    by lia. cbn [andb]. eexists _, _. split; [done |].
  assert (Hl : zlen (take (Z.to_nat n) src ++ drop (Z.to_nat n) dst) = zlen dst).
  { unfold zlen in *. rewrite length_app, length_take, length_drop. lia. }
  rewrite Hl, (proj2 (Z.ltb_lt n (zlen dst))) by lia. cbn [andb]. split; [done |].
  unfold zlen in *. rewrite length_upd. split; [done |].
  unfold upd. rewrite take_insert_ge by lia.
  rewrite take_app_le by (rewrite length_take; lia). rewrite take_take. f_equal. lia.
Qed.

Lemma store_in dst i c : 0 <= i < zlen dst ->
  exists b, store dst i c = Some b /\ zlen b = zlen dst.
Proof.
  intros. unfold store.
  rewrite (proj2 (Z.leb_le 0 i)), (proj2 (Z.ltb_lt i (zlen dst))) by lia. cbn [andb].
  eexists. split; [done |]. unfold zlen. by rewrite length_upd.
Qed.

Lemma until_nul_app s t : until_nul (s ++ NUL :: t) = until_nul s.
Proof. induction s as [|c s IH]; cbn; [done |]. by destruct (bool_decide _); [| rewrite IH]. Qed.

(** What an array holds after the copy of a text with room for its terminator. *)
Lemma copy_text dst src n : 0 <= n -> n < zlen dst -> n <= zlen src ->
  exists b b', memcpy dst src n = Some b /\ store b n NUL = Some b' /\
    zlen b' = zlen dst /\ exists t, b' = take (Z.to_nat n) src ++ NUL :: t.
Proof.
  intros Hn Hd Hs. destruct (memcpy_store dst src n Hn Hd Hs) as (b & b' & Hm & Hb & Hl & Ht).
  exists b, b'. split_and!; try done. unfold store in Hb. destruct (_ && _) eqn:E; [| done]. zbool.
  injection Hb as <-. destruct (lookup_lt_is_Some_2 b (Z.to_nat n)) as [y Hy]; [unfold zlen in *; lia |].
  destruct (upd_split b (Z.to_nat n) y NUL Hy) as [_ Hu]. exists (drop (S (Z.to_nat n)) b).
  rewrite Hu at 1. f_equal. rewrite <- Ht, Hu. apply lookup_lt_Some in Hy.
  rewrite take_app_le, take_take by (rewrite length_take; lia). f_equal. lia.
Qed.
