(* ===== verification/Telegram.v ===== *)
(** * telegram.c: the "ZCZC ... NNNN" wire codec

    Serial-number helpers, the bounded string builder, field validation, the two
    encoders and the decoder of [src/src/telegram.c]. The receive-sequence
    tracker of the same file is in [SnTracker].

    An output buffer is given by its capacity ([None] for a null pointer) and an
    operation returns what it left in it, as a C string; the input of the decoder
    is the buffer and the length the caller passes. *)

From S2P Require Import Prelude CString.

Definition TG_FIELD_MAX : Z := 128.
Definition TG_BODY_MAX : Z := 1024.
Definition TG_SN_MIN : Z := 1.
Definition TG_SN_MAX : Z := 999.
Definition TG_SN_RANGE : Z := TG_SN_MAX - TG_SN_MIN + 1.

Definition TG_ERR_ARG : Z := -1.
Definition TG_ERR_RANGE : Z := -2.
Definition TG_ERR_TOOSMALL : Z := -3.
Definition TG_ERR_FORMAT : Z := -4.

Definition TG_TERMINATOR : bytes := $"NNNN".

Inductive tg_kind := TG_INVALID | TG_TEXT | TG_CMD.
#[export] Instance tg_kind_eq_dec : EqDecision tg_kind.
Proof. solve_decision. Defined.

Record tg_message := mk_tg_message {
  tg_knd : tg_kind;
  tg_receiver : bytes;
  tg_sender : bytes;
  tg_sn : Z;          (* TEXT: message serial; CMD: first requested serial *)
  tg_sn_to : Z;       (* CMD: last requested serial; 0 when unused *)
  tg_timestamp : Z;
  tg_body : bytes
}.

(** ** Serial-number helpers *)

Definition tg_sn_valid (sn : Z) : bool := (TG_SN_MIN <=? sn) && (sn <=? TG_SN_MAX).

Definition tg_sn_next (sn : Z) : Z :=
  if negb (tg_sn_valid sn) || (sn =? TG_SN_MAX) then TG_SN_MIN else sn + 1.

Definition tg_sn_prev (sn : Z) : Z :=
  if negb (tg_sn_valid sn) || (sn =? TG_SN_MIN) then TG_SN_MAX else sn - 1.

(** C's [%] truncates towards zero, hence [Z.rem] and the correction. *)
Definition tg_sn_distance (from to : Z) : Z :=
  let d := Z.rem (to - from) TG_SN_RANGE in
  if d <? 0 then d + TG_SN_RANGE else d.

(** ** Bounded string builder *)

Record tg_buf := mk_tg_buf {
  tb_buf : bytes;       (* the bytes written so far: buf[0 .. len-1] *)
  tb_cap : Z;
  tb_overflow : bool
}.
Definition tb_len (b : tg_buf) : Z := zlen (tb_buf b).

Definition tg_buf_init (cap : Z) : tg_buf := mk_tg_buf [] cap false.

Definition tg_buf_putn (b : tg_buf) (src : bytes) : tg_buf :=
  if tb_overflow b || (tb_cap b =? 0) then b
  else if tb_cap b <? tb_len b + zlen src + 1
  then mk_tg_buf (tb_buf b) (tb_cap b) true
  else mk_tg_buf (tb_buf b ++ src) (tb_cap b) false.

Definition tg_buf_put (b : tg_buf) (src : bytes) : tg_buf := tg_buf_putn b src.
Definition tg_buf_putc (b : tg_buf) (c : byte) : tg_buf := tg_buf_putn b [c].

(** ** Field validation *)

Definition tg_field_ok (field : option bytes) : bool :=
  match field with
  | None => false
  | Some f =>
      if bool_decide (f = []) then false
      else if TG_FIELD_MAX <=? zlen f then false
      else negb (has_char LF f) && negb (has_char CR f)
  end.

(** The scan of [tg_body_ok]: [line] is the current line read so far, last
    character first, so the four characters before [p] are its head. *)
Fixpoint tg_body_scan (line p : bytes) : bool :=
  match p with
  | [] => negb (starts_with TG_TERMINATOR line)
  | c :: p' =>
      if bool_decide (c = LF)
      then if starts_with TG_TERMINATOR line then false else tg_body_scan [] p'
      else tg_body_scan (c :: line) p'
  end.

Definition tg_body_ok (body : option bytes) : bool :=
  match body with None => true | Some b => tg_body_scan [] b end.

(** ** Encoding

    The result is the return value and the C string left in [out]; [None] when
    [out] was not written. *)

Definition tg_encode_text (out : option Z) (receiver sender : option bytes)
    (sn timestamp : Z) (body : option bytes) : Z * option bytes :=
  match out with
  | None => (TG_ERR_ARG, None)
  | Some out_size =>
  if out_size =? 0 then (TG_ERR_ARG, None) else
  match receiver, sender with
  | Some r, Some s =>
    if negb (tg_field_ok receiver) || negb (tg_field_ok sender)
    then (TG_ERR_FORMAT, Some [])
    else if negb (tg_sn_valid sn) then (TG_ERR_RANGE, Some [])
    else if negb (tg_body_ok body) then (TG_ERR_FORMAT, Some [])
    else
      let b := tg_buf_init out_size in
      let b := tg_buf_put b ($"ZCZC TEXT" ++ [LF]) in
      let b := tg_buf_put b r in
      let b := tg_buf_putc b LF in
      let b := tg_buf_put b s in
      let b := tg_buf_putc b LF in
      let meta := snprintf 32 (fmt_0d 4 sn ++ $" " ++ fmt_d timestamp ++ [LF]) in
      let b := tg_buf_put b meta in
      let b := match body with
               | Some ((_ :: _) as t) => tg_buf_put b t
               | _ => b
               end in
      let b := tg_buf_put b (TG_TERMINATOR ++ [LF]) in
      if tb_overflow b then (TG_ERR_TOOSMALL, Some [])
      else (tb_len b, Some (tb_buf b))
  | _, _ => (TG_ERR_FORMAT, Some [])
  end
  end.

Definition tg_encode_cmd (out : option Z) (receiver sender : option bytes)
    (from to : Z) : Z * option bytes :=
  match out with
  | None => (TG_ERR_ARG, None)
  | Some out_size =>
  if out_size =? 0 then (TG_ERR_ARG, None) else
  match receiver, sender with
  | Some r, Some s =>
    if negb (tg_field_ok receiver) || negb (tg_field_ok sender)
    then (TG_ERR_FORMAT, Some [])
    else if negb (tg_sn_valid from) || negb (tg_sn_valid to) then (TG_ERR_RANGE, Some [])
    else
      let b := tg_buf_init out_size in
      let b := tg_buf_put b ($"ZCZC CMD" ++ [LF]) in
      let b := tg_buf_put b r in
      let b := tg_buf_putc b LF in
      let b := tg_buf_put b s in
      let b := tg_buf_putc b LF in
      let req := snprintf 32 ($"R:" ++ fmt_d from ++ $"-" ++ fmt_d to ++ [LF]) in
      let b := tg_buf_put b req in
      let b := tg_buf_put b (TG_TERMINATOR ++ [LF]) in
      if tb_overflow b then (TG_ERR_TOOSMALL, Some [])
      else (tb_len b, Some (tb_buf b))
  | _, _ => (TG_ERR_FORMAT, Some [])
  end
  end.

(** ** Decoding *)

(** The copy loop of [tg_next_line]: the characters stored in [dst] (with [i]
    of them already there), whether any was dropped, and the input from the
    separator on. *)
Fixpoint tg_copy_line (dst_size i : Z) (s : bytes) : bytes * bool * bytes :=
  match s with
  | [] => ([], false, [])
  | c :: s' =>
      if bool_decide (c = LF) || bool_decide (c = CR) then ([], false, s)
      else if i + 1 <? dst_size then
        let '(l, t, r) := tg_copy_line dst_size (i + 1) s' in (c :: l, t, r)
      else
        let '(l, _, r) := tg_copy_line dst_size i s' in (l, true, r)
  end.

Definition skip_char (c : byte) (s : bytes) : bytes :=
  match s with
  | d :: s' => if bool_decide (d = c) then s' else s
  | [] => []
  end.

(** [None]: the input is exhausted. Otherwise the line as the C string the
    caller sees in [dst], the [complete] flag and the rest of the input. *)
Definition tg_next_line (dst_size : Z) (s : bytes) : option (bytes * bool * bytes) :=
  if bool_decide (s = []) || (dst_size =? 0) then None
  else
    let '(dst, truncated, rest) := tg_copy_line dst_size 0 s in
    Some (until_nul dst, negb truncated, skip_char LF (skip_char CR rest)).

(** [char line[TG_FIELD_MAX + 16]] of the decoder. *)
Definition TG_LINE_SIZE : Z := TG_FIELD_MAX + 16.

(** A line that must be there and must not have been truncated. *)
Definition tg_whole_line (s : bytes) : option (bytes * bytes) :=
  match tg_next_line TG_LINE_SIZE s with
  | Some (line, true, rest) => Some (line, rest)
  | _ => None
  end.

Definition tg_kind_line (line : bytes) : option tg_kind :=
  if str_eq line $"ZCZC TEXT" then Some TG_TEXT
  else if str_eq line $"ZCZC CMD" then Some TG_CMD
  else None.

Definition tg_key_line (line : bytes) : option bytes :=
  if bool_decide (line = []) || (TG_FIELD_MAX <=? zlen line) then None else Some line.

(** The metadata line of a TEXT telegram: (sn, timestamp). *)
Definition tg_text_meta (line : bytes) : option (Z * Z) :=
  '(sn, _, rest) ← strtol line;
  match rest with
  | c :: after =>
      if bool_decide (c = SPC) then
        '(ts, _, _) ← strtol after;
        if tg_sn_valid (i32 sn) then Some (i32 sn, ts) else None
      else None
  | [] => None
  end.

(** The metadata line of a CMD telegram: (from, to). *)
Definition tg_cmd_meta (line : bytes) : option (Z * Z) :=
  match line with
  | c0 :: c1 :: after =>
      if bool_decide (c0 = "R"%char) && bool_decide (c1 = ":"%char) then
        '(from, _, rest) ← strtol after;
        match rest with
        | c :: after' =>
            if bool_decide (c = "-"%char) then
              '(to, _, _) ← strtol after';
              if tg_sn_valid (i32 from) && tg_sn_valid (i32 to)
              then Some (i32 from, i32 to) else None
            else None
        | [] => None
        end
      else None
  | _ => None
  end.

(** [line_len >= 4 && strcmp(line + line_len - 4, "NNNN") == 0]. *)
Definition tg_ends_record (line : bytes) : bool :=
  (4 <=? zlen line) && str_eq (drop (length line - 4) line) TG_TERMINATOR.

(** The body loop. Every line consumes at least one byte, so a fuel of the
    number of bytes left is enough ([tg_body_loop_fuel]). *)
Fixpoint tg_body_loop (fuel : nat) (body s : bytes) : option bytes :=
  match fuel with
  | O => None
  | S fuel' =>
    match tg_next_line TG_LINE_SIZE s with
    | None => None                                    (* not terminated *)
    | Some (line, _, rest) =>
        if tg_ends_record line then
          let keep := take (length line - 4) line in
          if TG_BODY_MAX <=? zlen body + zlen keep + 1 then None
          else Some (body ++ keep)
        else if TG_BODY_MAX <=? zlen body + zlen line + 1 then None
        else tg_body_loop fuel' (body ++ line ++ [LF]) rest
    end
  end.

Definition tg_decode_bytes (s : bytes) : option tg_message :=
  '(l0, s) ← tg_whole_line s;
  kind ← tg_kind_line l0;
  '(l1, s) ← tg_whole_line s;
  receiver ← tg_key_line l1;
  '(l2, s) ← tg_whole_line s;
  sender ← tg_key_line l2;
  '(l3, s) ← tg_whole_line s;
  '(sn, sn_to, ts) ← match kind with
                     | TG_TEXT => '(sn, ts) ← tg_text_meta l3; Some (sn, 0, ts)
                     | _ => '(from, to) ← tg_cmd_meta l3; Some (from, to, 0)
                     end;
  body ← tg_body_loop (S (length s)) [] s;
  Some (mk_tg_message kind receiver sender sn sn_to ts body).

(** [None] is [TG_INVALID]; otherwise the kind is the field of the message. *)
Definition tg_decode (raw : option bytes) (len : Z) : option tg_message :=
  match raw with
  | None => None
  | Some r => if len =? 0 then None else tg_decode_bytes (take (Z.to_nat len) r)
  end.

(** * Lemmas *)

(** What a C [long] argument can be. *)
Definition is_long (z : Z) : Prop := LONG_MIN <= z <= LONG_MAX.

(** ** The builder *)

Definition tg_buf_puts (b : tg_buf) (l : list bytes) : tg_buf := fold_left tg_buf_putn l b.

Lemma tg_buf_putn_stuck b src : tb_overflow b = true -> tg_buf_putn b src = b.
Proof. intros H. unfold tg_buf_putn. by rewrite H. Qed.

Lemma tg_buf_puts_stuck l b : tb_overflow b = true -> tg_buf_puts b l = b.
Proof.
  induction l as [|x l IH]; intros H; cbn; [done |].
  rewrite tg_buf_putn_stuck by done. by apply IH.
Qed.

(** A sequence of puts either writes everything or reports the overflow. *)
Lemma tg_buf_puts_spec l : forall b, tb_overflow b = false -> 0 < tb_cap b ->
  tb_len b + 1 <= tb_cap b ->
  if tb_cap b <? tb_len b + zlen (concat l) + 1
  then tb_overflow (tg_buf_puts b l) = true
  else tg_buf_puts b l = mk_tg_buf (tb_buf b ++ concat l) (tb_cap b) false.
Proof.
  induction l as [|x l IH]; intros b Ho Hc Hl.
  - cbn [concat]. rewrite zlen_nil. destruct (_ <? _) eqn:E; zbool; [lia |].
    cbn. rewrite app_nil_r, <- Ho. by destruct b.
  - cbn [tg_buf_puts fold_left concat]. fold (tg_buf_puts (tg_buf_putn b x) l).
    unfold tg_buf_putn. rewrite Ho. destruct (_ =? 0) eqn:E0; zbool; [lia |]. cbn [orb].
    pose proof (zlen_nonneg (concat l)). pose proof (zlen_app x (concat l)).
    destruct (tb_cap b <? tb_len b + zlen x + 1) eqn:E; zbool.
    + destruct (_ <? tb_len b + _ + _) eqn:E1; zbool; [| lia].
      by rewrite tg_buf_puts_stuck.
    + specialize (IH (mk_tg_buf (tb_buf b ++ x) (tb_cap b) false) eq_refl Hc).
      unfold tb_len in *; cbn [tb_buf tb_cap] in IH. rewrite zlen_app in IH.
      rewrite <- app_assoc in IH. replace (zlen (tb_buf b) + zlen (x ++ concat l))
        with (zlen (tb_buf b) + zlen x + zlen (concat l)) by lia.
      apply IH. lia.
Qed.

(** ** What the encoders write *)

Definition text_meta (sn ts : Z) : bytes := fmt_0d 4 sn ++ $" " ++ fmt_d ts.
Definition cmd_meta (from to : Z) : bytes := $"R:" ++ fmt_d from ++ $"-" ++ fmt_d to.

Definition wire (kind r s meta tail : bytes) : bytes :=
  kind ++ LF :: r ++ LF :: s ++ LF :: meta ++ LF :: tail ++ TG_TERMINATOR ++ [LF].

Definition text_wire (r s : bytes) (sn ts : Z) (body : option bytes) : bytes :=
  wire $"ZCZC TEXT" r s (text_meta sn ts) (default [] body).
Definition cmd_wire (r s : bytes) (from to : Z) : bytes :=
  wire $"ZCZC CMD" r s (cmd_meta from to) [].

(** The return of an encoder whose arguments were accepted. *)
Definition encoded (cap : Z) (w : bytes) : Z * option bytes :=
  if cap <? zlen w + 1 then (TG_ERR_TOOSMALL, Some []) else (zlen w, Some w).

Lemma encoded_puts cap l w : 0 < cap -> concat l = w ->
  (let b := tg_buf_puts (tg_buf_init cap) l in
   if tb_overflow b then (TG_ERR_TOOSMALL, Some []) else (tb_len b, Some (tb_buf b)))
  = encoded cap w.
Proof.
  intros Hc <-. pose proof (tg_buf_puts_spec l (tg_buf_init cap) eq_refl Hc) as H.
  unfold tb_len in H; cbn [tg_buf_init tb_buf tb_cap] in H. rewrite zlen_nil in H.
  cbv zeta. unfold encoded. specialize (H ltac:(lia)). cbn [Z.add] in H.
  destruct (_ <? _) eqn:E; rewrite H; done.
Qed.

Lemma zlen_text_meta sn ts : tg_sn_valid sn = true -> is_long ts ->
  zlen (text_meta sn ts) <= 25.
Proof.
  unfold tg_sn_valid, TG_SN_MIN, TG_SN_MAX, text_meta. intros Hsn Hts. zbool.
  pose proof (zlen_fmt_04d sn ltac:(lia)). pose proof (zlen_fmt_d ts Hts).
  rewrite !zlen_app. change (zlen $" ") with 1. lia.
Qed.

Lemma sn_is_long sn : tg_sn_valid sn = true -> is_long sn.
Proof.
  unfold tg_sn_valid, TG_SN_MIN, TG_SN_MAX, is_long, LONG_MIN, LONG_MAX.
  intros H. zbool. lia.
Qed.

Lemma fmt_d_sn sn : tg_sn_valid sn = true -> fmt_d sn = dec sn /\ zlen (dec sn) <= 3.
Proof.
  unfold tg_sn_valid, TG_SN_MIN, TG_SN_MAX. intros H. zbool. unfold fmt_d.
  destruct (sn <? 0) eqn:E; zbool; [lia |]. split; [done | apply dec_length; lia].
Qed.

Lemma zlen_cmd_meta from to : tg_sn_valid from = true -> tg_sn_valid to = true ->
  zlen (cmd_meta from to) <= 9.
Proof.
  intros Hf Ht. destruct (fmt_d_sn from Hf) as [Ef ?], (fmt_d_sn to Ht) as [Et ?].
  unfold cmd_meta. rewrite Ef, Et, !zlen_app.
  change (zlen $"R:") with 2. change (zlen $"-") with 1. lia.
Qed.

(** Equality of two concatenations up to associativity. *)
Ltac wire_eq :=
  repeat (rewrite <- ?app_assoc, ?app_nil_r; cbn [app id]); reflexivity.

Lemma encode_text_accepted cap r s sn ts body :
  0 < cap -> is_long ts ->
  tg_field_ok (Some r) = true -> tg_field_ok (Some s) = true ->
  tg_sn_valid sn = true -> tg_body_ok body = true ->
  tg_encode_text (Some cap) (Some r) (Some s) sn ts body
  = encoded cap (text_wire r s sn ts body).
Proof.
  intros Hc Hts Hr Hs Hsn Hb. unfold tg_encode_text.
  destruct (cap =? 0) eqn:E; zbool; [lia |]. rewrite Hr, Hs, Hsn, Hb. cbn [negb orb].
  pose proof (zlen_text_meta sn ts Hsn Hts) as Hm. unfold text_meta in Hm.
  rewrite snprintf_fits by (rewrite !zlen_app in *; change (zlen [LF]) with 1; lia).
  set (meta := fmt_0d 4 sn ++ _).
  rewrite <- (encoded_puts cap
    ([$"ZCZC TEXT" ++ [LF]; r; [LF]; s; [LF]; meta]
     ++ match body with Some ((_ :: _) as t) => [t] | _ => [] end
     ++ [TG_TERMINATOR ++ [LF]])); [| done |].
  - cbv zeta. unfold tg_buf_puts, tg_buf_put, tg_buf_putc.
    destruct body as [[|]|]; cbn [fold_left app]; reflexivity.
  - unfold meta, text_wire, wire, text_meta. destruct body as [[|]|];
      cbn [app concat default from_option]; wire_eq.
Qed.

Lemma encode_cmd_accepted cap r s from to :
  0 < cap ->
  tg_field_ok (Some r) = true -> tg_field_ok (Some s) = true ->
  tg_sn_valid from = true -> tg_sn_valid to = true ->
  tg_encode_cmd (Some cap) (Some r) (Some s) from to = encoded cap (cmd_wire r s from to).
Proof.
  intros Hc Hr Hs Hf Ht. unfold tg_encode_cmd.
  destruct (cap =? 0) eqn:E; zbool; [lia |]. rewrite Hr, Hs, Hf, Ht. cbn [negb orb].
  pose proof (zlen_cmd_meta from to Hf Ht) as Hm. unfold cmd_meta in Hm.
  rewrite snprintf_fits by (rewrite !zlen_app in *; change (zlen [LF]) with 1; lia).
  set (req := $"R:" ++ _).
  rewrite <- (encoded_puts cap
    [$"ZCZC CMD" ++ [LF]; r; [LF]; s; [LF]; req; TG_TERMINATOR ++ [LF]]); [| done |].
  { cbv zeta. unfold tg_buf_puts, tg_buf_put, tg_buf_putc. cbn [fold_left]. reflexivity. }
  unfold req, cmd_wire, wire, cmd_meta. cbn [app concat]. wire_eq.
Qed.

(** ** Reading one line back *)

(** Text that can stand on one line of a telegram. *)
Definition line_clean (l : bytes) : Prop :=
  has_char LF l = false /\ has_char CR l = false /\ cstring l.

Lemma line_clean_app l k : line_clean l -> line_clean k -> line_clean (l ++ k).
Proof.
  unfold line_clean, cstring. rewrite !has_char_app. intros (-> & -> & ->) (-> & -> & ->). done.
Qed.

Lemma tg_copy_line_plain dst l rest : forall i,
  has_char LF l = false -> has_char CR l = false -> i + zlen l < dst ->
  tg_copy_line dst i (l ++ LF :: rest) = (l, false, LF :: rest).
Proof.
  induction l as [|c l IH]; intros i Hlf Hcr Hi; [done |].
  cbn in Hlf, Hcr |- *. zbool. rewrite zlen_cons in Hi. pose proof (zlen_nonneg l).
  rewrite !bool_decide_eq_false_2 by done. cbn [orb].
  destruct (_ <? _) eqn:E; zbool; [| lia]. rewrite IH; done || lia.
Qed.

Lemma tg_next_line_plain dst l rest : line_clean l -> zlen l < dst ->
  tg_next_line dst (l ++ LF :: rest) = Some (l, true, rest).
Proof.
  intros (? & ? & ?) Hl. pose proof (zlen_nonneg l). unfold tg_next_line.
  rewrite bool_decide_eq_false_2 by (by destruct l).
  destruct (_ =? 0) eqn:E; zbool; [lia |]. cbn [orb].
  rewrite tg_copy_line_plain by (done || lia). cbn -[until_nul].
  by rewrite until_nul_cstring.
Qed.

Lemma tg_whole_line_plain l rest : line_clean l -> zlen l < TG_LINE_SIZE ->
  tg_whole_line (l ++ LF :: rest) = Some (l, rest).
Proof. intros. unfold tg_whole_line. by rewrite tg_next_line_plain. Qed.

Lemma tg_copy_line_rest dst : forall s i l t r,
  tg_copy_line dst i s = (l, t, r) ->
  (length r <= length s)%nat /\ (l = [] -> t = false -> r = s) /\ (i < dst -> i + zlen l < dst).
Proof.
  induction s as [|c s IH]; intros i l t r H; cbn in H.
  - simplify_eq. split; [lia |]. split; [done |]. rewrite zlen_nil. lia.
  - destruct (_ || _).
    { simplify_eq. split; [done |]. split; [done |]. rewrite zlen_nil. lia. }
    destruct (_ <? _) eqn:E; zbool.
    + destruct (tg_copy_line dst (i + 1) s) as [[l' t'] r'] eqn:E'. simplify_eq.
      apply IH in E' as (? & _ & ?). cbn. split; [lia |]. split; [done |]. rewrite zlen_cons. lia.
    + destruct (tg_copy_line dst i s) as [[l' t'] r'] eqn:E'. simplify_eq.
      apply IH in E' as (? & _ & ?). cbn. split; [lia |]. split; [done |]. lia.
Qed.

Lemma skip_char_length c s : (length (skip_char c s) <= length s)%nat.
Proof. destruct s as [|d s]; cbn; [lia |]. case_bool_decide; cbn; lia. Qed.

(** A line that was read consumed input and fits its buffer. *)
Lemma tg_next_line_spec dst s l c r : 0 < dst -> tg_next_line dst s = Some (l, c, r) ->
  (length r < length s)%nat /\ zlen l < dst /\ cstring l.
Proof.
  intros Hd. unfold tg_next_line. destruct s as [|x s]; [done |].
  rewrite bool_decide_eq_false_2 by done. destruct (_ =? 0) eqn:E; [done |]. cbn [orb].
  destruct (tg_copy_line dst 0 (x :: s)) as [[d t] rest] eqn:Ec. intros H.
  assert (Heq : until_nul d = l /\ skip_char LF (skip_char CR rest) = r) by (by simplify_eq).
  destruct Heq as [<- <-]. clear H.
  pose proof (tg_copy_line_rest _ _ _ _ _ _ Ec) as (Hr & _ & Hl).
  pose proof (zlen_until_nul d). split; [| split; [lia | apply cstring_until_nul]].
  pose proof (skip_char_length LF (skip_char CR rest)). pose proof (skip_char_length CR rest).
  cbn [tg_copy_line] in Ec. destruct (bool_decide (x = LF)) eqn:El; [| destruct (bool_decide (x = CR)) eqn:Er];
    cbn [orb] in Ec; zbool; simplify_eq.
  - change (length s < S (length s))%nat. lia.
  - change (skip_char CR (CR :: s)) with s in *. cbn [length] in *.
    pose proof (skip_char_length LF s). lia.
  - destruct (_ <? _); destruct (tg_copy_line _ _ s) as [[l' t'] r'] eqn:E'; simplify_eq;
      apply tg_copy_line_rest in E' as (? & _); cbn in *; lia.
Qed.

(** The fuel of the body loop is never what stops it. *)
Lemma tg_body_loop_fuel : forall n m body s,
  (length s < n)%nat -> (length s < m)%nat ->
  tg_body_loop n body s = tg_body_loop m body s.
Proof.
  induction n as [|n IH]; intros [|m] body s Hn Hm; try lia. cbn [tg_body_loop].
  destruct (tg_next_line TG_LINE_SIZE s) as [[[l c] r]|] eqn:E; [| done].
  apply tg_next_line_spec in E as (? & _); [| done].
  destruct (tg_ends_record l); [done |]. destruct (_ <=? _); [done |]. apply IH; lia.
Qed.

(** ** Bodies the decoder reads back unchanged

    The encoder only refuses a line ending in the terminator. The decoder also
    splits lines at carriage returns, keeps at most [TG_LINE_SIZE - 1] bytes of
    a line and at most [TG_BODY_MAX - 2] of a body; [body_fits] is what survives. *)

Fixpoint lines_fit (n : Z) (b : bytes) : bool :=
  match b with
  | [] => n + 4 <? TG_LINE_SIZE
  | c :: b' => if bool_decide (c = LF) then (n <? TG_LINE_SIZE) && lines_fit 0 b'
               else lines_fit (n + 1) b'
  end.

Definition body_fits (b : bytes) : bool :=
  negb (has_char CR b) && lines_fit 0 b && (zlen b + 1 <? TG_BODY_MAX).

Lemma lines_fit_line l b : forall n, has_char LF l = false ->
  lines_fit n (l ++ LF :: b) = (n + zlen l <? TG_LINE_SIZE) && lines_fit 0 b.
Proof.
  induction l as [|c l IH]; intros n H; cbn in H |- *.
  - change (zlen []) with 0. by rewrite Z.add_0_r.
  - zbool. rewrite bool_decide_eq_false_2, IH by done. rewrite zlen_cons. do 2 f_equal. lia.
Qed.

Lemma lines_fit_last l : forall n, has_char LF l = false ->
  lines_fit n l = (n + zlen l + 4 <? TG_LINE_SIZE).
Proof.
  induction l as [|c l IH]; intros n H; cbn in H |- *.
  - change (zlen []) with 0. f_equal. lia.
  - zbool. rewrite bool_decide_eq_false_2, IH by done. rewrite zlen_cons. f_equal. lia.
Qed.

Lemma tg_body_scan_line l b : forall acc, has_char LF l = false ->
  tg_body_scan acc (l ++ LF :: b) =
  if starts_with TG_TERMINATOR (rev l ++ acc) then false else tg_body_scan [] b.
Proof.
  induction l as [|c l IH]; intros acc H; cbn [app tg_body_scan rev].
  - by rewrite bool_decide_eq_true_2.
  - cbn in H. zbool. rewrite bool_decide_eq_false_2, IH by done. by rewrite <- app_assoc.
Qed.

Lemma tg_body_scan_last l : forall acc, has_char LF l = false ->
  tg_body_scan acc l = negb (starts_with TG_TERMINATOR (rev l ++ acc)).
Proof.
  induction l as [|c l IH]; intros acc H; cbn [tg_body_scan rev]; [done |].
  cbn in H. zbool. rewrite bool_decide_eq_false_2, IH by done. by rewrite <- app_assoc.
Qed.

Lemma tg_ends_record_spec l : tg_ends_record l = true <-> exists t, l = t ++ TG_TERMINATOR.
Proof.
  unfold tg_ends_record, str_eq. rewrite andb_true_iff, Z.leb_le, bool_decide_eq_true. split.
  - intros [_ H]. exists (take (length l - 4) l). rewrite <- H. by rewrite take_drop.
  - intros [t ->]. split; [rewrite zlen_app; change (zlen TG_TERMINATOR) with 4; zlen |].
    apply drop_app_length'. rewrite length_app. cbn. lia.
Qed.

Lemma starts_with_rev l : starts_with TG_TERMINATOR (rev l) = tg_ends_record l.
Proof.
  apply eq_true_iff_eq. rewrite tg_ends_record_spec, starts_with_spec. split.
  - intros [t Ht]. exists (rev t). rewrite <- (rev_involutive l), Ht. by rewrite rev_app_distr.
  - intros [t ->]. exists (rev t). by rewrite rev_app_distr.
Qed.

Lemma tg_body_loop_line fuel acc l rest :
  line_clean l -> zlen l < TG_LINE_SIZE -> tg_ends_record l = false ->
  zlen acc + zlen l + 1 < TG_BODY_MAX ->
  tg_body_loop (S fuel) acc (l ++ LF :: rest) = tg_body_loop fuel (acc ++ l ++ [LF]) rest.
Proof.
  intros. cbn [tg_body_loop]. rewrite tg_next_line_plain by done.
  replace (tg_ends_record l) with false by done.
  destruct (_ <=? _) eqn:E; zbool; [lia | done].
Qed.

Lemma tg_body_loop_last fuel acc l rest :
  line_clean l -> zlen l + 4 < TG_LINE_SIZE -> zlen acc + zlen l + 1 < TG_BODY_MAX ->
  tg_body_loop (S fuel) acc (l ++ TG_TERMINATOR ++ LF :: rest) = Some (acc ++ l).
Proof.
  intros Hc Hl Ha. cbn [tg_body_loop]. rewrite app_assoc, tg_next_line_plain; cycle 1.
  { apply line_clean_app; [done |]. by repeat split. }
  { rewrite zlen_app. change (zlen TG_TERMINATOR) with 4. done. }
  rewrite (proj2 (tg_ends_record_spec _)) by eauto.
  rewrite take_app_length' by (rewrite length_app; cbn; lia).
  destruct (_ <=? _) eqn:E; zbool; [lia | done].
Qed.

(** The body loop reads back every body that fits. *)
Lemma tg_body_loop_reads : forall n b acc fuel rest,
  (length b <= n)%nat -> (length b < fuel)%nat -> cstring b ->
  has_char CR b = false -> lines_fit 0 b = true -> tg_body_scan [] b = true ->
  zlen acc + zlen b + 1 < TG_BODY_MAX ->
  tg_body_loop fuel acc (b ++ TG_TERMINATOR ++ LF :: rest) = Some (acc ++ b).
Proof.
  unfold cstring. induction n as [|n IH]; intros b acc [|fuel] rest Hn Hf H0 Hcr Hfit Hok Hlen; try lia.
  - destruct b; [| cbn in Hn; lia]. by apply tg_body_loop_last.
  - destruct (has_char LF b) eqn:Hlf.
    + apply has_char_split in Hlf as (l & b' & -> & Hl).
      rewrite lines_fit_line in Hfit by done. rewrite tg_body_scan_line, app_nil_r, starts_with_rev in Hok by done.
      destruct (tg_ends_record l) eqn:He; [done |].
      rewrite has_char_app in H0, Hcr. cbn in H0, Hcr. zbool. rewrite length_app in *. cbn in Hn, Hf.
      rewrite zlen_app, zlen_cons in Hlen. pose proof (zlen_nonneg b'). rewrite Z.add_0_l in *.
      rewrite <- app_assoc. cbn [app]. rewrite tg_body_loop_line by (done || lia).
      rewrite IH; try done; try lia; [by rewrite <- !app_assoc |].
      rewrite !zlen_app. change (zlen [LF]) with 1. lia.
    + rewrite lines_fit_last in Hfit by done. zbool. rewrite Z.add_0_l in *.
      apply tg_body_loop_last; [by repeat split | done | lia].
Qed.

(** ** Decoding a whole record *)

Lemma tg_field_ok_inv f : tg_field_ok (Some f) = true -> cstring f ->
  f <> [] /\ zlen f < TG_FIELD_MAX /\ line_clean f.
Proof.
  unfold tg_field_ok. case_bool_decide; [done |]. destruct (_ <=? _) eqn:E; [done |].
  intros H0 ?. zbool. repeat split; done || lia.
Qed.

Lemma tg_key_line_ok f : f <> [] -> zlen f < TG_FIELD_MAX -> tg_key_line f = Some f.
Proof.
  intros. unfold tg_key_line. rewrite bool_decide_eq_false_2 by done. cbn [orb].
  destruct (_ <=? _) eqn:E; zbool; [lia | done].
Qed.

Lemma tg_text_meta_reads sn ts : tg_sn_valid sn = true -> is_long ts ->
  tg_text_meta (text_meta sn ts) = Some (sn, ts).
Proof.
  intros Hsn Hts. unfold tg_text_meta, text_meta.
  pose proof Hsn as Hb. unfold tg_sn_valid, TG_SN_MIN, TG_SN_MAX in Hb. zbool.
  rewrite strtol_fmt_0d by (done || unfold LONG_MAX; lia). cbn.
  rewrite <- (app_nil_r (fmt_d ts)), strtol_fmt_d by done. cbn.
  rewrite i32_id by lia. by rewrite Hsn.
Qed.

Lemma tg_cmd_meta_reads from to : tg_sn_valid from = true -> tg_sn_valid to = true ->
  tg_cmd_meta (cmd_meta from to) = Some (from, to).
Proof.
  intros Hf Ht. unfold tg_cmd_meta, cmd_meta. cbn [app String.list_ascii_of_string].
  rewrite !bool_decide_eq_true_2 by done. cbn [andb].
  rewrite strtol_fmt_d by (by try apply sn_is_long). cbn.
  rewrite <- (app_nil_r (fmt_d to)), strtol_fmt_d by (by try apply sn_is_long). cbn.
  pose proof Hf as Hf'. pose proof Ht as Ht'. unfold tg_sn_valid, TG_SN_MIN, TG_SN_MAX in Hf', Ht'. zbool.
  rewrite !i32_id by lia. by rewrite Hf, Ht.
Qed.

Lemma line_clean_meta a b sep : line_clean sep ->
  (forall c, is_digit c = false -> c <> "-"%char -> has_char c a = false) ->
  (forall c, is_digit c = false -> c <> "-"%char -> has_char c b = false) ->
  line_clean (a ++ sep ++ b).
Proof.
  intros Hs Ha Hb. repeat apply line_clean_app; try done; repeat split; by (apply Ha || apply Hb).
Qed.

Lemma line_clean_text_meta sn ts : tg_sn_valid sn = true -> is_long ts ->
  line_clean (text_meta sn ts).
Proof.
  intros Hsn Hts. unfold tg_sn_valid, TG_SN_MIN, TG_SN_MAX in Hsn. zbool.
  apply line_clean_meta; [by repeat split | |]; intros.
  - by apply has_char_fmt_04d; [lia |].
  - by apply has_char_fmt_d.
Qed.

Lemma line_clean_cmd_meta from to : tg_sn_valid from = true -> tg_sn_valid to = true ->
  line_clean (cmd_meta from to).
Proof.
  intros Hf Ht. apply line_clean_app; [by repeat split |].
  apply line_clean_meta; [by repeat split | |]; intros; apply has_char_fmt_d; by try apply sn_is_long.
Qed.

(** The decoder on a well-formed record, whatever its kind. *)
Lemma tg_decode_wire kind kl r s meta body v :
  tg_kind_line kl = Some kind -> line_clean kl -> zlen kl < TG_LINE_SIZE ->
  tg_field_ok (Some r) = true -> cstring r ->
  tg_field_ok (Some s) = true -> cstring s ->
  line_clean meta -> zlen meta < TG_LINE_SIZE ->
  match kind with
  | TG_TEXT => '(sn, ts) ← tg_text_meta meta; Some (sn, 0, ts)
  | _ => '(from, to) ← tg_cmd_meta meta; Some (from, to, 0)
  end = Some v ->
  cstring body -> tg_body_scan [] body = true -> body_fits body = true ->
  tg_decode_bytes (wire kl r s meta body)
  = Some (mk_tg_message kind r s (fst (fst v)) (snd (fst v)) (snd v) body).
Proof.
  intros Hk Hkc Hkl Hr Hr0 Hs Hs0 Hmc Hml Hv Hb0 Hbs Hbf.
  apply tg_field_ok_inv in Hr as (? & Hrl & ?); [| done].
  apply tg_field_ok_inv in Hs as (? & Hsl & ?); [| done].
  unfold body_fits, TG_BODY_MAX in Hbf. zbool.
  assert (forall x : bytes, zlen x < TG_FIELD_MAX -> zlen x < TG_LINE_SIZE) as Hfl
    by (unfold TG_LINE_SIZE; intros; lia).
  unfold tg_decode_bytes, wire. rewrite tg_whole_line_plain by done. cbn [mbind option_bind].
  rewrite Hk. cbn [mbind option_bind].
  rewrite tg_whole_line_plain by auto. cbn [mbind option_bind]. rewrite tg_key_line_ok by done.
  cbn [mbind option_bind].
  rewrite tg_whole_line_plain by auto. cbn [mbind option_bind]. rewrite tg_key_line_ok by done.
  cbn [mbind option_bind].
  rewrite tg_whole_line_plain by done. cbn [mbind option_bind].
  rewrite (tg_body_loop_reads (length body)); try done.
  - rewrite Hv. destruct v as [[? ?] ?]. done.
  - rewrite !length_app. cbn. lia.
Qed.

Lemma zlen_wire kl r s meta body :
  zlen (wire kl r s meta body) = zlen kl + zlen r + zlen s + zlen meta + zlen body + 9.
Proof. unfold wire. autorewrite with zlen. change (zlen TG_TERMINATOR) with 4. lia. Qed.

Lemma tg_decode_all w : tg_decode (Some w) (zlen w) = if zlen w =? 0 then None else tg_decode_bytes w.
Proof.
  unfold tg_decode. destruct (_ =? 0); [done |]. f_equal. apply take_ge. unfold zlen. lia.
Qed.

Lemma tg_decode_full kl r s meta body :
  tg_decode (Some (wire kl r s meta body)) (zlen (wire kl r s meta body))
  = tg_decode_bytes (wire kl r s meta body).
Proof.
  rewrite tg_decode_all. destruct (_ =? 0) eqn:E; [| done]. zbool.
  rewrite zlen_wire in E. zlen.
Qed.

Lemma tg_decode_text_wire r s sn ts body :
  tg_field_ok (Some r) = true -> cstring r -> tg_field_ok (Some s) = true -> cstring s ->
  tg_sn_valid sn = true -> is_long ts ->
  tg_body_ok body = true -> cstring (default [] body) -> body_fits (default [] body) = true ->
  tg_decode_bytes (text_wire r s sn ts body)
  = Some (mk_tg_message TG_TEXT r s sn 0 ts (default [] body)).
Proof.
  intros. unfold text_wire. erewrite (tg_decode_wire TG_TEXT _ _ _ _ _ (sn, 0, ts)); try done.
  - by apply line_clean_text_meta.
  - pose proof (zlen_text_meta sn ts ltac:(done) ltac:(done)). unfold TG_LINE_SIZE, TG_FIELD_MAX. lia.
  - by rewrite tg_text_meta_reads.
  - by destruct body.
Qed.

Lemma tg_decode_cmd_wire r s from to :
  tg_field_ok (Some r) = true -> cstring r -> tg_field_ok (Some s) = true -> cstring s ->
  tg_sn_valid from = true -> tg_sn_valid to = true ->
  tg_decode_bytes (cmd_wire r s from to)
  = Some (mk_tg_message TG_CMD r s from to 0 []).
Proof.
  intros. unfold cmd_wire. erewrite (tg_decode_wire TG_CMD _ _ _ _ _ (from, to, 0)); try done.
  - by apply line_clean_cmd_meta.
  - pose proof (zlen_cmd_meta from to ltac:(done) ltac:(done)). unfold TG_LINE_SIZE, TG_FIELD_MAX. lia.
  - by rewrite tg_cmd_meta_reads.
Qed.

(** What an accepted call of an encoder says about its arguments. *)
Lemma tg_encode_text_inv cap r s sn ts body n w :
  tg_encode_text (Some cap) (Some r) (Some s) sn ts body = (n, Some w) ->
  0 < n -> 0 < cap -> is_long ts ->
  tg_field_ok (Some r) = true /\ tg_field_ok (Some s) = true /\ tg_sn_valid sn = true /\
  tg_body_ok body = true /\ w = text_wire r s sn ts body /\ n = zlen w /\ n < cap.
Proof.
  intros H Hn Hc Hts.
  destruct (tg_field_ok (Some r)) eqn:Hr, (tg_field_ok (Some s)) eqn:Hs,
    (tg_sn_valid sn) eqn:Hv, (tg_body_ok body) eqn:Hb;
  try (exfalso; unfold tg_encode_text in H; destruct (cap =? 0) eqn:E; zbool; [lia |];
       rewrite Hr, Hs, Hv, ?Hb in H; cbn in H; unfold TG_ERR_FORMAT, TG_ERR_RANGE in H; simplify_eq; lia).
  rewrite encode_text_accepted in H by done. unfold encoded, TG_ERR_TOOSMALL in H.
  destruct (_ <? _) eqn:E; zbool; simplify_eq; [lia |]. repeat split; done || lia.
Qed.

Lemma tg_encode_cmd_inv cap r s from to n w :
  tg_encode_cmd (Some cap) (Some r) (Some s) from to = (n, Some w) ->
  0 < n -> 0 < cap ->
  tg_field_ok (Some r) = true /\ tg_field_ok (Some s) = true /\ tg_sn_valid from = true /\
  tg_sn_valid to = true /\ w = cmd_wire r s from to /\ n = zlen w /\ n < cap.
Proof.
  intros H Hn Hc.
  destruct (tg_field_ok (Some r)) eqn:Hr, (tg_field_ok (Some s)) eqn:Hs,
    (tg_sn_valid from) eqn:Hv, (tg_sn_valid to) eqn:Hb;
  try (exfalso; unfold tg_encode_cmd in H; destruct (cap =? 0) eqn:E; zbool; [lia |];
       rewrite Hr, Hs, Hv, ?Hb in H; cbn in H; unfold TG_ERR_FORMAT, TG_ERR_RANGE in H; simplify_eq; lia).
  rewrite encode_cmd_accepted in H by done. unfold encoded, TG_ERR_TOOSMALL in H.
  destruct (_ <? _) eqn:E; zbool; simplify_eq; [lia |]. repeat split; done || lia.
Qed.

Lemma tg_field_ok_len f : tg_field_ok (Some f) = true -> 1 <= zlen f <= 127.
Proof.
  unfold tg_field_ok, TG_FIELD_MAX. destruct f as [|c f]; [done |].
  rewrite bool_decide_eq_false_2 by done. destruct (_ <=? _) eqn:E; [done |]. intros _. zbool. zlen.
Qed.

(** Upper bound on any TEXT record: both keys, the metadata line, the body and
    the framing. *)
Lemma zlen_text_wire r s sn ts body :
  tg_field_ok (Some r) = true -> tg_field_ok (Some s) = true ->
  tg_sn_valid sn = true -> is_long ts ->
  0 < zlen (text_wire r s sn ts body) <= 297 + zlen (default [] body).
Proof.
  intros Hr%tg_field_ok_len Hs%tg_field_ok_len Hv Ht.
  pose proof (zlen_text_meta sn ts Hv Ht). unfold text_wire. rewrite zlen_wire.
  change (zlen $"ZCZC TEXT") with 9. zlen.
Qed.

(** ** What a decoded record can hold *)

Lemma tg_whole_line_spec s l r : tg_whole_line s = Some (l, r) -> cstring l.
Proof.
  unfold tg_whole_line. destruct (tg_next_line TG_LINE_SIZE s) as [[[l' []] r']|] eqn:E; [| done..].
  intros H. simplify_eq. by apply tg_next_line_spec in E as (_ & _ & ?).
Qed.

Lemma tg_key_line_spec l k : tg_key_line l = Some k -> k = l /\ 1 <= zlen k < TG_FIELD_MAX.
Proof.
  unfold tg_key_line. case_bool_decide as E; [done |]. cbn [orb].
  destruct (_ <=? _) eqn:E'; [done |]. intros H. zbool. simplify_eq.
  split; [done |]. destruct k; [done | zlen].
Qed.

Lemma clamp_long_spec z : is_long (fst (clamp_long z)).
Proof.
  unfold clamp_long, is_long, LONG_MIN, LONG_MAX.
  destruct (_ <? _) eqn:E; zbool; cbn; [lia |]. destruct (_ <? z) eqn:E'; zbool; cbn; lia.
Qed.

Lemma strtol_is_long s v e r : strtol s = Some (v, e, r) -> is_long v.
Proof.
  unfold strtol. destruct (sign _) as [neg [|c s1]]; [done |]. destruct (is_digit c); [| done].
  destruct (digits 0 _) as [x rest]. pose proof (clamp_long_spec (if neg then - x else x)) as H.
  destruct (clamp_long _) as [z er]. intros ?. by simplify_eq.
Qed.

Lemma tg_text_meta_spec l sn ts : tg_text_meta l = Some (sn, ts) ->
  tg_sn_valid sn = true /\ is_long ts.
Proof.
  unfold tg_text_meta. destruct (strtol l) as [[[a e] [|c after]]|] eqn:E1; cbn; [done | | done].
  destruct (bool_decide _); [| done].
  destruct (strtol after) as [[[b e'] r']|] eqn:E2; cbn; [| done].
  destruct (tg_sn_valid (i32 a)) eqn:E3; [| done]. intros H. simplify_eq.
  split; [done | by eapply strtol_is_long].
Qed.

Lemma tg_cmd_meta_spec l from to : tg_cmd_meta l = Some (from, to) ->
  tg_sn_valid from = true /\ tg_sn_valid to = true.
Proof.
  unfold tg_cmd_meta. destruct l as [|c0 [|c1 l]]; [done | done |]. destruct (_ && _); [| done].
  destruct (strtol l) as [[[a e] [|c after]]|] eqn:E1; cbn; [done | | done].
  destruct (bool_decide _); [| done].
  destruct (strtol after) as [[[b e'] r']|] eqn:E2; cbn; [| done].
  destruct (_ && _) eqn:E3; [| done]. intros H. simplify_eq. by apply andb_true_iff in E3.
Qed.

Lemma tg_body_loop_spec : forall n acc s b, tg_body_loop n acc s = Some b -> cstring acc ->
  cstring b /\ zlen b + 1 < TG_BODY_MAX.
Proof.
  unfold cstring. induction n as [|n IH]; intros acc s b; cbn [tg_body_loop]; [done |].
  destruct (tg_next_line TG_LINE_SIZE s) as [[[l c] r]|] eqn:E; [| done].
  apply tg_next_line_spec in E as (_ & _ & Hl); [| done]. unfold cstring in Hl.
  destruct (tg_ends_record l); destruct (_ <=? _) eqn:Eb; try done; intros H Ha; zbool.
  - simplify_eq. rewrite has_char_app, Ha, zlen_app. split; [by apply has_char_take | lia].
  - apply IH in H; [done |]. by rewrite !has_char_app, Ha, Hl.
Qed.

(** * Properties *)



(** Claim C16. Decoding what [tg_encode_cmd] wrote gives back the replay request:
    same keys, same serial range. *)
Theorem tg_cmd_roundtrip cap r s from to n w :
  0 < cap -> cstring r -> cstring s ->
  tg_encode_cmd (Some cap) (Some r) (Some s) from to = (n, Some w) -> 0 < n ->
  tg_decode (Some w) n = Some (mk_tg_message TG_CMD r s from to 0 []).
Proof.
  intros Hc Hr0 Hs0 H Hn.
  apply tg_encode_cmd_inv in H as (? & ? & ? & ? & -> & -> & _); try done.
  unfold cmd_wire. rewrite tg_decode_full. by apply tg_decode_cmd_wire.
Qed.

Lemma tg_cmd_roundtrip_witness :
  let w := cmd_wire $"AABB" $"CCDD" 998 3 in
  tg_decode (Some w) (zlen w) = Some (mk_tg_message TG_CMD $"AABB" $"CCDD" 998 3 0 []).
Proof.
  intros w. apply (tg_cmd_roundtrip 1400 $"AABB" $"CCDD" 998 3 (zlen w) w);
    vm_compute; reflexivity.
Defined.

(** Claim C17. [tg_encode_text] is all or nothing on every input: an unusable
    argument, an invalid serial, a body line ending in the terminator or a too
    small buffer each give their own error code and an empty string; otherwise
    the whole record is written, its length is returned and it is smaller than
    the buffer. *)
Theorem tg_encode_text_result cap r s sn ts body :
  0 <= cap -> is_long ts ->
  tg_encode_text (Some cap) (Some r) (Some s) sn ts body =
  if cap =? 0 then (TG_ERR_ARG, None)
  else if negb (tg_field_ok (Some r) && tg_field_ok (Some s)) then (TG_ERR_FORMAT, Some [])
  else if negb (tg_sn_valid sn) then (TG_ERR_RANGE, Some [])
  else if negb (tg_body_ok body) then (TG_ERR_FORMAT, Some [])
  else if zlen (text_wire r s sn ts body) <? cap
       then (zlen (text_wire r s sn ts body), Some (text_wire r s sn ts body))
       else (TG_ERR_TOOSMALL, Some []).
Proof.
  intros Hc Hts. destruct (cap =? 0) eqn:E0; [unfold tg_encode_text; by rewrite E0 |]. zbool.
  destruct (tg_field_ok (Some r) && tg_field_ok (Some s)) eqn:Ef;
    [| unfold tg_encode_text; rewrite (proj2 (Z.eqb_neq _ _) E0);
       rewrite <- negb_andb, Ef; done].
  apply andb_true_iff in Ef as [Hr Hs]. cbn [negb].
  destruct (tg_sn_valid sn) eqn:Hv;
    [| unfold tg_encode_text; rewrite (proj2 (Z.eqb_neq _ _) E0), Hr, Hs, Hv; done].
  destruct (tg_body_ok body) eqn:Hb;
    [| unfold tg_encode_text; rewrite (proj2 (Z.eqb_neq _ _) E0), Hr, Hs, Hv, Hb; done].
  cbn [negb]. rewrite encode_text_accepted by (done || lia). unfold encoded.
  destruct (_ <? _) eqn:E, (zlen _ <? cap) eqn:E'; zbool; try lia; done.
Qed.

Lemma tg_encode_text_result_witness :
  fst (tg_encode_text (Some 1400) (Some $"AABB") (Some $"CCDD") 7 0 (Some $"xNNNN")) = TG_ERR_FORMAT.
Proof.
  rewrite (tg_encode_text_result 1400 $"AABB" $"CCDD" 7 0 (Some $"xNNNN"));
    [vm_compute; reflexivity | vm_compute; discriminate | split; vm_compute; discriminate].
Defined.

(** Claim C18. Whatever bytes arrive, a record the decoder accepts has fields
    that fit their arrays: keys of 1 to 127 bytes, a NUL-free body shorter than
    1023 bytes, serials in 1..999, a [long] timestamp; a TEXT has no range end
    and a CMD no timestamp. *)
Theorem tg_decode_wf raw len m : tg_decode raw len = Some m ->
  1 <= zlen (tg_receiver m) < TG_FIELD_MAX /\ cstring (tg_receiver m) /\
  1 <= zlen (tg_sender m) < TG_FIELD_MAX /\ cstring (tg_sender m) /\
  tg_sn_valid (tg_sn m) = true /\ is_long (tg_timestamp m) /\
  cstring (tg_body m) /\ zlen (tg_body m) + 1 < TG_BODY_MAX /\
  (tg_knd m = TG_TEXT /\ tg_sn_to m = 0 \/
   tg_knd m = TG_CMD /\ tg_sn_valid (tg_sn_to m) = true /\ tg_timestamp m = 0).
Proof.
  unfold tg_decode. destruct raw as [raw|]; [| done]. destruct (_ =? 0); [done |].
  generalize (take (Z.to_nat len) raw). clear. intros s. unfold tg_decode_bytes.
  destruct (tg_whole_line s) as [[l0 s0]|]; cbn -[tg_body_loop]; [| done].
  destruct (tg_kind_line l0) as [k|] eqn:Ek; cbn -[tg_body_loop]; [| done].
  destruct (tg_whole_line s0) as [[l1 s1]|] eqn:E1; cbn -[tg_body_loop]; [| done].
  destruct (tg_key_line l1) as [r|] eqn:Er; cbn -[tg_body_loop]; [| done].
  destruct (tg_whole_line s1) as [[l2 s2]|] eqn:E2; cbn -[tg_body_loop]; [| done].
  destruct (tg_key_line l2) as [t|] eqn:Et; cbn -[tg_body_loop]; [| done].
  destruct (tg_whole_line s2) as [[l3 s3]|] eqn:E3; cbn -[tg_body_loop]; [| done].
  apply tg_whole_line_spec in E1, E2. apply tg_key_line_spec in Er as [-> ?], Et as [-> ?].
  assert (Hk : k = TG_TEXT \/ k = TG_CMD).
  { unfold tg_kind_line in Ek. repeat (destruct (str_eq _ _); [simplify_eq; auto |]). done. }
  destruct Hk as [-> | ->].
  - destruct (tg_text_meta l3) as [[sn ts]|] eqn:Em; cbn -[tg_body_loop]; [| done]. apply tg_text_meta_spec in Em as [? ?].
    destruct (tg_body_loop (S (length s3)) [] s3) as [b|] eqn:Eb; cbn -[tg_body_loop]; [| done]. intros Hm. simplify_eq. cbn.
    apply tg_body_loop_spec in Eb as [? ?]; [| done]. split_and!; try done; try lia. by left.
  - destruct (tg_cmd_meta l3) as [[from to]|] eqn:Em; cbn -[tg_body_loop]; [| done]. apply tg_cmd_meta_spec in Em as [? ?].
    destruct (tg_body_loop (S (length s3)) [] s3) as [b|] eqn:Eb; cbn -[tg_body_loop]; [| done]. intros Hm. simplify_eq. cbn.
    apply tg_body_loop_spec in Eb as [? ?]; [| done]. split_and!; try done; try lia. by right.
Qed.

Lemma tg_decode_wf_witness :
  zlen (tg_body (mk_tg_message TG_CMD $"AABB" $"CCDD" 998 3 0 [])) + 1 < TG_BODY_MAX.
Proof.
  pose (w := cmd_wire $"AABB" $"CCDD" 998 3).
  apply (tg_decode_wf (Some w) (zlen w)). vm_compute. reflexivity.
Defined.

(** The statement of the encoder that decoding its output gives the
    input back for every accepted body does not hold: a body line of more than
    143 bytes comes back silently cut, and a carriage return after "NNNN" ends
    the record early, so a sender chooses where the receiver stops reading. *)
Theorem tg_roundtrip_not_total :
  (let body := replicate 200 "x"%char ++ [LF] ++ $"y" in
   exists n w m, tg_encode_text (Some 1400) (Some $"AABB") (Some $"CCDD") 7 5 (Some body) = (n, Some w)
     /\ tg_decode (Some w) n = Some m /\ tg_body m = replicate 143 "x"%char ++ [LF] ++ $"y") /\
  (let body := $"aNNNN" ++ [CR] ++ $"b" in
   exists n w m, tg_encode_text (Some 1400) (Some $"AABB") (Some $"CCDD") 7 5 (Some body) = (n, Some w)
     /\ tg_decode (Some w) n = Some m /\ tg_body m = $"a").
Proof.
  split; cbv zeta.
  - eexists _, (text_wire $"AABB" $"CCDD" 7 5 (Some (replicate 200 "x"%char ++ [LF] ++ $"y"))), _.
    split; [vm_compute; reflexivity |]. split; vm_compute; reflexivity.
  - eexists _, (text_wire $"AABB" $"CCDD" 7 5 (Some ($"aNNNN" ++ [CR] ++ $"b"))), _.
    split; [vm_compute; reflexivity |]. split; vm_compute; reflexivity.
Qed.

(** A serial of 2^32 + 5 on the wire is accepted as serial 5: the range test is
    applied after the conversion of the parsed [long] to [int]. *)
Example tg_serial_alias :
  exists m, tg_decode (Some (wire $"ZCZC TEXT" $"A" $"B" $"4294967301 0" []))
    (zlen (wire $"ZCZC TEXT" $"A" $"B" $"4294967301 0" [])) = Some m /\ tg_sn m = 5.
Proof. eexists. split; vm_compute; reflexivity. Qed.
