(* ===== verification/SnTracker.v ===== *)
(** * telegram.c: receive-sequence tracking

    [sn_tracker] of [src/src/telegram.h] and its operations. Serials live in
    1..999 and wrap; the specification at the end of the definitions numbers the
    telegrams of a channel without bound, and the refinement theorem says for
    which arrivals the wrapping tracker classifies exactly as that specification. *)

From S2P Require Import Prelude CString Telegram.

Definition SN_MAX_PENDING : Z := 256.

Inductive sn_result := SN_IN_ORDER | SN_DUPLICATE | SN_GAP | SN_RESYNC | SN_RECOVERED.
#[export] Instance sn_result_eq_dec : EqDecision sn_result.
Proof. solve_decision. Defined.

Record sn_tracker := mk_sn_tracker {
  st_expected : Z;
  st_synced : bool;
  st_pending : list Z       (* pending[0 .. pending_count-1] *)
}.

Definition sn_tracker_init (first_expected : Z) : sn_tracker :=
  mk_sn_tracker (if tg_sn_valid first_expected then first_expected else TG_SN_MIN) false [].

Definition sn_tracker_resume (last_received : Z) : sn_tracker :=
  if negb (tg_sn_valid last_received) then sn_tracker_init TG_SN_MIN
  else mk_sn_tracker (st_expected (sn_tracker_init (tg_sn_next last_received))) true [].

(** Index of the first pending entry equal to [sn]. *)
Fixpoint sn_find (sn : Z) (pending : list Z) : option nat :=
  match pending with
  | [] => None
  | x :: p => if x =? sn then Some 0%nat else S <$> sn_find sn p
  end.

(** [t->pending[i] = t->pending[--t->pending_count]]. *)
Definition sn_pending_take (sn : Z) (pending : list Z) : option (list Z) :=
  i ← sn_find sn pending;
  x ← last pending;
  Some (take (length pending - 1) (upd pending i x)).

(** The loop of [sn_pending_add_range]: it stops at [to] or when the set is
    full, so [SN_MAX_PENDING + 1] rounds always suffice
    ([sn_add_range_enough]). *)
Fixpoint sn_add_loop (fuel : nat) (pending : list Z) (sn to : Z) : bool * list Z :=
  match fuel with
  | O => (false, pending)
  | S fuel' =>
      if SN_MAX_PENDING <=? zlen pending then (false, pending)
      else
        let pending := pending ++ [sn] in
        if sn =? to then (true, pending)
        else sn_add_loop fuel' pending (tg_sn_next sn) to
  end.

Definition sn_pending_add_range (pending : list Z) (from to : Z) : bool * list Z :=
  if SN_MAX_PENDING <=? zlen pending then (false, pending)
  else sn_add_loop (Z.to_nat SN_MAX_PENDING + 1) pending from to.

(** The classification, the tracker afterwards and the two gap bounds. *)
Definition sn_tracker_accept (t : option sn_tracker) (sn max_gap : Z) :
    sn_result * option sn_tracker * Z * Z :=
  match t with
  | None => (SN_RESYNC, None, 0, 0)
  | Some t =>
  if negb (tg_sn_valid sn) then (SN_RESYNC, Some t, 0, 0)
  else match sn_pending_take sn (st_pending t) with
  | Some pending =>
      (SN_RECOVERED, Some (mk_sn_tracker (st_expected t) (st_synced t) pending), 0, 0)
  | None =>
  if negb (st_synced t) then
    (SN_IN_ORDER, Some (mk_sn_tracker (tg_sn_next sn) true (st_pending t)), 0, 0)
  else
    let dist := tg_sn_distance (st_expected t) sn in
    if dist =? 0 then
      (SN_IN_ORDER, Some (mk_sn_tracker (tg_sn_next sn) true (st_pending t)), 0, 0)
    else if TG_SN_RANGE / 2 <? dist then (SN_DUPLICATE, Some t, 0, 0)
    else
      let resync := (SN_RESYNC, Some (mk_sn_tracker (tg_sn_next sn) true []), 0, 0) in
      if dist <=? max_gap then
        match sn_pending_add_range (st_pending t) (st_expected t) (tg_sn_prev sn) with
        | (true, pending) =>
            (SN_GAP, Some (mk_sn_tracker (tg_sn_next sn) true pending),
             st_expected t, tg_sn_prev sn)
        | (false, _) => resync
        end
      else resync
  end
  end.

(** ** Specification: unbounded numbering

    Telegram number [k >= 0] of a channel carries the serial [ser k]. The
    receiver knows the next number it has not seen and the numbers it asked for
    and has not received. *)

Definition ser (k : Z) : Z := k mod TG_SN_RANGE + 1.

Record rx := mk_rx { rx_next : Z; rx_missing : list Z }.

(** [next, next + 1, ..., n - 1]. *)
Definition span (from n : Z) : list Z := (fun i => from + Z.of_nat i) <$> seq 0 (Z.to_nat (n - from)).

Definition rx_accept (a : rx) (n max_gap : Z) : sn_result * rx :=
  if bool_decide (n ∈ rx_missing a) then
    (SN_RECOVERED, mk_rx (rx_next a) (filter (fun m => m <> n) (rx_missing a)))
  else if n <? rx_next a then (SN_DUPLICATE, a)
  else if n =? rx_next a then (SN_IN_ORDER, mk_rx (n + 1) (rx_missing a))
  else if (n - rx_next a <=? max_gap)
          && (zlen (rx_missing a) + (n - rx_next a) <=? SN_MAX_PENDING) then
    (SN_GAP, mk_rx (n + 1) (rx_missing a ++ span (rx_next a) n))
  else (SN_RESYNC, mk_rx (n + 1) []).

(** The tracker represents the specification state. *)
Definition rx_repr (t : sn_tracker) (a : rx) : Prop :=
  st_synced t = true /\ st_expected t = ser (rx_next a) /\
  st_pending t ≡ₚ ser <$> rx_missing a /\ NoDup (rx_missing a).

(** Half the serial space on each side of the next number. *)
Definition HALF : Z := TG_SN_RANGE / 2.
Definition in_window (a : rx) (n : Z) : Prop := Z.abs (n - rx_next a) <= HALF.
Definition rx_fresh (a : rx) : Prop :=
  forall m, m ∈ rx_missing a -> rx_next a - HALF <= m < rx_next a.

(** What a sequence of arrivals does to a tracker: the classifications and the
    final state. *)
Fixpoint sn_run (t : sn_tracker) (max_gap : Z) (sns : list Z) : list sn_result * sn_tracker :=
  match sns with
  | [] => ([], t)
  | sn :: sns' =>
      let '(r, t', _, _) := sn_tracker_accept (Some t) sn max_gap in
      let '(rs, t'') := sn_run (default t t') max_gap sns' in (r :: rs, t'')
  end.

(** * Lemmas *)

(** ** Serial arithmetic *)

Ltac serial := unfold ser, tg_sn_next, tg_sn_prev, tg_sn_distance, tg_sn_valid,
  TG_SN_RANGE, TG_SN_MAX, TG_SN_MIN, HALF in *; Z.div_mod_to_equations.

Lemma ser_valid k : tg_sn_valid (ser k) = true.
Proof. serial. lia. Qed.

Lemma tg_sn_next_valid sn : tg_sn_valid (tg_sn_next sn) = true.
Proof. serial. destruct (_ || _) eqn:E; zbool; lia. Qed.

Lemma tg_sn_next_ser k : tg_sn_next (ser k) = ser (k + 1).
Proof. serial. destruct (_ || _) eqn:E; zbool; [destruct E as [E | E]; zbool |]; lia. Qed.

Lemma tg_sn_prev_ser k : tg_sn_prev (ser k) = ser (k - 1).
Proof. serial. destruct (_ || _) eqn:E; zbool; [destruct E as [E | E]; zbool |]; lia. Qed.

Lemma tg_sn_distance_ser a b : tg_sn_distance (ser a) (ser b) = (b - a) mod TG_SN_RANGE.
Proof.
  unfold ser, tg_sn_distance, TG_SN_RANGE, TG_SN_MAX, TG_SN_MIN. change (999 - 1 + 1) with 999.
  pose proof (Z.rem_bound_abs (b mod 999 + 1 - (a mod 999 + 1)) 999 ltac:(lia)) as Hr.
  pose proof (Z.quot_rem' (b mod 999 + 1 - (a mod 999 + 1)) 999) as Hq.
  set (r := Z.rem _ _) in *. set (q := Z.quot _ _) in *.
  pose proof (Z.div_mod a 999 ltac:(lia)). pose proof (Z.div_mod b 999 ltac:(lia)).
  assert (Hm : (b - a) mod 999 = if r <? 0 then r + 999 else r); [| destruct (r <? 0); lia].
  destruct (r <? 0) eqn:E; zbool; symmetry.
  - apply Z.mod_unique with (q := b / 999 - a / 999 + q - 1); lia.
  - apply Z.mod_unique with (q := b / 999 - a / 999 + q); lia.
Qed.

Lemma ser_inj a b : Z.abs (a - b) < TG_SN_RANGE -> ser a = ser b -> a = b.
Proof. serial. lia. Qed.

#[export] Hint Resolve ser_valid tg_sn_next_valid : relay.

(** ** The pending set *)

Lemma sn_find_Some sn p i : sn_find sn p = Some i -> p !! i = Some sn.
Proof.
  revert i. induction p as [|x p IH]; intros i H; cbn in H; [done |].
  destruct (x =? sn) eqn:E; zbool; [by simplify_eq |].
  apply fmap_Some in H as (j & ? & ->). by apply IH.
Qed.

Lemma sn_find_None sn p : sn_find sn p = None <-> sn ∉ p.
Proof.
  induction p as [|x p IH]; cbn; [split; [intros _; apply not_elem_of_nil | done] |].
  destruct (x =? sn) eqn:E; zbool.
  - subst. split; [done |]. intros Hn. destruct Hn. left.
  - rewrite fmap_None, IH, not_elem_of_cons. intuition congruence.
Qed.

Lemma sn_pending_take_None sn p : sn ∉ p -> sn_pending_take sn p = None.
Proof. intros H%sn_find_None. unfold sn_pending_take. by rewrite H. Qed.

(** Taking a pending serial removes one occurrence and keeps the others. *)
Lemma sn_pending_take_Some sn p : sn ∈ p ->
  exists p', sn_pending_take sn p = Some p' /\ p ≡ₚ sn :: p'.
Proof.
  intros Hin. unfold sn_pending_take.
  destruct (sn_find sn p) as [i|] eqn:E; [| by apply sn_find_None in E].
  apply sn_find_Some, list_elem_of_split_length in E as (l1 & l2 & -> & ->).
  destruct l2 as [|y l2 _] using rev_ind; cbn.
  - rewrite last_snoc. cbn. eexists. split; [done |]. unfold upd.
    rewrite (insert_app_r_alt _ _ (length l1)), Nat.sub_diag by lia. cbn.
    rewrite length_app, take_app_le, take_ge by (cbn; lia). solve_Permutation.
  - rewrite app_comm_cons, app_assoc, last_snoc. cbn. eexists. split; [done |].
    assert (Hl : (length ((l1 ++ sn :: l2) ++ [y]) - 1)%nat = length (l1 ++ y :: l2))
      by (rewrite !length_app; cbn; lia).
    rewrite Hl. unfold upd.
    rewrite <- app_assoc, (insert_app_r_alt _ _ (length l1)), Nat.sub_diag by lia. cbn.
    rewrite (app_assoc l1 (y :: l2) [y] : l1 ++ y :: l2 ++ [y] = _), take_app_length.
    solve_Permutation.
Qed.

Lemma sn_pending_take_incl sn p p' : sn_pending_take sn p = Some p' -> p ≡ₚ sn :: p'.
Proof.
  intros H. destruct (decide (sn ∈ p)) as [Hin | Hn].
  - apply sn_pending_take_Some in Hin as (p'' & Heq & ?). congruence.
  - by rewrite sn_pending_take_None in H.
Qed.

Lemma span_nil a : span a a = [].
Proof. unfold span. by rewrite Z.sub_diag. Qed.

Lemma span_cons a n : a < n -> span a n = a :: span (a + 1) n.
Proof.
  intros. unfold span. replace (Z.to_nat (n - a)) with (S (Z.to_nat (n - (a + 1)))) by lia.
  cbn. f_equal; [lia |]. rewrite <- seq_shift, <- list_fmap_compose.
  apply list_fmap_ext. intros ? ? _. cbn. lia.
Qed.

Lemma elem_of_span a n m : m ∈ span a n <-> a <= m < n.
Proof.
  unfold span. rewrite list_elem_of_fmap. split.
  - intros (i & -> & Hi%elem_of_seq). lia.
  - intros H. exists (Z.to_nat (m - a)). split; [lia |]. apply elem_of_seq. lia.
Qed.

Lemma NoDup_span a n : NoDup (span a n).
Proof. unfold span. apply NoDup_fmap_2; [intros ? ? ?; lia | apply NoDup_seq]. Qed.

Lemma zlen_span a n : a <= n -> zlen (span a n) = n - a.
Proof. intros. unfold span, zlen. rewrite length_fmap, length_seq. lia. Qed.

(** Adding the range from telegram [k] to telegram [k + d]: all of it, or the
    set is full. *)
Lemma sn_add_loop_ser d : forall fuel p k, (Z.of_nat d) < TG_SN_RANGE ->
  zlen p <= SN_MAX_PENDING -> SN_MAX_PENDING - zlen p < Z.of_nat fuel ->
  let r := sn_add_loop fuel p (ser k) (ser (k + Z.of_nat d)) in
  if zlen p + Z.of_nat d <? SN_MAX_PENDING
  then r = (true, p ++ (ser <$> span k (k + Z.of_nat d + 1)))
  else fst r = false.
Proof.
  induction d as [|d IH]; intros fuel p k Hd Hp Hf; (destruct fuel as [|fuel]; [lia |]); cbn [sn_add_loop].
  all: destruct (SN_MAX_PENDING <=? zlen p) eqn:E; zbool; [destruct (_ <? _) eqn:E'; zbool; [lia | done] |].
  - change (Z.of_nat 0) with 0. rewrite !Z.add_0_r, Z.eqb_refl. destruct (_ <? _) eqn:E'; zbool; [| lia].
    rewrite span_cons, span_nil by lia. done.
  - destruct (ser k =? _) eqn:E1; zbool.
    { apply ser_inj in E1; lia. }
    rewrite tg_sn_next_ser. replace (k + Z.of_nat (S d)) with (k + 1 + Z.of_nat d) by lia.
    specialize (IH fuel (p ++ [ser k]) (k + 1)). rewrite zlen_app in IH. change (zlen [ser k]) with 1 in IH.
    specialize (IH ltac:(lia) ltac:(lia) ltac:(lia)). cbv zeta in IH.
    replace (zlen p + Z.of_nat (S d)) with (zlen p + 1 + Z.of_nat d) by lia.
    destruct (_ <? _); [| done]. rewrite IH, (span_cons k) by lia. by rewrite <- app_assoc.
Qed.

(** The fuel of [sn_pending_add_range] is never what stops it. *)
Lemma sn_add_range_enough : forall n m p sn to,
  SN_MAX_PENDING - zlen p < Z.of_nat n -> SN_MAX_PENDING - zlen p < Z.of_nat m ->
  0 < Z.of_nat n -> 0 < Z.of_nat m ->
  sn_add_loop n p sn to = sn_add_loop m p sn to.
Proof.
  induction n as [|n IH]; intros [|m] p sn to Hn Hm ? ?; try lia. cbn [sn_add_loop].
  destruct (_ <=? _) eqn:E; zbool; [done |]. destruct (_ =? _); [done |].
  assert (zlen (p ++ [sn]) = zlen p + 1) by (rewrite zlen_app; done).
  apply IH; lia.
Qed.

(** ** Simulation of the specification *)

Lemma zlen_Permutation {A} (l k : list A) : l ≡ₚ k -> zlen l = zlen k.
Proof. intros H. unfold zlen. by rewrite H. Qed.

Lemma zlen_fmap {A B} (f : A -> B) l : zlen (f <$> l) = zlen l.
Proof. unfold zlen. by rewrite length_fmap. Qed.

Lemma NoDup_filter_ne (n : Z) l : NoDup l -> n ∈ l -> l ≡ₚ n :: filter (fun m => m <> n) l.
Proof.
  intros Hnd Hin. apply NoDup_Permutation; [done | |].
  - apply NoDup_cons. split; [by intros [? _]%list_elem_of_filter | by apply NoDup_filter].
  - intros x. rewrite elem_of_cons, list_elem_of_filter.
    destruct (decide (x = n)) as [Hx | Hx]; [subst x |]; tauto.
Qed.

Lemma ser_pending t a n : rx_repr t a -> in_window a n -> rx_fresh a ->
  ser n ∈ st_pending t <-> n ∈ rx_missing a.
Proof.
  intros (_ & _ & Hp & _) Hw Hf. rewrite Hp, list_elem_of_fmap. split; [| by eauto].
  intros (m & Hs & Hm). apply ser_inj in Hs as ->; [done |].
  specialize (Hf m Hm). unfold in_window in Hw.
  change HALF with 499 in *. change TG_SN_RANGE with 999. lia.
Qed.

(** The pending set after a gap, or the refusal. *)
Lemma sn_add_range_ser p a n :
  p ≡ₚ ser <$> rx_missing a -> 0 < n - rx_next a < TG_SN_RANGE ->
  match sn_pending_add_range p (ser (rx_next a)) (tg_sn_prev (ser n)) with
  | (true, p') => zlen (rx_missing a) + (n - rx_next a) <= SN_MAX_PENDING
                  /\ p' ≡ₚ ser <$> (rx_missing a ++ span (rx_next a) n)
  | (false, _) => SN_MAX_PENDING < zlen (rx_missing a) + (n - rx_next a)
  end.
Proof.
  intros Hp Hn. assert (Hl : zlen p = zlen (rx_missing a))
    by (rewrite (zlen_Permutation _ _ Hp); apply zlen_fmap).
  rewrite tg_sn_prev_ser. unfold sn_pending_add_range.
  destruct (SN_MAX_PENDING <=? zlen p) eqn:E; zbool; [lia |].
  pose proof (zlen_nonneg p).
  pose proof (sn_add_loop_ser (Z.to_nat (n - rx_next a - 1)) (Z.to_nat SN_MAX_PENDING + 1) p (rx_next a)) as Ha.
  rewrite Z2Nat.id in Ha by lia. specialize (Ha ltac:(lia) ltac:(lia)).
  specialize (Ha ltac:(unfold SN_MAX_PENDING in *; lia)). cbv zeta in Ha.
  replace (rx_next a + (n - rx_next a - 1)) with (n - 1) in Ha by lia.
  replace (n - 1 + 1) with n in Ha by lia.
  destruct (_ <? _) eqn:E'; zbool.
  - rewrite Ha. split; [lia |]. by rewrite Hp, fmap_app.
  - destruct (sn_add_loop _ _ _ _) as [b p']. cbn in Ha. subst. lia.
Qed.

Definition wf_tracker (t : sn_tracker) : Prop :=
  tg_sn_valid (st_expected t) = true /\
  Forall (fun sn => tg_sn_valid sn = true) (st_pending t) /\
  zlen (st_pending t) <= SN_MAX_PENDING.

Lemma sn_add_loop_wf : forall fuel p sn to,
  Forall (fun sn => tg_sn_valid sn = true) p -> zlen p <= SN_MAX_PENDING ->
  tg_sn_valid sn = true ->
  let p' := snd (sn_add_loop fuel p sn to) in
  Forall (fun sn => tg_sn_valid sn = true) p' /\ zlen p' <= SN_MAX_PENDING.
Proof.
  induction fuel as [|fuel IH]; intros p sn to Hp Hl Hv; cbn [sn_add_loop]; [done |].
  destruct (_ <=? _) eqn:E; zbool; [done |].
  assert (zlen (p ++ [sn]) <= SN_MAX_PENDING) by (rewrite zlen_app; change (zlen [sn]) with 1; lia).
  assert (Forall (fun sn => tg_sn_valid sn = true) (p ++ [sn])) by (apply Forall_app_2; auto).
  destruct (_ =? _); [done |]. apply IH; auto with relay.
Qed.

Lemma sn_tracker_accept_wf t sn max_gap r t' f g : wf_tracker t ->
  sn_tracker_accept (Some t) sn max_gap = (r, t', f, g) ->
  exists t'', t' = Some t'' /\ wf_tracker t''.
Proof.
  intros Hw0. pose proof Hw0 as (He & Hp & Hl). unfold sn_tracker_accept.
  destruct (tg_sn_valid sn) eqn:Hv; cbn [negb]; [| intros; simplify_eq; by eexists].
  destruct (sn_pending_take sn (st_pending t)) as [p|] eqn:Et.
  { intros; simplify_eq. eexists. split; [done |]. apply sn_pending_take_incl in Et.
    split; [done |]. cbn. rewrite Et in Hp. apply Forall_cons_1 in Hp as [_ ?].
    apply zlen_Permutation in Et. rewrite zlen_cons in Et. split; [done | lia]. }
  assert (Hok : forall p, Forall (fun sn => tg_sn_valid sn = true) p -> zlen p <= SN_MAX_PENDING ->
    wf_tracker (mk_sn_tracker (tg_sn_next sn) true p))
    by (intros; split; [apply tg_sn_next_valid | done]).
  assert (Hnil : wf_tracker (mk_sn_tracker (tg_sn_next sn) true [])) by (apply Hok; done).
  assert (Hsame : wf_tracker (mk_sn_tracker (tg_sn_next sn) true (st_pending t))) by (by apply Hok).
  destruct (st_synced t); cbn [negb]; [| intros; simplify_eq; eauto].
  destruct (_ =? 0); [intros; simplify_eq; eauto |].
  destruct (_ <? _); [intros; simplify_eq; by eexists |].
  destruct (_ <=? _); [| intros; simplify_eq; eauto].
  destruct (sn_pending_add_range _ _ _) as [[] p] eqn:Ea; [| intros; simplify_eq; eauto].
  intros ?; simplify_eq. eexists. split; [done |].
  unfold sn_pending_add_range in Ea. destruct (_ <=? _); [done |].
  pose proof (sn_add_loop_wf (Z.to_nat SN_MAX_PENDING + 1) (st_pending t) (st_expected t) (tg_sn_prev sn) Hp Hl He) as Hw.
  rewrite Ea in Hw. destruct Hw. by apply Hok.
Qed.

Lemma sn_run_wf max_gap sns : forall t, wf_tracker t -> wf_tracker (snd (sn_run t max_gap sns)).
Proof.
  induction sns as [|sn sns IH]; intros t Ht; cbn [sn_run]; [done |].
  destruct (sn_tracker_accept (Some t) sn max_gap) as [[[r t'] f] g] eqn:E.
  apply sn_tracker_accept_wf in E as (t'' & -> & ?); [| done]. cbn.
  specialize (IH t'' ltac:(done)). by destruct (sn_run t'' max_gap sns).
Qed.

(** One arrival in the window, on tracker and specification. *)
Lemma sn_accept_simulates t a n max_gap :
  rx_repr t a -> rx_fresh a -> in_window a n ->
  exists t', sn_tracker_accept (Some t) (ser n) max_gap
    = (fst (rx_accept a n max_gap), Some t',
       (if bool_decide (fst (rx_accept a n max_gap) = SN_GAP) then ser (rx_next a) else 0),
       (if bool_decide (fst (rx_accept a n max_gap) = SN_GAP) then ser (n - 1) else 0))
    /\ rx_repr t' (snd (rx_accept a n max_gap)).
Proof.
  intros Hr Hf Hw. pose proof (ser_pending _ _ _ Hr Hw Hf) as Hin.
  destruct Hr as (Hsy & Hex & Hp & Hnd). unfold in_window in Hw.
  unfold sn_tracker_accept, rx_accept. rewrite ser_valid. cbn [negb].
  destruct (decide (n ∈ rx_missing a)) as [Hm | Hm].
  - rewrite bool_decide_eq_true_2 by done.
    destruct (sn_pending_take_Some (ser n) (st_pending t)) as (p' & -> & Hp'); [by apply Hin |].
    eexists. split; [done |]. repeat split; cbn; try done; [| by apply NoDup_filter].
    apply Permutation_cons_inv with (ser n). rewrite <- Hp', Hp.
    by rewrite (NoDup_filter_ne n (rx_missing a)) at 1.
  - rewrite bool_decide_eq_false_2 by done.
    rewrite sn_pending_take_None by (by rewrite Hin). rewrite Hsy, Hex, tg_sn_distance_ser. cbn [negb].
    change HALF with 499 in *. change (TG_SN_RANGE / 2) with 499. change TG_SN_RANGE with 999.
    destruct (n <? rx_next a) eqn:E1; zbool.
    { replace ((n - rx_next a) mod 999) with (n - rx_next a + 999)
        by (apply Z.mod_unique with (-1); lia).
      destruct (_ =? 0) eqn:E2; zbool; [lia |]. destruct (499 <? _) eqn:E3; zbool; [| lia].
      eexists. split; [done |]. by repeat split. }
    rewrite Z.mod_small by lia. rewrite tg_sn_next_ser.
    destruct (n =? rx_next a) eqn:E2; zbool.
    { subst n. rewrite Z.sub_diag. eexists. split; [done |]. by repeat split. }
    destruct (_ =? 0) eqn:E3; zbool; [lia |]. destruct (499 <? _) eqn:E4; zbool; [lia |].
    destruct (_ <=? max_gap) eqn:E5; cbn [andb]; [| eexists; split; [done |]; by repeat split; try constructor].
    pose proof (sn_add_range_ser (st_pending t) a n Hp) as Ha.
    change TG_SN_RANGE with 999 in Ha. specialize (Ha ltac:(lia)).
    destruct (sn_pending_add_range _ _ _) as [[] p'].
    + destruct Ha as [Hle Hp']. destruct (_ <=? SN_MAX_PENDING) eqn:E6; zbool; [| lia].
      rewrite tg_sn_prev_ser. eexists. split; [done |]. repeat split; cbn; try done.
      apply NoDup_app. split; [done |]. split; [| apply NoDup_span].
      intros m Hm1 Hm2%elem_of_span. specialize (Hf m Hm1). lia.
    + destruct (_ <=? SN_MAX_PENDING) eqn:E6; zbool; [lia |].
      eexists. split; [done |]. by repeat split; try constructor.
Qed.

(** ** Replaying a gap *)

Definition in_run (a : rx) (ns : list Z) : Prop := Forall (in_window a) ns.

(** Missing telegrams arriving, in any order, are each recognised once. *)
Lemma sn_run_recovers max_gap : forall ns t a, rx_repr t a -> rx_fresh a ->
  NoDup ns -> (forall n, n ∈ ns -> n ∈ rx_missing a) ->
  let '(rs, t') := sn_run t max_gap (ser <$> ns) in
  rs = replicate (length ns) SN_RECOVERED /\
  rx_repr t' (mk_rx (rx_next a) (filter (fun m => ~ m ∈ ns) (rx_missing a))).
Proof.
  induction ns as [|n ns IH]; intros t a Hr Hf Hnd Hin.
  - cbn. split; [done |]. destruct Hr as (? & ? & Hp & Hnd'). split_and!; try done; cbn.
    + rewrite Hp. f_equiv. symmetry. rewrite list_filter_all; [done |].
      intros ? ?. apply not_elem_of_nil.
    + by apply NoDup_filter.
  - cbn [fmap list_fmap sn_run]. apply NoDup_cons in Hnd as [Hn Hnd].
    assert (Hm : n ∈ rx_missing a) by (apply Hin; left).
    destruct (sn_accept_simulates t a n max_gap Hr Hf) as (t' & Heq & Hr').
    { specialize (Hf n Hm). unfold in_window. change HALF with 499 in *. lia. }
    rewrite Heq. unfold rx_accept in *. rewrite bool_decide_eq_true_2 in * by done. cbn in *.
    specialize (IH t' _ Hr').
    destruct (sn_run t' max_gap (ser <$> ns)) as [rs t''].
    destruct IH as [-> Hr'']; [| done | |].
    + intros m [_ ?]%list_elem_of_filter. by apply Hf.
    + intros m Hm'. cbn. apply list_elem_of_filter. split; [by intros -> | apply Hin; by right].
    + split; [done |]. destruct Hr'' as (? & ? & Hp & Hnd'). split_and!; try done; cbn in *.
      * rewrite Hp. rewrite list_filter_filter. f_equiv.
        erewrite list_filter_iff; [done |]. intros x. cbn. rewrite not_elem_of_cons. tauto.
      * apply NoDup_filter. destruct Hr as (_ & _ & _ & ?). done.
Qed.

(** * Properties *)

(** Claim C19. As long as an arrival is within half the serial space of the next
    expected telegram and every outstanding telegram is that recent, the
    tracker on wrapping serials classifies it exactly as the receiver with
    unbounded numbers: outstanding, old, next, recoverable gap (with the gap's
    bounds) or too large a gap, and the two states keep corresponding. *)
Theorem sn_tracker_refines t a n max_gap r t' f g :
  rx_repr t a -> rx_fresh a -> in_window a n ->
  sn_tracker_accept (Some t) (ser n) max_gap = (r, Some t', f, g) ->
  r = fst (rx_accept a n max_gap) /\ rx_repr t' (snd (rx_accept a n max_gap)) /\
  (r = SN_GAP -> f = ser (rx_next a) /\ g = ser (n - 1)).
Proof.
  intros Hr Hf Hw H. destruct (sn_accept_simulates t a n max_gap Hr Hf Hw) as (t'' & Heq & ?).
  rewrite Heq in H. injection H as <- <- <- <-. split; [done |]. split; [done |].
  intros ->. by rewrite !bool_decide_eq_true_2.
Qed.

Lemma sn_tracker_refines_witness :
  fst (rx_accept (mk_rx 999 [998]) 1002 64) = SN_GAP /\
  rx_repr (mk_sn_tracker 5 true [999; 1; 2; 3]) (snd (rx_accept (mk_rx 999 [998]) 1002 64)).
Proof.
  destruct (sn_tracker_refines (mk_sn_tracker 1 true [999]) (mk_rx 999 [998]) 1002 64
    SN_GAP (mk_sn_tracker 5 true [999; 1; 2; 3]) 1 3) as (H1 & H2 & H3).
  - split_and!; try done; cbn. apply NoDup_singleton.
  - intros m ->%list_elem_of_singleton. cbn. change HALF with 499. lia.
  - unfold in_window. cbn. change HALF with 499. lia.
  - vm_compute. reflexivity.
  - split; [reflexivity | exact H2].
Defined.

(** Claim C20. After a gap, the replayed telegrams are recognised: delivered in
    any order, each of the missing telegrams is classified SN_RECOVERED, the
    outstanding set ends empty and the expected serial has not moved, so the gap
    is closed and later replays of the same telegrams are duplicates. *)
Theorem sn_gap_closes t a max_gap ns : rx_repr t a -> rx_fresh a ->
  ns ≡ₚ rx_missing a ->
  let '(rs, t') := sn_run t max_gap (ser <$> ns) in
  rs = replicate (length ns) SN_RECOVERED /\ st_pending t' = [] /\
  st_expected t' = st_expected t /\ st_synced t' = true.
Proof.
  intros Hr Hf Hp. assert (Hnd : NoDup ns) by (rewrite Hp; apply Hr).
  pose proof (sn_run_recovers max_gap ns t a Hr Hf Hnd) as H.
  specialize (H ltac:(intros n; by rewrite Hp)).
  destruct (sn_run t max_gap (ser <$> ns)) as [rs t']. destruct H as [-> (Hs & He & Hq & _)].
  split; [done |]. split; [| split; [| done]].
  - cbn in Hq. rewrite list_filter_none in Hq; [by apply Permutation_nil_r in Hq |].
    intros m Hm. rewrite Hp. tauto.
  - cbn in He. rewrite He. symmetry. apply Hr.
Qed.

Lemma sn_gap_closes_witness :
  let '(rs, t') := sn_run (mk_sn_tracker 4 true [999; 1; 2]) 64 [1; 999; 2] in
  rs = [SN_RECOVERED; SN_RECOVERED; SN_RECOVERED] /\ st_pending t' = [] /\
  st_expected t' = 4 /\ st_synced t' = true.
Proof.
  apply (sn_gap_closes (mk_sn_tracker 4 true [999; 1; 2]) (mk_rx 1002 [998; 999; 1000]) 64
    [999; 998; 1000]).
  - split_and!; try done. apply NoDup_ListNoDup. repeat constructor; cbn; lia.
  - intros m [-> | [-> | ->%list_elem_of_singleton]%elem_of_cons]%elem_of_cons;
      cbn; change HALF with 499; lia.
  - cbn. solve_Permutation.
Defined.

(** Claim C21. Whatever serials arrive, after start-up or a restart, the expected
    serial stays in 1..999 and the outstanding set stays within its 256-entry
    array and holds valid serials only. *)
Theorem sn_tracker_invariant first last max_gap sns :
  wf_tracker (snd (sn_run (sn_tracker_init first) max_gap sns)) /\
  wf_tracker (snd (sn_run (sn_tracker_resume last) max_gap sns)).
Proof.
  assert (Hi : forall z, wf_tracker (sn_tracker_init z)).
  { intros z. unfold sn_tracker_init. split_and!; try done; cbn.
    by destruct (tg_sn_valid z) eqn:E. }
  split; apply sn_run_wf; [done |]. unfold sn_tracker_resume.
  destruct (tg_sn_valid last); cbn [negb]; [| done].
  destruct (Hi (tg_sn_next last)) as (? & _). split_and!; done.
Qed.

(** An outstanding telegram that is never replayed is not forgotten:
    a whole serial cycle later the tracker takes a new telegram for its replay,
    does not advance, and reports the next telegram as a gap, asking the peer to
    replay a telegram it has just received. *)
Theorem sn_stale_pending_misclassifies :
  let cycle := [1; 3] ++ (Z.of_nat <$> seq 4 996) ++ [1] in
  let t := snd (sn_run (sn_tracker_init 1) 64 cycle) in
  let stuck := mk_sn_tracker 2 true [] in
  st_expected t = 2 /\
  sn_tracker_accept (Some t) 2 64 = (SN_RECOVERED, Some stuck, 0, 0) /\
  sn_tracker_accept (Some stuck) 3 64 = (SN_GAP, Some (mk_sn_tracker 4 true [2]), 2, 2).
Proof. split_and!; vm_compute; reflexivity. Qed.
