(* ===== verification/MsgQueue.v ===== *)
(** * The store-and-forward queue ([src/msg_queue.c], [src/msg_queue.h])

    The fixed ring of telegrams waiting to be delivered or acknowledged: data,
    every operation with the assertions the code makes, the invariant those
    assertions express, an abstract queue that the ring refines, arrival order,
    and the bound on delivery attempts. *)

From S2P Require Import Prelude.
From S2P Require Import CString.

(** ** Configuration

    The sizes and times are preprocessor constants a build may override. The
    first three laws are the file's [_Static_assert]s; the others hold of every
    build whose constants fit the integers that carry them and whose
    acknowledgement window is not shorter than the retry spacing. *)
Class mq_config := {
  MQ_CAPACITY : nat;
  MQ_PAYLOAD_MAX : Z;
  MQ_ACK_TIMEOUT_SEC : Z;
  MQ_RETRY_BACKOFF_SEC : Z;
  MQ_MAX_ATTEMPTS : Z;
  capacity_pos : (0 < MQ_CAPACITY)%nat;
  payload_min : 1024 <= MQ_PAYLOAD_MAX;
  attempts_pos : 0 < MQ_MAX_ATTEMPTS;
  capacity_u32 : Z.of_nat MQ_CAPACITY < 2 ^ 32;
  payload_u32 : MQ_PAYLOAD_MAX < 2 ^ 32;
  attempts_int : MQ_MAX_ATTEMPTS <= INT_MAX;
  timeout_backoff : 0 <= MQ_RETRY_BACKOFF_SEC <= MQ_ACK_TIMEOUT_SEC }.

(** The values of the header. *)
Program Definition mq_default : mq_config := {|
  MQ_CAPACITY := Z.to_nat 4048; MQ_PAYLOAD_MAX := 1372; MQ_ACK_TIMEOUT_SEC := 25;
  MQ_RETRY_BACKOFF_SEC := 1; MQ_MAX_ATTEMPTS := 8 |}.
Solve All Obligations with (unfold INT_MAX; lia).

(** A three-slot build, small enough to run examples on. *)
Program Definition mq_small : mq_config := {|
  MQ_CAPACITY := 3; MQ_PAYLOAD_MAX := 1024; MQ_ACK_TIMEOUT_SEC := 25;
  MQ_RETRY_BACKOFF_SEC := 1; MQ_MAX_ATTEMPTS := 2 |}.
Solve All Obligations with (unfold INT_MAX; cbn; lia).

(** ** Codes *)

Definition MQ_OK : Z := 0.
Definition MQ_ERR_RANGE : Z := -1.
Definition MQ_ERR_FULL : Z := -2.
Definition MQ_ERR_NOTFOUND : Z := -3.

Definition MQ_SEND_FATAL : Z := -1.
Definition MQ_SEND_RETRYABLE : Z := -2.

Inductive mq_outcome : Type :=
| MQ_OUTCOME_IDLE | MQ_OUTCOME_SENT | MQ_OUTCOME_DEFERRED | MQ_OUTCOME_DROPPED.

(** ** State *)

Inductive mq_slot_state : Type :=
| MQ_SLOT_FREE | MQ_SLOT_PENDING | MQ_SLOT_AWAITING_ACK.

Record mq_entry : Type := mk_entry {
  e_len : Z;
  e_enqueued_at : Z;
  e_last_attempt : Z;
  e_receipt : Z;
  e_friendnum : Z;
  e_attempts : Z;
  e_state : mq_slot_state;
  e_attempted : bool;
  e_payload : bytes }.

Record mq_stats : Type := mk_stats {
  total_enqueued : Z;
  total_sent : Z;
  total_confirmed : Z;
  total_dropped : Z;
  total_full_rejections : Z }.

(** A call of an installed hook. *)
Inductive mq_event : Type :=
| EvDrop (friendnum attempts : Z)
| EvChange.

(** The static variables of the file. A hook is represented by whether it is
    installed, its calls by [q_events]. *)
Record mq : Type := mk_mq {
  g_ring : list mq_entry;
  g_head : nat;
  g_tail : nat;
  g_count : nat;
  g_in_flight : nat;
  g_stats : mq_stats;
  g_drop_fn : bool;
  g_change_fn : bool;
  q_events : list mq_event }.

Definition is_free (e : mq_entry) : bool :=
  match e_state e with MQ_SLOT_FREE => true | _ => false end.
Definition is_awaiting (e : mq_entry) : bool :=
  match e_state e with MQ_SLOT_AWAITING_ACK => true | _ => false end.
Definition is_stored (e : mq_entry) : bool := negb (is_free e).

(** A field assignment through the code's [e] or to one of the globals. *)
Definition put (q : mq) (i : nat) (e : mq_entry) : mq :=
  mk_mq (upd (g_ring q) i e) (g_head q) (g_tail q) (g_count q) (g_in_flight q) (g_stats q)
    (g_drop_fn q) (g_change_fn q) (q_events q).
Definition set_head (q : mq) (h : nat) : mq :=
  mk_mq (g_ring q) h (g_tail q) (g_count q) (g_in_flight q) (g_stats q)
    (g_drop_fn q) (g_change_fn q) (q_events q).
Definition set_tail (q : mq) (t : nat) : mq :=
  mk_mq (g_ring q) (g_head q) t (g_count q) (g_in_flight q) (g_stats q)
    (g_drop_fn q) (g_change_fn q) (q_events q).
Definition set_count (q : mq) (n : nat) : mq :=
  mk_mq (g_ring q) (g_head q) (g_tail q) n (g_in_flight q) (g_stats q)
    (g_drop_fn q) (g_change_fn q) (q_events q).
Definition set_in_flight (q : mq) (n : nat) : mq :=
  mk_mq (g_ring q) (g_head q) (g_tail q) (g_count q) n (g_stats q)
    (g_drop_fn q) (g_change_fn q) (q_events q).
Definition set_stats (q : mq) (s : mq_stats) : mq :=
  mk_mq (g_ring q) (g_head q) (g_tail q) (g_count q) (g_in_flight q) s
    (g_drop_fn q) (g_change_fn q) (q_events q).
Definition emit (q : mq) (ev : mq_event) : mq :=
  mk_mq (g_ring q) (g_head q) (g_tail q) (g_count q) (g_in_flight q) (g_stats q)
    (g_drop_fn q) (g_change_fn q) (q_events q ++ [ev]).

Definition bump_enqueued s := mk_stats (u64 (total_enqueued s + 1)) (total_sent s)
  (total_confirmed s) (total_dropped s) (total_full_rejections s).
Definition bump_sent s := mk_stats (total_enqueued s) (u64 (total_sent s + 1))
  (total_confirmed s) (total_dropped s) (total_full_rejections s).
Definition bump_confirmed s := mk_stats (total_enqueued s) (total_sent s)
  (u64 (total_confirmed s + 1)) (total_dropped s) (total_full_rejections s).
Definition bump_dropped s := mk_stats (total_enqueued s) (total_sent s)
  (total_confirmed s) (u64 (total_dropped s + 1)) (total_full_rejections s).
Definition bump_full s := mk_stats (total_enqueued s) (total_sent s)
  (total_confirmed s) (total_dropped s) (u64 (total_full_rejections s + 1)).

Section Queue.
Context `{cfg : mq_config}.

(** ** Internal helpers *)

Definition next_slot (i : nat) : nat := ((i + 1) mod MQ_CAPACITY)%nat.

Definition mq_check_invariants (q : mq) : bool :=
  (g_head q <? MQ_CAPACITY)%nat && (g_tail q <? MQ_CAPACITY)%nat &&
  (g_count q <=? MQ_CAPACITY)%nat &&
  (count is_stored (g_ring q) =? g_count q)%nat &&
  (count is_awaiting (g_ring q) =? g_in_flight q)%nat.

Definition mq_release_slot (q : mq) (i : nat) : option mq :=
  do! e := g_ring q !! i;
  assert! is_stored e;
  assert! negb (is_awaiting e) || (0 <? g_in_flight q)%nat;
  let q := if is_awaiting e then set_in_flight q (g_in_flight q - 1) else q in
  assert! (0 <? g_count q)%nat;
  let q := set_count q (g_count q - 1) in
  do! payload := store (e_payload e) 0 NUL;
  Some (put q i (mk_entry 0 (e_enqueued_at e) (e_last_attempt e) (-1) (e_friendnum e) 0
    MQ_SLOT_FREE false payload)).

Definition mq_notify_change (q : mq) : mq :=
  if g_change_fn q then emit q EvChange else q.

Definition mq_retire (q : mq) (i : nat) : option mq :=
  do! e := g_ring q !! i;
  do! q := mq_release_slot q i;
  let q := set_stats q (bump_dropped (g_stats q)) in
  let q := if g_drop_fn q then emit q (EvDrop (e_friendnum e) (e_attempts e)) else q in
  Some (mq_notify_change q).

(** The loop of [mq_find_free_slot]: whether a slot was found, and [g_tail]. *)
Fixpoint find_free (n : nat) (ring : list mq_entry) (tail : nat) : option (bool * nat) :=
  match n with
  | O => Some (false, tail)
  | S n =>
    do! e := ring !! tail;
    if is_free e then Some (true, tail) else find_free n ring (next_slot tail)
  end.

Definition mq_find_free_slot (q : mq) : option (option nat * mq) :=
  do! (found, tail) := find_free MQ_CAPACITY (g_ring q) (g_tail q);
  Some (if found then Some tail else None, set_tail q tail).

(** The [while] of [mq_advance_head]; [None] also when it does not stop within
    [n] steps. *)
Fixpoint skip_free (n : nat) (ring : list mq_entry) (head : nat) : option nat :=
  do! e := ring !! head;
  if is_free e then
    match n with O => None | S n => skip_free n ring (next_slot head) end
  else Some head.

Definition mq_advance_head (q : mq) : option mq :=
  if (0 <? g_count q)%nat
  then do! head := skip_free MQ_CAPACITY (g_ring q) (g_head q); Some (set_head q head)
  else Some (set_head q (g_tail q)).

(** ** Public interface *)

Definition zero_entry : mq_entry :=
  mk_entry 0 0 0 0 0 0 MQ_SLOT_FREE false (replicate (Z.to_nat MQ_PAYLOAD_MAX) NUL).

Definition mq_init : option mq :=
  let e := zero_entry in
  let e := mk_entry (e_len e) (e_enqueued_at e) (e_last_attempt e) (-1) (e_friendnum e)
             (e_attempts e) MQ_SLOT_FREE (e_attempted e) (e_payload e) in
  let q := mk_mq (replicate MQ_CAPACITY e) 0 0 0 0 (mk_stats 0 0 0 0 0) false false [] in
  assert! mq_check_invariants q;
  Some q.

Definition mq_count (q : mq) : nat := g_count q.
Definition mq_is_empty (q : mq) : bool := (g_count q =? 0)%nat.
Definition mq_is_full (q : mq) : bool := (g_count q =? MQ_CAPACITY)%nat.
Definition mq_in_flight (q : mq) : nat := g_in_flight q.

Definition mq_set_drop_hook (q : mq) (fn : bool) : mq :=
  mk_mq (g_ring q) (g_head q) (g_tail q) (g_count q) (g_in_flight q) (g_stats q)
    fn (g_change_fn q) (q_events q).
Definition mq_set_change_hook (q : mq) (fn : bool) : mq :=
  mk_mq (g_ring q) (g_head q) (g_tail q) (g_count q) (g_in_flight q) (g_stats q)
    (g_drop_fn q) fn (q_events q).

(** [mq_stats_get]: capacity, occupancy, in flight and the running totals. *)
Definition mq_stats_get (q : mq) : nat * nat * nat * mq_stats :=
  (MQ_CAPACITY, g_count q, g_in_flight q, g_stats q).

(** The walk of [mq_foreach]; the visitor threads its context [x]. *)
Fixpoint foreach_loop {X} (fn : X -> Z -> bytes -> X) (n i visited : nat) (x : X) (q : mq)
    : option X :=
  match n with
  | O => Some x
  | S n =>
    if (visited <? g_count q)%nat then
      do! e := g_ring q !! ((g_head q + i) mod MQ_CAPACITY)%nat;
      if is_free e then foreach_loop fn n (S i) visited x q
      else foreach_loop fn n (S i) (S visited)
             (fn x (e_friendnum e) (take (Z.to_nat (e_len e)) (e_payload e))) q
    else Some x
  end.

Definition mq_foreach {X} (fn : option (X -> Z -> bytes -> X)) (x : X) (q : mq) : option X :=
  match fn with
  | None => Some x
  | Some fn => foreach_loop fn MQ_CAPACITY 0 0 x q
  end.

Definition mq_enqueue (q : mq) (friendnum : Z) (payload : option bytes) (len now : Z)
    : option (Z * mq) :=
  match payload with
  | None => Some (MQ_ERR_RANGE, q)
  | Some payload =>
    if (friendnum <? 0) || (len =? 0) || (MQ_PAYLOAD_MAX <=? len) then Some (MQ_ERR_RANGE, q)
    else
      do! (slot, q) := mq_find_free_slot q;
      match slot with
      | None => Some (MQ_ERR_FULL, set_stats q (bump_full (g_stats q)))
      | Some slot =>
        do! e := g_ring q !! slot;
        do! buf := memcpy (e_payload e) payload len;
        do! buf := store buf len NUL;
        let q := put q slot (mk_entry len now 0 (-1) friendnum 0 MQ_SLOT_PENDING false buf) in
        let q := set_count q (g_count q + 1) in
        let q := set_stats q (bump_enqueued (g_stats q)) in
        let q := if (g_count q =? 1)%nat then set_head q slot else q in
        let q := set_tail q (next_slot slot) in
        assert! mq_check_invariants q;
        Some (MQ_OK, mq_notify_change q)
      end
  end.

Definition confirms (friendnum receipt : Z) (e : mq_entry) : bool :=
  is_awaiting e && (e_friendnum e =? friendnum) && (e_receipt e =? receipt).

(** The scan of [mq_confirm] over the ring, from index [i]. *)
Fixpoint confirm_loop (friendnum receipt : Z) (l : list mq_entry) (i : nat) : option nat :=
  match l with
  | [] => None
  | e :: l => if confirms friendnum receipt e then Some i
              else confirm_loop friendnum receipt l (S i)
  end.

Definition mq_confirm (q : mq) (friendnum receipt : Z) : option (Z * mq) :=
  if (friendnum <? 0) || (receipt <? 0) then Some (MQ_ERR_RANGE, q)
  else
    match confirm_loop friendnum receipt (g_ring q) 0 with
    | None => Some (MQ_ERR_NOTFOUND, q)
    | Some i =>
      do! q := mq_release_slot q i;
      let q := set_stats q (bump_confirmed (g_stats q)) in
      do! q := mq_advance_head q;
      assert! mq_check_invariants q;
      Some (MQ_OK, mq_notify_change q)
    end.

Section Service.
Context {X : Type}.

(** The transport: a result for one call, threading its own state. *)
Variable tx : X -> Z -> bytes -> Z * X.

(** Retirement from [mq_service]. *)
Definition service_drop (x : X) (q : mq) (idx : nat) : option (option mq_outcome * X * mq) :=
  do! q := mq_retire q idx;
  do! q := mq_advance_head q;
  assert! mq_check_invariants q;
  Some (Some MQ_OUTCOME_DROPPED, x, q).

(** The part of the loop body that treats [e] as [MQ_SLOT_PENDING]. [None] in
    the first component is the code's [continue]. *)
Definition service_pending (x : X) (q : mq) (now : Z) (idx : nat) (e : mq_entry)
    : option (option mq_outcome * X * mq) :=
  if e_attempted e && (now - e_last_attempt e <? MQ_RETRY_BACKOFF_SEC) then Some (None, x, q)
  else
    let '(rc, x) := tx x (e_friendnum e) (take (Z.to_nat (e_len e)) (e_payload e)) in
    if 0 <=? rc then
      let q := put q idx (mk_entry (e_len e) (e_enqueued_at e) now rc (e_friendnum e)
        (e_attempts e) MQ_SLOT_AWAITING_ACK true (e_payload e)) in
      let q := set_in_flight q (g_in_flight q + 1) in
      let q := set_stats q (bump_sent (g_stats q)) in
      assert! mq_check_invariants q;
      Some (Some MQ_OUTCOME_SENT, x, q)
    else
      let e := mk_entry (e_len e) (e_enqueued_at e) now (e_receipt e) (e_friendnum e)
        (u32 (e_attempts e + 1)) (e_state e) true (e_payload e) in
      let q := put q idx e in
      if (rc =? MQ_SEND_FATAL) || (MQ_MAX_ATTEMPTS <=? e_attempts e)
      then service_drop x q idx
      else
        assert! mq_check_invariants q;
        Some (Some MQ_OUTCOME_DEFERRED, x, q).

(** One iteration of the loop of [mq_service]. *)
Definition service_entry (x : X) (q : mq) (now : Z) (idx : nat)
    : option (option mq_outcome * X * mq) :=
  do! e := g_ring q !! idx;
  match e_state e with
  | MQ_SLOT_FREE => Some (None, x, q)
  | MQ_SLOT_PENDING => service_pending x q now idx e
  | MQ_SLOT_AWAITING_ACK =>
    if now - e_last_attempt e <? MQ_ACK_TIMEOUT_SEC then Some (None, x, q)
    else
      assert! (0 <? g_in_flight q)%nat;
      let q := set_in_flight q (g_in_flight q - 1) in
      let e := mk_entry (e_len e) (e_enqueued_at e) (e_last_attempt e) (-1) (e_friendnum e)
        (u32 (e_attempts e + 1)) MQ_SLOT_PENDING (e_attempted e) (e_payload e) in
      let q := put q idx e in
      if MQ_MAX_ATTEMPTS <=? e_attempts e then service_drop x q idx
      else service_pending x q now idx e
  end.

Fixpoint service_loop (n idx : nat) (x : X) (q : mq) (now : Z)
    : option (mq_outcome * X * mq) :=
  match n with
  | O => Some (MQ_OUTCOME_IDLE, x, q)
  | S n =>
    do! (out, x, q) := service_entry x q now idx;
    match out with
    | Some out => Some (out, x, q)
    | None => service_loop n (next_slot idx) x q now
    end
  end.

End Service.

Definition mq_service {X} (tx : option (X -> Z -> bytes -> Z * X)) (x : X) (q : mq) (now : Z)
    : option (mq_outcome * X * mq) :=
  match tx with
  | None => Some (MQ_OUTCOME_IDLE, x, q)
  | Some tx =>
    if (g_count q =? 0)%nat then Some (MQ_OUTCOME_IDLE, x, q)
    else
      do! q := mq_advance_head q;
      service_loop tx MQ_CAPACITY (g_head q) x q now
  end.

End Queue.

(** ** The invariant

    What [mq_check_invariants] tests, and what the entries must satisfy for the
    tests to keep holding: stored lengths fit the slot, a stored message has
    attempts left, and an in-flight one has a receipt and has been attempted. *)
Section Invariant.
Context `{cfg : mq_config}.

Definition wf_entry (e : mq_entry) : Prop :=
  zlen (e_payload e) = MQ_PAYLOAD_MAX /\
  (is_stored e = true ->
    0 < e_len e < MQ_PAYLOAD_MAX /\ 0 <= e_friendnum e /\
    0 <= e_attempts e < MQ_MAX_ATTEMPTS) /\
  (is_awaiting e = true -> 0 <= e_receipt e /\ e_attempted e = true).

Record wf_mq (q : mq) : Prop := {
  wf_length : length (g_ring q) = MQ_CAPACITY;
  wf_head : (g_head q < MQ_CAPACITY)%nat;
  wf_tail : (g_tail q < MQ_CAPACITY)%nat;
  wf_count : count is_stored (g_ring q) = g_count q;
  wf_in_flight : count is_awaiting (g_ring q) = g_in_flight q;
  wf_entries : forall i e, g_ring q !! i = Some e -> wf_entry e }.

(** Every message ever accepted is stored, confirmed or dropped (modulo the
    width of the counters). *)
Definition balanced (q : mq) : Prop :=
  u64 (total_enqueued (g_stats q)) =
  u64 (total_confirmed (g_stats q) + total_dropped (g_stats q) + Z.of_nat (g_count q)).

Lemma next_slot_lt i : (next_slot i < MQ_CAPACITY)%nat.
Proof. apply Nat.mod_upper_bound. pose proof capacity_pos; lia. Qed.

Lemma check_wf q : wf_mq q -> mq_check_invariants q = true.
Proof.
  intros H. unfold mq_check_invariants. rewrite (wf_count _ H), (wf_in_flight _ H), !Nat.eqb_refl.
  rewrite (proj2 (Nat.ltb_lt _ _) (wf_head _ H)), (proj2 (Nat.ltb_lt _ _) (wf_tail _ H)).
  pose proof (count_le_length is_stored (g_ring q)) as Hl.
  rewrite (wf_length _ H), (wf_count _ H) in Hl. by rewrite (proj2 (Nat.leb_le _ _) Hl).
Qed.

Lemma awaiting_stored e : is_awaiting e = true -> is_stored e = true.
Proof. unfold is_awaiting, is_stored, is_free. by destruct (e_state e). Qed.

Lemma stored_not_free e : is_free e = negb (is_stored e).
Proof. unfold is_stored. by rewrite negb_involutive. Qed.

Lemma ring_lookup q i : wf_mq q -> (i < MQ_CAPACITY)%nat ->
  exists e, g_ring q !! i = Some e /\ wf_entry e.
Proof.
  intros H Hi. rewrite <- (wf_length _ H) in Hi.
  destruct (lookup_lt_is_Some_2 _ _ Hi) as [e He]. exists e. split; [done |].
  by apply (wf_entries _ H) in He.
Qed.

(** Overwriting one slot keeps the invariant when the counters move by the
    change of that slot. Every operation is an instance. *)
Lemma wf_put q i e e' q' : wf_mq q -> g_ring q !! i = Some e -> wf_entry e' ->
  g_ring q' = upd (g_ring q) i e' ->
  (g_count q' + b2n (is_stored e) = g_count q + b2n (is_stored e'))%nat ->
  (g_in_flight q' + b2n (is_awaiting e) = g_in_flight q + b2n (is_awaiting e'))%nat ->
  (g_head q' < MQ_CAPACITY)%nat -> (g_tail q' < MQ_CAPACITY)%nat -> wf_mq q'.
Proof.
  intros H He Hw Hr Hc Hf Hh Ht.
  pose proof (count_upd is_stored _ _ _ e' He) as H1.
  pose proof (count_upd is_awaiting _ _ _ e' He) as H2.
  pose proof (wf_count _ H); pose proof (wf_in_flight _ H).
  split; try rewrite Hr; [rewrite length_upd; apply (wf_length _ H) | done | done | lia | lia |].
  intros j d [(_ & -> & _) | [_ Hd]]%lookup_upd_Some; [done |]. by apply (wf_entries _ H) in Hd.
Qed.

(** The invariant speaks only of the ring, the indices and the two counters. *)
Lemma wf_same q q' : wf_mq q -> g_ring q' = g_ring q -> g_count q' = g_count q ->
  g_in_flight q' = g_in_flight q -> (g_head q' < MQ_CAPACITY)%nat ->
  (g_tail q' < MQ_CAPACITY)%nat -> wf_mq q'.
Proof. intros [] H1 H2 H3 ? ?. split; try rewrite H1; first [congruence | done]. Qed.

(** The ring read in visiting order, and the stored messages in that order. *)
Definition walk (q : mq) : list mq_entry := rot (g_head q) (g_ring q).
Definition stored (q : mq) : list mq_entry := filter (fun e => is_stored e = true) (walk q).

End Invariant.

(** ** Slots and the walk *)
Section Operations.
Context `{cfg : mq_config}.
Implicit Types (q : mq) (e : mq_entry).

Definition storedP e : Prop := is_stored e = true.
#[global] Instance storedP_dec e : Decision (storedP e) := decide (is_stored e = true).

Lemma cap_len q : wf_mq q -> length (walk q) = MQ_CAPACITY.
Proof. intros H. unfold walk. by rewrite length_rot, (wf_length _ H). Qed.

(** Where index [i] lies in the walk, and what the walk is around it. *)
Lemma walk_at q i e : wf_mq q -> g_ring q !! i = Some e ->
  walk q !! off MQ_CAPACITY (g_head q) i = Some e.
Proof.
  intros H He. pose proof (lookup_lt_Some _ _ _ He) as Hi. pose proof (wf_head _ H) as Hh.
  pose proof (wf_length _ H) as Hl. unfold walk. rewrite Hl in Hi.
  rewrite rot_lookup; rewrite Hl; [| done |].
  - by rewrite off_add.
  - apply off_lt. lia.
Qed.

Lemma walk_upd q i e : wf_mq q -> (i < MQ_CAPACITY)%nat ->
  rot (g_head q) (upd (g_ring q) i e) = upd (walk q) (off MQ_CAPACITY (g_head q) i) e.
Proof.
  intros H Hi. pose proof (wf_head _ H) as Hh. unfold walk.
  rewrite rot_upd; rewrite (wf_length _ H); done.
Qed.

(** The stored messages around slot [i]: those visited before it and after it. *)
Definition before q i : list mq_entry :=
  filter storedP (take (off MQ_CAPACITY (g_head q) i) (walk q)).
Definition after q i : list mq_entry :=
  filter storedP (drop (S (off MQ_CAPACITY (g_head q) i)) (walk q)).
Definition keep e : list mq_entry := if is_stored e then [e] else [].

Lemma filter_keep e l : filter storedP (e :: l) = keep e ++ filter storedP l.
Proof.
  unfold keep. destruct (is_stored e) eqn:E.
  - by rewrite filter_cons_True.
  - rewrite filter_cons_False; [done |]. unfold storedP. congruence.
Qed.

Lemma stored_at q i e : wf_mq q -> g_ring q !! i = Some e ->
  stored q = before q i ++ keep e ++ after q i.
Proof.
  intros H He. pose proof (walk_at _ _ _ H He) as Hw. unfold stored, before, after.
  destruct (upd_split _ _ _ e Hw) as [Hs _]. change (filter (fun d => is_stored d = true) (walk q))
    with (filter storedP (walk q)). rewrite Hs at 1.
  by rewrite filter_app, filter_keep.
Qed.

(** After slot [i] is overwritten, read from the same head. *)
Lemma stored_put q i e e' q' : wf_mq q -> g_ring q !! i = Some e ->
  g_ring q' = upd (g_ring q) i e' -> g_head q' = g_head q ->
  stored q' = before q i ++ keep e' ++ after q i.
Proof.
  intros H He Hr Hh. pose proof (walk_at _ _ _ H He) as Hw. unfold stored, before, after.
  pose proof (lookup_lt_Some _ _ _ He) as Hi. rewrite (wf_length _ H) in Hi.
  change (filter (fun d => is_stored d = true) (walk q')) with (filter storedP (walk q')).
  assert (walk q' = upd (walk q) (off MQ_CAPACITY (g_head q) i) e') as ->.
  { unfold walk at 1. rewrite Hr, Hh. by apply walk_upd. }
  destruct (upd_split _ _ _ e' Hw) as [_ ->]. by rewrite filter_app, filter_keep.
Qed.

Lemma count_filter l : count is_stored l = length (filter storedP l).
Proof.
  induction l as [|e l IH]; [done |]. rewrite filter_keep, length_app. cbn [count].
  unfold keep. destruct (is_stored e); cbn; lia.
Qed.

Lemma count_rot h (l : list mq_entry) : count is_stored (rot h l) = count is_stored l.
Proof. unfold rot. rewrite count_app, Nat.add_comm, <- count_app, take_drop. done. Qed.

Lemma stored_count q : wf_mq q -> length (stored q) = g_count q.
Proof.
  intros H. unfold stored. change (filter _ (walk q)) with (filter storedP (walk q)).
  rewrite <- count_filter. unfold walk. rewrite count_rot. apply H.
Qed.

Lemma stored_nil q : wf_mq q -> g_count q = 0%nat -> stored q = [].
Proof. intros H Hc. apply nil_length_inv. by rewrite stored_count. Qed.

Lemma stored_elem q e : wf_mq q -> e ∈ stored q -> is_stored e = true /\ wf_entry e.
Proof.
  intros H [Hs [i Hi]%list_elem_of_lookup]%list_elem_of_filter. split; [done |].
  pose proof (lookup_lt_Some _ _ _ Hi) as Hl. unfold walk in Hi, Hl.
  rewrite length_rot in Hl. rewrite rot_lookup in Hi; [| | done].
  - by apply (wf_entries _ H) in Hi.
  - rewrite (wf_length _ H). apply H.
Qed.

(** Moving the head over free slots, or anywhere in an empty ring, changes
    nothing a visitor sees. *)
Lemma stored_skip q : wf_mq q -> (forall e, g_ring q !! g_head q = Some e -> is_stored e = false) ->
  stored (set_head q (next_slot (g_head q))) = stored q.
Proof.
  intros H Hf. destruct (ring_lookup q (g_head q) H (wf_head _ H)) as (e & He & _).
  destruct (rot_step _ _ _ He) as (t & H1 & H2). rewrite (wf_length _ H) in H2.
  unfold stored, walk. cbn [g_head g_ring set_head]. unfold next_slot. rewrite H1, H2.
  specialize (Hf e He). rewrite filter_app, filter_cons_False, filter_cons_False by congruence.
  by rewrite filter_nil, app_nil_r.
Qed.

Lemma skip_free_ok n q : wf_mq q -> (0 < g_count q)%nat ->
  (forall k e, (k < MQ_CAPACITY - n)%nat ->
     walk q !! (MQ_CAPACITY - 1 - k)%nat = Some e -> is_stored e = false) ->
  (n <= MQ_CAPACITY)%nat ->
  exists h, skip_free n (g_ring q) (g_head q) = Some h /\ wf_mq (set_head q h) /\
    stored (set_head q h) = stored q /\
    exists e, g_ring q !! h = Some e /\ is_stored e = true.
Proof.
  revert q. induction n as [|n IH]; intros q H Hc Hf Hn;
    destruct (ring_lookup q (g_head q) H (wf_head _ H)) as (e & He & _);
    cbn [skip_free]; rewrite He, stored_not_free; destruct (is_stored e) eqn:Es; cbn [negb].
  1, 3: exists (g_head q); split_and!; [done | by destruct q | by destruct q | by exists e].
  - exfalso. pose proof (stored_count _ H) as Hs. unfold stored in Hs.
    rewrite list_filter_none in Hs; [cbn in Hs; lia |].
    intros d [k Hk]%list_elem_of_lookup. pose proof (lookup_lt_Some _ _ _ Hk) as Hl.
    rewrite (cap_len _ H) in Hl. rewrite (Hf (MQ_CAPACITY - 1 - k)%nat d); [done | lia |].
    by replace (MQ_CAPACITY - 1 - (MQ_CAPACITY - 1 - k))%nat with k by lia.
  - destruct (rot_step _ _ _ He) as (t & H1 & H2). rewrite (wf_length _ H) in H2.
    set (q1 := set_head q (next_slot (g_head q))).
    assert (Hq1 : wf_mq q1) by (apply (wf_same q); try done; [apply next_slot_lt | apply H]).
    assert (Hlt : length t = (MQ_CAPACITY - 1)%nat).
    { pose proof (cap_len _ Hq1) as Hl. unfold walk, q1 in Hl. cbn [g_head g_ring set_head] in Hl.
      unfold next_slot in Hl. rewrite H2, length_app in Hl. cbn in Hl. lia. }
    destruct (IH q1 Hq1 Hc) as (h & Hs & Hw & Hst & Hoc); [| lia |].
    + intros k d Hk Hd. unfold walk, q1 in Hd. cbn [g_head g_ring set_head] in Hd.
      unfold next_slot in Hd. rewrite H2 in Hd.
      destruct (decide (k = 0)%nat) as [-> | Hk0].
      * rewrite lookup_app_r in Hd by lia. rewrite Hlt in Hd.
        replace (MQ_CAPACITY - 1 - 0 - (MQ_CAPACITY - 1))%nat with 0%nat in Hd by lia.
        cbn in Hd. congruence.
      * rewrite lookup_app_l in Hd by lia. apply (Hf (k - 1)%nat); [lia |].
        unfold walk. rewrite H1.
        replace (MQ_CAPACITY - 1 - (k - 1))%nat with (S (MQ_CAPACITY - 1 - k)) by lia. done.
    + exists h. split_and!; [done | done | | done].
      transitivity (stored q1); [exact Hst |]. apply stored_skip; [done |]. intros d Hd. congruence.
Qed.

Lemma advance_ok q : wf_mq q -> exists h, mq_advance_head q = Some (set_head q h) /\
  wf_mq (set_head q h) /\ stored (set_head q h) = stored q /\
  ((0 < g_count q)%nat -> exists e, g_ring q !! h = Some e /\ is_stored e = true).
Proof.
  intros H. unfold mq_advance_head. destruct (g_count q) as [|n] eqn:E; cbn [Nat.ltb Nat.leb].
  - exists (g_tail q). assert (wf_mq (set_head q (g_tail q))) by (apply (wf_same q); try done; apply H).
    split_and!; [done | done | | lia]. by rewrite !stored_nil.
  - destruct (skip_free_ok MQ_CAPACITY q H) as (h & -> & Hw & Hst & Hoc); [lia | lia | done |].
    exists h. done.
Qed.

End Operations.

(** ** The abstract queue

    What a client is promised: a list of telegrams, each waiting for an attempt
    or for the acknowledgement of its last one. The ring, its indices and
    counters, and the slots they designate do not appear. *)
Record stored_telegram : Type := mk_telegram {
  t_friend : Z;
  t_text : bytes;
  t_since : Z;
  t_last : option Z;          (* time of the last attempt *)
  t_attempts : Z;             (* failed attempts *)
  t_receipt : option Z }.     (* the receipt awaited *)

Definition view (e : mq_entry) : stored_telegram :=
  mk_telegram (e_friendnum e) (take (Z.to_nat (e_len e)) (e_payload e)) (e_enqueued_at e)
    (if e_attempted e then Some (e_last_attempt e) else None) (e_attempts e)
    (if is_awaiting e then Some (e_receipt e) else None).

Section Abstract.
Context `{cfg : mq_config}.

Definition messages (q : mq) : list stored_telegram := view <$> stored q.

(** May an attempt for this telegram start now? *)
Definition ready (now : Z) (t : stored_telegram) : bool :=
  match t_last t, t_receipt t with
  | None, _ => true
  | Some last, None => MQ_RETRY_BACKOFF_SEC <=? now - last
  | Some last, Some _ => MQ_ACK_TIMEOUT_SEC <=? now - last
  end.

(** An unacknowledged attempt counts as a failed one. *)
Definition expire (t : stored_telegram) : stored_telegram :=
  match t_receipt t with
  | None => t
  | Some _ => mk_telegram (t_friend t) (t_text t) (t_since t) (t_last t) (t_attempts t + 1) None
  end.

(** One attempt: outcome, transport state and the telegram afterwards (with
    [MQ_OUTCOME_DROPPED], as it was when it was retired). *)
Definition attempt {X} (tx : X -> Z -> bytes -> Z * X) (x : X) (now : Z) (t : stored_telegram)
    : mq_outcome * X * stored_telegram :=
  let t := expire t in
  if MQ_MAX_ATTEMPTS <=? t_attempts t then (MQ_OUTCOME_DROPPED, x, t)
  else
    let '(rc, x) := tx x (t_friend t) (t_text t) in
    if 0 <=? rc then
      (MQ_OUTCOME_SENT, x,
       mk_telegram (t_friend t) (t_text t) (t_since t) (Some now) (t_attempts t) (Some rc))
    else
      let t := mk_telegram (t_friend t) (t_text t) (t_since t) (Some now) (t_attempts t + 1) None in
      if (rc =? MQ_SEND_FATAL) || (MQ_MAX_ATTEMPTS <=? t_attempts t)
      then (MQ_OUTCOME_DROPPED, x, t) else (MQ_OUTCOME_DEFERRED, x, t).

(** One tick: the first ready telegram is attempted, the others are untouched.
    The last component is the telegram dropped, if any. *)
Fixpoint tick {X} (tx : X -> Z -> bytes -> Z * X) (x : X) (now : Z) (l : list stored_telegram)
    : mq_outcome * X * list stored_telegram * option stored_telegram :=
  match l with
  | [] => (MQ_OUTCOME_IDLE, x, [], None)
  | t :: l =>
    if ready now t then
      match attempt tx x now t with
      | (MQ_OUTCOME_DROPPED, x, t) => (MQ_OUTCOME_DROPPED, x, l, Some t)
      | (out, x, t) => (out, x, t :: l, None)
      end
    else let '(out, x, l, d) := tick tx x now l in (out, x, t :: l, d)
  end.

Definition acknowledges (friendnum receipt : Z) (t : stored_telegram) : bool :=
  (t_friend t =? friendnum) && bool_decide (t_receipt t = Some receipt).

(** The totals and hook calls of a tick. *)
Definition tick_stats (out : mq_outcome) (s : mq_stats) : mq_stats :=
  match out with
  | MQ_OUTCOME_SENT => bump_sent s
  | MQ_OUTCOME_DROPPED => bump_dropped s
  | _ => s
  end.

Definition change_events (q : mq) : list mq_event := if g_change_fn q then [EvChange] else [].
Definition drop_events (q : mq) (d : option stored_telegram) : list mq_event :=
  match d with
  | None => []
  | Some t => (if g_drop_fn q then [EvDrop (t_friend t) (t_attempts t)] else []) ++ change_events q
  end.

(** ** What each helper does *)

Lemma notify_ok q : wf_mq q -> exists q', mq_notify_change q = q' /\ wf_mq q' /\
  g_ring q' = g_ring q /\ g_head q' = g_head q /\ g_tail q' = g_tail q /\ g_count q' = g_count q /\
  g_stats q' = g_stats q /\ q_events q' = q_events q ++ change_events q.
Proof.
  intros H. eexists. split; [reflexivity |]. unfold mq_notify_change, change_events.
  destruct (g_change_fn q); split_and!; try done; [| by rewrite app_nil_r].
  apply (wf_same q); try done; apply H.
Qed.

Lemma stored_eq q q' : g_ring q' = g_ring q -> g_head q' = g_head q -> stored q' = stored q.
Proof. unfold stored, walk. by intros -> ->. Qed.

(** [q1] is [q] while an operation has slot [i] under its pointer: only that
    slot, still stored, and the in-flight counter may differ. The slot's attempt
    count may have reached the budget, which [wf_mq] does not allow. *)
Record edited (q : mq) (i : nat) (e : mq_entry) (q1 : mq) (e1 : mq_entry) : Prop := {
  ed_lookup : g_ring q !! i = Some e;
  ed_stored : is_stored e = true;
  ed_stored1 : is_stored e1 = true;
  ed_payload : zlen (e_payload e1) = MQ_PAYLOAD_MAX;
  ed_ring : g_ring q1 = upd (g_ring q) i e1;
  ed_count : g_count q1 = g_count q;
  ed_in_flight : (g_in_flight q1 + b2n (is_awaiting e) = g_in_flight q + b2n (is_awaiting e1))%nat;
  ed_head : g_head q1 = g_head q;
  ed_tail : g_tail q1 = g_tail q }.

Lemma edited_refl q i e : wf_mq q -> g_ring q !! i = Some e -> is_stored e = true ->
  edited q i e q e.
Proof.
  intros H He Hs. split; try done.
  - by destruct (wf_entries _ H _ _ He).
  - symmetry. by apply list_insert_id.
Qed.

Lemma upd_upd {A} (l : list A) i x y : upd (upd l i x) i y = upd l i y.
Proof. unfold upd. by rewrite list_insert_insert_eq. Qed.

Lemma edited_lookup q i e q1 e1 : edited q i e q1 e1 -> g_ring q1 !! i = Some e1.
Proof.
  intros E. rewrite (ed_ring _ _ _ _ _ E). apply lookup_upd_eq.
  eapply lookup_lt_Some, (ed_lookup _ _ _ _ _ E).
Qed.

Lemma release_ok q i e q1 e1 : wf_mq q -> edited q i e q1 e1 ->
  exists q', mq_release_slot q1 i = Some q' /\ wf_mq q' /\ stored q' = before q i ++ after q i /\
    g_stats q' = g_stats q1 /\ g_drop_fn q' = g_drop_fn q1 /\
    g_change_fn q' = g_change_fn q1 /\ q_events q' = q_events q1 /\
    (g_count q' + 1 = g_count q)%nat.
Proof.
  intros H E. pose proof (edited_lookup _ _ _ _ _ E) as He1.
  destruct E as [He Hs Hs1 Hp Er Ec Ef Eh Et]. unfold mq_release_slot. rewrite He1, Hs1.
  pose proof (count_pos _ _ _ _ He Hs) as Hc. rewrite (wf_count _ H) in Hc.
  assert (Ha : (b2n (is_awaiting e) <= g_in_flight q)%nat).
  { destruct (is_awaiting e) eqn:Ea; cbn; [| lia]. rewrite <- (wf_in_flight _ H).
    by eapply count_pos. }
  destruct (store_in (e_payload e1) 0 NUL) as (b & Hb & Hl); [pose proof payload_min; lia |].
  set (e' := mk_entry 0 (e_enqueued_at e1) (e_last_attempt e1) (-1) (e_friendnum e1) 0
    MQ_SLOT_FREE false b).
  assert (He' : wf_entry e') by (split_and!; [cbn; lia | done | done]).
  destruct (is_awaiting e1) eqn:Ea; cbn [b2n] in Ef; cbn [negb orb g_count set_in_flight];
    [rewrite (proj2 (Nat.ltb_lt _ _)) by lia |];
    rewrite Ec, (proj2 (Nat.ltb_lt _ _) Hc), Hb; eexists; (split; [reflexivity |]).
  all: split_and!; lazymatch goal with
    | |- stored _ = _ => eapply (stored_put q i e e'); try done; cbn; by rewrite Er, upd_upd
    | |- wf_mq _ => eapply (wf_put q i e e'); try done; cbn;
        rewrite ?Er, ?upd_upd, ?Hs, ?Eh, ?Et; try apply H; cbn; try done; lia
    | |- _ => cbn; first [done | lia] end.
Qed.

Lemma retire_ok q i e q1 e1 : wf_mq q -> edited q i e q1 e1 ->
  exists q', mq_retire q1 i = Some q' /\ wf_mq q' /\ stored q' = before q i ++ after q i /\
    g_stats q' = bump_dropped (g_stats q1) /\
    q_events q' = q_events q1 ++ drop_events q1 (Some (view e1)) /\
    (g_count q' + 1 = g_count q)%nat.
Proof.
  intros H E. unfold mq_retire. rewrite (edited_lookup _ _ _ _ _ E).
  destruct (release_ok q i e q1 e1 H E) as (q2 & -> & Hw & Hst & Hss & Hd & Hc & Hev & Hn).
  cbv zeta. cbn [g_drop_fn set_stats]. rewrite Hd.
  set (q3 := if g_drop_fn q1 then _ else _).
  assert (Hq3 : wf_mq q3 /\ stored q3 = stored q2 /\ g_stats q3 = bump_dropped (g_stats q1) /\
    g_count q3 = g_count q2 /\ change_events q3 = change_events q1 /\
    q_events q3 = q_events q1 ++ if g_drop_fn q1 then [EvDrop (e_friendnum e1) (e_attempts e1)] else []).
  { unfold q3, change_events. rewrite <- Hc, <- Hev, <- Hss.
    destruct (g_drop_fn q1); split_and!; try done; try (apply (wf_same q2); try done; apply Hw).
    by rewrite app_nil_r. }
  destruct Hq3 as (Hw3 & Hs3 & Hss3 & Hc3 & Hce & Hev3).
  destruct (notify_ok q3 Hw3) as (q4 & E4 & Hw4 & Hr & Hh & _ & Hc4 & Hss4 & Hev4).
  exists q4. rewrite E4. split_and!; [done | done | | | | lia].
  - by rewrite (stored_eq q3 q4), Hs3.
  - by rewrite Hss4.
  - cbn [drop_events]. rewrite Hev4, Hev3, Hce, app_assoc. done.
Qed.

End Abstract.

(** ** What each operation does *)
Section Results.
Context `{cfg : mq_config}.

(** A ring without a free slot is the only one the search gives up on. *)
Lemma find_free_ok n ring tail : length ring = MQ_CAPACITY -> (tail < MQ_CAPACITY)%nat ->
  exists b t, find_free n ring tail = Some (b, t) /\ (t < MQ_CAPACITY)%nat /\
    (b = true -> exists e, ring !! t = Some e /\ is_stored e = false) /\
    (b = false -> forall k e, (k < n)%nat ->
       ring !! ((tail + k) mod MQ_CAPACITY)%nat = Some e -> is_stored e = true) /\
    ((0 < n)%nat -> forall e, ring !! tail = Some e -> is_stored e = false -> b = true /\ t = tail).
Proof.
  intros Hl. revert tail. induction n as [|n IH]; intros tail Ht; cbn [find_free].
  { exists false, tail. split_and!; [done | done | done | intros; lia | lia]. }
  rewrite <- Hl in Ht. destruct (lookup_lt_is_Some_2 _ _ Ht) as [e He]. rewrite Hl in Ht.
  rewrite He, stored_not_free. destruct (is_stored e) eqn:Es; cbn [negb].
  - destruct (IH (next_slot tail) (next_slot_lt tail)) as (b & t & -> & Ht' & H1 & H2 & _).
    exists b, t. split_and!; try done; [| intros _ d Hd Hn; congruence].
    intros Hb [|k] d Hk Hd.
    + rewrite Nat.add_0_r, Nat.mod_small in Hd by done. congruence.
    + apply (H2 Hb k); [lia |]. unfold next_slot. rewrite Nat.Div0.add_mod_idemp_l.
      by replace (tail + 1 + k)%nat with (tail + S k)%nat by lia.
  - exists true, tail. split_and!; try done. intros _. by exists e.
Qed.

Lemma find_slot_ok q : wf_mq q -> exists s t, mq_find_free_slot q = Some (s, set_tail q t) /\
  wf_mq (set_tail q t) /\
  match s with
  | Some i => i = t /\ (exists e, g_ring q !! i = Some e /\ is_stored e = false) /\
              (g_count q < MQ_CAPACITY)%nat
  | None => g_count q = MQ_CAPACITY
  end /\
  (forall e, g_ring q !! g_tail q = Some e -> is_stored e = false -> s = Some (g_tail q)).
Proof.
  intros H. unfold mq_find_free_slot.
  destruct (find_free_ok MQ_CAPACITY (g_ring q) (g_tail q) (wf_length _ H) (wf_tail _ H))
    as (b & t & -> & Ht & H1 & H2 & H3). pose proof capacity_pos as Hp.
  assert (Hw : wf_mq (set_tail q t)) by (apply (wf_same q); try done; apply H).
  exists (if b then Some t else None), t. split_and!; [done | done | |].
  - destruct b.
    + specialize (H1 eq_refl). split_and!; [done | done |]. destruct H1 as (e & He & Hs).
      pose proof (count_le_length is_stored (g_ring q)) as Hc.
      destruct (decide (count is_stored (g_ring q) = length (g_ring q))) as [Hf | Hf].
      * pose proof (proj1 (count_full _ _) Hf t e He). congruence.
      * rewrite (wf_length _ H), (wf_count _ H) in *. lia.
    + rewrite <- (wf_count _ H), <- (wf_length _ H) at 1. apply count_full. intros i e He.
      pose proof (lookup_lt_Some _ _ _ He) as Hi. rewrite (wf_length _ H) in Hi.
      apply (H2 eq_refl (off MQ_CAPACITY (g_tail q) i)); [by apply off_lt |].
      rewrite off_add; [done | apply H | done].
  - intros e He Hs. destruct (H3 Hp e He Hs) as [-> ->]. done.
Qed.

Definition new_telegram (friendnum : Z) (payload : bytes) (len now : Z) : stored_telegram :=
  mk_telegram friendnum (take (Z.to_nat len) payload) now None 0 None.

(** The arguments [mq_enqueue] accepts, and the caller's side of the contract:
    [len] bytes are readable at [payload]. *)
Definition enqueue_args (friendnum : Z) (payload : bytes) (len : Z) : Prop :=
  0 <= friendnum /\ 0 < len < MQ_PAYLOAD_MAX /\ len <= zlen payload.

Lemma enqueue_ok q f p len now : wf_mq q -> enqueue_args f p len ->
  exists rc q', mq_enqueue q f (Some p) len now = Some (rc, q') /\ wf_mq q' /\
    if decide (g_count q = MQ_CAPACITY) then
      rc = MQ_ERR_FULL /\ stored q' = stored q /\ g_stats q' = bump_full (g_stats q) /\
      g_count q' = g_count q /\ q_events q' = q_events q
    else
      rc = MQ_OK /\ g_stats q' = bump_enqueued (g_stats q) /\ g_count q' = S (g_count q) /\
      q_events q' = q_events q ++ change_events q /\
      exists slot new, view new = new_telegram f p len now /\ is_stored new = true /\
        (slot < MQ_CAPACITY)%nat /\ g_ring q' = upd (g_ring q) slot new /\
        g_head q' = (if decide (g_count q = 0)%nat then slot else g_head q) /\
        g_tail q' = next_slot slot /\
        (exists e, g_ring q !! slot = Some e /\ is_stored e = false) /\
        (forall e, g_ring q !! g_tail q = Some e -> is_stored e = false -> slot = g_tail q).
Proof.
  intros H (Hf & Hn & Hp). unfold mq_enqueue.
  rewrite (proj2 (Z.ltb_ge f 0)), (proj2 (Z.eqb_neq len 0)), (proj2 (Z.leb_gt MQ_PAYLOAD_MAX len))
    by lia. cbn [orb].
  destruct (find_slot_ok q H) as ([i|] & t & -> & Hw & Hs & Htl).
  2: { eexists _, _. split; [done |]. split; [apply (wf_same (set_tail q t)); try done; apply Hw |].
    rewrite decide_True by done. done. }
  destruct Hs as (-> & (e & He & Hfree) & Hc). cbn [g_ring set_tail]. rewrite He.
  destruct (wf_entries _ H _ _ He) as (Hl & _).
  destruct (memcpy_store (e_payload e) p len) as (b & b' & -> & -> & Hlb & Htk); [lia | lia | lia |].
  cbv zeta. set (new := mk_entry len now 0 (-1) f 0 MQ_SLOT_PENDING false b').
  match goal with |- context [mq_check_invariants ?x] => set (q1 := x) end.
  assert (Hq1 : g_ring q1 = upd (g_ring q) t new /\ g_count q1 = S (g_count q) /\
    g_in_flight q1 = g_in_flight q /\ g_tail q1 = next_slot t /\
    g_head q1 = (if decide (g_count q = 0)%nat then t else g_head q) /\
    g_stats q1 = bump_enqueued (g_stats q) /\ change_events q1 = change_events q /\
    q_events q1 = q_events q).
  { unfold q1, change_events. cbn [g_count set_stats set_count put set_tail].
    destruct (Nat.eqb_spec (g_count q + 1) 1); [rewrite decide_True by lia | rewrite decide_False by lia];
      cbn; split_and!; try done; lia. }
  destruct Hq1 as (E1 & E2 & E3 & E4 & E5 & E6 & E7 & E8).
  assert (Ht : (t < MQ_CAPACITY)%nat) by apply Hw.
  assert (Hnf : is_awaiting e = false).
  { destruct (is_awaiting e) eqn:Ea; [| done]. apply awaiting_stored in Ea. congruence. }
  assert (Hw1 : wf_mq q1).
  { eapply (wf_put q t e new); try done; rewrite ?E2, ?E3, ?E4, ?E5, ?Hfree, ?Hnf; cbn; try lia.
    - split_and!; cbn; [lia | | done]. intros _. pose proof attempts_pos. lia.
    - destruct (decide _); [done | apply H].
    - apply next_slot_lt. }
  rewrite (check_wf _ Hw1).
  destruct (notify_ok q1 Hw1) as (q2 & -> & Hw2 & N1 & N2 & N3 & N4 & N5 & N6).
  eexists _, q2. split; [done |]. split; [done |]. rewrite decide_False by lia.
  split_and!; try congruence. exists t, new. split_and!; try congruence.
  - unfold view, new_telegram, new. cbn. by rewrite Htk.
  - done.
  - by exists e.
  - intros d Hd1 Hd2. specialize (Htl d Hd1 Hd2). congruence.
Qed.

Lemma enqueue_messages q q' slot e new : wf_mq q -> wf_mq q' ->
  g_ring q !! slot = Some e -> is_stored e = false -> is_stored new = true ->
  g_ring q' = upd (g_ring q) slot new ->
  g_head q' = (if decide (g_count q = 0)%nat then slot else g_head q) ->
  exists l l', stored q = l ++ l' /\ stored q' = l ++ new :: l' /\
    ((0 < g_count q)%nat -> l' = after q slot).
Proof.
  intros H H' He Hfree Hnew Hr Hh. destruct (decide (g_count q = 0)%nat) as [Hz | Hz].
  - exists [], []. pose proof (stored_nil _ H Hz) as ->. split; [done |]. split; [| lia].
    pose proof (lookup_lt_Some _ _ _ He) as Hi.
    assert (g_ring q' !! slot = Some new) as Hn by (rewrite Hr; by apply lookup_upd_eq).
    pose proof (stored_count _ H') as Hlen. rewrite <- (wf_count _ H'), Hr in Hlen.
    pose proof (count_upd is_stored _ _ _ new He) as Hcu.
    rewrite Hfree, Hnew, (wf_count _ H), Hz in Hcu. cbn in Hcu.
    rewrite (stored_at q' slot new H' Hn) in *. unfold keep in *. rewrite Hnew in *.
    rewrite !length_app in Hlen. cbn in Hlen.
    rewrite (nil_length_inv (before q' slot)), (nil_length_inv (after q' slot)) by lia. done.
  - exists (before q slot), (after q slot). rewrite (stored_at q slot e H He).
    rewrite (stored_put q slot e new q' H He Hr Hh). unfold keep. by rewrite Hfree, Hnew.
Qed.

Lemma confirm_loop_Some f r l i j : confirm_loop f r l i = Some j ->
  exists k e, j = (i + k)%nat /\ l !! k = Some e /\ confirms f r e = true.
Proof.
  revert i. induction l as [|e l IH]; intros i; cbn [confirm_loop]; [done |].
  destruct (confirms f r e) eqn:E.
  - intros [= <-]. exists 0%nat, e. split_and!; [lia | done | done].
  - intros (k & d & -> & Hk & Hd)%IH. exists (S k), d. split_and!; [lia | done | done].
Qed.

Lemma confirm_loop_None f r l i : confirm_loop f r l i = None ->
  forall e, e ∈ l -> confirms f r e = false.
Proof.
  revert i. induction l as [|e l IH]; intros i; cbn [confirm_loop].
  - intros _ d Hd. by apply not_elem_of_nil in Hd.
  - destruct (confirms f r e) eqn:E; [done |]. intros Hn d [-> | Hd]%elem_of_cons; [done |].
    by eapply IH.
Qed.

Lemma confirms_view f r e : acknowledges f r (view e) = confirms f r e.
Proof.
  unfold acknowledges, confirms. cbn [view t_friend t_receipt]. destruct (is_awaiting e).
  - cbn [andb]. f_equal. case_bool_decide as E; symmetry.
    + apply Z.eqb_eq. congruence.
    + apply Z.eqb_neq. congruence.
  - cbn [andb]. rewrite bool_decide_eq_false_2 by done. apply andb_false_r.
Qed.

Lemma stored_ring q e : wf_mq q -> e ∈ stored q <-> e ∈ g_ring q /\ is_stored e = true.
Proof.
  intros H. unfold stored, walk, rot. rewrite list_elem_of_filter.
  rewrite <- (take_drop (g_head q) (g_ring q)) at 3. rewrite !elem_of_app. tauto.
Qed.

Lemma confirm_ok q f r : wf_mq q -> 0 <= f -> 0 <= r ->
  exists rc q', mq_confirm q f r = Some (rc, q') /\ wf_mq q' /\
    ((rc = MQ_OK /\ g_stats q' = bump_confirmed (g_stats q) /\ (g_count q' + 1 = g_count q)%nat /\
      q_events q' = q_events q ++ change_events q /\
      exists l e l', stored q = l ++ e :: l' /\ confirms f r e = true /\ stored q' = l ++ l') \/
     (rc = MQ_ERR_NOTFOUND /\ q' = q /\ forall e, e ∈ stored q -> confirms f r e = false)).
Proof.
  intros H Hf Hr. unfold mq_confirm.
  rewrite (proj2 (Z.ltb_ge f 0)), (proj2 (Z.ltb_ge r 0)) by lia. cbn [orb].
  destruct (confirm_loop f r (g_ring q) 0) as [j|] eqn:E.
  - apply confirm_loop_Some in E as (i & e & -> & He & Hc). cbn [Nat.add].
    assert (Hs : is_stored e = true).
    { apply awaiting_stored. unfold confirms in Hc. zbool. done. }
    destruct (release_ok q i e q e H (edited_refl _ _ _ H He Hs))
      as (q1 & -> & Hw1 & Hst1 & Hss1 & _ & Hch1 & Hev1 & Hcn1).
    cbv zeta. set (q2 := set_stats q1 _).
    assert (Hw2 : wf_mq q2) by (apply (wf_same q1); try done; apply Hw1).
    destruct (advance_ok q2 Hw2) as (h & -> & Hw3 & Hst3 & _).
    rewrite (check_wf _ Hw3).
    destruct (notify_ok _ Hw3) as (q4 & -> & Hw4 & N1 & N2 & N3 & N4 & N5 & N6).
    exists MQ_OK, q4. split; [done |]. split; [done |]. left. split_and!; [done | | | |].
    + rewrite N5. cbn. by rewrite Hss1.
    + rewrite N4. done.
    + rewrite N6. unfold change_events. cbn [q_events set_head q2 set_stats g_change_fn].
      by rewrite Hev1, Hch1.
    + exists (before q i), e, (after q i). split_and!; [| done |].
      * rewrite (stored_at q i e H He). unfold keep. by rewrite Hs.
      * rewrite (stored_eq _ q4 N1 N2), Hst3. exact Hst1.
  - exists MQ_ERR_NOTFOUND, q. split; [done |]. split; [done |]. right. split_and!; [done | done |].
    intros e [He _]%stored_ring; [| done]. by eapply confirm_loop_None.
Qed.

End Results.

(** ** One tick *)
Section Tick.
Context `{cfg : mq_config} {X : Type}.
Variable tx : X -> Z -> bytes -> Z * X.

Definition dropped (o : mq_outcome) : bool :=
  match o with MQ_OUTCOME_DROPPED => true | _ => false end.

(** The state after slot [i] was acted on. *)
Definition served (q : mq) (i : nat) (o : mq_outcome) (t : stored_telegram) (q' : mq) : Prop :=
  wf_mq q' /\
  messages q' = (view <$> before q i) ++ (if dropped o then [] else [t]) ++ (view <$> after q i) /\
  g_stats q' = tick_stats o (g_stats q) /\
  q_events q' = q_events q ++ drop_events q (if dropped o then Some t else None) /\
  (g_count q' + b2n (dropped o) = g_count q)%nat.

(** The hooks and totals, which an edit of a slot leaves alone. *)
Definition same_out (q q1 : mq) : Prop :=
  g_stats q1 = g_stats q /\ g_drop_fn q1 = g_drop_fn q /\ g_change_fn q1 = g_change_fn q /\
  q_events q1 = q_events q.

Lemma service_drop_ok (x : X) q i e q1 e1 : wf_mq q -> edited q i e q1 e1 -> same_out q q1 ->
  exists q', service_drop x q1 i = Some (Some MQ_OUTCOME_DROPPED, x, q') /\
    served q i MQ_OUTCOME_DROPPED (view e1) q'.
Proof.
  intros H E (Es & Ed & Ec & Ee). unfold service_drop.
  destruct (retire_ok q i e q1 e1 H E) as (q2 & -> & Hw2 & Hst2 & Hs2 & He2 & Hc2).
  destruct (advance_ok q2 Hw2) as (h & -> & Hw3 & Hst3 & _).
  rewrite (check_wf _ Hw3). eexists. split; [reflexivity |]. split_and!; cbn [dropped].
  - done.
  - unfold messages. rewrite Hst3, Hst2, fmap_app. done.
  - cbn [g_stats set_head tick_stats]. by rewrite Hs2, Es.
  - cbn [q_events set_head]. rewrite He2, Ee. unfold drop_events, change_events. by rewrite Ed, Ec.
  - cbn. lia.
Qed.

Lemma put_edited q i e q1 e1 e2 : edited q i e q1 e1 ->
  is_stored e2 = true -> zlen (e_payload e2) = MQ_PAYLOAD_MAX ->
  is_awaiting e2 = is_awaiting e1 -> edited q i e (put q1 i e2) e2.
Proof.
  intros [] H1 H2 H3. split; try done; cbn; [| congruence].
  by rewrite ed_ring0, upd_upd.
Qed.

(** An edited slot that is well formed again is a well-formed queue. *)
Lemma edited_served q i e q1 e1 q2 o : wf_mq q -> edited q i e q1 e1 -> wf_entry e1 ->
  same_out q q1 -> g_ring q2 = g_ring q1 -> g_head q2 = g_head q1 -> g_tail q2 = g_tail q1 ->
  g_count q2 = g_count q1 -> g_in_flight q2 = g_in_flight q1 -> q_events q2 = q_events q1 ->
  g_stats q2 = tick_stats o (g_stats q) -> dropped o = false -> served q i o (view e1) q2.
Proof.
  intros H [He Hs Hs1 Hp Er Ec Ef Eh Et] Hw (_ & _ & _ & Ee) R1 R2 R3 R4 R5 R6 R7 Hd.
  assert (Hw2 : wf_mq q2).
  { eapply (wf_put q i e e1); try done; rewrite ?R1, ?R2, ?R3, ?R4, ?R5, ?Eh, ?Et, ?Hs, ?Hs1;
      try done; try apply H; lia. }
  split_and!; rewrite ?Hd; try done; cbn; rewrite ?app_nil_r; try congruence; [| lia].
  unfold messages. rewrite (stored_put q i e e1 q2 H He); [| congruence | congruence].
  unfold keep. by rewrite Hs1, fmap_app.
Qed.

(** A pending entry, whether it was found pending or its acknowledgement has
    just expired. *)
Lemma service_pending_ok x q i e q1 e1 now : wf_mq q -> edited q i e q1 e1 -> same_out q q1 ->
  wf_entry e1 -> is_awaiting e1 = false -> ready now (view e1) = true ->
  let '(o, x', t) := attempt tx x now (view e1) in
  exists q', service_pending tx x q1 now i e1 = Some (Some o, x', q') /\ served q i o t q'.
Proof.
  intros H E Hso Hw Ha Hr. destruct (Hw) as (Hp & Hst & _).
  destruct (Hst (ed_stored1 _ _ _ _ _ E)) as (Hlen & Hfr & Hatt). pose proof attempts_int as Hai.
  unfold service_pending, attempt, expire. cbn [view t_receipt]. rewrite Ha. cbn [t_attempts view].
  rewrite (proj2 (Z.leb_gt _ _)) by lia. cbn [view t_friend t_text].
  assert (e_attempted e1 && (now - e_last_attempt e1 <? MQ_RETRY_BACKOFF_SEC) = false) as ->.
  { unfold ready in Hr. cbn [view t_last t_receipt] in Hr. rewrite Ha in Hr.
    destruct (e_attempted e1); [| done]. zbool. cbn [andb]. apply Z.ltb_ge. lia. }
  destruct (tx x (e_friendnum e1) (take (Z.to_nat (e_len e1)) (e_payload e1))) as [rc x'] eqn:Etx.
  cbn [t_friend t_text t_since t_last t_attempts t_receipt view].
  rewrite u32_id by (unfold INT_MAX in Hai; lia).
  destruct (0 <=? rc) eqn:Erc; zbool.
  - set (e2 := mk_entry _ _ _ rc _ _ MQ_SLOT_AWAITING_ACK true _).
    assert (Hw2 : wf_entry e2) by (split_and!; [done | done |]; intros _; cbn; lia).
    match goal with |- context [mq_check_invariants ?y] => set (q2 := y) end.
    assert (E2 : edited q i e (set_in_flight (put q1 i e2) (g_in_flight q1 + 1)) e2).
    { destruct E; split; try done; cbn; [by rewrite ed_ring0, upd_upd | rewrite Ha in *; cbn in *; lia]. }
    assert (Hs : served q i MQ_OUTCOME_SENT (view e2) q2).
    { eapply (edited_served _ _ _ _ _ _ MQ_OUTCOME_SENT H E2); try done. cbn. by destruct Hso as [-> _]. }
    destruct Hs as (Hwq & Hs). rewrite (check_wf _ Hwq). exists q2. done.
  - cbn [e_attempts]. set (e2 := mk_entry _ _ now (e_receipt e1) _ _ _ true _).
    assert (E2 : edited q i e (put q1 i e2) e2).
    { apply (put_edited _ _ _ _ _ _ E); [exact (ed_stored1 _ _ _ _ _ E) | done | done]. }
    assert (Hv : view e2 = mk_telegram (e_friendnum e1) (take (Z.to_nat (e_len e1)) (e_payload e1))
      (e_enqueued_at e1) (Some now) (e_attempts e1 + 1) None).
    { unfold view. change (is_awaiting e2) with (is_awaiting e1). by rewrite Ha. }
    rewrite <- Hv. destruct ((rc =? MQ_SEND_FATAL) || (MQ_MAX_ATTEMPTS <=? e_attempts e1 + 1)) eqn:Ed.
    + by apply (service_drop_ok x' q i e _ e2 H E2).
    + zbool. assert (Hw2 : wf_entry e2).
      { split_and!; [done | |]. { intros _. cbn. lia. }
        change (is_awaiting e2) with (is_awaiting e1). congruence. }
      assert (Hs : served q i MQ_OUTCOME_DEFERRED (view e2) (put q1 i e2)).
      { apply (edited_served _ _ _ _ _ _ MQ_OUTCOME_DEFERRED H E2); try done. apply Hso. }
      destruct Hs as (Hwq & Hs). rewrite (check_wf _ Hwq). eexists. done.
Qed.

Lemma service_entry_ok x q i e now : wf_mq q -> g_ring q !! i = Some e ->
  if is_stored e && ready now (view e) then
    let '(o, x', t) := attempt tx x now (view e) in
    exists q', service_entry tx x q now i = Some (Some o, x', q') /\ served q i o t q'
  else service_entry tx x q now i = Some (None, x, q).
Proof.
  intros H He. unfold service_entry. rewrite He. pose proof timeout_backoff as Htb.
  destruct (wf_entries _ H _ _ He) as (Hp & Hst & Haw).
  destruct (e_state e) eqn:Es.
  - unfold is_stored, is_free. by rewrite Es.
  - assert (Hs : is_stored e = true) by (unfold is_stored, is_free; by rewrite Es).
    assert (Ha : is_awaiting e = false) by (unfold is_awaiting; by rewrite Es).
    rewrite Hs. cbn [andb]. destruct (ready now (view e)) eqn:Hr.
    + apply (service_pending_ok x q i e q e now H (edited_refl _ _ _ H He Hs)); done.
    + unfold service_pending, ready in *. cbn [view t_last t_receipt] in Hr. rewrite Ha in Hr.
      destruct (e_attempted e); [zbool | done]. cbn [andb]. by rewrite (proj2 (Z.ltb_lt _ _)) by lia.
  - assert (Ha : is_awaiting e = true) by (unfold is_awaiting; by rewrite Es).
    pose proof (awaiting_stored _ Ha) as Hs. destruct (Haw Ha) as [Hrec Hatt].
    destruct (Hst Hs) as (Hl & Hf & Hn). pose proof attempts_int as Hai.
    rewrite Hs. cbn [andb]. unfold ready at 1. cbn [view t_last t_receipt]. rewrite Ha, Hatt.
    destruct (MQ_ACK_TIMEOUT_SEC <=? now - e_last_attempt e) eqn:Et; zbool;
      [| by rewrite (proj2 (Z.ltb_lt _ _)) by lia].
    rewrite (proj2 (Z.ltb_ge _ _)) by lia. cbv zeta.
    pose proof (count_pos _ _ _ _ He Ha) as Hfl. rewrite (wf_in_flight _ H) in Hfl.
    rewrite (proj2 (Nat.ltb_lt _ _) Hfl). rewrite u32_id by (unfold INT_MAX in Hai; lia).
    set (e1 := mk_entry _ _ _ (-1) _ _ MQ_SLOT_PENDING _ _).
    set (q1 := put _ i e1).
    assert (E1 : edited q i e q1 e1).
    { split; try done. cbn. rewrite Ha. cbn. lia. }
    assert (Hv : expire (view e) = view e1).
    { unfold expire, view. cbn [t_receipt]. by rewrite Ha, Hatt. }
    assert (Hx : expire (view e1) = view e1) by done.
    unfold attempt. rewrite Hv. change (t_attempts (view e1)) with (e_attempts e + 1).
    change (e_attempts e1) with (e_attempts e + 1).
    destruct (MQ_MAX_ATTEMPTS <=? e_attempts e + 1) eqn:Em; zbool.
    + apply (service_drop_ok x q i e q1 e1 H E1). by split_and!.
    + assert (Hw1 : wf_entry e1) by (split_and!; [done | intros _; cbn; lia | done]).
      pose proof (service_pending_ok x q i e q1 e1 now H E1) as Hok. unfold attempt in Hok.
      rewrite Hx in Hok. change (t_attempts (view e1)) with (e_attempts e + 1) in Hok.
      rewrite (proj2 (Z.leb_gt _ _)) in Hok by lia. apply Hok; try done.
      unfold ready. cbn [view t_last t_receipt e1 e_attempted is_awaiting e_state e_last_attempt].
      apply Z.leb_le. lia.
Qed.

Lemma tick_skip x now l1 l2 : Forall (fun t => ready now t = false) l1 ->
  tick tx x now (l1 ++ l2) =
  let '(o, x', l, d) := tick tx x now l2 in (o, x', l1 ++ l, d).
Proof.
  induction 1 as [|t l Ht _ IH]; cbn [app tick].
  - by destruct (tick tx x now l2) as [[[? ?] ?] ?].
  - rewrite Ht, IH. by destruct (tick tx x now l2) as [[[? ?] ?] ?].
Qed.

Lemma tick_act x now t l : ready now t = true ->
  tick tx x now (t :: l) =
  let '(o, x', t') := attempt tx x now t in
  (o, x', (if dropped o then [] else [t']) ++ l, if dropped o then Some t' else None).
Proof.
  intros Hr. cbn [tick]. rewrite Hr. by destruct (attempt tx x now t) as [[[] ?] ?].
Qed.

(** The loop, with the first [k] entries of the walk already inspected and found
    to be free or not ready. *)
Lemma service_loop_ok n : forall k x q now, wf_mq q -> (k + n = MQ_CAPACITY)%nat ->
  (0 < MQ_CAPACITY)%nat ->
  Forall (fun t => ready now t = false) (view <$> filter storedP (take k (walk q))) ->
  let '(o, x', l, d) := tick tx x now (messages q) in
  exists q', service_loop tx n ((g_head q + k) mod MQ_CAPACITY)%nat x q now = Some (o, x', q') /\
    wf_mq q' /\ messages q' = l /\ g_stats q' = tick_stats o (g_stats q) /\
    q_events q' = q_events q ++ drop_events q d /\ (g_count q' + b2n (dropped o) = g_count q)%nat.
Proof.
  induction n as [|n IH]; intros k x q now H Hk Hpos Hpre.
  { assert (Hall : Forall (fun t => ready now t = false) (messages q)).
    { rewrite take_ge in Hpre by (rewrite (cap_len _ H); lia). exact Hpre. }
    rewrite <- (app_nil_r (messages q)), (tick_skip x now _ [] Hall). cbn [tick service_loop].
    exists q. rewrite !app_nil_r. split_and!; first [done | cbn; lia]. }
  destruct (lookup_lt_is_Some_2 (walk q) k) as [e Hwe]; [rewrite (cap_len _ H); lia |].
  assert (He : g_ring q !! ((g_head q + k) mod MQ_CAPACITY)%nat = Some e).
  { rewrite <- Hwe. unfold walk. pose proof (wf_head _ H). rewrite <- (wf_length _ H).
    symmetry. apply rot_lookup; rewrite (wf_length _ H); lia. }
  set (i := ((g_head q + k) mod MQ_CAPACITY)%nat) in *.
  assert (Hoff : off MQ_CAPACITY (g_head q) i = k).
  { pose proof (wf_head _ H) as Hh. unfold i, off. rewrite <- Nat.add_sub_assoc by lia.
    rewrite Nat.Div0.add_mod_idemp_l.
    replace (g_head q + k + (MQ_CAPACITY - g_head q))%nat with (k + 1 * MQ_CAPACITY)%nat by lia.
    rewrite Nat.Div0.mod_add. apply Nat.mod_small. lia. }
  pose proof (service_entry_ok x q i e now H He) as Hent. cbn [service_loop].
  destruct (is_stored e && ready now (view e)) eqn:Hact.
  - apply andb_true_iff in Hact as [Hs Hr].
    assert (Hm : messages q = (view <$> before q i) ++ view e :: (view <$> after q i)).
    { unfold messages. rewrite (stored_at q i e H He). unfold keep. by rewrite Hs, fmap_app. }
    rewrite Hm, tick_skip, tick_act by (try done; unfold before; by rewrite Hoff).
    destruct (attempt tx x now (view e)) as [[o x'] t].
    destruct Hent as (q' & -> & Hw & Hmsg & Hss & Hev & Hcn). exists q'. done.
  - rewrite Hent.
    assert (Hnext : next_slot i = ((g_head q + S k) mod MQ_CAPACITY)%nat).
    { unfold next_slot, i. rewrite Nat.Div0.add_mod_idemp_l. f_equal. lia. }
    rewrite Hnext. apply IH; [done | lia | done |].
    rewrite (take_S_r _ _ _ Hwe), filter_app, fmap_app. apply Forall_app. split; [done |].
    rewrite filter_keep, filter_nil, app_nil_r. unfold keep.
    destruct (is_stored e); [| constructor]. cbn in *. by repeat constructor.
Qed.

Lemma service_ok x q now : wf_mq q ->
  let '(o, x', l, d) := tick tx x now (messages q) in
  exists q', mq_service (Some tx) x q now = Some (o, x', q') /\ wf_mq q' /\ messages q' = l /\
    g_stats q' = tick_stats o (g_stats q) /\ q_events q' = q_events q ++ drop_events q d /\
    (g_count q' + b2n (dropped o) = g_count q)%nat.
Proof.
  intros H. unfold mq_service. destruct (Nat.eqb_spec (g_count q) 0) as [Hz | Hz].
  - unfold messages at 1. rewrite (stored_nil _ H Hz). cbn [fmap list_fmap tick].
    exists q. rewrite app_nil_r. unfold messages. rewrite (stored_nil _ H Hz).
    split_and!; first [done | cbn; lia].
  - destruct (advance_ok q H) as (h & -> & Hw & Hst & _).
    pose proof (service_loop_ok MQ_CAPACITY 0 x (set_head q h) now Hw) as Hl.
    assert (Hms : messages (set_head q h) = messages q) by (unfold messages; by rewrite Hst).
    rewrite Hms in Hl. destruct (tick tx x now (messages q)) as [[[o x'] l] d].
    cbn [g_head set_head] in Hl. rewrite Nat.add_0_r, Nat.mod_small in Hl by apply Hw.
    apply Hl; [lia | apply capacity_pos |]. rewrite take_0. constructor.
Qed.

End Tick.

(** ** Visiting and running *)
Section Runs.
Context `{cfg : mq_config}.

Lemma foreach_loop_ok {X} (fn : X -> Z -> bytes -> X) n : forall i v (x : X) q,
  wf_mq q -> (i + n = MQ_CAPACITY)%nat ->
  v = length (filter storedP (take i (walk q))) ->
  foreach_loop fn n i v x q =
  Some (fold_left (fun x t => fn x (t_friend t) (t_text t))
         (view <$> filter storedP (drop i (walk q))) x).
Proof.
  induction n as [|n IH]; intros i v x q H Hi Hv; cbn [foreach_loop].
  { rewrite drop_ge by (rewrite (cap_len _ H); lia). done. }
  destruct (lookup_lt_is_Some_2 (walk q) i) as [e Hwe]; [rewrite (cap_len _ H); lia |].
  assert (He : g_ring q !! ((g_head q + i) mod MQ_CAPACITY)%nat = Some e).
  { rewrite <- Hwe. unfold walk. pose proof (wf_head _ H). rewrite <- (wf_length _ H).
    symmetry. apply rot_lookup; rewrite (wf_length _ H); lia. }
  rewrite He, stored_not_free, (drop_S _ _ _ Hwe), filter_keep. unfold keep.
  pose proof (stored_count _ H) as Hc. unfold stored in Hc.
  change (filter (fun d => is_stored d = true) (walk q)) with (filter storedP (walk q)) in Hc.
  rewrite <- (take_drop i (walk q)), filter_app, length_app, (drop_S _ _ _ Hwe), filter_keep in Hc.
  unfold keep in Hc.
  assert (Hnext : length (filter storedP (take (S i) (walk q))) = (v + b2n (is_stored e))%nat).
  { rewrite (take_S_r _ _ _ Hwe), filter_app, length_app, filter_keep, filter_nil, app_nil_r, Hv.
    unfold keep. by destruct (is_stored e). }
  destruct (is_stored e) eqn:Es; cbn [negb app] in *.
  - rewrite (proj2 (Nat.ltb_lt v (g_count q))) by (cbn in Hc; lia).
    rewrite IH; [done | done | lia | cbn in Hnext; lia].
  - destruct (Nat.ltb_spec v (g_count q)).
    + rewrite IH; [done | done | lia | cbn in Hnext; lia].
    + rewrite (nil_length_inv (filter storedP (drop (S i) (walk q)))) by (cbn in Hc; lia). done.
Qed.

(** One call of the public interface. A transport is any function of the message
    it is offered. *)
Inductive mq_cmd : Type :=
| CEnqueue (friendnum : Z) (payload : option bytes) (len now : Z)
| CConfirm (friendnum receipt : Z)
| CService (tx : option (Z -> bytes -> Z)) (now : Z)
| CDropHook (installed : bool)
| CChangeHook (installed : bool).

Definition mq_do (q : mq) (c : mq_cmd) : option mq :=
  match c with
  | CEnqueue f p len now => snd <$> mq_enqueue q f p len now
  | CConfirm f r => snd <$> mq_confirm q f r
  | CService tx now =>
    snd <$> mq_service ((fun g (_ : unit) f p => (g f p, tt)) <$> tx) tt q now
  | CDropHook b => Some (mq_set_drop_hook q b)
  | CChangeHook b => Some (mq_set_change_hook q b)
  end.

Fixpoint mq_run (q : mq) (cs : list mq_cmd) : option mq :=
  match cs with
  | [] => Some q
  | c :: cs => do! q := mq_do q c; mq_run q cs
  end.

(** The caller's only obligation: [len] bytes are readable at [payload]. *)
Definition readable (c : mq_cmd) : bool :=
  match c with CEnqueue _ (Some p) len _ => (0 <=? len) && (len <=? zlen p) | _ => true end.

Lemma init_ok : exists q, mq_init = Some q /\ wf_mq q /\ balanced q /\ stored q = [] /\
  g_count q = 0%nat /\ g_head q = 0%nat /\ g_tail q = 0%nat.
Proof.
  unfold mq_init. cbv zeta. match goal with |- context [mq_check_invariants ?q] => set (q0 := q) end.
  assert (H : wf_mq q0).
  { pose proof capacity_pos. pose proof payload_min.
    split; cbn; [apply length_replicate | lia | lia | by apply count_replicate | by apply count_replicate |].
    intros i e [-> _]%lookup_replicate. split_and!; cbn; [| done | done].
    unfold zlen. rewrite length_replicate. lia. }
  rewrite (check_wf _ H). exists q0. split_and!; try done. by apply stored_nil.
Qed.

Lemma u64_add a b : u64 (u64 a + b) = u64 (a + b).
Proof. unfold u64. apply Zplus_mod_idemp_l. Qed.

Lemma u64_u64 a : u64 (u64 a) = u64 a.
Proof. unfold u64. apply Z.mod_mod. lia. Qed.

Lemma u64_congr a b c : u64 a = u64 b -> u64 (a + c) = u64 (b + c).
Proof. intros H. by rewrite <- u64_add, H, u64_add. Qed.

Lemma balanced_eq q q' : balanced q -> g_stats q' = g_stats q -> g_count q' = g_count q ->
  balanced q'.
Proof. unfold balanced. by intros H -> ->. Qed.

(** One message more, or one message accounted for elsewhere. *)
Lemma balanced_enqueue q q' : balanced q -> g_stats q' = bump_enqueued (g_stats q) ->
  g_count q' = S (g_count q) -> balanced q'.
Proof.
  unfold balanced. intros H -> ->. cbn. rewrite u64_u64.
  rewrite Nat2Z.inj_succ, (u64_congr _ _ 1 H). f_equal. lia.
Qed.

Lemma balanced_move q q' : balanced q -> (g_count q' + 1 = g_count q)%nat ->
  g_stats q' = bump_confirmed (g_stats q) \/ g_stats q' = bump_dropped (g_stats q) -> balanced q'.
Proof.
  unfold balanced. intros H Hc [-> | ->]; cbn; rewrite H;
    replace (Z.of_nat (g_count q)) with (Z.of_nat (g_count q') + 1) by lia;
    set (n := Z.of_nat (g_count q')).
  - rewrite <- !Z.add_assoc, u64_add. f_equal. lia.
  - rewrite (Z.add_comm (total_confirmed _) (u64 _)), <- !Z.add_assoc, u64_add. f_equal. lia.
Qed.

Lemma balanced_tick q q' o : balanced q -> g_stats q' = tick_stats o (g_stats q) ->
  (g_count q' + b2n (dropped o) = g_count q)%nat -> balanced q'.
Proof.
  intros H Hs Hc. destruct o; cbn in Hs, Hc.
  4: by apply (balanced_move q); auto; lia.
  all: unfold balanced; rewrite Hs; rewrite Nat.add_0_r in Hc; rewrite Hc; exact H.
Qed.

Lemma mq_do_ok q c : wf_mq q -> balanced q -> readable c = true ->
  exists q', mq_do q c = Some q' /\ wf_mq q' /\ balanced q'.
Proof.
  intros H Hb Hc. destruct c as [f [p|] len now | f r | tx now | b | b]; cbn [mq_do].
  - cbn in Hc. zbool.
    destruct (decide (0 <= f /\ 0 < len < MQ_PAYLOAD_MAX)) as [[Hf Hl] | Hbad].
    + destruct (enqueue_ok q f p len now H) as (rc & q' & -> & Hw & Hr); [done |].
      exists q'. split; [done |]. split; [done |]. destruct (decide _).
      * destruct Hr as (_ & _ & Hs & Hcn & _). unfold balanced in *. by rewrite Hs, Hcn.
      * destruct Hr as (_ & Hs & Hcn & _). by apply (balanced_enqueue q).
    + exists q. unfold mq_enqueue.
      assert ((f <? 0) || (len =? 0) || (MQ_PAYLOAD_MAX <=? len) = true) as ->; [| done].
      destruct (Z.ltb_spec f 0); [done |]. destruct (Z.eqb_spec len 0); [done |].
      apply Z.leb_le. lia.
  - by exists q.
  - destruct (decide (0 <= f /\ 0 <= r)) as [[Hf Hr] | Hbad].
    + destruct (confirm_ok q f r H Hf Hr) as (rc & q' & -> & Hw & Hcase). exists q'.
      split; [done |]. split; [done |]. destruct Hcase as [(_ & Hs & Hcn & _) | (_ & -> & _)]; [| done].
      apply (balanced_move q); auto.
    + exists q. unfold mq_confirm.
      assert ((f <? 0) || (r <? 0) = true) as ->; [| done].
      apply orb_true_iff. rewrite !Z.ltb_lt. lia.
  - destruct tx as [g|]; cbn [fmap option_fmap option_map]; [| by exists q].
    pose proof (service_ok (fun (_ : unit) f p => (g f p, tt)) tt q now H) as Hs.
    destruct (tick _ tt now (messages q)) as [[[o x'] l] d].
    destruct Hs as (q' & Hq & Hw & _ & Hs & _ & Hcn). exists q'. split; [by rewrite Hq |].
    split; [done |]. by apply (balanced_tick q q' o).
  - eexists. split; [done |]. split; [| done]. apply (wf_same q); try done; apply H.
  - eexists. split; [done |]. split; [| done]. apply (wf_same q); try done; apply H.
Qed.

Lemma mq_run_ok cs : forall q, wf_mq q -> balanced q -> Forall (fun c => readable c = true) cs ->
  exists q', mq_run q cs = Some q' /\ wf_mq q' /\ balanced q'.
Proof.
  induction cs as [|c cs IH]; intros q H Hb Hcs; cbn [mq_run].
  - by exists q.
  - apply Forall_cons in Hcs as [Hc Hcs].
    destruct (mq_do_ok q c H Hb Hc) as (q1 & -> & H1 & Hb1). by apply IH.
Qed.

(** ** Arrival order *)

(** The tail has not caught up with the head: every slot from the tail round to
    the head is free. *)
Definition unwrapped (q : mq) : Prop :=
  forall k e, (off MQ_CAPACITY (g_head q) (g_tail q) <= k)%nat ->
    walk q !! k = Some e -> is_stored e = false.

Lemma empty_free q i e : wf_mq q -> g_count q = 0%nat -> g_ring q !! i = Some e ->
  is_stored e = false.
Proof.
  intros H Hc He. destruct (is_stored e) eqn:E; [| done].
  pose proof (count_pos _ _ _ _ He E). rewrite (wf_count _ H) in *. lia.
Qed.

Lemma walk_ring q k e : wf_mq q -> walk q !! k = Some e ->
  g_ring q !! ((g_head q + k) mod MQ_CAPACITY)%nat = Some e.
Proof.
  intros H Hk. pose proof (lookup_lt_Some _ _ _ Hk) as Hl. rewrite (cap_len _ H) in Hl.
  rewrite <- Hk. unfold walk. pose proof (wf_head _ H). rewrite <- (wf_length _ H).
  symmetry. apply rot_lookup; rewrite (wf_length _ H); lia.
Qed.

Lemma off_next h i : (h < MQ_CAPACITY)%nat -> (i < MQ_CAPACITY)%nat ->
  off MQ_CAPACITY h (next_slot i) =
  if decide (S (off MQ_CAPACITY h i) < MQ_CAPACITY)%nat then S (off MQ_CAPACITY h i) else 0%nat.
Proof.
  intros Hh Hi. pose proof (next_slot_lt i). rewrite !off_spec by done. unfold next_slot in *.
  destruct (decide (i + 1 < MQ_CAPACITY)%nat) as [Hlt | Hge].
  - rewrite Nat.mod_small in * by lia. repeat destruct (decide _); lia.
  - assert (((i + 1) mod MQ_CAPACITY) = 0)%nat as ->.
    { replace (i + 1)%nat with MQ_CAPACITY by lia. apply Nat.Div0.mod_same. }
    repeat destruct (decide _); lia.
Qed.

Lemma unwrapped_tail q : wf_mq q -> unwrapped q ->
  exists e, g_ring q !! g_tail q = Some e /\ is_stored e = false.
Proof.
  intros H Hu. destruct (ring_lookup q (g_tail q) H (wf_tail _ H)) as (e & He & _).
  exists e. split; [done |]. by apply (Hu _ e (le_n _)), walk_at.
Qed.

Lemma unwrapped_after q : wf_mq q -> unwrapped q -> after q (g_tail q) = [].
Proof.
  intros H Hu. unfold after. apply list_filter_none.
  intros e [k Hk]%list_elem_of_lookup. rewrite lookup_drop in Hk. unfold storedP.
  assert (is_stored e = false) as ->; [| done]. eapply Hu; [| exact Hk]. lia.
Qed.

(** Filling the tail slot keeps the order append-only until the tail meets the
    head. *)
Lemma unwrapped_put q q' e new : wf_mq q -> wf_mq q' -> unwrapped q ->
  g_ring q !! g_tail q = Some e ->
  g_ring q' = upd (g_ring q) (g_tail q) new ->
  g_head q' = (if decide (g_count q = 0)%nat then g_tail q else g_head q) ->
  g_tail q' = next_slot (g_tail q) -> unwrapped q' \/ g_tail q' = g_head q'.
Proof.
  intros H H' Hu He Hr Hh Ht. pose proof (wf_head _ H') as Hh'. pose proof (wf_tail _ H) as Htl.
  pose proof (off_next (g_head q') (g_tail q) Hh' Htl) as Hon.
  destruct (decide (S (off MQ_CAPACITY (g_head q') (g_tail q)) < MQ_CAPACITY)%nat) as [Hlt | Hge].
  - left. intros k d Hk Hd. rewrite Ht, Hon in Hk. pose proof (walk_ring _ _ _ H' Hd) as Hw.
    rewrite Hr in Hw. apply lookup_upd_Some in Hw as [(Hi & _) | [_ Hw]].
    + exfalso. pose proof (lookup_lt_Some _ _ _ Hd) as Hlk. rewrite (cap_len _ H') in Hlk.
      assert (off MQ_CAPACITY (g_head q') (g_tail q) = k); [| lia].
      rewrite Hi. unfold off. rewrite <- Nat.add_sub_assoc by lia. rewrite Nat.Div0.add_mod_idemp_l.
      replace (g_head q' + k + (MQ_CAPACITY - g_head q'))%nat with (k + 1 * MQ_CAPACITY)%nat by lia.
      rewrite Nat.Div0.mod_add. apply Nat.mod_small. lia.
    + destruct (decide (g_count q = 0%nat)) as [Hz | Hz]; [exact (empty_free q _ d H Hz Hw) |].
      rewrite Hh in *. apply (Hu k d); [lia |].
      pose proof (lookup_lt_Some _ _ _ Hd) as Hlk. rewrite (cap_len _ H') in Hlk.
      unfold walk. pose proof (wf_length _ H) as Hwl.
      rewrite rot_lookup by (rewrite Hwl; done). by rewrite Hwl.
  - right. pose proof (off_add MQ_CAPACITY (g_head q') (g_tail q') Hh') as Hoa.
    rewrite Ht in Hoa |- *. rewrite <- Hoa by apply next_slot_lt. rewrite Hon, Nat.add_0_r.
    by rewrite Nat.mod_small.
Qed.

(** Exactly the first slots of the walk are stored, as after enqueuing into an
    empty ring. *)
Definition packed (q : mq) : Prop :=
  off MQ_CAPACITY (g_head q) (g_tail q) = (g_count q mod MQ_CAPACITY)%nat /\
  forall k e, (g_count q <= k)%nat -> walk q !! k = Some e -> is_stored e = false.

(** Accepting one message, for clients that enqueue many. *)
Lemma enqueue_step q f p len now : wf_mq q -> enqueue_args f p len ->
  (g_count q < MQ_CAPACITY)%nat ->
  exists q', mq_enqueue q f (Some p) len now = Some (MQ_OK, q') /\ wf_mq q' /\
    g_count q' = S (g_count q) /\ messages q' ≡ₚ messages q ++ [new_telegram f p len now] /\
    (packed q -> packed q' /\ messages q' = messages q ++ [new_telegram f p len now]).
Proof.
  intros H Hargs Hc. destruct (enqueue_ok q f p len now H Hargs) as (rc & q' & Hq & Hw & Hr).
  rewrite decide_False in Hr by lia.
  destruct Hr as (-> & _ & Hcn & _ & slot & new & Hv & Hns & _ & Hrg & Hh & Ht & (e & He & Hfr) & Hslot).
  exists q'. split_and!; [done | done | done | |].
  - destruct (enqueue_messages q q' slot e new H Hw He Hfr Hns Hrg Hh) as (l & l' & H1 & H2 & _).
    unfold messages. rewrite H1, H2, !fmap_app, fmap_cons, Hv. solve_Permutation.
  - intros [Ho Hp]. rewrite Nat.mod_small in Ho by done.
    assert (Hu : unwrapped q) by (intros k d Hk; apply Hp; lia).
    destruct (unwrapped_tail q H Hu) as (d & Hd & Hdf). rewrite (Hslot d Hd Hdf) in *. simplify_eq.
    pose proof (off_add MQ_CAPACITY (g_head q) (g_tail q) (wf_head _ H) (wf_tail _ H)) as Hoa.
    assert (Hh' : g_head q' = g_head q).
    { rewrite Hh. destruct (decide _) as [Hz | Hz]; [| done]. rewrite Ho, Hz in Hoa.
      rewrite Nat.add_0_r, Nat.mod_small in Hoa by apply H. done. }
    assert (Hwalk : walk q' = upd (walk q) (g_count q) new).
    { unfold walk at 1. rewrite Hh', Hrg, walk_upd by (done || apply H). by rewrite Ho. }
    split; [split |].
    + rewrite Hh', Ht, off_next, Ho, Hcn by apply H. destruct (decide (S (g_count q) < MQ_CAPACITY)%nat).
      * symmetry. apply Nat.mod_small. lia.
      * replace (S (g_count q)) with MQ_CAPACITY by lia. symmetry. apply Nat.Div0.mod_same.
    + intros k c Hk Hkc. rewrite Hwalk in Hkc.
      apply lookup_upd_Some in Hkc as [(<- & _) | [_ Hkc]]; [lia |]. apply (Hp k); [lia | done].
    + unfold messages. rewrite (stored_put q (g_tail q) e new q' H He Hrg Hh').
      rewrite (stored_at q (g_tail q) e H He), (unwrapped_after q H Hu).
      unfold keep. rewrite Hdf, Hns, !app_nil_r, fmap_app. by rewrite <- Hv.
Qed.

(** ** The attempt budget *)

Fixpoint budget (l : list stored_telegram) : Z :=
  match l with [] => 0 | t :: l => (MQ_MAX_ATTEMPTS - t_attempts t) + budget l end.

Lemma budget_app l k : budget (l ++ k) = budget l + budget k.
Proof. induction l; cbn [app budget]; lia. Qed.

Lemma ready_later now now' t : now <= now' -> ready now t = true -> ready now' t = true.
Proof.
  unfold ready. destruct (t_last t) as [z|], (t_receipt t) as [r|]; rewrite ?Z.leb_le; intros; lia || done.
Qed.

(** Calling [mq_service] at the given times. *)
Fixpoint mq_ticks {X} (tx : X -> Z -> bytes -> Z * X) (x : X) (q : mq) (ts : list Z)
    : option (X * mq) :=
  match ts with
  | [] => Some (x, q)
  | now :: ts => do! (_, x, q) := mq_service (Some tx) x q now; mq_ticks tx x q ts
  end.

(** Consecutive calls are at least the retry backoff apart. *)
Fixpoint spaced (last : Z) (ts : list Z) : Prop :=
  match ts with
  | [] => True
  | now :: ts => last + MQ_RETRY_BACKOFF_SEC <= now /\ spaced now ts
  end.

Lemma tick_refused {X} (tx : X -> Z -> bytes -> Z * X) x now last t l :
  (forall x f p, fst (tx x f p) < 0) -> last + MQ_RETRY_BACKOFF_SEC <= now ->
  Forall (fun t => t_attempts t < MQ_MAX_ATTEMPTS /\ ready (last + MQ_RETRY_BACKOFF_SEC) t = true) (t :: l) ->
  let '(o, x', l', d) := tick tx x now (t :: l) in
  budget l' + 1 <= budget (t :: l) /\
  Forall (fun t => t_attempts t < MQ_MAX_ATTEMPTS /\ ready (now + MQ_RETRY_BACKOFF_SEC) t = true) l'.
Proof.
  intros Htx Hn [[Ha Hr] Hl]%Forall_cons. pose proof timeout_backoff as Htb.
  rewrite tick_act by (by eapply ready_later). cbn [budget].
  assert (Hl' : Forall (fun t => t_attempts t < MQ_MAX_ATTEMPTS /\
    ready (now + MQ_RETRY_BACKOFF_SEC) t = true) l).
  { eapply Forall_impl; [exact Hl |]. intros u [Hu1 Hu2]. split; [done |].
    eapply ready_later, Hu2. lia. }
  unfold attempt. assert (He : t_attempts t <= t_attempts (expire t))
    by (unfold expire; destruct (t_receipt t); cbn; lia).
  destruct (MQ_MAX_ATTEMPTS <=? t_attempts (expire t)) eqn:E1; cbn [dropped app].
  { split; [lia | done]. }
  specialize (Htx x (t_friend (expire t)) (t_text (expire t))). zbool.
  destruct (tx x (t_friend (expire t)) (t_text (expire t))) as [rc x']. cbn in Htx.
  rewrite (proj2 (Z.leb_gt _ _)) by lia. cbn [t_attempts].
  destruct ((rc =? MQ_SEND_FATAL) || (MQ_MAX_ATTEMPTS <=? t_attempts (expire t) + 1)) eqn:E2;
    cbn [dropped app budget t_attempts].
  - split; [lia | done].
  - zbool. split; [lia |]. apply Forall_cons. split; [| done]. cbn [t_attempts]. split; [lia |].
    unfold ready. cbn. apply Z.leb_le. lia.
Qed.

Lemma messages_attempts q : wf_mq q -> Forall (fun t => t_attempts t < MQ_MAX_ATTEMPTS) (messages q).
Proof.
  intros H. apply Forall_fmap, Forall_forall. intros e He%(stored_elem _ _ H). cbn.
  destruct He as [Hs (_ & Hw & _)]. specialize (Hw Hs). lia.
Qed.

Lemma messages_nil q : wf_mq q -> messages q = [] -> mq_is_empty q = true.
Proof.
  intros H Hm. apply fmap_nil_inv in Hm. pose proof (stored_count _ H) as Hc. rewrite Hm in Hc.
  unfold mq_is_empty. apply Nat.eqb_eq. symmetry. exact Hc.
Qed.

Lemma budget_bound l : Forall (fun t => 0 <= t_attempts t) l ->
  budget l <= MQ_MAX_ATTEMPTS * zlen l.
Proof.
  induction 1 as [|t l Ht _ IH]; cbn [budget]; [unfold zlen; cbn; lia | rewrite zlen_cons; lia].
Qed.

End Runs.

(** * Properties *)
Section Properties.
Context `{cfg : mq_config}.

(** Claim C22. No sequence of calls to the public interface makes an assertion of
    the queue fail, writes outside a slot or loses a message: from start-up,
    every operation returns, the invariant that [mq_check_invariants] tests holds
    after it, and the number of messages accepted equals those confirmed, those
    dropped and those stored. *)
Theorem mq_safe : exists q0, mq_init = Some q0 /\
  forall cs, Forall (fun c => readable c = true) cs ->
  exists q, mq_run q0 cs = Some q /\ mq_check_invariants q = true /\ wf_mq q /\ balanced q.
Proof.
  destruct init_ok as (q0 & Hi & H & Hb & _). exists q0. split; [done |].
  intros cs Hcs. destruct (mq_run_ok cs q0 H Hb Hcs) as (q & Hr & Hw & Hbq).
  exists q. split_and!; try done. by apply check_wf.
Qed.

(** Claim C23. One call of [mq_service] is one tick of the abstract queue: the
    first message in visiting order that may be attempted is offered to the
    transport with exactly its recipient and text, the outcome, the message's
    new state, the counters and the hook calls follow the transport's answer, and
    every other message is untouched. *)
Theorem mq_service_refines {X} (tx : X -> Z -> bytes -> Z * X) x q now : wf_mq q ->
  let '(o, x', l, d) := tick tx x now (messages q) in
  exists q', mq_service (Some tx) x q now = Some (o, x', q') /\ wf_mq q' /\
    messages q' = l /\ g_stats q' = tick_stats o (g_stats q) /\
    q_events q' = q_events q ++ drop_events q d.
Proof.
  intros H. pose proof (service_ok tx x q now H) as Hs.
  destruct (tick tx x now (messages q)) as [[[o x'] l] d].
  destruct Hs as (q' & ? & ? & ? & ? & ? & _). by exists q'.
Qed.

(** [mq_enqueue] on every branch: bad arguments are refused with the
    queue unchanged, a full ring refuses with only the rejection counter moved,
    and otherwise exactly the new message, waiting for its first attempt, joins
    the messages stored, none of which is moved or altered. *)
Theorem mq_enqueue_result q f p len now : wf_mq q -> 0 <= len ->
  match p with Some p => len <= zlen p | None => True end ->
  match p with
  | None => mq_enqueue q f p len now = Some (MQ_ERR_RANGE, q)
  | Some text =>
    if decide (0 <= f /\ 0 < len < MQ_PAYLOAD_MAX) then
      if decide (mq_count q = MQ_CAPACITY) then
        exists q', mq_enqueue q f p len now = Some (MQ_ERR_FULL, q') /\ wf_mq q' /\
          messages q' = messages q /\ g_stats q' = bump_full (g_stats q) /\
          q_events q' = q_events q
      else
        exists q' l l', mq_enqueue q f p len now = Some (MQ_OK, q') /\ wf_mq q' /\
          messages q = l ++ l' /\ messages q' = l ++ new_telegram f text len now :: l' /\
          mq_count q' = S (mq_count q) /\ g_stats q' = bump_enqueued (g_stats q) /\
          q_events q' = q_events q ++ change_events q
    else mq_enqueue q f p len now = Some (MQ_ERR_RANGE, q)
  end.
Proof.
  intros H Hl Hp. destruct p as [p|]; [| done]. destruct (decide _) as [[Hf Hn] | Hbad].
  2: { unfold mq_enqueue. assert ((f <? 0) || (len =? 0) || (MQ_PAYLOAD_MAX <=? len) = true) as ->;
         [| done].
       destruct (Z.ltb_spec f 0); [done |]. destruct (Z.eqb_spec len 0); [done |].
       apply Z.leb_le. lia. }
  destruct (enqueue_ok q f p len now H) as (rc & q' & Hq & Hw & Hr); [done |].
  unfold mq_count. destruct (decide _) as [Hfull | Hroom].
  - destruct Hr as (-> & Hst & Hss & _ & Hev). exists q'. unfold messages. by rewrite Hst.
  - destruct Hr as (-> & Hss & Hc & Hev & slot & new & Hv & Hns & _ & Hrg & Hh & _ & (e & He & Hfr) & _).
    destruct (enqueue_messages q q' slot e new H Hw He Hfr Hns Hrg Hh) as (l & l' & H1 & H2 & _).
    exists q', (view <$> l), (view <$> l'). unfold messages.
    by rewrite H1, H2, !fmap_app, fmap_cons, Hv.
Qed.

(** [mq_confirm] on every branch: a confirmation removes one message
    that was sent to this friend and awaits this receipt, and nothing else; one
    that matches no message in flight changes nothing. *)
Theorem mq_confirm_result q f r : wf_mq q ->
  if decide (0 <= f /\ 0 <= r) then
    (exists q' l t l', mq_confirm q f r = Some (MQ_OK, q') /\ wf_mq q' /\
       messages q = l ++ t :: l' /\ acknowledges f r t = true /\ messages q' = l ++ l' /\
       g_stats q' = bump_confirmed (g_stats q) /\
       q_events q' = q_events q ++ change_events q) \/
    (mq_confirm q f r = Some (MQ_ERR_NOTFOUND, q) /\
     forall t, t ∈ messages q -> acknowledges f r t = false)
  else mq_confirm q f r = Some (MQ_ERR_RANGE, q).
Proof.
  intros H. destruct (decide _) as [[Hf Hr] | Hbad].
  - destruct (confirm_ok q f r H Hf Hr) as (rc & q' & Hq & Hw & [Hok | (-> & -> & Hno)]).
    + left. destruct Hok as (-> & Hss & _ & Hev & l & e & l' & Hl & Hc & Hl').
      exists q', (view <$> l), (view e), (view <$> l'). unfold messages.
      rewrite Hl, Hl', !fmap_app, fmap_cons, confirms_view. done.
    + right. split; [done |]. intros t (e & -> & He)%list_elem_of_fmap.
      rewrite confirms_view. by apply Hno.
  - unfold mq_confirm. assert ((f <? 0) || (r <? 0) = true) as ->; [| done].
    apply orb_true_iff. rewrite !Z.ltb_lt. lia.
Qed.

(** As long as the tail has not caught up with the head, messages are
    kept and visited in the order they arrived: a new one goes last. *)
Theorem mq_fifo q f p len now : wf_mq q -> unwrapped q -> enqueue_args f p len ->
  mq_is_full q = false ->
  exists q', mq_enqueue q f (Some p) len now = Some (MQ_OK, q') /\
    messages q' = messages q ++ [new_telegram f p len now] /\
    (unwrapped q' \/ g_tail q' = g_head q').
Proof.
  intros H Hu Hargs Hnf. unfold mq_is_full in Hnf. apply Nat.eqb_neq in Hnf.
  destruct (enqueue_ok q f p len now H Hargs) as (rc & q' & Hq & Hw & Hr).
  rewrite decide_False in Hr by done.
  destruct Hr as (-> & _ & _ & _ & slot & new & Hv & Hns & _ & Hrg & Hh & Ht & _ & Hslot).
  destruct (unwrapped_tail q H Hu) as (e & He & Hfr). rewrite (Hslot e He Hfr) in *.
  exists q'. split; [done |]. split.
  - destruct (enqueue_messages q q' _ e new H Hw He Hfr Hns Hrg Hh) as (l & l' & H1 & H2 & H3).
    unfold messages. rewrite H1, H2. destruct (decide (g_count q = 0%nat)) as [Hz | Hz].
    + pose proof (stored_nil q H Hz) as Hn. rewrite H1 in Hn.
      apply app_nil in Hn as [-> ->]. cbn. by rewrite Hv.
    + rewrite H3, (unwrapped_after q H Hu), app_nil_r by lia. by rewrite fmap_app, <- Hv.
  - by apply (unwrapped_put q q' e new).
Qed.

(** [mq_foreach] calls the visitor exactly once per stored message, in
    visiting order, with the recipient and the text that were enqueued. *)
Theorem mq_foreach_visits {X} (fn : X -> Z -> bytes -> X) x q : wf_mq q ->
  mq_foreach (Some fn) x q =
  Some (fold_left (fun x t => fn x (t_friend t) (t_text t)) (messages q) x).
Proof.
  intros H. unfold mq_foreach. by rewrite (foreach_loop_ok fn MQ_CAPACITY 0 0 x q).
Qed.

(** Claim C28. No message blocks the queue for ever: when the transport refuses
    everything, calls of [mq_service] at least the retry backoff apart empty the
    queue, after at most as many calls as the attempt budgets of the messages
    stored add up to. *)
Theorem mq_drains {X} (tx : X -> Z -> bytes -> Z * X) ts : forall x q last,
  (forall x f p, fst (tx x f p) < 0) -> wf_mq q ->
  Forall (fun t => ready (last + MQ_RETRY_BACKOFF_SEC) t = true) (messages q) ->
  spaced last ts -> MQ_MAX_ATTEMPTS * Z.of_nat (mq_count q) <= zlen ts ->
  exists x' q', mq_ticks tx x q ts = Some (x', q') /\ wf_mq q' /\ mq_is_empty q' = true.
Proof.
  intros x q last Htx H Hr Hsp Hlen.
  assert (Hb : budget (messages q) <= zlen ts).
  { etransitivity; [apply budget_bound | etransitivity; [| exact Hlen]].
    - apply Forall_fmap, Forall_forall. intros e [Hs (_ & Hw & _)]%(stored_elem _ _ H).
      specialize (Hw Hs). cbn. lia.
    - unfold messages, mq_count, zlen. by rewrite length_fmap, (stored_count _ H). }
  assert (Hall : Forall (fun t => t_attempts t < MQ_MAX_ATTEMPTS /\
    ready (last + MQ_RETRY_BACKOFF_SEC) t = true) (messages q)).
  { apply Forall_and. split; [by apply messages_attempts | done]. }
  clear Hr Hlen. revert x q last H Hsp Hb Hall.
  induction ts as [|now ts IH]; intros x q last H Hsp Hb Hall; cbn [mq_ticks].
  - exists x, q. split_and!; [done | done |]. apply messages_nil; [done |].
    destruct (messages q) as [|t l]; [done |]. exfalso.
    pose proof (messages_attempts q H). apply Forall_cons in Hall as [[Ha _] Hall].
    assert (0 <= budget l) by (clear - Hall; induction Hall as [|u l [Hu _] _ IHl]; cbn; lia).
    cbn [budget] in Hb. change (zlen (@nil Z)) with 0 in Hb. lia.
  - destruct Hsp as [Hn Hsp]. pose proof (service_ok tx x q now H) as Hs.
    rewrite zlen_cons in Hb. destruct (messages q) as [|t l] eqn:Em.
    + cbn [tick] in Hs. destruct Hs as (q' & -> & Hw & Hm & _).
      apply (IH x q' now); [done | done | |]; rewrite Hm; [cbn; auto with relay | constructor].
    + pose proof (tick_refused tx x now last t l Htx Hn Hall) as Ht.
      destruct (tick tx x now (t :: l)) as [[[o x'] l'] d].
      destruct Hs as (q' & -> & Hw & Hm & _). destruct Ht as [Hb' Hall'].
      apply (IH x' q' now); [done | done | rewrite Hm; lia | by rewrite Hm].
Qed.

End Properties.

(** ** Concrete runs *)

Definition hello : bytes := $"hello".

(** A, B and C fill a three-slot ring and are sent; B is acknowledged first. *)
Definition out_of_order : list mq_cmd :=
  [CEnqueue 1 (Some ($"A")) 1 100; CEnqueue 1 (Some ($"B")) 1 101; CEnqueue 1 (Some ($"C")) 1 102;
   CService (Some (fun _ p => if decide (p = $"A") then 7 else 8)) 103;
   CService (Some (fun _ p => if decide (p = $"A") then 7 else 8)) 104;
   CConfirm 1 8; CEnqueue 1 (Some ($"D")) 1 105].

Definition run_small (cs : list mq_cmd) : option mq :=
  do! q := @mq_init mq_small; @mq_run mq_small q cs.

(** A queue of the three-slot build holding one message, and the same with the
    message in flight. *)
Definition one_stored : mq :=
  default (mk_mq [] 0 0 0 0 (mk_stats 0 0 0 0 0) false false [])
    (run_small [CChangeHook true; CDropHook true; CEnqueue 4 (Some hello) 5 100]).
Definition one_sent : mq :=
  default (mk_mq [] 0 0 0 0 (mk_stats 0 0 0 0 0) false false [])
    (run_small [CEnqueue 4 (Some hello) 5 100; CService (Some (fun _ _ => 9)) 101]).

Lemma run_small_wf cs q : forallb readable cs = true -> run_small cs = Some q ->
  @wf_mq mq_small q.
Proof.
  intros Hc Hr. unfold run_small in Hr. destruct (@init_ok mq_small) as (q0 & E & H & Hb & _).
  rewrite E in Hr. destruct (@mq_run_ok mq_small cs q0 H Hb) as (q' & Hr' & Hw & _); [| congruence].
  apply Forall_forall. intros c Hin. rewrite forallb_forall in Hc. apply Hc, list_elem_of_In, Hin.
Qed.

Lemma one_stored_wf : @wf_mq mq_small one_stored.
Proof.
  apply run_small_wf with [CChangeHook true; CDropHook true; CEnqueue 4 (Some hello) 5 100];
    by vm_compute.
Qed.

Lemma one_sent_wf : @wf_mq mq_small one_sent.
Proof.
  apply run_small_wf with [CEnqueue 4 (Some hello) 5 100; CService (Some (fun _ _ => 9)) 101];
    by vm_compute.
Qed.

Lemma mq_safe_witness : exists q, run_small out_of_order = Some q /\
  @mq_check_invariants mq_small q = true.
Proof.
  unfold run_small. destruct (@mq_safe mq_small) as (q0 & Hi & Hrun). rewrite Hi.
  destruct (Hrun out_of_order) as (q & Hr & Hc & _); [repeat constructor |]. by exists q.
Defined.

Lemma mq_service_refines_witness : exists q',
  @mq_service mq_small unit (Some (fun _ _ _ => (-2, tt))) tt one_stored 200 =
    Some (MQ_OUTCOME_DEFERRED, tt, q') /\
  messages q' = [mk_telegram 4 hello 100 (Some 200) 1 None].
Proof.
  destruct (@mq_service_refines mq_small unit (fun _ _ _ => (-2, tt)) tt one_stored 200 one_stored_wf)
    as (q' & Hq & _ & Hm & _). exists q'. split; [exact Hq |]. rewrite Hm. by vm_compute.
Defined.

Lemma mq_enqueue_result_witness : exists q' l l',
  @mq_enqueue mq_small one_stored 4 (Some hello) 5 200 = Some (MQ_OK, q') /\
  messages one_stored = l ++ l' /\
  messages q' = l ++ mk_telegram 4 hello 200 None 0 None :: l'.
Proof.
  pose proof (@mq_enqueue_result mq_small one_stored 4 (Some hello) 5 200 one_stored_wf) as H.
  destruct H as (q' & l & l' & H1 & _ & H2 & H3 & _); [lia | by vm_compute |].
  exists q', l, l'. exact (conj H1 (conj H2 H3)).
Defined.

Lemma mq_confirm_result_witness : exists q' l t l',
  @mq_confirm mq_small one_sent 4 9 = Some (MQ_OK, q') /\ messages one_sent = l ++ t :: l' /\
  messages q' = l ++ l'.
Proof.
  destruct (@mq_confirm_result mq_small one_sent 4 9 one_sent_wf)
    as [(q' & l & t & l' & H1 & _ & H2 & _ & H3 & _) | [_ H]]; [exists q', l, t, l'; exact (conj H1 (conj H2 H3)) |].
  assert (messages one_sent = [mk_telegram 4 hello 100 (Some 101) 0 (Some 9)]) as Hm
    by (by vm_compute).
  rewrite Hm in H. by specialize (H _ (list_elem_of_here _ _)).
Defined.

Lemma mq_fifo_witness : exists q',
  @mq_enqueue mq_small one_stored 4 (Some ($"again")) 5 200 = Some (MQ_OK, q') /\
  messages q' = messages one_stored ++ [mk_telegram 4 ($"again") 200 None 0 None].
Proof.
  destruct (@mq_fifo mq_small one_stored 4 ($"again") 5 200 one_stored_wf) as (q' & H1 & H2 & _).
  - intros k e Hk He. pose proof (lookup_lt_Some _ _ _ He) as Hl.
    rewrite (cap_len _ one_stored_wf) in Hl. vm_compute in Hk, Hl.
    assert (k = 1 \/ k = 2)%nat as [-> | ->] by lia; vm_compute in He; injection He as <-; done.
  - split_and!; cbn; try lia. by vm_compute.
  - by vm_compute.
  - exists q'. exact (conj H1 H2).
Defined.

Lemma mq_foreach_visits_witness :
  @mq_foreach mq_small _ (Some (fun l f p => l ++ [(f, p)])) [] one_stored = Some [(4, hello)].
Proof. rewrite (@mq_foreach_visits mq_small _ _ [] one_stored one_stored_wf). by vm_compute. Defined.

Lemma mq_drains_witness : exists x' q',
  @mq_ticks mq_small unit (fun _ _ _ => (-2, tt)) tt one_stored [101; 102] = Some (x', q') /\
  mq_is_empty q' = true.
Proof.
  destruct (@mq_drains mq_small unit (fun _ _ _ => (-2, tt)) [101; 102] tt one_stored 100)
    as (x' & q' & H1 & _ & H2); [done | exact one_stored_wf | | cbn; lia | by vm_compute |].
  - apply Forall_forall. intros t Ht. assert (messages one_stored = [mk_telegram 4 hello 100 None 0 None])
      as Hm by (by vm_compute). rewrite Hm in Ht. by apply list_elem_of_singleton in Ht as ->.
  - exists x', q'. exact (conj H1 H2).
Defined.

(** "Oldest first" ends when the tail has gone round: in a three-slot
    ring, a message that refills the slot of one acknowledged out of order is
    visited, saved and serviced before an older one. *)
Theorem mq_order_lost : exists q, run_small out_of_order = Some q /\
  @mq_foreach mq_small _ (Some (fun l (_ : Z) p => l ++ [p])) [] q =
    Some [$"A"; $"D"; $"C"] /\
  t_since <$> messages q = [100; 105; 102].
Proof.
  eexists (default one_stored (run_small out_of_order)). split_and!; by vm_compute.
Qed.
