(* ===== verification/MqPersist.v ===== *)
(** * The queue file ([src/mq_persist.c], [src/mq_persist.h])

    Saving the queue through a temporary file and a rename, reading it back with
    every record checked before any is enqueued, over a file system whose calls
    may each fail and which records every state it passes through. *)

From S2P Require Import Prelude.
From S2P Require Import CString.
From S2P Require Import MsgQueue.

(** ** Format *)

Definition MQ_PERSIST_MAGIC : bytes := $"MQPQUEUE".
Definition MQ_PERSIST_VERSION : Z := 1.
Definition MQ_PERSIST_HEADER_SIZE : Z := 20.
Definition MQ_PERSIST_RECORD_HEAD : Z := 8.

Definition MQ_PERSIST_OK : Z := 0.
Definition MQ_PERSIST_ERR_PATH : Z := -1.
Definition MQ_PERSIST_ERR_IO : Z := -2.
Definition MQ_PERSIST_ERR_FORMAT : Z := -3.
Definition MQ_PERSIST_ERR_FULL : Z := -4.
Definition MQ_PERSIST_ERR_NOFILE : Z := -5.

(** [PATH_MAX] of the C library (Linux). *)
Definition PATH_MAX : Z := 4096.

Definition le_put_u32 (value : Z) : bytes :=
  [chr (Z.land value 255); chr (Z.land (Z.shiftr value 8) 255);
   chr (Z.land (Z.shiftr value 16) 255); chr (Z.land (Z.shiftr value 24) 255)].

(** Reading past the end of the buffer is [None]. *)
Definition le_get_u32 (buf : bytes) (off : Z) : option Z :=
  do! b0 := buf !! Z.to_nat off;
  do! b1 := buf !! Z.to_nat (off + 1);
  do! b2 := buf !! Z.to_nat (off + 2);
  do! b3 := buf !! Z.to_nat (off + 3);
  Some (Z.lor (Z.lor (Z.lor (code b0) (Z.shiftl (code b1) 8)) (Z.shiftl (code b2) 16))
          (Z.shiftl (code b3) 24)).

Definition le_put_i32 (value : Z) : bytes := le_put_u32 (u32 value).

Definition le_get_i32 (buf : bytes) (off : Z) : option Z :=
  do! v := le_get_u32 buf off; Some (i32 v).

(** ** The file system

    A file is its bytes and whether they have been forced to the device. Every
    call consumes one answer of a plan: it works, fails, or (a write) is cut
    short; beyond the plan calls work. [w_trace] lists the states the directory
    has passed through, the states a crash could leave. *)
Inductive answer : Type := Works | Fails | Short (n : nat).

Record file : Type := mk_file { f_data : bytes; f_synced : bool }.

Record world : Type := mk_world {
  w_files : gmap bytes file;
  w_plan : list answer;
  w_trace : list (gmap bytes file);
  w_dirs : list bytes }.        (* directories forced to the device *)

Definition ask (w : world) : answer * world :=
  match w_plan w with
  | [] => (Works, w)
  | a :: plan => (a, mk_world (w_files w) plan (w_trace w) (w_dirs w))
  end.

Definition set_files (w : world) (m : gmap bytes file) : world :=
  mk_world m (w_plan w) (w_trace w ++ [m]) (w_dirs w).

(** A call that only succeeds or fails. *)
Definition sys (w : world) : bool * world :=
  match ask w with (Works, w) => (true, w) | (_, w) => (false, w) end.

Definition fopen_wb (path : bytes) (w : world) : bool * world :=
  match sys w with
  | (true, w) => (true, set_files w (<[path := mk_file [] false]> (w_files w)))
  | r => r
  end.

(** Appends to an open file; a short or failed write leaves a prefix. *)
Definition fwrite (path data : bytes) (w : world) : Z * world :=
  let '(n, w) := match ask w with
    | (Works, w) => (length data, w)
    | (Fails, w) => (0%nat, w)
    | (Short n, w) => (Nat.min n (length data), w)
    end in
  let old := match w_files w !! path with Some f => f_data f | None => [] end in
  (Z.of_nat n, set_files w (<[path := mk_file (old ++ take n data) false]> (w_files w))).

Definition fsync_file (path : bytes) (w : world) : bool * world :=
  match sys w with
  | (true, w) =>
    let old := match w_files w !! path with Some f => f_data f | None => [] end in
    (true, set_files w (<[path := mk_file old true]> (w_files w)))
  | r => r
  end.

Definition unlink (path : bytes) (w : world) : bool * world :=
  match sys w with
  | (true, w) => (true, set_files w (delete path (w_files w)))
  | r => r
  end.

(** Atomic replacement, as POSIX has it. *)
Definition rename (from to : bytes) (w : world) : bool * world :=
  match sys w with
  | (true, w) =>
    match w_files w !! from with
    | None => (false, w)
    | Some f => (true, set_files w (<[to := f]> (delete from (w_files w))))
    end
  | r => r
  end.

(** [strrchr(path, '/')]: the position of the last slash. *)
Fixpoint last_slash (s : bytes) (i : nat) : option nat :=
  match s with
  | [] => None
  | c :: s =>
    match last_slash s (S i) with
    | Some j => Some j
    | None => if bool_decide (c = "/"%char) then Some i else None
    end
  end.

Definition parent_dir (path : bytes) : option bytes :=
  match last_slash path 0 with
  | None => Some ($".")
  | Some 0%nat => Some ($"/")
  | Some len => if PATH_MAX <=? Z.of_nat len then None else Some (take len path)
  end.

Definition mq_sync_parent_dir (path : bytes) (w : world) : world :=
  match parent_dir path with
  | None => w
  | Some dir =>
    let '(ok, w) := sys w in                       (* open *)
    if ok then
      let '(ok, w) := sys w in                     (* fsync *)
      let w := if ok then mk_world (w_files w) (w_plan w) (w_trace w) (w_dirs w ++ [dir]) else w in
      snd (sys w)                                  (* close *)
    else w
  end.

Section Persist.
Context `{cfg : mq_config}.

(** ** Saving *)

Definition mq_save_visit (tmp : bytes) (ctx : world * bool) (friendnum : Z) (payload : bytes)
    : world * bool :=
  let '(w, failed) := ctx in
  if failed then (w, failed)
  else
    let head := le_put_i32 friendnum ++ le_put_u32 (u32 (zlen payload)) in
    let '(n, w) := fwrite tmp head w in
    if negb (n =? MQ_PERSIST_RECORD_HEAD) then (w, true)
    else
      let '(n, w) := fwrite tmp payload w in
      (w, negb (n =? zlen payload)).

Definition header (n : nat) : bytes :=
  MQ_PERSIST_MAGIC ++ le_put_u32 MQ_PERSIST_VERSION ++ le_put_u32 (u32 (Z.of_nat n)) ++ le_put_u32 0.

(** The header and every record, into the open temporary file. *)
Definition save_write (q : mq) (tmp : bytes) (w : world) : option (bool * world) :=
  let '(n, w) := fwrite tmp (header (mq_count q)) w in
  if n =? MQ_PERSIST_HEADER_SIZE then
    do! (w, failed) := mq_foreach (Some (mq_save_visit tmp)) (w, false) q;
    Some (negb failed, w)
  else Some (false, w).

(** [fflush] and [fsync] while all is well, then [fclose]. *)
Definition save_sync (tmp : bytes) (ok : bool) (w : world) : bool * world :=
  let '(ok, w) := if ok then sys w else (false, w) in
  let '(ok, w) := if ok then fsync_file tmp w else (false, w) in
  let '(closed, w) := sys w in
  (ok && closed, w).

Definition mq_persist_save (q : mq) (path : option bytes) (w : world) : option (Z * world) :=
  match path with
  | None | Some [] => Some (MQ_PERSIST_ERR_PATH, w)
  | Some path =>
    let tmp := path ++ $".tmp" in
    if PATH_MAX <=? zlen tmp then Some (MQ_PERSIST_ERR_PATH, w)
    else
      let '(ok, w) := fopen_wb tmp w in
      if negb ok then Some (MQ_PERSIST_ERR_IO, w)
      else
        do! (ok, w) := save_write q tmp w;
        let '(ok, w) := save_sync tmp ok w in
        if negb ok then Some (MQ_PERSIST_ERR_IO, snd (unlink tmp w))
        else
          let '(renamed, w) := rename tmp path w in
          if negb renamed then Some (MQ_PERSIST_ERR_IO, snd (unlink tmp w))
          else Some (MQ_PERSIST_OK, mq_sync_parent_dir path w)
  end.

(** ** Loading *)

(** A call whose failure ends a read with [MQ_PERSIST_ERR_IO]. *)
Definition or_io (w : world) (k : world -> Z * bytes * world) : Z * bytes * world :=
  let '(ok, w) := sys w in if ok then k w else (MQ_PERSIST_ERR_IO, [], w).

(** [mq_read_all] between [fopen] and [fclose]. *)
Definition read_open (f : file) (w : world) : Z * bytes * world :=
  or_io w (fun w =>                                                        (* fseek END *)
  or_io w (fun w =>                                                        (* ftell *)
  or_io w (fun w =>                                                        (* fseek SET *)
  if zlen (f_data f) <? MQ_PERSIST_HEADER_SIZE then (MQ_PERSIST_ERR_FORMAT, [], w) else
  or_io w (fun w =>                                                        (* malloc *)
  or_io w (fun w => (MQ_PERSIST_OK, f_data f, w)))))).                     (* fread *)

(** [mq_read_all]: the code and, with [MQ_PERSIST_OK], the buffer. *)
Definition mq_read_all (path : bytes) (w : world) : Z * bytes * world :=
  match w_files w !! path with
  | None =>
    let '(ok, w) := sys w in                                               (* fopen *)
    ((if ok then MQ_PERSIST_ERR_NOFILE else MQ_PERSIST_ERR_IO), [], w)
  | Some f =>
    or_io w (fun w =>                                                      (* fopen *)
    let '(rc, out, w) := read_open f w in
    let '(closed, w) := sys w in                                           (* fclose *)
    if negb closed && (rc =? MQ_PERSIST_OK) then (MQ_PERSIST_ERR_IO, [], w)
    else (rc, out, w))
  end.

(** [None] is a read outside the buffer. *)
Fixpoint validate_loop (n : nat) (buf : bytes) (size off : Z) : option bool :=
  match n with
  | O => Some true
  | S n =>
    if size <? off + MQ_PERSIST_RECORD_HEAD then Some false
    else
      do! friendnum := le_get_i32 buf off;
      do! len := le_get_u32 buf (off + 4);
      let off := off + MQ_PERSIST_RECORD_HEAD in
      if (friendnum <? 0) || (len =? 0) || (MQ_PAYLOAD_MAX <=? len) then Some false
      else if size <? off + len then Some false
      else validate_loop n buf size (off + len)
  end.

Definition mq_validate_records (buf : bytes) (size count : Z) : option bool :=
  validate_loop (Z.to_nat count) buf size MQ_PERSIST_HEADER_SIZE.

(** The import loop of [mq_persist_load]: result code, messages loaded, queue. *)
Fixpoint import_loop (n : nat) (buf : bytes) (off now loaded : Z) (q : mq)
    : option (Z * Z * mq) :=
  match n with
  | O => Some (MQ_PERSIST_OK, loaded, q)
  | S n =>
    do! friendnum := le_get_i32 buf off;
    do! len := le_get_u32 buf (off + 4);
    let off := off + MQ_PERSIST_RECORD_HEAD in
    do! (enqueued, q) := mq_enqueue q friendnum (Some (drop (Z.to_nat off) buf)) len now;
    let off := off + len in
    if enqueued =? MQ_OK then import_loop n buf off now (loaded + 1) q
    else if enqueued =? MQ_ERR_FULL then Some (MQ_PERSIST_ERR_FULL, loaded, q)
    else Some (MQ_PERSIST_ERR_FORMAT, loaded, q)
  end.

Definition mq_persist_load (q : mq) (path : option bytes) (now : Z) (w : world)
    : option (Z * mq * world) :=
  match path with
  | None | Some [] => Some (MQ_PERSIST_ERR_PATH, q, w)
  | Some path =>
    let '(file_rc, buf, w) := mq_read_all path w in
    if negb (file_rc =? MQ_PERSIST_OK) then Some (file_rc, q, w)
    else
      let size := zlen buf in
      do! version := le_get_u32 buf 8;
      if negb (bool_decide (take 8 buf = MQ_PERSIST_MAGIC)) || negb (version =? MQ_PERSIST_VERSION)
      then Some (MQ_PERSIST_ERR_FORMAT, q, w)
      else
        do! count := le_get_u32 buf 12;
        do! valid := (if Z.of_nat MQ_CAPACITY <? count then Some false
                      else mq_validate_records buf size count);
        if negb valid then Some (MQ_PERSIST_ERR_FORMAT, q, w)
        else
          do! (result, loaded, q) := import_loop (Z.to_nat count) buf MQ_PERSIST_HEADER_SIZE now 0 q;
          Some (if result =? MQ_PERSIST_OK then loaded else result, q, w)
  end.

End Persist.

(** ** Little-endian scalars *)

Lemma lor_shift a b n : 0 <= n -> 0 <= a < 2 ^ n -> 0 <= b ->
  Z.lor a (Z.shiftl b n) = a + b * 2 ^ n.
Proof.
  intros Hn Ha Hb. rewrite <- Z.lxor_lor, <- Z.add_nocarry_lxor, Z.shiftl_mul_pow2; [done | done | |].
  all: apply Z.bits_inj'; intros k Hk; rewrite Z.land_spec, Z.bits_0.
  all: destruct (Z.lt_ge_cases k n).
  all: try (rewrite Z.shiftl_spec_low by done; apply andb_false_r).
  all: destruct (Z.eq_dec a 0) as [-> | Ha0]; [by rewrite Z.bits_0 |].
  all: rewrite (Z.bits_above_log2 a k); [done | lia |].
  all: assert (Z.log2 a < n) by (apply Z.log2_lt_pow2; lia); lia.
Qed.

Definition le_sum (b0 b1 b2 b3 : byte) : Z :=
  code b0 + code b1 * 2 ^ 8 + code b2 * 2 ^ 16 + code b3 * 2 ^ 24.

Lemma le_or b0 b1 b2 b3 :
  Z.lor (Z.lor (Z.lor (code b0) (Z.shiftl (code b1) 8)) (Z.shiftl (code b2) 16))
    (Z.shiftl (code b3) 24) = le_sum b0 b1 b2 b3.
Proof.
  pose proof (code_range b0); pose proof (code_range b1); pose proof (code_range b2);
    pose proof (code_range b3). unfold le_sum.
  rewrite (lor_shift (code b0)), (lor_shift (code b0 + _)), (lor_shift (code b0 + _ + _)) by lia.
  done.
Qed.

Lemma le_sum_range b0 b1 b2 b3 : 0 <= le_sum b0 b1 b2 b3 < 2 ^ 32.
Proof.
  pose proof (code_range b0); pose proof (code_range b1); pose proof (code_range b2);
    pose proof (code_range b3). unfold le_sum. lia.
Qed.

Lemma byte_of v k : 0 <= k -> code (chr (Z.land (Z.shiftr v k) 255)) = (v / 2 ^ k) mod 256.
Proof.
  intros. change 255 with (Z.ones 8). rewrite Z.land_ones, Z.shiftr_div_pow2 by lia.
  change (2 ^ 8) with 256. apply code_chr. apply Z.mod_pos_bound. lia.
Qed.

Lemma le_sum_put v : le_sum (chr (Z.land v 255)) (chr (Z.land (Z.shiftr v 8) 255))
  (chr (Z.land (Z.shiftr v 16) 255)) (chr (Z.land (Z.shiftr v 24) 255)) = u32 v.
Proof.
  unfold le_sum. rewrite <- (Z.shiftr_0_r v) at 1. rewrite !byte_of by lia. unfold u32.
  change (2 ^ 0) with 1. rewrite Z.div_1_r.
  change (2 ^ 8) with 256; change (2 ^ 16) with 65536; change (2 ^ 24) with 16777216;
    change (2 ^ 32) with 4294967296.
  Z.div_mod_to_equations. lia.
Qed.

Lemma le_put_sum b0 b1 b2 b3 : le_put_u32 (le_sum b0 b1 b2 b3) = [b0; b1; b2; b3].
Proof.
  pose proof (code_range b0); pose proof (code_range b1); pose proof (code_range b2);
    pose proof (code_range b3). unfold le_put_u32. set (v := le_sum _ _ _ _).
  assert (Hput : forall k c, 0 <= k -> (v / 2 ^ k) mod 256 = code c ->
    chr (Z.land (Z.shiftr v k) 255) = c).
  { intros k c Hk Hc. apply code_inj. by rewrite byte_of. }
  rewrite <- (Z.shiftr_0_r v) at 1. unfold v, le_sum in *.
  change (2 ^ 8) with 256 in *; change (2 ^ 16) with 65536 in *; change (2 ^ 24) with 16777216 in *.
  repeat f_equal; apply Hput; try lia;
    change (2 ^ 0) with 1; change (2 ^ 8) with 256; change (2 ^ 16) with 65536;
    change (2 ^ 24) with 16777216; Z.div_mod_to_equations; lia.
Qed.

(** Reading what follows a prefix. *)
Lemma le_get_app pre b0 b1 b2 b3 rest :
  le_get_u32 (pre ++ b0 :: b1 :: b2 :: b3 :: rest) (zlen pre) = Some (le_sum b0 b1 b2 b3).
Proof.
  unfold le_get_u32, zlen.
  replace (Z.to_nat (Z.of_nat (length pre))) with (length pre + 0)%nat by lia.
  replace (Z.to_nat (Z.of_nat (length pre) + 1)) with (length pre + 1)%nat by lia.
  replace (Z.to_nat (Z.of_nat (length pre) + 2)) with (length pre + 2)%nat by lia.
  replace (Z.to_nat (Z.of_nat (length pre) + 3)) with (length pre + 3)%nat by lia.
  rewrite !lookup_app_r, !Nat.add_sub_swap, !Nat.sub_diag by lia. cbn. by rewrite <- le_or.
Qed.

Lemma le_get_put pre v rest :
  le_get_u32 (pre ++ le_put_u32 v ++ rest) (zlen pre) = Some (u32 v).
Proof. unfold le_put_u32. cbn [app]. by rewrite le_get_app, le_sum_put. Qed.

Lemma split_at (buf : bytes) off : 0 <= off <= zlen buf ->
  exists pre rest, buf = pre ++ rest /\ zlen pre = off /\ rest = drop (Z.to_nat off) buf.
Proof.
  intros H. exists (take (Z.to_nat off) buf), (drop (Z.to_nat off) buf).
  rewrite take_drop, zlen_take by lia. split_and!; [done | lia | done].
Qed.

(** Conversely, four readable bytes are the encoding of what is read. *)
Lemma le_get_some buf off : 0 <= off -> off + 4 <= zlen buf ->
  exists v, le_get_u32 buf off = Some v /\ 0 <= v < 2 ^ 32 /\
    drop (Z.to_nat off) buf = le_put_u32 v ++ drop (Z.to_nat (off + 4)) buf.
Proof.
  intros H0 H. destruct (split_at buf off) as (pre & rest & Hb & Hp & Hr); [lia |].
  rewrite <- Hr. assert (Hl : 4 <= zlen rest) by (rewrite Hb in H; zlen).
  destruct rest as [|b0 [|b1 [|b2 [|b3 rest]]]];
    try (exfalso; rewrite ?zlen_cons, zlen_nil in Hl; lia).
  exists (le_sum b0 b1 b2 b3). split_and!; try apply le_sum_range.
  - by rewrite Hb, <- Hp, le_get_app.
  - rewrite le_put_sum. replace (Z.to_nat (off + 4)) with (4 + Z.to_nat off)%nat by lia.
    rewrite Nat.add_comm, <- drop_drop, <- Hr. done.
Qed.

Section PersistLemmas.
Context `{cfg : mq_config}.

(** ** Records *)

Definition enc_rec (r : Z * bytes) : bytes :=
  le_put_i32 (fst r) ++ le_put_u32 (u32 (zlen (snd r))) ++ snd r.
Definition enc_recs (rs : list (Z * bytes)) : bytes := concat (enc_rec <$> rs).

Definition valid_rec (r : Z * bytes) : Prop :=
  0 <= fst r <= INT_MAX /\ 0 < zlen (snd r) < MQ_PAYLOAD_MAX.

(** What a file holds for a list of messages. *)
Definition image (rs : list (Z * bytes)) : bytes := header (length rs) ++ enc_recs rs.

Lemma enc_recs_cons r rs : enc_recs (r :: rs) = enc_rec r ++ enc_recs rs.
Proof. done. Qed.

Lemma zlen_le_put v : zlen (le_put_u32 v) = 4.
Proof. done. Qed.

Lemma zlen_enc_rec r : zlen (enc_rec r) = 8 + zlen (snd r).
Proof. unfold enc_rec, le_put_i32. rewrite !zlen_app, !zlen_le_put. lia. Qed.

Lemma i32_u32_int f : 0 <= f <= INT_MAX -> i32 (u32 (u32 f)) = f.
Proof.
  unfold INT_MAX. intros H. rewrite !u32_id; [apply i32_id; lia | lia |].
  rewrite u32_id by lia. lia.
Qed.

(** Reading the two fields of a record that stands at [off]. *)
Lemma rec_at buf off r rest : valid_rec r -> 0 <= off ->
  drop (Z.to_nat off) buf = enc_rec r ++ rest ->
  le_get_i32 buf off = Some (fst r) /\ le_get_u32 buf (off + 4) = Some (zlen (snd r)) /\
  drop (Z.to_nat (off + 8)) buf = snd r ++ rest /\
  drop (Z.to_nat (off + 8 + zlen (snd r))) buf = rest /\
  off + 8 + zlen (snd r) + zlen rest = zlen buf.
Proof.
  intros [Hf Hl] Ho Hd. pose proof payload_u32 as Hp.
  assert (Hoff : off <= zlen buf).
  { assert (zlen (drop (Z.to_nat off) buf) >= 8) as H8 by (rewrite Hd, zlen_app, zlen_enc_rec; zlen).
    unfold zlen in *. rewrite length_drop in H8. lia. }
  destruct (split_at buf off) as (pre & tl & Hb & Hpre & Htl); [lia |].
  rewrite Hd in Htl. subst tl. unfold enc_rec in *. rewrite <- Hpre in *.
  assert (Hdp : forall k, drop (Z.to_nat (zlen pre + Z.of_nat k)) buf =
    drop k ((le_put_i32 (fst r) ++ le_put_u32 (u32 (zlen (snd r))) ++ snd r) ++ rest)).
  { intros k. replace (Z.to_nat (zlen pre + Z.of_nat k)) with (length pre + k)%nat
      by (unfold zlen; lia). by rewrite <- drop_drop, Hb, drop_app_length. }
  split_and!.
  - unfold le_get_i32. rewrite Hb. rewrite <- !app_assoc. unfold le_put_i32 at 1.
    rewrite le_get_put. by rewrite i32_u32_int.
  - rewrite Hb. rewrite <- !app_assoc. rewrite app_assoc.
    replace (zlen pre + 4) with (zlen (pre ++ le_put_i32 (fst r)))
      by (rewrite zlen_app; unfold le_put_i32; by rewrite zlen_le_put).
    rewrite le_get_put, !u32_id; [done | lia |]. rewrite u32_id; lia.
  - change 8 with (Z.of_nat 8). by rewrite Hdp.
  - replace (zlen pre + 8 + zlen (snd r)) with (zlen pre + Z.of_nat (8 + length (snd r)))
      by (unfold zlen; lia). rewrite Hdp, <- drop_drop. cbn [drop le_put_i32 le_put_u32 app].
    apply drop_app_length.
  - rewrite Hb, !zlen_app. unfold le_put_i32. rewrite !zlen_le_put. lia.
Qed.

(** The validation pass accepts exactly the buffers that hold [n] records, and
    never reads outside the buffer. *)
(** The first of the records found at an offset, from its two numbers. *)
Lemma first_rec buf off v len n rs rest : 0 <= off -> le_get_u32 buf off = Some v -> le_get_u32 buf (off + 4) = Some len ->
  length rs = S n -> Forall valid_rec rs -> drop (Z.to_nat off) buf = enc_recs rs ++ rest ->
  exists r rs', rs = r :: rs' /\ valid_rec r /\ Forall valid_rec rs' /\ fst r = i32 v /\
    zlen (snd r) = len /\ drop (Z.to_nat (off + 8 + len)) buf = enc_recs rs' ++ rest /\
    off + 8 + len <= zlen buf.
Proof.
  intros Ho Hg Hgl Hn Hv Hd. destruct rs as [|r rs']; [done |]. apply Forall_cons in Hv as [Hv Hvs].
  rewrite enc_recs_cons, <- app_assoc in Hd.
  destruct (rec_at _ _ _ _ Hv Ho Hd) as (E1 & E2 & _ & E4 & E5).
  unfold le_get_i32 in E1. rewrite Hg in E1. rewrite Hgl in E2. injection E1 as E1.
  injection E2 as E2. exists r, rs'. rewrite E2. split_and!; try done. zlen.
Qed.

(** A record with the two numbers and the bytes that follow them. *)
Lemma enc_rec_here buf off v len : 0 <= off -> 0 <= v < 2 ^ 32 -> 0 <= len < 2 ^ 32 -> off + 8 + len <= zlen buf ->
  drop (Z.to_nat off) buf = le_put_u32 v ++ drop (Z.to_nat (off + 4)) buf ->
  drop (Z.to_nat (off + 4)) buf = le_put_u32 len ++ drop (Z.to_nat (off + 8)) buf ->
  let text := take (Z.to_nat len) (drop (Z.to_nat (off + 8)) buf) in
  zlen text = len /\ drop (Z.to_nat off) buf = enc_rec (i32 v, text) ++ drop (Z.to_nat (off + 8 + len)) buf.
Proof.
  intros Ho Hv Hl Hz Hd1 Hd2 text.
  assert (Htk : zlen text = len) by (unfold text; rewrite zlen_take by lia; unfold zlen in *; rewrite length_drop; lia).
  split; [done |]. unfold enc_rec. cbn [fst snd]. rewrite Htk, Hd1, Hd2. unfold le_put_i32. rewrite <- !app_assoc.
  assert (u32 (i32 v) = v) as ->.
  { unfold u32, i32. rewrite Zminus_mod_idemp_l. rewrite Z.add_simpl_r. apply Z.mod_small. lia. }
  rewrite (u32_id len) by lia. do 2 f_equal. unfold text.
  rewrite <- (take_drop (Z.to_nat len) (drop (Z.to_nat (off + 8)) buf)) at 1.
  rewrite drop_drop. do 2 f_equal. lia.
Qed.

Lemma validate_ok n : forall buf off, 0 <= off <= zlen buf ->
  exists b, validate_loop n buf (zlen buf) off = Some b /\
    (b = true <-> exists rs rest, length rs = n /\ Forall valid_rec rs /\
                  drop (Z.to_nat off) buf = enc_recs rs ++ rest).
Proof.
  induction n as [|n IH]; intros buf off Ho; cbn [validate_loop].
  { exists true. split; [done |]. split; [intros _ | done].
    exists [], (drop (Z.to_nat off) buf). done. }
  unfold MQ_PERSIST_RECORD_HEAD. destruct (Z.ltb_spec (zlen buf) (off + 8)) as [Hs | Hs].
  { exists false. split; [done |]. split; [done |]. intros ([|r rs] & rest & Hn & Hv & Hd); [done |].
    apply Forall_cons in Hv as [Hv _]. rewrite enc_recs_cons, <- app_assoc in Hd.
    destruct (rec_at _ _ _ _ Hv (proj1 Ho) Hd) as (_ & _ & _ & _ & Hz). destruct Hv. zlen. }
  destruct (le_get_some buf off) as (v & Hg & Hvr & Hd1); [lia | lia |].
  destruct (le_get_some buf (off + 4)) as (len & Hgl & Hlr & Hd2); [lia | lia |].
  unfold le_get_i32. rewrite Hg, Hgl.
  replace (off + 4 + 4) with (off + 8) in Hd2 by lia.
  pose proof (fun rs rest => first_rec buf off v len n rs rest (proj1 Ho) Hg Hgl) as Hrec.
  destruct ((i32 v <? 0) || (len =? 0) || (MQ_PAYLOAD_MAX <=? len)) eqn:Eb.
  { exists false. split; [done |]. split; [done |]. intros (rs & rest & Hn & Hv & Hd).
    destruct (Hrec rs rest Hn Hv Hd) as (r & rs' & _ & [Hr1 Hr2] & _ & E1 & E2 & _).
    rewrite E1 in Hr1. rewrite E2 in Hr2.
    apply orb_true_iff in Eb as [[Eb | Eb]%orb_true_iff | Eb]; zbool; lia. }
  zbool. destruct (Z.ltb_spec (zlen buf) (off + 8 + len)) as [Hs2 | Hs2].
  { exists false. split; [done |]. split; [done |]. intros (rs & rest & Hn & Hv & Hd).
    destruct (Hrec rs rest Hn Hv Hd) as (r & rs' & _ & _ & _ & _ & _ & _ & Hle). lia. }
  destruct (IH buf (off + 8 + len)) as (b & Hb & Hiff); [lia |]. exists b. split; [done |].
  rewrite Hiff. split.
  - intros (rs & rest & Hn & Hv & Hd).
    exists ((i32 v, take (Z.to_nat len) (drop (Z.to_nat (off + 8)) buf)) :: rs), rest.
    destruct (enc_rec_here buf off v len) as [Htk Henc]; [lia.. | done | done |].
    split_and!; [cbn; lia | |].
    + constructor; [| done]. split; cbn [fst snd]; [| lia]. unfold i32, INT_MAX in *.
      pose proof (Z.mod_pos_bound (v + 2 ^ 31) (2 ^ 32) ltac:(lia)). lia.
    + by rewrite enc_recs_cons, <- app_assoc, <- Hd.
  - intros (rs & rest & Hn & Hv & Hd).
    destruct (Hrec rs rest Hn Hv Hd) as (r & rs' & -> & _ & Hv' & _ & _ & Hd' & _).
    exists rs', rest. split_and!; [cbn in Hn; lia | done | done].
Qed.

End PersistLemmas.

Section LoadSave.
Context `{cfg : mq_config}.

(** ** Loading *)

Definition restored (now : Z) (r : Z * bytes) : stored_telegram :=
  mk_telegram (fst r) (snd r) now None 0 None.

(** How many of [n] records still fit. *)
Definition room (q : mq) (n : nat) : nat := Nat.min n (MQ_CAPACITY - mq_count q).

Lemma import_ok rs : forall buf off now loaded q rest, wf_mq q -> 0 <= off <= zlen buf ->
  drop (Z.to_nat off) buf = enc_recs rs ++ rest -> Forall valid_rec rs ->
  exists q', import_loop (length rs) buf off now loaded q =
      Some (if decide (length rs <= MQ_CAPACITY - mq_count q)%nat
            then MQ_PERSIST_OK else MQ_PERSIST_ERR_FULL,
            loaded + Z.of_nat (room q (length rs)), q') /\ wf_mq q' /\
    messages q' ≡ₚ messages q ++ (restored now <$> take (room q (length rs)) rs) /\
    (packed q -> messages q' = messages q ++ (restored now <$> take (room q (length rs)) rs)).
Proof.
  unfold room, mq_count. induction rs as [|r rs IH]; intros buf off now loaded q rest H Ho Hd Hv.
  { exists q. cbn. rewrite decide_True by lia. rewrite Z.add_0_r, app_nil_r. done. }
  apply Forall_cons in Hv as [Hv Hvs]. rewrite enc_recs_cons, <- app_assoc in Hd.
  destruct (rec_at _ _ _ _ Hv (proj1 Ho) Hd) as (E1 & E2 & E3 & E4 & E5). destruct (Hv) as [Hf Hl].
  cbn [import_loop length]. rewrite E1, E2. unfold MQ_PERSIST_RECORD_HEAD. rewrite E3.
  assert (Hargs : enqueue_args (fst r) (snd r ++ enc_recs rs ++ rest) (zlen (snd r))).
  { split_and!; try lia. rewrite zlen_app. pose proof (zlen_nonneg (enc_recs rs ++ rest)). lia. }
  assert (Hnew : new_telegram (fst r) (snd r ++ enc_recs rs ++ rest) (zlen (snd r)) now =
    restored now r).
  { unfold new_telegram, restored, zlen. by rewrite Nat2Z.id, take_app_length. }
  destruct (decide (g_count q < MQ_CAPACITY)%nat) as [Hc | Hc].
  - destruct (enqueue_step q (fst r) _ (zlen (snd r)) now H Hargs Hc)
      as (q1 & -> & Hw1 & Hc1 & Hm1 & Hp1). rewrite Z.eqb_refl. rewrite Hnew in *.
    destruct (IH buf (off + 8 + zlen (snd r)) now (loaded + 1) q1 rest Hw1) as (q' & -> & Hw & Hm & Hp);
      [pose proof (zlen_nonneg (snd r)); zlen | done | done |].
    exists q'. rewrite Hc1.
    replace (Nat.min (S (length rs)) (MQ_CAPACITY - g_count q))
      with (S (Nat.min (length rs) (MQ_CAPACITY - S (g_count q)))) by lia.
    cbn [take fmap list_fmap]. rewrite Hc1 in *. split_and!; [| done | |].
    + f_equal. f_equal. f_equal; [| lia]. repeat destruct (decide _); try done; lia.
    + rewrite Hm, Hm1, <- app_assoc. done.
    + intros [Hpk Hme]%Hp1. rewrite (Hp Hpk), Hme, <- app_assoc. done.
  - destruct (enqueue_ok q (fst r) _ (zlen (snd r)) now H Hargs) as (rc & q1 & -> & Hw1 & Hr).
    pose proof (count_le_length is_stored (g_ring q)) as Hcl.
    rewrite (wf_count _ H), (wf_length _ H) in Hcl.
    rewrite decide_True in Hr by lia. destruct Hr as (-> & Hst & _).
    exists q1. cbn [Z.eqb MQ_ERR_FULL MQ_OK]. rewrite decide_False by lia.
    replace (MQ_CAPACITY - g_count q)%nat with 0%nat by lia. rewrite Nat.min_0_r, Z.add_0_r.
    cbn [take fmap list_fmap]. rewrite app_nil_r. unfold messages. by rewrite Hst.
Qed.

Lemma sys_files w : w_files (snd (sys w)) = w_files w /\ w_trace (snd (sys w)) = w_trace w /\
  (w_plan w = [] -> sys w = (true, w)).
Proof. unfold sys, ask. by destruct w as [m [|[]] tr d]. Qed.

Definition file_data (w : world) (path : bytes) : option bytes := f_data <$> w_files w !! path.

(** The result of reading file [f], started in [w]: the files are untouched, an
    answer [MQ_PERSIST_OK] comes with the whole file, and without faults that is
    the answer for a file that holds a header. *)
Definition read_result (f : file) (w : world) (r : Z * bytes * world) : Prop :=
  let '(rc, out, w') := r in
  w_files w' = w_files w /\
  (rc = MQ_PERSIST_OK /\ out = f_data f /\ MQ_PERSIST_HEADER_SIZE <= zlen out \/
   rc = MQ_PERSIST_ERR_IO \/ rc = MQ_PERSIST_ERR_FORMAT) /\
  (w_plan w = [] -> MQ_PERSIST_HEADER_SIZE <= zlen (f_data f) -> rc = MQ_PERSIST_OK /\ w' = w).

Lemma read_or_io f w k : (forall w', w_files w' = w_files w -> read_result f w' (k w')) ->
  read_result f w (or_io w k).
Proof.
  intros Hk. unfold or_io. destruct (sys_files w) as (Hf & _ & Hp).
  destruct (sys w) as [ok w1]. cbn in Hf. specialize (Hk w1 Hf). destruct ok.
  - destruct (k w1) as [[rc out] w']. destruct Hk as (H1 & H2 & H3). split_and!; [congruence | done |].
    intros Hpl. specialize (Hp Hpl). injection Hp as ->. by apply H3.
  - split_and!; [done | by right; left |]. intros Hpl. by specialize (Hp Hpl).
Qed.

Lemma read_open_ok f w : read_result f w (read_open f w).
Proof.
  unfold read_open. do 3 (apply read_or_io; intros ? _).
  destruct (Z.ltb_spec (zlen (f_data f)) MQ_PERSIST_HEADER_SIZE) as [Hs | Hs].
  - split_and!; [done | by right; right | lia].
  - do 2 (apply read_or_io; intros ? _). split_and!; [done | by left | done].
Qed.

Lemma read_all_ok path w f : w_files w !! path = Some f ->
  read_result f w (mq_read_all path w).
Proof.
  intros Hf. unfold mq_read_all. rewrite Hf. apply read_or_io. intros w1 _.
  pose proof (read_open_ok f w1) as Hr. destruct (read_open f w1) as [[rc out] w2].
  destruct Hr as (H1 & H2 & H3). destruct (sys_files w2) as (Hf2 & _ & Hp2).
  destruct (sys w2) as [closed w3]. cbn in Hf2.
  destruct (negb closed && (rc =? MQ_PERSIST_OK)) eqn:E.
  - split_and!; [congruence | by right; left |]. intros Hpl Hsz.
    destruct (H3 Hpl Hsz) as [-> ->]. specialize (Hp2 Hpl). by injection Hp2 as -> ->.
  - split_and!; [congruence | done |]. intros Hpl Hsz. destruct (H3 Hpl Hsz) as [-> ->].
    specialize (Hp2 Hpl). by injection Hp2 as -> ->.
Qed.

(** A queue file: header for [length rs] records, the records, and anything
    after them. The reserved word is not looked at. *)
Definition queue_file (rs : list (Z * bytes)) (buf : bytes) : Prop :=
  exists reserved rest, zlen reserved = 4 /\
    buf = MQ_PERSIST_MAGIC ++ le_put_u32 MQ_PERSIST_VERSION ++
          le_put_u32 (Z.of_nat (length rs)) ++ reserved ++ enc_recs rs ++ rest.

Lemma queue_file_image rs : (length rs <= MQ_CAPACITY)%nat -> queue_file rs (image rs).
Proof.
  intros Hl. exists (le_put_u32 0), []. split; [done |]. unfold image, header.
  rewrite u32_id by (pose proof capacity_u32; lia). by rewrite app_nil_r, <- !app_assoc.
Qed.

(** A file is the image of one list of records only. *)
Lemma enc_recs_inj rs : forall rs' rest rest', length rs = length rs' ->
  Forall valid_rec rs -> Forall valid_rec rs' ->
  enc_recs rs ++ rest = enc_recs rs' ++ rest' -> rs = rs'.
Proof.
  induction rs as [|r rs IH]; intros [|r' rs'] rest rest' Hl H H' He; try done.
  apply Forall_cons in H as [Hr Hrs]. apply Forall_cons in H' as [Hr' Hrs'].
  rewrite !enc_recs_cons, <- !app_assoc in He.
  destruct (rec_at (enc_rec r ++ enc_recs rs ++ rest) 0 r (enc_recs rs ++ rest) Hr) as (E1 & E2 & E3 & E4 & _); [lia | done |].
  destruct (rec_at (enc_rec r ++ enc_recs rs ++ rest) 0 r' (enc_recs rs' ++ rest') Hr') as (F1 & F2 & F3 & F4 & _);
    [lia | exact He |].
  rewrite E1 in F1. rewrite E2 in F2. injection F1 as F1. injection F2 as F2.
  rewrite E3 in F3. rewrite F2, F4 in E4.
  assert (snd r = snd r') as Hs.
  { apply app_inj_1 in F3 as [? _]; [done |]. unfold zlen in F2. lia. }
  f_equal; [destruct r, r'; cbn in *; congruence |].
  eapply IH; [by injection Hl | done | done | by rewrite <- E4].
Qed.

Lemma queue_file_inj rs rs' buf : queue_file rs buf -> queue_file rs' buf ->
  Forall valid_rec rs -> Forall valid_rec rs' ->
  (length rs <= MQ_CAPACITY)%nat -> (length rs' <= MQ_CAPACITY)%nat -> rs = rs'.
Proof.
  intros (r4 & rest & Hz & ->) (r4' & rest' & Hz' & He) Hv Hv' Hl Hl'.
  pose proof capacity_u32 as Hc.
  apply app_inv_head, app_inv_head in He. apply app_inj_1 in He as [Hn He]; [| done].
  apply app_inj_1 in He as [_ He]; [| unfold zlen in *; lia].
  assert (length rs = length rs') as Hlen.
  { pose proof (le_get_put [] (Z.of_nat (length rs)) []) as G1.
    pose proof (le_get_put [] (Z.of_nat (length rs')) []) as G2.
    rewrite Hn, G2 in G1. injection G1 as G1. rewrite !u32_id in G1 by lia. lia. }
  by eapply enc_recs_inj.
Qed.

(** The header fields where the loader reads them. *)
Lemma header_reads buf : MQ_PERSIST_HEADER_SIZE <= zlen buf ->
  exists version count, le_get_u32 buf 8 = Some version /\ le_get_u32 buf 12 = Some count /\
    0 <= count /\
    buf = take 8 buf ++ le_put_u32 version ++ le_put_u32 count ++
          take 4 (drop 16 buf) ++ drop 20 buf.
Proof.
  unfold MQ_PERSIST_HEADER_SIZE. intros Hl.
  destruct (le_get_some buf 8) as (v & H1 & _ & H2); [lia | lia |].
  destruct (le_get_some buf 12) as (c & H3 & ? & H4); [lia | lia |].
  exists v, c. split_and!; [done | done | lia |].
  change (Z.to_nat 8) with 8%nat in H2. change (Z.to_nat (8 + 4)) with 12%nat in H2.
  change (Z.to_nat 12) with 12%nat in H4. change (Z.to_nat (12 + 4)) with 16%nat in H4.
  rewrite <- (take_drop 8 buf) at 1. rewrite H2, H4.
  rewrite <- (take_drop 4 (drop 16 buf)) at 1. by rewrite drop_drop.
Qed.

(** What loading the bytes of a file does. *)
Definition load_buf (q : mq) (buf : bytes) (now : Z) (rc : Z) (q' : mq) : Prop :=
  (exists rs, queue_file rs buf /\ Forall valid_rec rs /\ (length rs <= MQ_CAPACITY)%nat /\
     rc = (if decide (length rs <= MQ_CAPACITY - mq_count q)%nat
           then Z.of_nat (length rs) else MQ_PERSIST_ERR_FULL) /\
     messages q' ≡ₚ messages q ++ (restored now <$> take (room q (length rs)) rs) /\
     (packed q -> messages q' = messages q ++ (restored now <$> take (room q (length rs)) rs))) \/
  (rc = MQ_PERSIST_ERR_FORMAT /\ q' = q /\
   forall rs, Forall valid_rec rs -> (length rs <= MQ_CAPACITY)%nat -> ~ queue_file rs buf).

(** What the fields of a queue's file read as. *)
Lemma queue_file_reads rs buf version n : queue_file rs buf -> (length rs <= MQ_CAPACITY)%nat ->
  le_get_u32 buf 8 = Some version -> le_get_u32 buf 12 = Some n ->
  take 8 buf = MQ_PERSIST_MAGIC /\ version = MQ_PERSIST_VERSION /\ n = Z.of_nat (length rs) /\
  exists rest, drop (Z.to_nat MQ_PERSIST_HEADER_SIZE) buf = enc_recs rs ++ rest.
Proof.
  intros (reserved & rest & Hr & Hq) Hrl Hv Hn. pose proof capacity_u32.
    assert (H12 : le_get_u32 buf 12 = Some (u32 (Z.of_nat (length rs)))).
    { rewrite Hq, app_assoc. apply (le_get_put (MQ_PERSIST_MAGIC ++ le_put_u32 MQ_PERSIST_VERSION)). }
    assert (H8 : le_get_u32 buf 8 = Some (u32 MQ_PERSIST_VERSION)).
    { rewrite Hq. apply (le_get_put MQ_PERSIST_MAGIC). }
    rewrite Hn, u32_id in H12 by lia. rewrite Hv in H8.
    split_and!; [by rewrite Hq | by injection H8 | by injection H12 |].
    exists rest. rewrite Hq, !app_assoc, <- (app_assoc _ (enc_recs rs)).
    replace (Z.to_nat MQ_PERSIST_HEADER_SIZE) with
      (length (((MQ_PERSIST_MAGIC ++ le_put_u32 MQ_PERSIST_VERSION) ++
        le_put_u32 (Z.of_nat (length rs))) ++ reserved)).
    - apply drop_app_length.
    - unfold zlen in Hr. rewrite !length_app. change (length MQ_PERSIST_MAGIC) with 8%nat.
      unfold le_put_u32. cbn [length]. change (Z.to_nat MQ_PERSIST_HEADER_SIZE) with 20%nat. lia.
Qed.

Lemma load_buf_ok q buf now w path w' : wf_mq q -> path <> [] ->
  mq_read_all path w = (MQ_PERSIST_OK, buf, w') -> MQ_PERSIST_HEADER_SIZE <= zlen buf ->
  exists rc q', mq_persist_load q (Some path) now w = Some (rc, q', w') /\ wf_mq q' /\
    load_buf q buf now rc q'.
Proof.
  intros H Hpath Hrd Hl. destruct path as [|c path]; [done |]. unfold mq_persist_load. rewrite Hrd.
  cbn [negb Z.eqb MQ_PERSIST_OK]. cbv zeta.
  destruct (header_reads buf Hl) as (version & n & Hv & Hn & Hn0 & Hbuf). rewrite Hv, Hn.
  destruct (validate_ok (Z.to_nat n) buf MQ_PERSIST_HEADER_SIZE) as (b & Hb & Hiff);
    [unfold MQ_PERSIST_HEADER_SIZE in *; lia |].
  pose proof (fun rs H Hc => queue_file_reads rs buf version n H Hc Hv Hn) as Hno.
  destruct (negb (bool_decide (take 8 buf = MQ_PERSIST_MAGIC)) ||
            negb (version =? MQ_PERSIST_VERSION)) eqn:Eh.
  { eexists _, q. split; [done |]. split; [done |]. right. split_and!; [done | done |].
    intros rs _ Hrl (H1 & H2 & _)%Hno; [| done]. rewrite bool_decide_eq_true_2 in Eh by done.
    rewrite H2 in Eh. done. }
  apply orb_false_iff in Eh as [Em Ev]. apply negb_false_iff, bool_decide_eq_true_1 in Em.
  zbool. subst version.
  destruct (Z.ltb_spec (Z.of_nat MQ_CAPACITY) n) as [Hbig | Hfit]; cbn [negb].
  { eexists _, q. split; [done |]. split; [done |]. right. split_and!; [done | done |].
    intros rs _ Hrl (_ & _ & H3 & _)%Hno; [| done]. lia. }
  unfold mq_validate_records. rewrite Hb. destruct b; cbn [negb].
  - destruct (proj1 Hiff eq_refl) as (rs & rest & Hrn & Hvr & Hd). rewrite <- Hrn.
    destruct (import_ok rs buf MQ_PERSIST_HEADER_SIZE now 0 q rest H) as (q' & -> & Hw & Hm & Hp);
      [unfold MQ_PERSIST_HEADER_SIZE in *; lia | done | done |].
    eexists _, q'. split; [done |]. split; [done |]. left. exists rs.
    split_and!; [| done | lia | | done | done].
    + exists (take 4 (drop 16 buf)), rest. split.
      * unfold zlen in *. rewrite length_take, length_drop. unfold MQ_PERSIST_HEADER_SIZE in Hl. lia.
      * rewrite Hbuf at 1. rewrite Em. change (drop 20 buf) with (drop (Z.to_nat MQ_PERSIST_HEADER_SIZE) buf).
        rewrite Hd, Hrn, Z2Nat.id by done. done.
    + destruct (decide _) as [Hroom | Hroom]; [| done].
      unfold room. rewrite Nat.min_l by done. done.
  - eexists _, q. split; [done |]. split; [done |]. right. split_and!; [done | done |].
    intros rs Hvr Hrl (_ & _ & H3 & rest & Hd)%Hno; [| done].
    enough (false = true) by done. apply Hiff. exists rs, rest. split_and!; [lia | done | done].
Qed.

End LoadSave.

(** ** Saving *)
Section Save.
Context `{cfg : mq_config}.
Variable past : list (gmap bytes file).

(** In every directory state after [past], and now, every name but [tmp] is as it
    was in [m0]. *)
Definition only_tmp (tmp : bytes) (m0 : gmap bytes file) (w : world) : Prop :=
  (forall p, p <> tmp -> w_files w !! p = m0 !! p) /\
  exists l, w_trace w = past ++ l /\
    Forall (fun m : gmap bytes file => forall p, p <> tmp -> m !! p = m0 !! p) l.

Lemma only_tmp_same tmp m0 w w' : only_tmp tmp m0 w -> w_files w' = w_files w ->
  w_trace w' = w_trace w -> only_tmp tmp m0 w'.
Proof. unfold only_tmp. by intros H -> ->. Qed.

Lemma only_tmp_set tmp m0 w m : only_tmp tmp m0 w ->
  (forall p, p <> tmp -> m !! p = w_files w !! p) -> only_tmp tmp m0 (set_files w m).
Proof.
  intros (H1 & l & Ht & H2) Hm. assert (Hm0 : forall p, p <> tmp -> m !! p = m0 !! p)
    by (intros p Hp; rewrite Hm by done; by apply H1).
  split; [done |]. exists (l ++ [m]). split; [cbn; by rewrite Ht, app_assoc |].
  apply Forall_app. split; [done | by repeat constructor].
Qed.

Lemma only_tmp_sys tmp m0 w : only_tmp tmp m0 w -> only_tmp tmp m0 (snd (sys w)).
Proof. intros H. destruct (sys_files w) as (? & ? & _). by eapply only_tmp_same. Qed.

#[local] Hint Resolve only_tmp_sys : core.

Lemma insert_other (tmp : bytes) (f : file) m p : p <> tmp -> (<[tmp := f]> m : gmap bytes file) !! p = m !! p.
Proof. intros. by apply lookup_insert_ne. Qed.

Lemma delete_other (tmp : bytes) (m : gmap bytes file) p : p <> tmp -> delete tmp m !! p = m !! p.
Proof. intros. by apply lookup_delete_ne. Qed.

#[local] Hint Resolve insert_other delete_other : core.

Lemma fwrite_ok tmp m0 w data d : only_tmp tmp m0 w -> file_data w tmp = Some d ->
  exists n w', fwrite tmp data w = (n, w') /\ only_tmp tmp m0 w' /\
    (exists d', file_data w' tmp = Some d') /\
    (n = zlen data -> file_data w' tmp = Some (d ++ data)) /\
    (w_plan w = [] -> n = zlen data /\ w_plan w' = []).
Proof.
  intros H Hd. unfold fwrite, ask, file_data in *.
  destruct (w_files w !! tmp) as [f|] eqn:Ef; [| done]. cbn in Hd. injection Hd as <-.
  destruct (w_plan w) as [|[| |n] plan] eqn:Ep; cbn [w_files];
    rewrite ?Ef; eexists _, _; (split; [reflexivity |]); split_and!;
    try (eapply only_tmp_set; [by eapply only_tmp_same | by auto]);
    try (eexists; unfold set_files; cbn [w_files]; by rewrite lookup_insert_eq); try done;
    intros Hn; cbn [w_files set_files]; rewrite lookup_insert_eq; cbn; do 2 f_equal.
  all: apply take_ge; unfold zlen in Hn; lia.
Qed.

Lemma fsync_ok tmp m0 w d : only_tmp tmp m0 w -> file_data w tmp = Some d ->
  exists b w', fsync_file tmp w = (b, w') /\ only_tmp tmp m0 w' /\
    (b = true -> w_files w' !! tmp = Some (mk_file d true)) /\
    (w_plan w = [] -> b = true /\ w_plan w' = []).
Proof.
  intros H Hd. unfold fsync_file, file_data in *. pose proof (only_tmp_sys _ _ _ H) as Hs.
  destruct (sys_files w) as (Hf & _ & Hp). destruct (sys w) as [[] w1]; cbn [snd] in *.
  - rewrite Hf. destruct (w_files w !! tmp) as [f|] eqn:Ef; [| done]. cbn in Hd. injection Hd as <-.
    eexists _, _. split; [done |]. split_and!.
    + eapply only_tmp_set; [done |]. rewrite Hf. by auto.
    + intros _. cbn. by rewrite lookup_insert_eq.
    + intros Hpl. specialize (Hp Hpl). injection Hp as ->. done.
  - eexists _, _. split; [done |]. split_and!; [done | done |]. intros Hpl. by specialize (Hp Hpl).
Qed.

Lemma unlink_ok tmp m0 w : only_tmp tmp m0 w -> only_tmp tmp m0 (snd (unlink tmp w)).
Proof.
  intros H. unfold unlink. pose proof (only_tmp_sys _ _ _ H) as Hs.
  destruct (sys w) as [[] w1]; cbn [snd] in *; [| done].
  eapply only_tmp_set; [done |]. by auto.
Qed.

(** One record. *)
Lemma save_visit_ok tmp m0 w d f p : only_tmp tmp m0 w -> file_data w tmp = Some d ->
  zlen p < 2 ^ 32 ->
  let '(w', failed) := mq_save_visit tmp (w, false) f p in
  only_tmp tmp m0 w' /\ (exists d', file_data w' tmp = Some d') /\
  (failed = false -> file_data w' tmp = Some (d ++ enc_rec (f, p))) /\
  (w_plan w = [] -> failed = false /\ w_plan w' = []).
Proof.
  intros H Hd Hp. unfold mq_save_visit, enc_rec. cbn [fst snd].
  set (head := le_put_i32 f ++ le_put_u32 (u32 (zlen p))).
  destruct (fwrite_ok tmp m0 w head d H Hd) as (n & w1 & -> & H1 & [d1 Hd1] & Hok & Hpl).
  change MQ_PERSIST_RECORD_HEAD with (zlen head). destruct (Z.eqb_spec n (zlen head)) as [E | E]; cbn [negb].
  2: { split_and!; [done | by exists d1 | done |]. intros Hw. by destruct (Hpl Hw). }
  specialize (Hok E).
  destruct (fwrite_ok tmp m0 w1 p _ H1 Hok) as (n2 & w2 & -> & H2 & Hd2 & Hok2 & Hpl2).
  split_and!; [done | done | |].
  - intros E2%negb_false_iff%Z.eqb_eq. rewrite (Hok2 E2). unfold head. by rewrite <- !app_assoc.
  - intros Hw. destruct (Hpl Hw) as [_ Hw1]. destruct (Hpl2 Hw1) as [-> ?].
    by rewrite Z.eqb_refl.
Qed.

Lemma save_failed tmp l : forall w,
  fold_left (fun x t => mq_save_visit tmp x (t_friend t) (t_text t)) l (w, true) = (w, true).
Proof. induction l as [|t l IH]; intros w; [done |]. apply IH. Qed.

Definition saved (t : stored_telegram) : Z * bytes := (t_friend t, t_text t).

Lemma save_all_ok tmp m0 l : forall w d, only_tmp tmp m0 w -> file_data w tmp = Some d ->
  Forall (fun t => zlen (t_text t) < 2 ^ 32) l ->
  let '(w', failed) := fold_left (fun x t => mq_save_visit tmp x (t_friend t) (t_text t)) l (w, false) in
  only_tmp tmp m0 w' /\ (exists d', file_data w' tmp = Some d') /\
  (failed = false -> file_data w' tmp = Some (d ++ enc_recs (saved <$> l))) /\
  (w_plan w = [] -> failed = false /\ w_plan w' = []).
Proof.
  induction l as [|t l IH]; intros w d H Hd Hl; cbn [fold_left].
  { split_and!; [done | by exists d | by rewrite app_nil_r | done]. }
  apply Forall_cons in Hl as [Ht Hl].
  pose proof (save_visit_ok tmp m0 w d (t_friend t) (t_text t) H Hd Ht) as Hv.
  destruct (mq_save_visit tmp (w, false) (t_friend t) (t_text t)) as [w1 [|]].
  - rewrite save_failed. destruct Hv as (H1 & H2 & _ & H4). split_and!; done || (intros Hw; by destruct (H4 Hw)).
  - destruct Hv as (H1 & _ & H3 & H4). specialize (IH w1 _ H1 (H3 eq_refl) Hl).
    destruct (fold_left _ l (w1, false)) as [w2 failed]. destruct IH as (H5 & H6 & H7 & H8).
    split_and!; [done | done | |].
    + intros E. rewrite (H7 E), fmap_cons, enc_recs_cons, app_assoc. done.
    + intros Hw. by apply H8, H4.
Qed.

Lemma messages_text q : wf_mq q -> Forall (fun t => zlen (t_text t) < 2 ^ 32) (messages q).
Proof.
  intros H. apply Forall_fmap, Forall_forall. intros e [Hs (Hp & Hw & _)]%(stored_elem _ _ H).
  specialize (Hw Hs). cbn. rewrite zlen_take by lia. pose proof payload_u32. lia.
Qed.

Lemma sync_dir_ok path w : w_files (mq_sync_parent_dir path w) = w_files w /\
  w_trace (mq_sync_parent_dir path w) = w_trace w.
Proof.
  unfold mq_sync_parent_dir. destruct (parent_dir path) as [dir|]; [| done].
  destruct (sys_files w) as (H1 & H2 & _). destruct (sys w) as [[] w1]; cbn [snd] in *; [| done].
  destruct (sys_files w1) as (H3 & H4 & _). destruct (sys w1) as [ok w2]; cbn [snd] in *.
  set (w3 := if ok then _ else _).
  assert (w_files w3 = w_files w2 /\ w_trace w3 = w_trace w2) as [H5 H6] by (by destruct ok).
  destruct (sys_files w3) as (H7 & H8 & _). split; congruence.
Qed.

Definition image_of (q : mq) : bytes := image (saved <$> messages q).

Lemma messages_length q : wf_mq q -> length (messages q) = mq_count q.
Proof. intros H. unfold messages. rewrite length_fmap. by apply stored_count. Qed.

(** Up to the rename only the temporary file changes; the outcome of the steps
    before it. *)
Lemma tmp_neq (path : bytes) : (path ++ $".tmp") <> path.
Proof. intros H. apply (f_equal length) in H. rewrite length_app in H. cbn in H. lia. Qed.

(** A save that failed, or reached the rename with the whole queue forced to the
    device under the temporary name. *)
Definition save_end (q : mq) (path : bytes) (m0 : gmap bytes file) (r : Z * world) : Prop :=
  let '(rc, w') := r in
  (rc = MQ_PERSIST_ERR_IO /\ only_tmp (path ++ $".tmp") m0 w') \/
  (rc = MQ_PERSIST_OK /\ exists w, only_tmp (path ++ $".tmp") m0 w /\
     w_trace w' = w_trace w ++ [w_files w'] /\
     (forall p, p <> (path ++ $".tmp") -> p <> path -> w_files w' !! p = m0 !! p) /\
     w_files w' !! path = Some (mk_file (image_of q) true)).

Lemma rename_ok q path m0 w : only_tmp (path ++ $".tmp") m0 w ->
  w_files w !! (path ++ $".tmp") = Some (mk_file (image_of q) true) ->
  let '(renamed, w1) := rename (path ++ $".tmp") path w in
  save_end q path m0 (if negb renamed then (MQ_PERSIST_ERR_IO, snd (unlink (path ++ $".tmp") w1))
                      else (MQ_PERSIST_OK, mq_sync_parent_dir path w1)) /\
  (w_plan w = [] -> renamed = true).
Proof.
  intros H Ht. unfold rename. pose proof (only_tmp_sys _ _ _ H) as Hs.
  destruct (sys_files w) as (Hf & _ & Hp). destruct (sys w) as [[] w1]; cbn [snd] in *.
  2: { split; [left; split; [done | by apply unlink_ok] |]. intros Hpl. by specialize (Hp Hpl). }
  rewrite Hf, Ht. cbn [negb]. split; [| done]. right. split; [done |].
  set (w2 := set_files w1 _). destruct (sync_dir_ok path w2) as [H1 H2]. rewrite H1, H2.
  exists w1. split_and!; [done | done | |].
  - intros p Hp1 Hp2. cbn. rewrite lookup_insert_ne, lookup_delete_ne by done. by apply H.
  - cbn. by rewrite lookup_insert_eq.
Qed.

Lemma save_write_ok q tmp m0 w : wf_mq q -> only_tmp tmp m0 w -> file_data w tmp = Some [] ->
  exists ok w', save_write q tmp w = Some (ok, w') /\ only_tmp tmp m0 w' /\
    (exists d, file_data w' tmp = Some d) /\
    (ok = true -> file_data w' tmp = Some (image_of q)) /\
    (w_plan w = [] -> ok = true /\ w_plan w' = []).
Proof.
  intros H Hw Hd. unfold save_write.
  destruct (fwrite_ok tmp _ w (header (mq_count q)) [] Hw Hd)
    as (n & w3 & -> & Hw3 & Hd3 & Hok3 & Hp3). cbn [app] in Hok3.
  change MQ_PERSIST_HEADER_SIZE with (zlen (header (mq_count q))).
  destruct (Z.eqb_spec n (zlen (header (mq_count q)))) as [E | E].
  - unfold mq_foreach. rewrite (foreach_loop_ok _ MQ_CAPACITY 0 0 (w3, false) q H) by done.
    pose proof (save_all_ok tmp _ (messages q) w3 _ Hw3 (Hok3 E) (messages_text q H)) as Hall.
    unfold messages, stored in Hall. rewrite drop_0. unfold storedP in *.
    destruct (fold_left _ _ (w3, false)) as [w4 failed]. destruct Hall as (H1 & H2 & H3 & H4).
    eexists _, _. split; [done |]. split_and!; [done | done | |].
    + intros Ef%negb_true_iff. rewrite (H3 Ef). unfold image_of, image.
      rewrite length_fmap, (messages_length _ H). done.
    + intros Hpl. by destruct (H4 (proj2 (Hp3 Hpl))) as [-> ?].
  - eexists _, _. split; [done |]. split_and!; [done | done | done |].
    intros Hpl. by destruct (Hp3 Hpl).
Qed.

Lemma save_sync_ok tmp m0 ok w d : only_tmp tmp m0 w -> file_data w tmp = Some d ->
  let '(ok', w') := save_sync tmp ok w in
  only_tmp tmp m0 w' /\
  (ok' = true -> ok = true /\ w_files w' !! tmp = Some (mk_file d true)) /\
  (ok = true -> w_plan w = [] -> ok' = true /\ w_plan w' = []).
Proof.
  intros H Hd. unfold save_sync.
  assert (Hclose : forall w6, only_tmp tmp m0 w6 ->
    let '(closed, w7) := sys w6 in only_tmp tmp m0 w7 /\ w_files w7 = w_files w6 /\
      (w_plan w6 = [] -> closed = true /\ w_plan w7 = [])).
  { intros w6 H6. pose proof (only_tmp_sys _ _ _ H6) as Hs. destruct (sys_files w6) as (Hf & _ & Hp).
    destruct (sys w6) as [closed w7]. split_and!; [done | done |].
    intros Hpl. specialize (Hp Hpl). by injection Hp as -> ->. }
  destruct ok.
  2: { specialize (Hclose w H). destruct (sys w) as [closed w7]. by destruct Hclose. }
  pose proof (Hclose w H) as Hfl. destruct (sys w) as [ok5 w5]. destruct Hfl as (H5 & Hf5 & Hp5).
  destruct ok5.
  2: { specialize (Hclose w5 H5). destruct (sys w5) as [closed w7]. destruct Hclose as (H7 & _ & _).
       split_and!; [done | done |]. intros _ Hpl. by destruct (Hp5 Hpl). }
  assert (Hd5 : file_data w5 tmp = Some d) by (unfold file_data; by rewrite Hf5).
  destruct (fsync_ok tmp _ w5 d H5 Hd5) as (ok6 & w6 & -> & H6 & Hs6 & Hp6).
  specialize (Hclose w6 H6). destruct (sys w6) as [closed w7]. destruct Hclose as (H7 & Hf7 & Hp7).
  split_and!; [done | |].
  - intros [-> ->]%andb_true_iff. rewrite Hf7. auto.
  - intros _ Hpl. destruct (Hp5 Hpl) as [_ Hpl5]. destruct (Hp6 Hpl5) as [-> Hpl6].
    by destruct (Hp7 Hpl6) as [-> ?].
Qed.

(** Saving is defined whatever fails. *)
Lemma save_defined q path w : wf_mq q -> exists rc w', mq_persist_save q path w = Some (rc, w').
Proof.
  intros H. unfold mq_persist_save. destruct path as [[|c0 p0]|]; [by eexists _, _ | | by eexists _, _].
  set (path := c0 :: p0). destruct (_ <=? _); [by eexists _, _ |].
  destruct (fopen_wb _ w) as [ok w1]. destruct ok; cbn [negb]; [| by eexists _, _].
  unfold save_write. destruct (fwrite _ _ _) as [n w2]. destruct (n =? _).
  - unfold mq_foreach. rewrite (foreach_loop_ok _ MQ_CAPACITY 0 0 _ q H) by done. destruct (fold_left _ _ _) as [w3 failed].
    destruct (save_sync _ _ _) as [ok w4]. destruct ok; cbn [negb]; [| by eexists _, _].
    destruct (rename _ _ _) as [r w5]. destruct r; by eexists _, _.
  - destruct (save_sync _ _ _) as [ok w4]. destruct ok; cbn [negb]; [| by eexists _, _].
    destruct (rename _ _ _) as [r w5]. destruct r; by eexists _, _.
Qed.

Lemma save_ok q path w : wf_mq q -> path <> [] -> zlen path + 4 < PATH_MAX -> w_trace w = past ->
  exists r, mq_persist_save q (Some path) w = Some r /\ save_end q path (w_files w) r /\
    (w_plan w = [] -> fst r = MQ_PERSIST_OK).
Proof.
  intros H Hpath Hlen Htr. unfold mq_persist_save. destruct path as [|c0 p0]; [done |].
  set (path := c0 :: p0) in *. cbv zeta. set (tmp := path ++ $".tmp").
  assert ((PATH_MAX <=? zlen tmp) = false) as ->.
  { apply Z.leb_gt. unfold tmp. rewrite zlen_app. change (zlen ($".tmp")) with 4. lia. }
  assert (Hw : only_tmp tmp (w_files w) w) by (split; [done | exists []; by rewrite app_nil_r]).
  unfold fopen_wb. pose proof (only_tmp_sys _ _ _ Hw) as Hs.
  destruct (sys_files w) as (Hf & _ & Hp). destruct (sys w) as [[] w1]; cbn [snd negb] in *.
  2: { eexists. split; [done |]. split; [by left |]. intros Hpl. by specialize (Hp Hpl). }
  set (w2 := set_files w1 _).
  assert (Hw2 : only_tmp tmp (w_files w) w2) by (eapply only_tmp_set; [done | by auto]).
  assert (Hd2 : file_data w2 tmp = Some []).
  { unfold file_data, w2. cbn. by rewrite lookup_insert_eq. }
  assert (Hp2 : w_plan w = [] -> w_plan w2 = []).
  { intros Hpl. specialize (Hp Hpl). by injection Hp as ->. }
  destruct (save_write_ok q tmp _ w2 H Hw2 Hd2) as (ok & w4 & -> & Hw4 & [d4 Hd4] & Hok4 & Hp4).
  pose proof (save_sync_ok tmp _ ok w4 d4 Hw4 Hd4) as Hsy.
  destruct (save_sync tmp ok w4) as [ok7 w7]. destruct Hsy as (Hw7 & Hok7 & Hp7).
  destruct ok7; cbn [negb].
  2: { eexists. split; [done |]. split; [left; split; [done | by apply unlink_ok] |].
       intros Hpl. destruct (Hp4 (Hp2 Hpl)) as [-> Hpl4]. by destruct (Hp7 eq_refl Hpl4). }
  destruct (Hok7 eq_refl) as [-> Hd7]. specialize (Hok4 eq_refl).
  rewrite Hd4 in Hok4. injection Hok4 as ->.
  pose proof (rename_ok q path _ w7 Hw7 Hd7) as Hr. fold tmp in Hr.
  destruct (rename tmp path w7) as [renamed w8]. destruct Hr as [Hend Hren].
  destruct renamed; cbn [negb] in *; (eexists; split; [done |]); (split; [done |]); [done |].
  intros Hpl. destruct (Hp4 (Hp2 Hpl)) as [_ Hpl4]. destruct (Hp7 eq_refl Hpl4) as [_ Hpl7].
  by discriminate (Hren Hpl7).
Qed.

End Save.

(** * Properties *)
Section Properties.
Context `{cfg : mq_config}.

(** Saving without faults leaves the image of the queue. *)
Lemma save_image q path w : wf_mq q -> path <> [] -> zlen path + 4 < PATH_MAX -> w_plan w = [] ->
  exists w1, mq_persist_save q (Some path) w = Some (MQ_PERSIST_OK, w1) /\
    w_files w1 !! path = Some (mk_file (image_of q) true) /\
    forall p, p <> path ++ $".tmp" -> p <> path -> w_files w1 !! p = w_files w !! p.
Proof.
  intros H Hp Hl Hpl. destruct (save_ok (w_trace w) q path w H Hp Hl eq_refl) as ([rc w1] & Hs & Hend & Hok).
  specialize (Hok Hpl). cbn in Hok. subst rc.
  unfold save_end in Hend. destruct Hend as [[Hbad _] | [_ (w0 & _ & _ & Ho & Hnew)]]; [done |]. by exists w1.
Qed.

(** The image of a queue is loaded into an empty one. *)
Lemma load_image q q0 path now m : wf_mq q -> path <> [] ->
  Forall (fun t => t_friend t <= INT_MAX) (messages q) -> m !! path = Some (mk_file (image_of q) true) ->
  wf_mq q0 -> stored q0 = [] -> g_count q0 = 0%nat -> g_head q0 = 0%nat -> g_tail q0 = 0%nat ->
  exists q' w2, mq_persist_load q0 (Some path) now (mk_world m [] [] []) = Some (Z.of_nat (mq_count q), q', w2) /\
    messages q' = (fun t => new_telegram (t_friend t) (t_text t) (zlen (t_text t)) now) <$> messages q /\
    wf_mq q'.
Proof.
  intros H Hp Hint Hnew H0 Hst0 Hc0 Hh0 Ht0.
  assert (Hlen : (mq_count q <= MQ_CAPACITY)%nat).
  { unfold mq_count. rewrite <- (wf_count _ H), <- (wf_length _ H). apply count_le_length. }
  assert (Hbig : MQ_PERSIST_HEADER_SIZE <= zlen (image_of q)).
  { unfold image_of, image. rewrite zlen_app. change (zlen (header _)) with MQ_PERSIST_HEADER_SIZE. zlen. }
  set (wl := mk_world m [] [] []).
  pose proof (read_all_ok path wl _ Hnew) as Hrd.
  destruct (mq_read_all path wl) as [[rc buf] w2] eqn:Er. destruct Hrd as (_ & Hr1 & Hr2).
  destruct (Hr2 eq_refl Hbig) as [-> ->]. destruct Hr1 as [(_ & -> & _) | [? | ?]]; [| done | done].
  cbn [f_data] in *.
  destruct (load_buf_ok q0 _ now wl path wl H0 Hp Er Hbig) as (rc & q' & Hload & Hwq & Hcase).
  assert (Hvalid : Forall valid_rec (saved <$> messages q)).
  { apply Forall_fmap, Forall_fmap, Forall_forall. intros e He. pose proof (stored_elem _ _ H He) as [Hse (Hpe & Hwe & _)].
    specialize (Hwe Hse). unfold messages in Hint. rewrite Forall_fmap, Forall_forall in Hint.
    specialize (Hint e He). split; cbn in *; [lia | rewrite zlen_take by lia; lia]. }
  assert (Hqf : queue_file (saved <$> messages q) (image_of q)).
  { apply queue_file_image. rewrite length_fmap, (messages_length _ H). done. }
  exists q', wl.
  destruct Hcase as [(rs & Hq & Hv & Hrl & -> & _ & Hpk) | (_ & _ & Hno)].
  2: { destruct (Hno _ Hvalid); [| done]. by rewrite length_fmap, (messages_length _ H). }
  assert (rs = saved <$> messages q) as ->.
  { eapply queue_file_inj; try done. by rewrite length_fmap, (messages_length _ H). }
  unfold room, mq_count in *. rewrite length_fmap, (messages_length _ H) in *. unfold mq_count in *.
  rewrite Hc0 in *. rewrite decide_True in Hload by lia.
  split; [exact Hload |]. split; [| done]. rewrite Hpk.
  - unfold messages at 1. rewrite Hst0. cbn [app fmap list_fmap].
    rewrite take_ge by (rewrite length_fmap, (messages_length _ H); unfold mq_count; lia).
    rewrite <- list_fmap_compose. apply list_fmap_ext. intros i t _. unfold compose, restored, new_telegram, saved.
    cbn. unfold zlen. by rewrite Nat2Z.id, firstn_all.
  - split.
    + rewrite Hh0, Ht0, Hc0. unfold off. rewrite Nat.sub_0_r, Nat.Div0.mod_same, Nat.Div0.mod_0_l. done.
    + intros k e _ Hk. eapply (empty_free q0); [done | done |]. by apply walk_ring.
Qed.

(** Claim C26. Whatever calls fail and wherever a crash strikes, the saved queue
    is never lost or half written: in every state the directory passes through,
    the file under [path] is the old one untouched or the complete new one,
    already forced to the device, and the return code says which remains. *)
Theorem mq_save_atomic q path w : wf_mq q -> path <> [] -> zlen path + 4 < PATH_MAX ->
  exists rc w' states, mq_persist_save q (Some path) w = Some (rc, w') /\
    w_trace w' = w_trace w ++ states /\
    Forall (fun m : gmap bytes file => m !! path = w_files w !! path \/
              m !! path = Some (mk_file (image_of q) true)) states /\
    ((rc = MQ_PERSIST_OK /\ w_files w' !! path = Some (mk_file (image_of q) true)) \/
     (rc = MQ_PERSIST_ERR_IO /\ w_files w' !! path = w_files w !! path)).
Proof.
  intros H Hp Hl. destruct (save_ok (w_trace w) q path w H Hp Hl eq_refl) as ([rc w'] & Hs & Hend & _).
  assert (Hneq : path <> path ++ $".tmp") by (intros E; by apply (tmp_neq path)).
  assert (Hold : forall l, Forall (fun m : gmap bytes file => forall p, p <> path ++ $".tmp" -> m !! p = w_files w !! p) l ->
    Forall (fun m : gmap bytes file => m !! path = w_files w !! path \/ m !! path = Some (mk_file (image_of q) true)) l).
  { intros l Hf. eapply Forall_impl; [exact Hf |]. intros m Hm. left. by apply Hm. }
  unfold save_end in Hend. destruct Hend as [[-> (H1 & l & Ht & H2)] | [-> (w1 & (H1 & l & Ht & H2) & Htr & _ & Hnew)]].
  - exists MQ_PERSIST_ERR_IO, w', l. split_and!; [exact Hs | done | by apply Hold | right; split; [done | by apply H1]].
  - exists MQ_PERSIST_OK, w', (l ++ [w_files w']). split_and!; [exact Hs | by rewrite Htr, Ht, app_assoc | | by left].
    apply Forall_app. split; [by apply Hold | apply Forall_singleton; by right].
Qed.

(** A queue saved without faults and loaded into a fresh one comes back
    complete: the same recipients and texts, in the same order, each due for a
    first attempt. *)
Theorem mq_persist_roundtrip q path w now : wf_mq q -> path <> [] ->
  zlen path + 4 < PATH_MAX -> w_plan w = [] ->
  Forall (fun t => t_friend t <= INT_MAX) (messages q) ->
  exists w1 q0 q' w2, mq_persist_save q (Some path) w = Some (MQ_PERSIST_OK, w1) /\
    mq_init = Some q0 /\
    mq_persist_load q0 (Some path) now (mk_world (w_files w1) [] [] []) =
      Some (Z.of_nat (mq_count q), q', w2) /\
    messages q' = (fun t => new_telegram (t_friend t) (t_text t) (zlen (t_text t)) now) <$> messages q.
Proof.
  intros H Hp Hl Hpl Hint. destruct (save_image q path w H Hp Hl Hpl) as (w1 & Hs & Hnew & _).
  destruct (init_ok (cfg := cfg)) as (q0 & Hi & H0 & _ & Hst0 & Hc0 & Hh0 & Ht0).
  destruct (load_image q q0 path now (w_files w1) H Hp Hint Hnew H0 Hst0 Hc0 Hh0 Ht0) as (q' & w2 & Hload & Hm & _).
  by exists w1, q0, q', w2.
Qed.

(** Loading on every branch. *)
Lemma load_result q path now w : wf_mq q -> path <> [] ->
  exists rc q' w', mq_persist_load q (Some path) now w = Some (rc, q', w') /\ wf_mq q' /\
    w_files w' = w_files w /\
    ((q' = q /\ (rc = MQ_PERSIST_ERR_NOFILE \/ rc = MQ_PERSIST_ERR_IO \/ rc = MQ_PERSIST_ERR_FORMAT)) \/
     exists f rs, w_files w !! path = Some f /\ queue_file rs (f_data f) /\ Forall valid_rec rs /\
       rc = (if decide (length rs <= MQ_CAPACITY - mq_count q)%nat
             then Z.of_nat (length rs) else MQ_PERSIST_ERR_FULL) /\
       messages q' ≡ₚ messages q ++ (restored now <$> take (room q (length rs)) rs)).
Proof.
  intros H Hp. destruct (w_files w !! path) as [f|] eqn:Ef.
  - pose proof (read_all_ok path w f Ef) as Hrd.
    destruct (mq_read_all path w) as [[rc buf] w'] eqn:Er. destruct Hrd as (Hfw & Hr & _).
    destruct Hr as [(-> & -> & Hl) | Hbad].
    + destruct (load_buf_ok q _ now w path w' H Hp Er Hl) as (rc & q' & Hload & Hw & Hcase).
      exists rc, q', w'. split_and!; try done.
      destruct Hcase as [(rs & Hq & Hv & _ & Hrc & Hm & _) | (-> & -> & _)].
      * right. by exists f, rs.
      * left. auto.
    + exists rc, q, w'. unfold mq_persist_load. destruct path; [done |]. rewrite Er.
      split_and!; [by destruct Hbad as [-> | ->] | done | done |]. left. tauto.
  - unfold mq_persist_load, mq_read_all. destruct path; [done |]. rewrite Ef.
    destruct (sys_files w) as (Hf & _ & _). destruct (sys w) as [ok w']. cbn in Hf.
    exists (if ok then MQ_PERSIST_ERR_NOFILE else MQ_PERSIST_ERR_IO), q, w'.
    split_and!; [by destruct ok | done | done |].
    left. split; [done |]. destruct ok; auto.
Qed.


End Properties.

(** ** Concrete runs *)

Definition queue_path : bytes := $"/data/queue".
Definition world0 (plan : list answer) : world := mk_world ∅ plan [] [].

Lemma mq_save_atomic_witness : exists rc w' states,
  @mq_persist_save mq_small one_stored (Some queue_path) (world0 [Works; Works; Short 3]) =
    Some (rc, w') /\
  w_trace w' = states /\
  Forall (fun m : gmap bytes file => m !! queue_path = None \/
    m !! queue_path = Some (mk_file (image_of one_stored) true)) states.
Proof.
  destruct (@mq_save_atomic mq_small one_stored queue_path (world0 [Works; Works; Short 3])
    one_stored_wf) as (rc & w' & states & H1 & H2 & H3 & _); [done | done |].
  exists rc, w', states. exact (conj H1 (conj H2 H3)).
Defined.

Lemma mq_persist_roundtrip_witness : exists w1 q0 q' w2,
  @mq_persist_save mq_small one_stored (Some queue_path) (world0 []) = Some (MQ_PERSIST_OK, w1) /\
  @mq_init mq_small = Some q0 /\
  @mq_persist_load mq_small q0 (Some queue_path) 500 (mk_world (w_files w1) [] [] []) =
    Some (1, q', w2) /\
  messages q' = [mk_telegram 4 hello 500 None 0 None].
Proof.
  assert (messages one_stored = [mk_telegram 4 hello 100 None 0 None]) as Hm by (by vm_compute).
  destruct (@mq_persist_roundtrip mq_small one_stored queue_path (world0 []) 500 one_stored_wf)
    as (w1 & q0 & q' & w2 & H1 & H2 & H3 & H4); [done | done | done | |].
  - rewrite Hm. repeat constructor. unfold INT_MAX. cbn. lia.
  - exists w1, q0, q', w2. rewrite Hm in H4. exact (conj H1 (conj H2 (conj H3 H4))).
Defined.

