(* ===== verification/Ledger.v ===== *)
(** * The ledger of the delivery queue

    What became of the telegrams: a client that calls [msg_queue.c] makes facts of
    three kinds true, and whatever the sequence of its calls the facts account for
    every telegram. [called] states that a client's step is such a sequence; the
    process is shown to take only such steps. *)

From S2P Require Import Prelude.
From S2P Require Import CString.
From S2P Require Import MsgQueue.
From S2P Require Import MqPersist.

(** ** Calls *)

(** The receipts that were handed on, in order. *)
Definition told (c : mq_cmd) : option (Z * Z) := match c with CConfirm f r => Some (f, r) | _ => None end.
Definition receipts_told (cs : list mq_cmd) : list (Z * Z) := omap told cs.

(** A client that leaves the hooks alone and whose transports are in [T]. *)
Definition lawful (T : (Z -> bytes -> Z) -> Prop) (c : mq_cmd) : Prop :=
  match c with
  | CEnqueue _ _ _ _ | CConfirm _ _ => True
  | CService (Some tx) _ => T tx
  | CService None _ => True
  | CDropHook _ | CChangeHook _ => False
  end.

(** ** Facts *)

Inductive fact : Type :=
| Accepted (friendnum : Z) (text : bytes)
| Delivered (friendnum receipt : Z) (text : bytes)
| Given_up (friendnum attempts : Z) (text : bytes).

Definition came_in (x : fact) : option (Z * bytes) := match x with Accepted f t => Some (f, t) | _ => None end.
Definition went_out (x : fact) : option (Z * bytes) :=
  match x with Accepted _ _ => None | Delivered f _ t | Given_up f _ t => Some (f, t) end.
Definition receipt_of (x : fact) : option (Z * Z) := match x with Delivered f r _ => Some (f, r) | _ => None end.
Definition report_of (x : fact) : option mq_event := match x with Given_up f n _ => Some (EvDrop f n) | _ => None end.

(** The drops that were reported. *)
Definition drop_of (e : mq_event) : option mq_event := match e with EvDrop _ _ => Some e | EvChange => None end.
Definition drops (q : mq) : list mq_event := omap drop_of (q_events q).

Section Calls.
Context `{cfg : mq_config}.

(** ** The hooks stay *)

Definition hooks (q : mq) : bool * bool := (g_drop_fn q, g_change_fn q).

Lemma notify_hook q : hooks (mq_notify_change q) = hooks q.
Proof. unfold mq_notify_change. by destruct (g_change_fn q). Qed.

Lemma enqueue_hook q f p len now rc q' : mq_enqueue q f p len now = Some (rc, q') -> hooks q' = hooks q.
Proof.
  unfold mq_enqueue. destruct p as [p|]; [| by intros [= _ <-]]. destruct (_ || _); [by intros [= _ <-] |].
  unfold mq_find_free_slot. destruct (find_free _ _ _) as [[found t]|]; [| done]. cbn [mbind option_bind].
  destruct found; [| by intros [= _ <-]]. destruct (g_ring _ !! t) as [e|]; [| done]. cbn [mbind option_bind].
  destruct (memcpy _ _ _) as [b1|]; [| done]. cbn [mbind option_bind]. destruct (CString.store _ _ _) as [b2|]; [| done].
  cbn [mbind option_bind]. intros H. destruct (mq_check_invariants _); [| done]. injection H as _ <-.
  rewrite notify_hook. by destruct (_ =? 1)%nat.
Qed.

Lemma release_hook q i q' : mq_release_slot q i = Some q' -> hooks q' = hooks q.
Proof.
  unfold mq_release_slot. destruct (g_ring q !! i) as [e|]; [| done]. cbn [mbind option_bind].
  destruct (is_stored e); [| done]. destruct (negb (is_awaiting e) || _); [| done].
  destruct (is_awaiting e); (destruct (0 <? _)%nat; [| done]); (destruct (CString.store _ _ _); [| done]); by intros [= <-].
Qed.

Lemma advance_hook q q' : mq_advance_head q = Some q' -> hooks q' = hooks q.
Proof.
  unfold mq_advance_head. destruct (0 <? _)%nat; [| by intros [= <-]].
  destruct (skip_free _ _ _); [| done]. by intros [= <-].
Qed.

Lemma confirm_hook q f r rc q' : mq_confirm q f r = Some (rc, q') -> hooks q' = hooks q.
Proof.
  unfold mq_confirm. destruct (_ || _); [by intros [= _ <-] |]. destruct (confirm_loop _ _ _ _) as [i|]; [| by intros [= _ <-]].
  destruct (mq_release_slot q i) as [q1|] eqn:E1; [| done]. cbn [mbind option_bind].
  destruct (mq_advance_head _) as [q2|] eqn:E2; [| done]. cbn [mbind option_bind].
  destruct (mq_check_invariants q2); [| done]. intros [= _ <-].
  rewrite notify_hook, (advance_hook _ _ E2). exact (release_hook _ _ _ E1).
Qed.

Lemma drop_hook {X} (x : X) q i r x' q' : service_drop x q i = Some (r, x', q') -> hooks q' = hooks q.
Proof.
  unfold service_drop, mq_retire. destruct (g_ring q !! i) as [e|]; [| done]. cbn [mbind option_bind].
  destruct (mq_release_slot q i) as [q1|] eqn:E1; [| done]. cbn [mbind option_bind].
  destruct (mq_advance_head _) as [q2|] eqn:E2; [| done]. cbn [mbind option_bind].
  destruct (mq_check_invariants q2); [| done]. intros [= _ _ <-].
  rewrite (advance_hook _ _ E2), notify_hook, <- (release_hook _ _ _ E1). by destruct (g_drop_fn _).
Qed.

Lemma pending_hook {X} (tx : X -> Z -> bytes -> Z * X) x q now i e r x' q' :
  service_pending tx x q now i e = Some (r, x', q') -> hooks q' = hooks q.
Proof.
  unfold service_pending. destruct (_ && _); [by intros [= _ _ <-] |]. destruct (tx _ _ _) as [rc x1].
  destruct (0 <=? rc); [destruct (mq_check_invariants _); [| done]; by intros [= _ _ <-] |].
  destruct (_ || _); [by intros H%drop_hook |]. destruct (mq_check_invariants _); [| done]. by intros [= _ _ <-].
Qed.

Lemma service_hook {X} (tx : X -> Z -> bytes -> Z * X) now n : forall i x q o x' q',
  service_loop tx n i x q now = Some (o, x', q') -> hooks q' = hooks q.
Proof.
  induction n as [|n IH]; intros i x q o x' q' H; cbn [service_loop] in H; [by injection H as _ _ <- |].
  destruct (service_entry tx x q now i) as [[[r x1] q1]|] eqn:E; [| done]. cbn [mbind option_bind] in H.
  assert (Hh : hooks q1 = hooks q).
  { unfold service_entry in E. destruct (g_ring q !! i) as [e|]; [| done]. cbn [mbind option_bind] in E.
    destruct (e_state e); [by injection E as _ _ <- | by apply pending_hook in E |].
    destruct (_ <? _); [by injection E as _ _ <- |]. destruct (0 <? _)%nat; [| done].
    destruct (MQ_MAX_ATTEMPTS <=? _); [by apply drop_hook in E | by apply pending_hook in E]. }
  destruct r as [out|]; [by injection H as _ _ <- |]. by rewrite (IH _ _ _ _ _ _ H).
Qed.

Lemma mq_service_hook {X} (tx : X -> Z -> bytes -> Z * X) x q now o x' q' :
  mq_service (Some tx) x q now = Some (o, x', q') -> hooks q' = hooks q.
Proof.
  unfold mq_service. destruct (_ =? _)%nat; [by intros [= _ _ <-] |].
  destruct (mq_advance_head q) as [q1|] eqn:E; [| done]. cbn [mbind option_bind].
  intros H. by rewrite (service_hook _ _ _ _ _ _ _ _ _ H), (advance_hook _ _ E).
Qed.

(** ** Transports

    A round of [mq_service] offers at most one telegram, so a transport with a state
    is one without. *)
Section Stateless.
Context {X : Type} (tx : X -> Z -> bytes -> Z * X).

Definition offered (x : X) (f : Z) (p : bytes) : Z := (tx x f p).1.
Definition frozen (x : X) (_ : unit) (f : Z) (p : bytes) : Z * unit := (offered x f p, tt).

Lemma drop_stateless (x x' : X) q i r q' : service_drop x q i = Some (r, x', q') ->
  service_drop tt q i = Some (r, tt, q') /\ is_Some r.
Proof.
  unfold service_drop. destruct (mq_retire q i) as [q1|]; [| done]. cbn [mbind option_bind].
  destruct (mq_advance_head q1) as [q2|]; [| done]. cbn [mbind option_bind].
  destruct (mq_check_invariants q2); [| done]. by intros [= <- <- <-].
Qed.

Lemma pending_stateless x q now i e r x' q' : service_pending tx x q now i e = Some (r, x', q') ->
  service_pending (frozen x) tt q now i e = Some (r, tt, q') /\ (r = None -> x' = x).
Proof.
  unfold service_pending. destruct (_ && _); [by intros [= <- <- <-] |]. unfold frozen, offered.
  destruct (tx x _ _) as [rc x1]. cbn [fst].
  destruct (0 <=? rc); [destruct (mq_check_invariants _); [by intros [= <- <- <-] | done] |].
  destruct (_ || _).
  - intros [H [o Ho]]%drop_stateless. split; [done |]. by rewrite Ho.
  - destruct (mq_check_invariants _); [by intros [= <- <- <-] | done].
Qed.

Lemma entry_stateless x q now i r x' q' : service_entry tx x q now i = Some (r, x', q') ->
  service_entry (frozen x) tt q now i = Some (r, tt, q') /\ (r = None -> x' = x).
Proof.
  unfold service_entry. destruct (g_ring q !! i) as [e|]; [| done]. cbn [mbind option_bind].
  destruct (e_state e); [by intros [= <- <- <-] | apply pending_stateless |].
  destruct (_ <? _); [by intros [= <- <- <-] |]. destruct (0 <? _)%nat; [| done].
  destruct (MQ_MAX_ATTEMPTS <=? _); [| apply pending_stateless].
  intros [H [o Ho]]%drop_stateless. split; [done |]. by rewrite Ho.
Qed.

Lemma loop_stateless now n : forall i x q o x' q', service_loop tx n i x q now = Some (o, x', q') ->
  service_loop (frozen x) n i tt q now = Some (o, tt, q').
Proof.
  induction n as [|n IH]; intros i x q o x' q' H; cbn [service_loop] in *; [by injection H as <- _ <- |].
  destruct (service_entry tx x q now i) as [[[r x1] q1]|] eqn:E; [| done]. cbn [mbind option_bind] in H.
  apply entry_stateless in E as [-> Hx]. destruct r as [o1|]; [by injection H as <- _ <- |].
  rewrite Hx in H by done. exact (IH _ _ _ _ _ _ H).
Qed.

End Stateless.

(** ** What each call does to the telegrams stored *)

Lemma enqueue_done q f p len now rc q' : wf_mq q -> mq_enqueue q f p len now = Some (rc, q') -> wf_mq q' /\
  ((exists x, p = Some x /\ messages q' ≡ₚ new_telegram f x len now :: messages q /\
      g_stats q' = bump_enqueued (g_stats q) /\ q_events q' = q_events q ++ change_events q) \/
   (messages q' = messages q /\ q_events q' = q_events q /\
      (g_stats q' = g_stats q \/ g_stats q' = bump_full (g_stats q)))).
Proof.
  intros Hq H. assert (Hsame : wf_mq q /\ messages q = messages q /\ q_events q = q_events q /\
    (g_stats q = g_stats q \/ g_stats q = bump_full (g_stats q))) by auto.
  destruct p as [p|]; [| injection H as _ <-; tauto].
  destruct (decide (enqueue_args f p len)) as [Ha | Ha].
  - destruct (enqueue_ok q f p len now Hq Ha) as (rc1 & q1 & H1 & Hw & Hr). rewrite H in H1. injection H1 as <- <-.
    split; [done |]. destruct (decide _).
    + destruct Hr as (_ & Hst & Hss & _ & He). right. unfold messages. rewrite Hst. auto.
    + destruct Hr as (_ & Hss & _ & He & slot & new & Hv & Hns & _ & Hrg & Hh & _ & (e & Hsl & Hfr) & _).
      destruct (enqueue_messages q q' slot e new Hq Hw Hsl Hfr Hns Hrg Hh) as (l & l' & H1 & H2 & _).
      left. exists p. split_and!; [done | | done | done]. unfold messages.
      rewrite H1, H2, !fmap_app, fmap_cons, Hv. solve_Permutation.
  - unfold mq_enqueue in H. destruct ((f <? 0) || (len =? 0) || (MQ_PAYLOAD_MAX <=? len)) eqn:E;
      [injection H as _ <-; tauto |]. zbool.
    destruct (find_slot_ok q Hq) as (slot & t & Hs & Hw & Hsl & _). rewrite Hs in H. cbn [mbind option_bind] in H.
    destruct slot as [i|]; [exfalso | injection H as _ <-].
    + destruct (g_ring _ !! i) as [e|]; [| done]. cbn [mbind option_bind] in H.
      destruct (memcpy (e_payload e) p len) as [b|] eqn:Em; [| done]. apply Ha. unfold enqueue_args.
      unfold memcpy in Em. destruct (_ && _) eqn:El; [| done]. zbool. lia.
    + split; [apply (wf_same (set_tail q t)); try done; apply Hw |]. right. auto.
Qed.

Lemma confirm_done q f r rc q' : wf_mq q -> mq_confirm q f r = Some (rc, q') -> wf_mq q' /\
  ((exists l t l', messages q = l ++ t :: l' /\ messages q' = l ++ l' /\ acknowledges f r t = true /\
      g_stats q' = bump_confirmed (g_stats q) /\ q_events q' = q_events q ++ change_events q) \/ q' = q).
Proof.
  intros Hq H. destruct (decide (0 <= f /\ 0 <= r)) as [[Hf Hr] | Hbad].
  - destruct (confirm_ok q f r Hq Hf Hr) as (rc1 & q1 & H1 & Hw & Hc). rewrite H in H1. injection H1 as <- <-.
    split; [done |]. destruct Hc as [(_ & Hss & _ & He & l & e & l' & Hl & Hc & Hl') | (_ & -> & _)]; [left | by right].
    exists (view <$> l), (view e), (view <$> l'). unfold messages.
    by rewrite Hl, Hl', !fmap_app, fmap_cons, confirms_view.
  - unfold mq_confirm in H. destruct ((f <? 0) || (r <? 0)) eqn:E; [injection H as _ <-; auto |]. zbool. lia.
Qed.

(** A tick keeps every recipient and text but that of the telegram it gives up, whose
    attempts are spent or which the transport refused for good. *)
Lemma attempt_saved {X} (tx : X -> Z -> bytes -> Z * X) x now t o x' t' : attempt tx x now t = (o, x', t') ->
  saved t' = saved t /\
  (o = MQ_OUTCOME_DROPPED -> MQ_MAX_ATTEMPTS <= t_attempts t' \/ offered tx x (t_friend t') (t_text t') = MQ_SEND_FATAL).
Proof.
  unfold attempt, offered. intros H. assert (He : saved (expire t) = saved t) by (unfold expire; by destruct (t_receipt t)).
  destruct (_ <=? _) eqn:El; [injection H as <- _ <-; zbool; auto |]. destruct (tx _ _ _) as [rc x1] eqn:Et.
  destruct (0 <=? rc); [by injection H as <- _ <- |].
  destruct (_ || _) eqn:Eo; injection H as <- _ <-; (split; [exact He |]); [intros _ | done]. cbn [t_friend t_text t_attempts] in *.
  rewrite Et. zbool. destruct Eo as [E | E]; zbool; auto.
Qed.

Lemma tick_saved {X} (tx : X -> Z -> bytes -> Z * X) now l : forall x o x' l' d, tick tx x now l = (o, x', l', d) ->
  match d with
  | None => saved <$> l' = saved <$> l /\ dropped o = false
  | Some t => saved <$> l ≡ₚ saved t :: (saved <$> l') /\ o = MQ_OUTCOME_DROPPED /\
      (MQ_MAX_ATTEMPTS <= t_attempts t \/ exists x1, offered tx x1 (t_friend t) (t_text t) = MQ_SEND_FATAL)
  end.
Proof.
  induction l as [|t l IH]; intros x o x' l' d H; cbn [tick] in H; [by injection H as <- _ <- <- |].
  destruct (ready now t).
  - destruct (attempt tx x now t) as [[o1 x1] t1] eqn:E. destruct (attempt_saved _ _ _ _ _ _ _ E) as [Hs Hd].
    destruct o1; injection H as <- <- <- <-; cbn iota; rewrite ?fmap_cons, ?Hs; try done.
    split; [reflexivity |]. split; [done |]. destruct Hd as [? | ?]; eauto.
  - destruct (tick tx x now l) as [[[o1 x1] l1] d1] eqn:E. specialize (IH _ _ _ _ _ E). simplify_eq.
    destruct d as [u|]; rewrite !fmap_cons.
    + destruct IH as (IH & ? & ?). split_and!; [| done | done]. rewrite IH. solve_Permutation.
    + destruct IH as [-> ?]. done.
Qed.

(** The counters of a queue, moved by so many telegrams. *)
Definition counted (s : mq_stats) (accepted delivered given_up : nat) (s' : mq_stats) : Prop :=
  u64 (total_enqueued s') = u64 (total_enqueued s + Z.of_nat accepted) /\
  u64 (total_confirmed s') = u64 (total_confirmed s + Z.of_nat delivered) /\
  u64 (total_dropped s') = u64 (total_dropped s + Z.of_nat given_up).

Lemma drops_app q q' l : q_events q' = q_events q ++ l -> drops q' = drops q ++ omap drop_of l.
Proof. unfold drops. intros ->. apply omap_app. Qed.

Lemma drops_change q : omap drop_of (change_events q) = [].
Proof. unfold change_events. by destruct (g_change_fn q). Qed.

Lemma counted_same s s' : total_enqueued s' = total_enqueued s -> total_confirmed s' = total_confirmed s ->
  total_dropped s' = total_dropped s -> counted s 0 0 0 s'.
Proof. unfold counted. intros -> -> ->. by rewrite !Z.add_0_r. Qed.

Lemma counted_trans s s1 s2 a b c a' b' c' : counted s a b c s1 -> counted s1 a' b' c' s2 ->
  counted s (a + a') (b + b') (c + c') s2.
Proof.
  intros (H1 & H2 & H3) (K1 & K2 & K3). unfold counted.
  rewrite K1, K2, K3, (u64_congr _ _ _ H1), (u64_congr _ _ _ H2), (u64_congr _ _ _ H3).
  rewrite !Nat2Z.inj_add. split_and!; f_equal; lia.
Qed.

End Calls.

Section Ledger.
Context `{cfg : mq_config} (T : (Z -> bytes -> Z) -> Prop).

(** A telegram is given up when its attempts are spent or a transport refused it for
    good. *)
Definition justified (x : fact) : Prop :=
  match x with
  | Given_up f n t => MQ_MAX_ATTEMPTS <= n \/ exists tx, T tx /\ tx f t = MQ_SEND_FATAL
  | _ => True
  end.

(** The facts [xs] account for the calls from [q] to [q'] while the receipts [rs]
    were handed on: what was stored and what came in is what went out and what is
    stored, each receipt at most once, each loss reported to the drop hook. *)
Record account (rs : list (Z * Z)) (xs : list fact) (q q' : mq) : Prop := {
  account_bag : (saved <$> messages q) ++ omap came_in xs ≡ₚ (omap went_out xs ++ (saved <$> messages q'));
  account_receipts : sublist (omap receipt_of xs) rs;
  account_reports : drops q' = drops q ++ omap report_of xs;
  account_justified : Forall justified xs;
  account_counted : counted (g_stats q) (length (omap came_in xs)) (length (omap receipt_of xs))
    (length (omap report_of xs)) (g_stats q') }.

(** A step of a client. *)
Definition called (rs : list (Z * Z)) (q q' : mq) : Prop :=
  exists cs, Forall (lawful T) cs /\ receipts_told cs = rs /\ mq_run q cs = Some q'.

Lemma run_app cs cs' : forall q, mq_run q (cs ++ cs') = (do! q1 := mq_run q cs; mq_run q1 cs').
Proof.
  induction cs as [|c cs IH]; intros q; [done |]. cbn [app mq_run]. destruct (mq_do q c); [apply IH | done].
Qed.

Lemma called_refl q : called [] q q.
Proof. by exists []. Qed.

Lemma called_trans rs rs' q q1 q2 : called rs q q1 -> called rs' q1 q2 -> called (rs ++ rs') q q2.
Proof.
  intros (cs & H & <- & Hr) (cs' & H' & <- & Hr'). exists (cs ++ cs'). split_and!.
  - by apply Forall_app.
  - unfold receipts_told. apply omap_app.
  - rewrite run_app, Hr. exact Hr'.
Qed.

Lemma called_one c q q' : lawful T c -> mq_do q c = Some q' -> called (option_list (told c)) q q'.
Proof.
  intros Hc Hq. exists [c]. split_and!; [by constructor | | cbn; by rewrite Hq].
  unfold receipts_told. cbn. by destruct (told c).
Qed.

Lemma called_enqueue q f p len now rc q' : mq_enqueue q f p len now = Some (rc, q') -> called [] q q'.
Proof. intros H. apply (called_one (CEnqueue f p len now)); [done |]. cbn. by rewrite H. Qed.

Lemma called_confirm q f r rc q' : mq_confirm q f r = Some (rc, q') -> called [(f, r)] q q'.
Proof. intros H. apply (called_one (CConfirm f r)); [done |]. cbn. by rewrite H. Qed.

Lemma called_service {X} (tx : X -> Z -> bytes -> Z * X) x q now o x' q' : T (offered tx x) -> mq_service (Some tx) x q now = Some (o, x', q') ->
  called [] q q'.
Proof.
  intros HT H. apply (called_one (CService (Some (offered tx x)) now)); [done |]. cbn [mq_do fmap option_fmap option_map].
  change (fun (_ : unit) f p => (offered tx x f p, tt)) with (frozen tx x).
  assert (Hs : mq_service (Some (frozen tx x)) tt q now = Some (o, tt, q')); [| by rewrite Hs].
  unfold mq_service in *. destruct (_ =? _)%nat; [by injection H as <- _ <- |].
  destruct (mq_advance_head q) as [q1|]; [| done]. exact (loop_stateless _ _ _ _ _ _ _ _ _ H).
Qed.

(** ** Accounts *)

Lemma account_none rs q q' : saved <$> messages q' = saved <$> messages q -> drops q' = drops q ->
  counted (g_stats q) 0 0 0 (g_stats q') -> account rs [] q q'.
Proof.
  intros Hm Hd Hc. split; [by rewrite Hm, app_nil_r | apply sublist_nil_l | by rewrite Hd, app_nil_r | constructor | done].
Qed.

Lemma account_refl q : account [] [] q q.
Proof. by apply account_none, counted_same. Qed.

Lemma account_trans rs rs' xs xs' q q1 q2 : account rs xs q q1 -> account rs' xs' q1 q2 ->
  account (rs ++ rs') (xs ++ xs') q q2.
Proof.
  intros [H1 H2 H3 H4 H5] [K1 K2 K3 K4 K5]. split.
  - rewrite !omap_app, app_assoc, H1, <- !app_assoc. f_equiv. rewrite <- K1. done.
  - rewrite omap_app. by apply sublist_app.
  - by rewrite K3, H3, omap_app, app_assoc.
  - by apply Forall_app.
  - rewrite !omap_app, !length_app. by eapply counted_trans.
Qed.

Lemma enqueue_account q f p len now rc q' : wf_mq q -> mq_enqueue q f p len now = Some (rc, q') ->
  wf_mq q' /\ exists xs, account [] xs q q'.
Proof.
  intros Hq H. destruct (enqueue_done q f p len now rc q' Hq H) as [Hw Hc]. split; [done |].
  destruct Hc as [(x & -> & Hm & Hs & He) | (Hm & He & Hs)].
  - exists [Accepted f (take (Z.to_nat len) x)]. split; [| done | | by repeat constructor |].
    + rewrite Hm. cbn. rewrite Permutation_app_comm. done.
    + by rewrite (drops_app _ _ _ He), drops_change.
    + rewrite Hs. unfold counted. cbn. rewrite u64_u64, !Z.add_0_r. done.
  - exists []. apply account_none; [by rewrite Hm | unfold drops; by rewrite He |].
    by destruct Hs as [-> | ->]; apply counted_same.
Qed.

Lemma confirm_account q f r rc q' : wf_mq q -> mq_confirm q f r = Some (rc, q') ->
  wf_mq q' /\ exists xs, account [(f, r)] xs q q'.
Proof.
  intros Hq H. destruct (confirm_done q f r rc q' Hq H) as [Hw Hc]. split; [done |].
  destruct Hc as [(l & t & l' & Hm & Hm' & Ha & Hs & He) | ->].
  - exists [Delivered f r (t_text t)]. unfold acknowledges in Ha. zbool. subst f. split; [| done | | by repeat constructor |].
    + rewrite Hm, Hm', !fmap_app, fmap_cons. cbn. unfold saved at 2. rewrite app_nil_r. solve_Permutation.
    + by rewrite (drops_app _ _ _ He), drops_change.
    + rewrite Hs. unfold counted. cbn. rewrite u64_u64, !Z.add_0_r. done.
  - exists []. by apply account_none, counted_same.
Qed.

Lemma service_account tx q now o x' q' : wf_mq q -> g_drop_fn q = true -> T tx ->
  mq_service (Some (fun (_ : unit) f p => (tx f p, tt))) tt q now = Some (o, x', q') ->
  wf_mq q' /\ exists xs, account [] xs q q'.
Proof.
  intros Hq Hd HT H. pose proof (service_ok (fun (_ : unit) f p => (tx f p, tt)) tt q now Hq) as Hs.
  destruct (tick _ tt now (messages q)) as [[[o1 x1] l] d] eqn:Et. apply tick_saved in Et.
  destruct Hs as (q1 & H1 & Hw & Hm & Hst & He & _). rewrite H in H1. injection H1 as <- _ <-. split; [done |].
  pose proof (drops_app _ _ _ He) as Hdr. destruct d as [t|].
  - destruct Et as (Hp & -> & Hj). exists [Given_up (t_friend t) (t_attempts t) (t_text t)].
    cbn [drop_events] in Hdr. rewrite Hd, omap_app, drops_change in Hdr.
    split; [| constructor | exact Hdr | |].
    + rewrite Hm. cbn. rewrite app_nil_r. exact Hp.
    + constructor; [| constructor]. cbn. destruct Hj as [? | [u ?]]; eauto.
    + rewrite Hst. unfold counted. cbn. rewrite u64_u64, !Z.add_0_r. done.
  - destruct Et as [Hp Ho]. exists []. apply account_none.
    + by rewrite Hm.
    + by rewrite Hdr, app_nil_r.
    + rewrite Hst. by destruct o; try discriminate Ho; apply counted_same.
Qed.

Lemma do_account c q q' : wf_mq q -> g_drop_fn q = true -> lawful T c -> mq_do q c = Some q' ->
  wf_mq q' /\ hooks q' = hooks q /\ exists xs, account (option_list (told c)) xs q q'.
Proof.
  intros Hq Hd Hc H. destruct c as [f p len now | f r | [tx|] now | b | b]; cbn [mq_do told option_list] in *; try done.
  - destruct (mq_enqueue q f p len now) as [[rc q1]|] eqn:E; [| done]. injection H as <-.
    destruct (enqueue_account _ _ _ _ _ _ _ Hq E). split_and!; [done | exact (enqueue_hook _ _ _ _ _ _ _ E) | done].
  - destruct (mq_confirm q f r) as [[rc q1]|] eqn:E; [| done]. injection H as <-.
    destruct (confirm_account _ _ _ _ _ Hq E). split_and!; [done | exact (confirm_hook _ _ _ _ _ E) | done].
  - cbn [fmap option_fmap option_map] in H. destruct (mq_service _ tt q now) as [[[o x] q1]|] eqn:E; [| done].
    injection H as <-. destruct (service_account _ _ _ _ _ _ Hq Hd Hc E). split_and!; [done | exact (mq_service_hook _ _ _ _ _ _ _ E) | done].
  - injection H as <-. split_and!; [done | done |]. exists []. apply account_refl.
Qed.

(** Whatever a client did, the facts account for it. *)
Lemma called_account rs q q' : called rs q q' -> wf_mq q -> g_drop_fn q = true ->
  wf_mq q' /\ hooks q' = hooks q /\ exists xs, account rs xs q q'.
Proof.
  intros (cs & Hcs & <- & Hr). revert q Hr. induction Hcs as [|c cs Hc _ IH]; intros q Hr Hq Hd; cbn [mq_run] in Hr.
  - injection Hr as <-. split_and!; [done | done |]. exists []. apply account_refl.
  - destruct (mq_do q c) as [q1|] eqn:E; [| done].
    destruct (do_account c q q1 Hq Hd Hc E) as (Hq1 & Hh & xs & Ha).
    destruct (IH q1 Hr Hq1) as (Hq' & Hh' & xs' & Ha'); [unfold hooks in Hh; congruence |].
    split_and!; [done | congruence |]. exists (xs ++ xs').
    assert (receipts_told (c :: cs) = option_list (told c) ++ receipts_told cs) as ->.
    { unfold receipts_told. cbn. by destruct (told c). }
    by eapply account_trans.
Qed.

End Ledger.
