(* ===== verification/Relay.v ===== *)
(** * Routing and store-and-forward policy ([src/relay.c], [src/relay.h])

    What the relay does with one record from a peer: deliver it to us, forward
    it, or answer a replay request. The environment is the code's table of
    callbacks, each of which may be missing; [env_spec] is what the table's
    implementation promises, and the recovery of a gap between two relays is
    proved against it. *)

From S2P Require Import Prelude.
From S2P Require Import CString.
From S2P Require Import Telegram.
From S2P Require Import SnTracker.

Definition RELAY_MAX_GAP : Z := 64.
Definition RELAY_MAX_REPLAY : Z := 64.
Definition RELAY_WIRE_MAX : Z := 1400.

Record relay_record : Type := mk_relay_record {
  rr_sn : Z;
  rr_timestamp : Z;
  rr_body : bytes }.

Inductive relay_outcome : Type :=
| RELAY_STORED | RELAY_DUPLICATE | RELAY_GAP_REQUESTED | RELAY_RECOVERED | RELAY_RESYNCED
| RELAY_RELAYED | RELAY_NO_ROUTE | RELAY_NO_PEER | RELAY_SERVED | RELAY_NOTHING_STORED
| RELAY_DISCARDED.

(** A pointer to a tracker of the environment: reading and writing through it. *)
Record tracker_access (W : Type) : Type := mk_tracker_access {
  t_get : W -> Z -> option sn_tracker;
  t_set : W -> Z -> sn_tracker -> W }.
Arguments t_get {W}.
Arguments t_set {W}.

(** The table of callbacks over the environment's state [W] ([ctx]); [None] is a
    null pointer. Lookups read the state, the others also change it and return
    the code's [int]. [fetch_range] gives the records written, or [None] for a
    negative result. *)
Record relay_env (W : Type) : Type := mk_relay_env {
  self_public_key : option bytes;
  resolve_peer : option (W -> bytes -> Z);
  peer_key : option (W -> Z -> option bytes);
  peer_is_metacom : option (W -> Z -> bool);
  tracker : option (tracker_access W);
  channel_known : option (W -> Z -> bool);
  store : option (W -> Z -> Z -> Z -> bytes -> bytes -> Z * W);
  enqueue : option (W -> Z -> bytes -> Z -> Z -> Z * W);
  fetch_range : option (W -> Z -> Z -> Z -> Z -> option (list relay_record));
  remember_serial : option (W -> Z -> Z -> W) }.
Arguments self_public_key {W}.
Arguments resolve_peer {W}.
Arguments peer_key {W}.
Arguments peer_is_metacom {W}.
Arguments tracker {W}.
Arguments channel_known {W}.
Arguments store {W}.
Arguments enqueue {W}.
Arguments fetch_range {W}.
Arguments remember_serial {W}.

Section Relay.
Context {W : Type}.
Implicit Types (env : relay_env W) (w : W) (tg : tg_message).

Definition relay_request_gap env w (channel from to now : Z) : relay_outcome * W :=
  match enqueue env, peer_key env with
  | Some enq, Some key =>
    match key w channel with
    | None => (RELAY_NO_PEER, w)
    | Some peer =>
      let '(n, wire) :=
        tg_encode_cmd (Some RELAY_WIRE_MAX) (Some peer) (self_public_key env) from to in
      if n <=? 0 then (RELAY_DISCARDED, w)
      else
        let '(rc, w) := enq w channel (default [] wire) n now in
        if negb (rc =? 0) then (RELAY_DISCARDED, w) else (RELAY_GAP_REQUESTED, w)
    end
  | _, _ => (RELAY_DISCARDED, w)
  end.

Definition relay_deliver env w (channel : Z) tg (now : Z) : relay_outcome * W :=
  let '(state, gap_from, gap_to, w) :=
    match tracker env with
    | None => (SN_IN_ORDER, 0, 0, w)
    | Some acc =>
      match t_get acc w channel with
      | None => (SN_IN_ORDER, 0, 0, w)
      | Some t =>
        let '(state, t, gap_from, gap_to) := sn_tracker_accept (Some t) (tg_sn tg) RELAY_MAX_GAP in
        (state, gap_from, gap_to, match t with Some t => t_set acc w channel t | None => w end)
      end
    end in
  match state with
  | SN_DUPLICATE => (RELAY_DUPLICATE, w)
  | _ =>
    let w := match store env with
      | None => w
      | Some f => snd (f w channel (tg_sn tg) (tg_timestamp tg) (tg_sender tg) (tg_body tg))
      end in
    let w := match remember_serial env with None => w | Some f => f w channel (tg_sn tg) end in
    match state with
    | SN_GAP =>
      let '(out, w) := relay_request_gap env w channel gap_from gap_to now in
      (match out with RELAY_GAP_REQUESTED => RELAY_GAP_REQUESTED | _ => RELAY_STORED end, w)
    | SN_RECOVERED => (RELAY_RECOVERED, w)
    | SN_RESYNC => (RELAY_RESYNCED, w)
    | _ => (RELAY_STORED, w)
    end
  end.

Definition relay_forward env w (channel : Z) (raw : bytes) tg (now : Z) : relay_outcome * W :=
  match resolve_peer env, enqueue env with
  | Some resolve, Some enq =>
    let destination := resolve w (tg_receiver tg) in
    if destination <? 0 then (RELAY_NO_ROUTE, w)
    else
      let metacom := match peer_is_metacom env with None => false | Some f => f w channel end in
      let payload := if metacom then until_nul raw else until_nul (tg_body tg) in
      let '(rc, w) := enq w destination payload (zlen payload) now in
      if negb (rc =? 0) then (RELAY_DISCARDED, w) else (RELAY_RELAYED, w)
  | _, _ => (RELAY_DISCARDED, w)
  end.

(** The loop over the records of a replay: how many were queued. *)
Fixpoint replay_loop (enq : W -> Z -> bytes -> Z -> Z -> Z * W) (peer : bytes)
    (self : option bytes) (channel now : Z) (records : list relay_record) (queued : Z) w
    : Z * W :=
  match records with
  | [] => (queued, w)
  | r :: records =>
    let '(len, wire) := tg_encode_text (Some RELAY_WIRE_MAX) (Some peer) self
      (rr_sn r) (rr_timestamp r) (Some (rr_body r)) in
    if len <=? 0 then replay_loop enq peer self channel now records queued w
    else
      let '(rc, w) := enq w channel (default [] wire) len now in
      replay_loop enq peer self channel now records (if rc =? 0 then queued + 1 else queued) w
  end.

Definition relay_serve_replay env w (channel : Z) (cmd : tg_message) (now : Z)
    : relay_outcome * W :=
  match fetch_range env, enqueue env, peer_key env with
  | Some fetch, Some enq, Some key =>
    match key w channel with
    | None => (RELAY_NO_PEER, w)
    | Some peer =>
      match fetch w channel (tg_sn cmd) (tg_sn_to cmd) RELAY_MAX_REPLAY with
      | None | Some [] => (RELAY_NOTHING_STORED, w)
      | Some records =>
        let '(queued, w) := replay_loop enq peer (self_public_key env) channel now records 0 w in
        (if 0 <? queued then RELAY_SERVED else RELAY_NOTHING_STORED, w)
      end
    end
  | _, _, _ => (RELAY_DISCARDED, w)
  end.

Definition relay_receive (env : option (relay_env W)) w (channel : Z) (raw : option bytes)
    (len now : Z) : relay_outcome * W :=
  match env, raw with
  | Some env, Some r =>
    match self_public_key env with
    | None => (RELAY_DISCARDED, w)
    | Some self =>
      if (len =? 0) || (channel <? 0) then (RELAY_DISCARDED, w)
      else
        match tg_decode raw len with
        | None => (RELAY_DISCARDED, w)
        | Some tg =>
          match tg_knd tg with
          | TG_TEXT =>
            if str_eq (tg_receiver tg) self then relay_deliver env w channel tg now
            else relay_forward env w channel r tg now
          | TG_CMD =>
            if negb (str_eq (tg_receiver tg) self) then (RELAY_DISCARDED, w)
            else relay_serve_replay env w channel tg now
          | TG_INVALID => (RELAY_DISCARDED, w)
          end
        end
    end
  | _, _ => (RELAY_DISCARDED, w)
  end.

(** One channel of the loop of [relay_recover_trackers]; [last_sn] gives the
    stored serial, or [None] for a non-zero result. *)
Definition recover_channel env (acc : tracker_access W) (last_sn : W -> Z -> option Z)
    (channel : Z) w : Z * W :=
  if match channel_known env with Some f => negb (f w channel) | None => false end then (0, w)
  else
    match t_get acc w channel with
    | None => (0, w)
    | Some _ =>
      match last_sn w channel with
      | None => (0, t_set acc w channel (sn_tracker_init TG_SN_MIN))
      | Some sn =>
        (if tg_sn_valid sn then 1 else 0, t_set acc w channel (sn_tracker_resume sn))
      end
    end.

Fixpoint recover_loop env (acc : tracker_access W) (last_sn : W -> Z -> option Z)
    (n : nat) (channel recovered : Z) w : Z * W :=
  match n with
  | O => (recovered, w)
  | S n =>
    let '(k, w) := recover_channel env acc last_sn channel w in
    recover_loop env acc last_sn n (channel + 1) (recovered + k) w
  end.

Definition relay_recover_trackers (env : option (relay_env W))
    (last_sn : option (W -> Z -> option Z)) (channels : Z) w : Z * W :=
  match env, last_sn with
  | Some env, Some last_sn =>
    match tracker env with
    | Some acc => if channels <=? 0 then (0, w)
                  else recover_loop env acc last_sn (Z.to_nat channels) 0 0 w
    | None => (0, w)
    end
  | _, _ => (0, w)
  end.

(** Records arriving one after the other on a channel. *)
Fixpoint relay_run env w (channel : Z) (raws : list bytes) (now : Z) : list relay_outcome * W :=
  match raws with
  | [] => ([], w)
  | raw :: raws =>
    let '(out, w) := relay_receive (Some env) w channel (Some raw) (zlen raw) now in
    let '(outs, w) := relay_run env w channel raws now in
    (out :: outs, w)
  end.

End Relay.

(** ** What the environment promises

    Observations of its state: the records waiting to be sent, the telegrams
    stored as received, how many more records the queue takes. The laws say what
    each callback does to them. *)
Definition delivery : Type := (Z * Z * Z * bytes * bytes)%type.

Class env_spec {W : Type} (env : relay_env W) : Type := {
  self_key : bytes;
  es_key : W -> Z -> option bytes;
  es_trackers : tracker_access W;
  es_store : W -> Z -> Z -> Z -> bytes -> bytes -> Z * W;
  es_enqueue : W -> Z -> bytes -> Z -> Z -> Z * W;
  es_fetch : W -> Z -> Z -> Z -> Z -> option (list relay_record);
  es_remember : W -> Z -> Z -> W;
  outbox : W -> list (Z * bytes);
  inbox : W -> list delivery;
  space : W -> nat;
  payload_limit : Z;
  es_good : W -> Prop;                        (* the state's own invariant *)
  env_self : self_public_key env = Some self_key;
  env_key : peer_key env = Some es_key;
  env_tracker : tracker env = Some es_trackers;
  env_store : store env = Some es_store;
  env_enqueue : enqueue env = Some es_enqueue;
  env_fetch : fetch_range env = Some es_fetch;
  env_remember : remember_serial env = Some es_remember;
  set_law w ch t : es_good w ->
    let w' := t_set es_trackers w ch t in
    es_good w' /\ (forall t0, t_get es_trackers w ch = Some t0 -> t_get es_trackers w' ch = Some t) /\
    (forall c, c <> ch -> t_get es_trackers w' c = t_get es_trackers w c) /\
    outbox w' = outbox w /\ inbox w' = inbox w /\ space w' = space w /\
    (forall c, es_key w' c = es_key w c);
  store_law w ch sn ts sender body : es_good w -> 0 <= ch ->
    let '(rc, w') := es_store w ch sn ts sender body in
    es_good w' /\ (forall c, t_get es_trackers w' c = t_get es_trackers w c) /\
    outbox w' = outbox w /\ space w' = space w /\ (forall c, es_key w' c = es_key w c) /\
    inbox w' = (if rc =? 0 then inbox w ++ [(ch, sn, ts, sender, body)] else inbox w);
  remember_law w ch sn : es_good w ->
    let w' := es_remember w ch sn in
    es_good w' /\ (forall c, t_get es_trackers w' c = t_get es_trackers w c) /\
    outbox w' = outbox w /\ inbox w' = inbox w /\ space w' = space w /\
    (forall c, es_key w' c = es_key w c);
  enqueue_law w ch p now : es_good w -> 0 <= ch -> 0 < zlen p < payload_limit ->
    let '(rc, w') := es_enqueue w ch p (zlen p) now in
    es_good w' /\ (forall c, t_get es_trackers w' c = t_get es_trackers w c) /\
    inbox w' = inbox w /\ (forall c, es_key w' c = es_key w c) /\
    (if (0 <? space w)%nat
     then rc = 0 /\ outbox w' ≡ₚ outbox w ++ [(ch, p)] /\ (space w' + 1 = space w)%nat
     else rc <> 0 /\ outbox w' = outbox w) }.

(** * Lemmas *)
Section Spec.
Context {W : Type} (env : relay_env W) `{SE : !env_spec env}.
Implicit Types (w : W) (tg : tg_message).

(** What stays the same across a step: everything but the named observation. *)
Definition same_keys w w' : Prop := forall c, es_key w' c = es_key w c.

Lemma env_enqueue_ok w ch p now : es_good w -> 0 <= ch -> 0 < zlen p < payload_limit ->
  (0 < space w)%nat ->
  exists w', es_enqueue w ch p (zlen p) now = (0, w') /\ es_good w' /\
    (forall c, t_get es_trackers w' c = t_get es_trackers w c) /\ inbox w' = inbox w /\
    same_keys w w' /\ outbox w' ≡ₚ outbox w ++ [(ch, p)] /\ (space w' + 1 = space w)%nat.
Proof.
  intros Hg Hc Hp Hs. pose proof (enqueue_law w ch p now Hg Hc Hp) as H.
  destruct (es_enqueue w ch p (zlen p) now) as [rc w']. destruct H as (H1 & H2 & H3 & H4 & H5).
  rewrite (proj2 (Nat.ltb_lt _ _) Hs) in H5. destruct H5 as (-> & H5 & H6). by exists w'.
Qed.

Lemma zlen_cmd_wire r s from to : tg_field_ok (Some r) = true -> tg_field_ok (Some s) = true ->
  tg_sn_valid from = true -> tg_sn_valid to = true -> 0 < zlen (cmd_wire r s from to) <= 300.
Proof.
  intros Hr%tg_field_ok_len Hs%tg_field_ok_len Hf Ht.
  pose proof (zlen_cmd_meta from to Hf Ht). unfold cmd_wire. rewrite zlen_wire.
  change (zlen ($"ZCZC CMD")) with 8. zlen.
Qed.

(** A replay request leaves as a record that reads back as that request. *)
Lemma request_gap_ok w ch peer from to now : es_good w -> 0 <= ch -> es_key w ch = Some peer ->
  tg_field_ok (Some peer) = true -> tg_field_ok (Some self_key) = true ->
  tg_sn_valid from = true -> tg_sn_valid to = true -> 300 < payload_limit -> (0 < space w)%nat ->
  exists w', relay_request_gap env w ch from to now = (RELAY_GAP_REQUESTED, w') /\ es_good w' /\
    (forall c, t_get es_trackers w' c = t_get es_trackers w c) /\ inbox w' = inbox w /\
    same_keys w w' /\ outbox w' ≡ₚ outbox w ++ [(ch, cmd_wire peer self_key from to)].
Proof.
  intros Hg Hc Hk Hp Hs Hf Ht Hl Hsp. unfold relay_request_gap.
  rewrite env_enqueue, env_key, env_self, Hk. unfold RELAY_WIRE_MAX.
  pose proof (zlen_cmd_wire peer self_key from to Hp Hs Hf Ht) as Hz.
  rewrite encode_cmd_accepted by (done || lia). unfold encoded.
  rewrite (proj2 (Z.ltb_ge _ _)) by lia. rewrite (proj2 (Z.leb_gt _ _)) by lia. cbn [from_option id].
  destruct (env_enqueue_ok w ch (cmd_wire peer self_key from to) now) as (w' & -> & H1 & H2 & H3 & H4 & H5 & _);
    [done | done | lia | done |].
  by exists w'.
Qed.

(** The store, when it works. *)
Definition store_works : Prop := forall w ch sn ts s b, fst (es_store w ch sn ts s b) = 0.

Definition delivery_of (ch : Z) tg : delivery :=
  (ch, tg_sn tg, tg_timestamp tg, tg_sender tg, tg_body tg).

(** Storing and mirroring the serial: the state before the code's [switch]. *)
Lemma account_ok w ch tg : store_works -> es_good w -> 0 <= ch ->
  let w1 := snd (es_store w ch (tg_sn tg) (tg_timestamp tg) (tg_sender tg) (tg_body tg)) in
  let w2 := es_remember w1 ch (tg_sn tg) in
  es_good w2 /\ (forall c, t_get es_trackers w2 c = t_get es_trackers w c) /\
  outbox w2 = outbox w /\ space w2 = space w /\ same_keys w w2 /\
  inbox w2 = inbox w ++ [delivery_of ch tg].
Proof.
  intros Hsw Hg Hc. pose proof (store_law w ch (tg_sn tg) (tg_timestamp tg) (tg_sender tg) (tg_body tg) Hg Hc) as Hs.
  specialize (Hsw w ch (tg_sn tg) (tg_timestamp tg) (tg_sender tg) (tg_body tg)).
  destruct (es_store w ch _ _ _ _) as [rc w1]. cbn [fst snd] in *. subst rc.
  destruct Hs as (H1 & H2 & H3 & H4 & H5 & H6). cbn [Z.eqb] in H6. cbv zeta.
  pose proof (remember_law w1 ch (tg_sn tg) H1) as (K1 & K2 & K3 & K4 & K5 & K6).
  split_and!; [done | | congruence | congruence | | rewrite K4; exact H6].
  - intros c. by rewrite K2.
  - intros c. by rewrite K6.
Qed.

(** Delivery, up to the request that a gap calls for. *)
Lemma deliver_ok w ch tg now t state t' from to : store_works -> es_good w -> 0 <= ch ->
  t_get es_trackers w ch = Some t ->
  sn_tracker_accept (Some t) (tg_sn tg) RELAY_MAX_GAP = (state, Some t', from, to) ->
  state <> SN_DUPLICATE ->
  exists w1, es_good w1 /\ t_get es_trackers w1 ch = Some t' /\ outbox w1 = outbox w /\
    space w1 = space w /\ same_keys w w1 /\ inbox w1 = inbox w ++ [delivery_of ch tg] /\
    relay_deliver env w ch tg now =
      match state with
      | SN_GAP =>
        let '(out, w2) := relay_request_gap env w1 ch from to now in
        (match out with RELAY_GAP_REQUESTED => RELAY_GAP_REQUESTED | _ => RELAY_STORED end, w2)
      | SN_RECOVERED => (RELAY_RECOVERED, w1)
      | SN_RESYNC => (RELAY_RESYNCED, w1)
      | _ => (RELAY_STORED, w1)
      end.
Proof.
  intros Hsw Hg Hc Ht Ha Hnd. unfold relay_deliver.
  rewrite env_tracker, Ht, Ha, env_store, env_remember.
  destruct (set_law w ch t' Hg) as (G1 & G2 & _ & G3 & G4 & G5 & G6).
  destruct (account_ok (t_set es_trackers w ch t') ch tg Hsw G1 Hc) as (H1 & H2 & H3 & H4 & H5 & H6).
  eexists. split_and!; [exact H1 | by rewrite H2, (G2 t) | congruence | congruence | | congruence |].
  - intros c. by rewrite H5.
  - by destruct state.
Qed.

(** One record of a replay as the encoder accepts it and the receiver gets it
    back whole. *)
Definition replayable (r : relay_record) : Prop :=
  tg_sn_valid (rr_sn r) = true /\ is_long (rr_timestamp r) /\ tg_body_ok (Some (rr_body r)) = true /\
  cstring (rr_body r) /\ body_fits (rr_body r) = true /\ 297 + zlen (rr_body r) < payload_limit.

Definition replay_wire (peer self : bytes) (r : relay_record) : bytes :=
  text_wire peer self (rr_sn r) (rr_timestamp r) (Some (rr_body r)).

Lemma body_fits_len b : body_fits b = true -> zlen b < 1023.
Proof. unfold body_fits, TG_BODY_MAX. intros H. zbool. lia. Qed.

Lemma replay_loop_ok peer ch now rs : forall queued w, es_good w -> 0 <= ch ->
  tg_field_ok (Some peer) = true -> tg_field_ok (Some self_key) = true ->
  Forall replayable rs -> (length rs <= space w)%nat ->
  exists w', replay_loop es_enqueue peer (Some self_key) ch now rs queued w =
      (queued + zlen rs, w') /\ es_good w' /\
    outbox w' ≡ₚ outbox w ++ ((fun r => (ch, replay_wire peer self_key r)) <$> rs).
Proof.
  induction rs as [|r rs IH]; intros queued w Hg Hc Hp Hs Hr Hsp; cbn [replay_loop].
  { exists w. change (zlen (@nil relay_record)) with 0. rewrite Z.add_0_r, app_nil_r. done. }
  apply Forall_cons in Hr as [(Hv & Hl & Hb & Hcs & Hbf & Hpl) Hrs]. cbn [length] in Hsp.
  pose proof (zlen_text_wire peer self_key (rr_sn r) (rr_timestamp r) (Some (rr_body r)) Hp Hs Hv Hl) as Hz.
  pose proof (body_fits_len _ Hbf). cbn [from_option id] in Hz. unfold RELAY_WIRE_MAX.
  rewrite encode_text_accepted by (done || lia). unfold encoded.
  rewrite (proj2 (Z.ltb_ge _ _)) by lia. rewrite (proj2 (Z.leb_gt _ _)) by lia. cbn [from_option id].
  destruct (env_enqueue_ok w ch (text_wire peer self_key (rr_sn r) (rr_timestamp r) (Some (rr_body r))) now)
    as (w1 & -> & H1 & _ & _ & _ & H5 & H6); [done | done | lia | lia |].
  cbn [Z.eqb]. destruct (IH (queued + 1) w1 H1 Hc Hp Hs Hrs) as (w' & -> & K1 & K2); [lia |].
  exists w'. split; [f_equal; rewrite zlen_cons; lia |]. split; [done |].
  rewrite K2, H5, <- app_assoc. done.
Qed.

(** A record received from a peer that decodes to a telegram for us. *)
Lemma receive_text w ch raw now tg : 0 <= ch -> tg_decode (Some raw) (zlen raw) = Some tg ->
  tg_knd tg = TG_TEXT -> tg_receiver tg = self_key ->
  relay_receive (Some env) w ch (Some raw) (zlen raw) now = relay_deliver env w ch tg now.
Proof.
  intros Hc Hd Hk Hr. unfold relay_receive. rewrite env_self.
  assert ((zlen raw =? 0) || (ch <? 0) = false) as ->.
  { apply orb_false_iff. split; [| apply Z.ltb_ge; lia]. destruct (zlen raw =? 0) eqn:E; [| done].
    unfold tg_decode in Hd. by rewrite E in Hd. }
  by rewrite Hd, Hk, Hr, str_eq_refl.
Qed.

Lemma receive_cmd w ch raw now tg : 0 <= ch -> tg_decode (Some raw) (zlen raw) = Some tg ->
  tg_knd tg = TG_CMD -> tg_receiver tg = self_key ->
  relay_receive (Some env) w ch (Some raw) (zlen raw) now = relay_serve_replay env w ch tg now.
Proof.
  intros Hc Hd Hk Hr. unfold relay_receive. rewrite env_self.
  assert ((zlen raw =? 0) || (ch <? 0) = false) as ->.
  { apply orb_false_iff. split; [| apply Z.ltb_ge; lia]. destruct (zlen raw =? 0) eqn:E; [| done].
    unfold tg_decode in Hd. by rewrite E in Hd. }
  by rewrite Hd, Hk, Hr, str_eq_refl.
Qed.

(** The telegram a replay wire decodes to. *)
Definition replay_tg (peer self : bytes) (r : relay_record) : tg_message :=
  mk_tg_message TG_TEXT peer self (rr_sn r) 0 (rr_timestamp r) (rr_body r).

Lemma decode_replay peer self r : tg_field_ok (Some peer) = true -> cstring peer ->
  tg_field_ok (Some self) = true -> cstring self -> replayable r ->
  tg_decode (Some (replay_wire peer self r)) (zlen (replay_wire peer self r)) =
  Some (replay_tg peer self r).
Proof.
  intros Hp Hpc Hs Hsc (Hv & Hl & Hb & Hcs & Hbf & _). unfold replay_wire, text_wire.
  rewrite tg_decode_full. by apply (tg_decode_text_wire peer self _ _ (Some (rr_body r))).
Qed.

(** While the tracker recognises every arrival as a replayed telegram, all are
    stored and nothing is sent. *)
Lemma run_recovers ch from_key now rs : forall w t, store_works -> es_good w -> 0 <= ch ->
  t_get es_trackers w ch = Some t ->
  tg_field_ok (Some self_key) = true -> cstring self_key ->
  tg_field_ok (Some from_key) = true -> cstring from_key -> Forall replayable rs ->
  fst (sn_run t RELAY_MAX_GAP (rr_sn <$> rs)) = replicate (length rs) SN_RECOVERED ->
  exists w', relay_run env w ch (replay_wire self_key from_key <$> rs) now =
      (replicate (length rs) RELAY_RECOVERED, w') /\ es_good w' /\
    t_get es_trackers w' ch = Some (snd (sn_run t RELAY_MAX_GAP (rr_sn <$> rs))) /\
    inbox w' = inbox w ++ ((fun r => delivery_of ch (replay_tg self_key from_key r)) <$> rs) /\
    outbox w' = outbox w.
Proof.
  induction rs as [|r rs IH]; intros w t Hsw Hg Hc Ht Hk Hkc Hf Hfc Hrs Hrun.
  { exists w. cbn. rewrite app_nil_r. done. }
  apply Forall_cons in Hrs as [Hr Hrs]. cbn [fmap list_fmap sn_run relay_run length replicate] in *.
  destruct (sn_tracker_accept (Some t) (rr_sn r) RELAY_MAX_GAP) as [[[state t'] g1] g2] eqn:Ea.
  rewrite (receive_text w ch _ now _ Hc (decode_replay _ _ _ Hk Hkc Hf Hfc Hr)) by done.
  destruct t' as [t'|].
  2: { cbn [from_option id] in Hrun. destruct (sn_run t _ _). exfalso.
       unfold sn_tracker_accept in Ea. repeat case_match; simplify_eq. }
  cbn [from_option id] in *. destruct (sn_run t' RELAY_MAX_GAP (rr_sn <$> rs)) as [outs t2] eqn:Er.
  cbn [fst snd] in *. injection Hrun as -> Hrun.
  destruct (deliver_ok w ch (replay_tg self_key from_key r) now t _ t' g1 g2 Hsw Hg Hc Ht Ea)
    as (w1 & H1 & H2 & H3 & _ & _ & H6 & ->); [done |].
  destruct (IH w1 t' Hsw H1 Hc H2 Hk Hkc Hf Hfc Hrs) as (w' & -> & K1 & K2 & K3 & K4);
    rewrite Er in *; [done |].
  exists w'. split_and!; [done | done | done | | congruence].
  rewrite K3, H6, <- app_assoc. done.
Qed.

End Spec.

(** ** Two relays *)
Section Recovery.
Context {WA WB : Type} (envA : relay_env WA) (envB : relay_env WB).
Context `{SA : !env_spec envA} `{SB : !env_spec envB}.

(** [A] on [B]'s channel and [B] on [A]'s: each knows the other's key, and both
    keys can stand in a telegram. *)
Definition peers (wA : WA) (wB : WB) (chA chB : Z) : Prop :=
  0 <= chA /\ 0 <= chB /\
  es_key (env := envA) wA chA = Some (self_key (env := envB)) /\
  es_key (env := envB) wB chB = Some (self_key (env := envA)) /\
  tg_field_ok (Some (self_key (env := envA))) = true /\ cstring (self_key (env := envA)) /\
  tg_field_ok (Some (self_key (env := envB))) = true /\ cstring (self_key (env := envB)).

Lemma gap_accept t a n : rx_repr t a -> rx_missing a = [] -> 0 < n - rx_next a <= RELAY_MAX_GAP ->
  exists t', sn_tracker_accept (Some t) (ser n) RELAY_MAX_GAP =
      (SN_GAP, Some t', ser (rx_next a), ser (n - 1)) /\
    rx_repr t' (mk_rx (n + 1) (span (rx_next a) n)).
Proof.
  intros Hr Hm Hn. unfold RELAY_MAX_GAP in *.
  assert (Hf : rx_fresh a) by (intros m; rewrite Hm; intros ?%elem_of_nil; done).
  assert (Hw : in_window a n) by (unfold in_window; change HALF with 499; lia).
  destruct (sn_accept_simulates t a n 64 Hr Hf Hw) as (t' & Heq & Hr').
  assert (Hacc : rx_accept a n 64 = (SN_GAP, mk_rx (n + 1) (span (rx_next a) n))).
  { unfold rx_accept. rewrite Hm. rewrite bool_decide_eq_false_2 by apply not_elem_of_nil.
    change (zlen (@nil Z)) with 0. unfold SN_MAX_PENDING.
    destruct (n <? rx_next a) eqn:E1; zbool; [lia |].
    destruct (n =? rx_next a) eqn:E2; zbool; [lia |].
    rewrite (proj2 (Z.leb_le _ _)), (proj2 (Z.leb_le _ _)) by lia. done. }
  rewrite Hacc in *. cbn [fst snd] in *. rewrite bool_decide_eq_true_2 in Heq by done.
  by exists t'.
Qed.

Lemma recovered_run t a from n rs : rx_repr t (mk_rx (n + 1) (span from n)) ->
  rx_next a = from -> 0 < n - from <= RELAY_MAX_GAP ->
  rr_sn <$> rs ≡ₚ ser <$> span from n ->
  fst (sn_run t RELAY_MAX_GAP (rr_sn <$> rs)) = replicate (length rs) SN_RECOVERED /\
  st_pending (snd (sn_run t RELAY_MAX_GAP (rr_sn <$> rs))) = [] /\
  st_expected (snd (sn_run t RELAY_MAX_GAP (rr_sn <$> rs))) = ser (n + 1).
Proof.
  intros Hr _ Hn Hp. unfold RELAY_MAX_GAP in *.
  apply Permutation_map_inv in Hp as (ns & Hns & Hp).
  assert (Hf : rx_fresh (mk_rx (n + 1) (span from n))).
  { intros m Hm%elem_of_span. cbn. change HALF with 499. lia. }
  pose proof (sn_run_recovers 64 ns t _ Hr Hf) as H. cbn [rx_missing rx_next] in H.
  assert (length rs = length ns) as Hlen.
  { transitivity (length (rr_sn <$> rs)); [by rewrite length_fmap | rewrite Hns; apply length_map]. }
  change (map ser ns) with (ser <$> ns) in Hns. rewrite Hns, Hlen.
  destruct (sn_run t 64 (ser <$> ns)) as [outs t2].
  destruct H as [-> (_ & He & Hpd & _)].
  - rewrite <- Hp. apply NoDup_span.
  - intros m. by rewrite Hp.
  - cbn [fst snd]. split_and!; [done | | done].
    cbn in Hpd. rewrite list_filter_none in Hpd; [by apply Permutation_nil_r in Hpd |].
    intros m Hm. rewrite Hp in Hm. tauto.
Qed.

End Recovery.

(** ** Recovery at start-up *)
Section Startup.
Context {W : Type} (env : relay_env W) `{SE : !env_spec env}.
Variable last_sn : W -> Z -> option Z.

Definition known (w : W) (c : Z) : bool :=
  match channel_known env with Some f => f w c | None => true end.

(** The tracker a channel gets. *)
Definition recovered (w : W) (c : Z) (t0 : sn_tracker) : sn_tracker :=
  if known w c then match last_sn w c with
    | None => sn_tracker_init TG_SN_MIN
    | Some sn => sn_tracker_resume sn
    end
  else t0.

(** Neither the filter nor the database looks at the trackers. *)
Definition trackers_private : Prop := forall w w' c,
  inbox w' = inbox w -> last_sn w' c = last_sn w c /\ known w' c = known w c.

Lemma recover_channel_ok w c : trackers_private -> es_good w ->
  exists k w', recover_channel env es_trackers last_sn c w = (k, w') /\ es_good w' /\
    (forall d, d <> c -> t_get es_trackers w' d = t_get es_trackers w d) /\
    t_get es_trackers w' c = recovered w c <$> t_get es_trackers w c /\
    outbox w' = outbox w /\ inbox w' = inbox w.
Proof.
  intros Hp Hg. unfold recover_channel, recovered, known.
  destruct (match channel_known env with Some f => f w c | None => true end) eqn:Ek.
  - assert (match channel_known env with Some f => negb (f w c) | None => false end = false) as ->
      by (destruct (channel_known env); [by rewrite Ek | done]).
    destruct (t_get es_trackers w c) as [t0|] eqn:Et; [| exists 0, w; done].
    destruct (last_sn w c) as [sn|]; eexists _, _; (split; [done |]);
      match goal with |- context [t_set _ w c ?t] => destruct (set_law w c t Hg) as (G1 & G2 & G3 & G4 & G5 & _) end;
      split_and!; try done; by rewrite (G2 t0).
  - assert (match channel_known env with Some f => negb (f w c) | None => false end = true) as ->
      by (destruct (channel_known env); [by rewrite Ek | done]).
    exists 0, w. split_and!; try done. by destruct (t_get es_trackers w c).
Qed.

Lemma recover_loop_ok n : forall c r w, trackers_private -> es_good w ->
  exists k w', recover_loop env es_trackers last_sn n c r w = (k, w') /\ es_good w' /\
    (forall d, t_get es_trackers w' d =
       if (c <=? d) && (d <? c + Z.of_nat n)
       then recovered w d <$> t_get es_trackers w d else t_get es_trackers w d) /\
    outbox w' = outbox w /\ inbox w' = inbox w.
Proof.
  induction n as [|n IH]; intros c r w Hp Hg; cbn [recover_loop].
  { exists r, w. split_and!; try done. intros d.
    destruct ((c <=? d) && (d <? c + Z.of_nat 0)) eqn:E; [| done]. zbool. lia. }
  destruct (recover_channel_ok w c Hp Hg) as (k & w1 & -> & G1 & G2 & G3 & G4 & G5).
  destruct (IH (c + 1) (r + k) w1 Hp G1) as (k' & w' & -> & H1 & H2 & H3 & H4).
  exists k', w'. split_and!; [done | done | | congruence | congruence].
  intros d. rewrite H2.
  assert (Hrec : forall t0, recovered w1 d t0 = recovered w d t0).
  { intros t0. unfold recovered. by destruct (Hp w w1 d G5) as [-> ->]. }
  destruct (Z.eq_dec d c) as [-> | Hd].
  - rewrite G3. rewrite (proj2 (Z.leb_gt (c + 1) c)) by lia. cbn [andb].
    by rewrite (proj2 (Z.leb_le c c)), (proj2 (Z.ltb_lt _ _)) by lia.
  - rewrite (G2 d Hd). replace (c + 1 + Z.of_nat n) with (c + Z.of_nat (S n)) by lia.
    assert ((c + 1 <=? d) = (c <=? d)) as ->
      by (destruct (c + 1 <=? d) eqn:E1, (c <=? d) eqn:E2; zbool; lia || done).
    destruct (_ && _); [| done]. destruct (t_get es_trackers w d); [| done].
    cbn. by rewrite Hrec.
Qed.

End Startup.

(** * Properties *)
Section Properties.
Context {WA WB : Type} (envA : relay_env WA) (envB : relay_env WB).
Context `{SA : !env_spec envA} `{SB : !env_spec envB}.

(** Claim C10. Two relays close a gap. When a telegram shows [B] that up to 64
    telegrams from [A] are missing, [B] stores it and sends a replay request;
    [A], given that request, sends the stored telegrams; [B], given those in any
    order, recognises and stores every one of them and ends with nothing
    outstanding, the serial expected next unchanged, and nothing more to send. *)
Theorem relay_gap_recovery (wA : WA) (wB : WB) chA chB t a n raw tg recs now :
  peers envA envB wA wB chA chB -> es_good wA -> es_good wB -> store_works envB ->
  t_get (es_trackers (env := envB)) wB chB = Some t -> rx_repr t a -> rx_missing a = [] ->
  0 < n - rx_next a <= RELAY_MAX_GAP ->
  tg_decode (Some raw) (zlen raw) = Some tg -> tg_knd tg = TG_TEXT ->
  tg_receiver tg = self_key (env := envB) -> tg_sn tg = ser n ->
  es_fetch (env := envA) wA chA (ser (rx_next a)) (ser (n - 1)) RELAY_MAX_REPLAY = Some recs ->
  rr_sn <$> recs = ser <$> span (rx_next a) n -> Forall (replayable envA) recs ->
  Forall (replayable envB) recs -> (0 < space (env := envB) wB)%nat ->
  (length recs <= space (env := envA) wA)%nat ->
  300 < payload_limit (env := envB) ->
  exists wB1 wA1 request replies,
    relay_receive (Some envB) wB chB (Some raw) (zlen raw) now = (RELAY_GAP_REQUESTED, wB1) /\
    outbox (env := envB) wB1 ≡ₚ outbox wB ++ [(chB, request)] /\
    relay_receive (Some envA) wA chA (Some request) (zlen request) now = (RELAY_SERVED, wA1) /\
    outbox (env := envA) wA1 ≡ₚ outbox wA ++ ((fun p => (chA, p)) <$> replies) /\
    forall arrived, arrived ≡ₚ replies -> exists wB2 t2,
      relay_run envB wB1 chB arrived now = (replicate (length recs) RELAY_RECOVERED, wB2) /\
      t_get (es_trackers (env := envB)) wB2 chB = Some t2 /\
      st_pending t2 = [] /\ st_expected t2 = ser (n + 1) /\
      inbox (env := envB) wB2 ≡ₚ inbox wB ++ [delivery_of chB tg] ++
        ((fun r => (chB, rr_sn r, rr_timestamp r, self_key (env := envA), rr_body r)) <$> recs) /\
      outbox (env := envB) wB2 = outbox wB1.
Proof.
  intros (HcA & HcB & HkA & HkB & HfA & HsA & HfB & HsB) HgA HgB Hsw Ht Hr Hm Hn Hd Hk Hrc Hsn
    Hfetch Hrs HrA HrB HspB HspA Hlim.
  destruct (gap_accept t a n Hr Hm Hn) as (t' & Hacc & Hr'). rewrite <- Hsn in Hacc.
  set (from := ser (rx_next a)) in *. set (to := ser (n - 1)) in *.
  assert (Hvf : tg_sn_valid from = true) by apply ser_valid.
  assert (Hvt : tg_sn_valid to = true) by apply ser_valid.
  destruct (deliver_ok envB wB chB tg now t SN_GAP t' from to Hsw HgB HcB Ht Hacc)
    as (w1 & G1 & G2 & G3 & G4 & G5 & G6 & Hdel); [done |].
  destruct (request_gap_ok envB w1 chB (self_key (env := envA)) from to now)
    as (wB1 & Hreq & R1 & R2 & R3 & R4 & R5); try done; [by rewrite G5 | by rewrite G4 |].
  rewrite Hreq in Hdel. set (request := cmd_wire _ _ from to) in *.
  assert (Hdc : tg_decode (Some request) (zlen request) =
    Some (mk_tg_message TG_CMD (self_key (env := envA)) (self_key (env := envB)) from to 0 [])).
  { unfold request, cmd_wire. rewrite tg_decode_full. by apply tg_decode_cmd_wire. }
  destruct (replay_loop_ok envA (self_key (env := envB)) chA now recs 0 wA) as (wA1 & Hloop & A1 & A2); try done.
  exists wB1, wA1, request, (replay_wire (self_key (env := envB)) (self_key (env := envA)) <$> recs).
  split_and!.
  - by rewrite (receive_text envB wB chB raw now tg), Hdel.
  - rewrite R5, G3. done.
  - rewrite (receive_cmd envA wA chA request now _ HcA Hdc) by done.
    unfold relay_serve_replay. rewrite env_fetch, env_enqueue, env_key, HkA, env_self.
    cbn [tg_sn tg_sn_to]. rewrite Hfetch. destruct recs as [|r recs].
    { exfalso. rewrite span_cons in Hrs by lia. done. }
    rewrite Hloop. rewrite zlen_cons.
    rewrite (proj2 (Z.ltb_lt 0 _)) by (pose proof (zlen_nonneg recs); lia). done.
  - rewrite A2, <- list_fmap_compose. done.
  - intros arrived Harr. apply Permutation_map_inv in Harr as (rs & -> & Hp).
    assert (HrsB : Forall (replayable envB) rs) by (by rewrite <- Hp).
    assert (Hsns : rr_sn <$> rs ≡ₚ ser <$> span (rx_next a) n) by (by rewrite <- Hp, Hrs).
    destruct (recovered_run t' a (rx_next a) n rs Hr' eq_refl Hn Hsns) as (O1 & O2 & O3).
    destruct (run_recovers envB chB (self_key (env := envA)) now rs wB1 t')
      as (wB2 & P1 & _ & P3 & P4 & P5); try done; [by rewrite R2 |].
    assert (Hlen : length recs = length rs) by (by rewrite Hp).
    eexists wB2, _. rewrite Hlen. split_and!; [exact P1 | exact P3 | done | done | | done].
    rewrite P4, R3, G6, <- app_assoc. rewrite Hp. done.
Qed.

(** Claim C11. A telegram for us, whatever the tracker makes of it: a duplicate is
    dropped without a trace; anything else is stored exactly once; only a gap
    sends something, one request for exactly the missing range, and when the
    queue has no room for it the telegram is stored all the same. *)
Theorem relay_deliver_result (w : WA) ch raw now tg t state t' from to :
  es_good w -> store_works envA -> 0 <= ch ->
  tg_decode (Some raw) (zlen raw) = Some tg -> tg_knd tg = TG_TEXT ->
  tg_receiver tg = self_key (env := envA) ->
  t_get (es_trackers (env := envA)) w ch = Some t ->
  sn_tracker_accept (Some t) (tg_sn tg) RELAY_MAX_GAP = (state, Some t', from, to) ->
  (state = SN_GAP -> exists peer, es_key (env := envA) w ch = Some peer /\
     tg_field_ok (Some peer) = true /\ tg_field_ok (Some (self_key (env := envA))) = true /\
     tg_sn_valid from = true /\ tg_sn_valid to = true /\ 300 < payload_limit (env := envA)) ->
  exists w', relay_receive (Some envA) w ch (Some raw) (zlen raw) now =
      (match state with
       | SN_IN_ORDER => RELAY_STORED
       | SN_DUPLICATE => RELAY_DUPLICATE
       | SN_GAP => if (0 <? space (env := envA) w)%nat then RELAY_GAP_REQUESTED else RELAY_STORED
       | SN_RESYNC => RELAY_RESYNCED
       | SN_RECOVERED => RELAY_RECOVERED
       end, w') /\ es_good w' /\ t_get (es_trackers (env := envA)) w' ch = Some t' /\
    inbox (env := envA) w' =
      inbox w ++ (match state with SN_DUPLICATE => [] | _ => [delivery_of ch tg] end) /\
    outbox (env := envA) w' ≡ₚ outbox w ++
      (if (match state with SN_GAP => true | _ => false end) && (0 <? space (env := envA) w)%nat
       then [(ch, cmd_wire (default [] (es_key (env := envA) w ch)) (self_key (env := envA)) from to)]
       else []).
Proof.
  intros Hg Hsw Hc Hd Hk Hr Ht Ha Hgap. rewrite (receive_text envA w ch raw now tg) by done.
  destruct (decide (state = SN_DUPLICATE)) as [-> | Hnd].
  { unfold relay_deliver. rewrite env_tracker, Ht, Ha. destruct (set_law w ch t' Hg) as (G1 & G2 & _ & G3 & G4 & _).
    eexists. split_and!; [reflexivity | done | by apply (G2 t) | |].
    - by rewrite app_nil_r. - cbn [andb]. by rewrite app_nil_r, G3. }
  destruct (deliver_ok envA w ch tg now t state t' from to Hsw Hg Hc Ht Ha Hnd)
    as (w1 & G1 & G2 & G3 & G4 & G5 & G6 & ->).
  destruct (decide (state = SN_GAP)) as [-> | Hng].
  2: { exists w1. split_and!; [by destruct state | done | done | by destruct state |].
       destruct state; try done; cbn [andb]; by rewrite app_nil_r, G3. }
  destruct (Hgap eq_refl) as (peer & Hpk & Hpf & Hsf & Hvf & Hvt & Hlim).
  cbn [andb]. rewrite Hpk. cbn [from_option id]. destruct (Nat.ltb_spec 0 (space (env := envA) w)) as [Hsp | Hsp].
  - destruct (request_gap_ok envA w1 ch peer from to now) as (w2 & -> & R1 & R2 & R3 & _ & R5);
      try done; [by rewrite G5 | by rewrite G4 |].
    exists w2. split_and!; [done | done | by rewrite R2 | by rewrite R3 | by rewrite R5, G3].
  - unfold relay_request_gap. rewrite env_enqueue, env_key, env_self, G5, Hpk. unfold RELAY_WIRE_MAX.
    pose proof (zlen_cmd_wire peer (self_key (env := envA)) from to Hpf Hsf Hvf Hvt) as Hz.
    rewrite encode_cmd_accepted by (done || lia). unfold encoded.
    rewrite (proj2 (Z.ltb_ge _ _)) by lia. rewrite (proj2 (Z.leb_gt _ _)) by lia. cbn [from_option id].
    pose proof (enqueue_law w1 ch (cmd_wire peer (self_key (env := envA)) from to) now G1 Hc) as He.
    destruct (es_enqueue w1 ch _ _ now) as [rc w2]. destruct He as (H1 & H2 & H3 & _ & H5); [lia |].
    rewrite G4, (proj2 (Nat.ltb_ge _ _) Hsp) in H5. destruct H5 as [H5 H6].
    rewrite (proj2 (Z.eqb_neq _ _) H5). exists w2.
    split_and!; [done | done | by rewrite H2 | by rewrite H3 |]. by rewrite app_nil_r, H6, G3.
Qed.

(** Claim C12. Bytes that do not decode, a record for nobody, a record from a
    channel that does not exist or a control record for somebody else change
    nothing at all, in any environment. *)
Theorem relay_receive_discards {W} (env : relay_env W) w ch raw len now :
  ch < 0 \/ tg_decode (Some raw) len = None \/
  (exists tg, tg_decode (Some raw) len = Some tg /\ tg_knd tg = TG_CMD /\
     Some (tg_receiver tg) <> self_public_key env) ->
  relay_receive (Some env) w ch (Some raw) len now = (RELAY_DISCARDED, w).
Proof.
  intros H. unfold relay_receive. destruct (self_public_key env) as [self|]; [| done].
  destruct ((len =? 0) || (ch <? 0)) eqn:E; [done |]. zbool.
  destruct H as [H | [-> | (tg & -> & -> & Hne)]]; [lia | done |].
  destruct (str_eq (tg_receiver tg) self) eqn:Es; [| done].
  apply str_eq_true in Es. congruence.
Qed.


End Properties.

(** * A small environment

    Lists in place of the queue and the database, to run examples on. Channel 1
    speaks the telegraph format, the others do not. *)
Record mem : Type := mk_mem {
  m_peer : bytes;
  m_trk : gmap Z sn_tracker;
  m_out : list (Z * bytes);
  m_in : list delivery;
  m_db : list relay_record }.

Definition mem_trackers : tracker_access mem := {|
  t_get w c := m_trk w !! c;
  t_set w c t := mk_mem (m_peer w) (<[c := t]> (m_trk w)) (m_out w) (m_in w) (m_db w) |}.

Definition mem_store (w : mem) (c sn ts : Z) (s b : bytes) : Z * mem :=
  (0, mk_mem (m_peer w) (m_trk w) (m_out w) (m_in w ++ [(c, sn, ts, s, b)]) (m_db w)).
Definition mem_enqueue (w : mem) (c : Z) (p : bytes) (len now : Z) : Z * mem :=
  if (length (m_out w) <? 16)%nat
  then (0, mk_mem (m_peer w) (m_trk w) (m_out w ++ [(c, take (Z.to_nat len) p)]) (m_in w) (m_db w))
  else (-2, w).

Definition mem_env (self : bytes) : relay_env mem := {|
  self_public_key := Some self;
  resolve_peer := Some (fun w key => if decide (key = m_peer w) then 1
                                     else if decide (key = $"CCCC") then 2 else -1);
  peer_key := Some (fun w _ => Some (m_peer w));
  peer_is_metacom := Some (fun _ c => c =? 1);
  tracker := Some mem_trackers;
  channel_known := None;
  store := Some mem_store;
  enqueue := Some mem_enqueue;
  fetch_range := Some (fun w _ _ _ _ => Some (m_db w));
  remember_serial := Some (fun w _ _ => w) |}.

#[export] Program Instance mem_spec (self : bytes) : env_spec (mem_env self) := {|
  self_key := self;
  es_key w _ := Some (m_peer w);
  es_trackers := mem_trackers;
  es_store := mem_store;
  es_enqueue := mem_enqueue;
  es_fetch w _ _ _ _ := Some (m_db w);
  es_remember w _ _ := w;
  outbox := m_out; inbox := m_in; space w := (16 - length (m_out w))%nat;
  payload_limit := 1372; es_good _ := True |}.
Solve All Obligations with try done.
Next Obligation.
  intros self w ch t _. cbn. split_and!; try done.
  - intros. by rewrite lookup_insert_eq.
  - intros. by rewrite lookup_insert_ne.
Qed.
Next Obligation.
  intros self w ch p now _ Hc Hp. unfold mem_enqueue. destruct (Nat.ltb_spec (length (m_out w)) 16) as [Hs | Hs].
  - rewrite (proj2 (Nat.ltb_lt _ _)) by lia. split_and!; try done; cbn.
    + unfold zlen. by rewrite Nat2Z.id, firstn_all.
    + rewrite length_app. cbn. lia.
  - rewrite (proj2 (Nat.ltb_ge _ _)) by lia. done.
Qed.

Definition keyA : bytes := $"AAAA".
Definition keyB : bytes := $"BBBB".
Definition replayed (n : Z) : relay_record := mk_relay_record (ser n) 1700000000 ($"lost").
Definition memA : mem := mk_mem keyB ∅ [] [] [replayed 1000; replayed 1001].
Definition memB : mem := mk_mem keyA (<[0 := mk_sn_tracker 2 true []]> ∅) [] [] [].
Definition tg_late : tg_message := mk_tg_message TG_TEXT keyB keyA 4 0 1700000000 ($"late").
Definition raw_late : bytes := text_wire keyB keyA 4 1700000000 (Some ($"late")).

Lemma replayable_lost self n : replayable (mem_env self) (replayed n).
Proof. split_and!; try done. apply ser_valid. Qed.

Lemma relay_gap_recovery_witness : exists wB1 wA1 request replies,
  relay_receive (Some (mem_env keyB)) memB 0 (Some raw_late) (zlen raw_late) 5 =
    (RELAY_GAP_REQUESTED, wB1) /\
  relay_receive (Some (mem_env keyA)) memA 0 (Some request) (zlen request) 5 =
    (RELAY_SERVED, wA1) /\
  forall arrived, arrived ≡ₚ replies -> exists wB2,
    relay_run (mem_env keyB) wB1 0 arrived 5 = ([RELAY_RECOVERED; RELAY_RECOVERED], wB2).
Proof.
  destruct (relay_gap_recovery (mem_env keyA) (mem_env keyB) memA memB 0 0
    (mk_sn_tracker 2 true []) (mk_rx 1000 []) 1002 raw_late tg_late [replayed 1000; replayed 1001] 5)
    as (wB1 & wA1 & request & replies & H1 & _ & H2 & _ & H3).
  - by split_and!.
  - exact I.
  - exact I.
  - intros ? ? ? ? ? ?. reflexivity.
  - reflexivity.
  - split_and!; [reflexivity | vm_compute; reflexivity | constructor | constructor].
  - reflexivity.
  - by vm_compute.
  - vm_compute. reflexivity.
  - reflexivity.
  - reflexivity.
  - vm_compute. reflexivity.
  - reflexivity.
  - vm_compute. reflexivity.
  - by repeat (constructor; [apply replayable_lost |]).
  - by repeat (constructor; [apply replayable_lost |]).
  - cbn. lia.
  - cbn. lia.
  - reflexivity.
  - exists wB1, wA1, request, replies. split; [exact H1 |]. split; [exact H2 |].
    intros arrived Ha. destruct (H3 arrived Ha) as (wB2 & _ & H4 & _). exists wB2. exact H4.
Defined.

Lemma relay_deliver_result_witness : exists w',
  relay_receive (Some (mem_env keyB)) memB 0 (Some raw_late) (zlen raw_late) 5 =
    (RELAY_GAP_REQUESTED, w') /\ inbox (env := mem_env keyB) w' = [delivery_of 0 tg_late].
Proof.
  destruct (relay_deliver_result (mem_env keyB) memB 0 raw_late 5 tg_late (mk_sn_tracker 2 true [])
    SN_GAP (mk_sn_tracker 5 true [2; 3]) 2 3) as (w' & H1 & _ & _ & H2 & _);
    [exact I | intros ? ? ? ? ? ?; reflexivity | done | vm_compute; reflexivity | reflexivity
    | reflexivity | reflexivity | vm_compute; reflexivity | |].
  - intros _. by exists keyA.
  - exists w'. exact (conj H1 H2).
Defined.

Lemma relay_receive_discards_witness :
  relay_receive (Some (mem_env keyB)) memB 0 (Some ($"hello")) 5 5 = (RELAY_DISCARDED, memB).
Proof. apply relay_receive_discards. right. left. reflexivity. Defined.


(** Whether a forwarded telegram keeps its framing is decided by the
    channel it came from, not by the one it goes to: from a plain contact, a
    peer that speaks the telegraph format is handed a bare body, with neither
    serial nor sender; from such a peer, a plain contact is handed the framed
    record. *)
Theorem relay_forward_by_source :
  let wire to := text_wire to keyB 7 1700000000 (Some ($"hi")) in
  let env := mem_env ($"RELAY") in
  let w := mk_mem keyA ∅ [] [] [] in
  relay_receive (Some env) w 0 (Some (wire keyA)) (zlen (wire keyA)) 5 =
    (RELAY_RELAYED, mk_mem keyA ∅ [(1, $"hi")] [] []) /\
  relay_receive (Some env) w 1 (Some (wire ($"CCCC"))) (zlen (wire ($"CCCC"))) 5 =
    (RELAY_RELAYED, mk_mem keyA ∅ [(2, wire ($"CCCC"))] [] []).
Proof. cbv zeta. split; vm_compute; reflexivity. Qed.
