(* ===== verification/MsgDatabase.v ===== *)
(** * The message database ([src/msg_database.c], [src/msg_database.h])

    Opening and closing the store, appending a record and reading records back,
    over a connection to SQLite, which is a parameter: the class [sqlite] states
    the meaning of the statements of this file. The class [database] is what the
    rest of the relayer uses of the module; its instance here is discharged by the
    module's own theorems. *)

From S2P Require Import Prelude.
From S2P Require Import CString.
From S2P Require Import Telegram.
From S2P Require Import SnTracker.
From stdpp Require Import sorting.
Open Scope Z_scope.

(** ** Codes and sizes *)

Definition MSG_DB_OK : Z := 0.
Definition MSG_DB_ERR_NOT_READY : Z := -1.
Definition MSG_DB_ERR_OPEN : Z := -2.
Definition MSG_DB_ERR_SCHEMA : Z := -3.
Definition MSG_DB_ERR_PREPARE : Z := -4.
Definition MSG_DB_ERR_BIND : Z := -5.
Definition MSG_DB_ERR_STEP : Z := -6.
Definition MSG_DB_ERR_RANGE : Z := -7.
Definition MSG_DB_SENDER_MAX : Z := 128.
Definition MSG_DB_MESSAGE_MAX : Z := 1024.
Definition MAX_MSG_TOP : Z := 10.
Definition MSG_DB_SN_MIN : Z := 0.
Definition MSG_DB_SN_MAX : Z := 999.

(** ** The statements *)

Definition SQL_SCHEMA : bytes :=
  $"CREATE TABLE IF NOT EXISTS CHAT_MESSEAGE (UTC_DateTime INTEGER PRIMARY KEY,Msg_Sender   TEXT,Msg_SN       INTEGER,Friend_Num   INTEGER,Send_Receive TEXT,Chat_Message TEXT);CREATE INDEX IF NOT EXISTS idx_CHAT_MESSEAGE_friend_dir_sn ON CHAT_MESSEAGE (Friend_Num, Send_Receive, Msg_SN);".
Definition SQL_INSERT : bytes :=
  $"INSERT OR REPLACE INTO CHAT_MESSEAGE (UTC_DateTime, Msg_Sender, Msg_SN, Friend_Num, Send_Receive, Chat_Message) VALUES (?1, ?2, ?3, ?4, ?5, ?6);".
Definition SQL_TOP : bytes :=
  $"SELECT Msg_Sender, Chat_Message FROM CHAT_MESSEAGE ORDER BY UTC_DateTime DESC LIMIT ?1;".
Definition SQL_LAST_SN : bytes :=
  $"SELECT COALESCE(MAX(Msg_SN), 0) FROM CHAT_MESSEAGE WHERE Friend_Num = ?1 AND Send_Receive = ?2;".
Definition SQL_RANGE_IN : bytes :=
  $"SELECT Msg_SN, UTC_DateTime, Msg_Sender, Chat_Message FROM CHAT_MESSEAGE WHERE Friend_Num = ?1 AND Send_Receive = ?2 AND Msg_SN BETWEEN ?3 AND ?4 ORDER BY UTC_DateTime ASC LIMIT ?5;".
Definition SQL_RANGE_WRAP : bytes :=
  $"SELECT Msg_SN, UTC_DateTime, Msg_Sender, Chat_Message FROM CHAT_MESSEAGE WHERE Friend_Num = ?1 AND Send_Receive = ?2 AND (Msg_SN >= ?3 OR Msg_SN <= ?4) ORDER BY UTC_DateTime ASC LIMIT ?5;".
Definition PRAGMA_WAL : bytes := $"PRAGMA journal_mode=WAL;".

(** ** SQLite

    The table maps its primary key, the time of a record in seconds, to the other
    columns. *)
Record row : Type := mk_row {
  Msg_Sender : bytes; Msg_SN : Z; Friend_Num : Z; Send_Receive : bytes; Chat_Message : bytes }.

Inductive value : Type := VInt (z : Z) | VText (s : bytes).

Definition earlier (a b : Z * row) : Prop := a.1 <= b.1.
#[export] Instance earlier_dec : RelDecision earlier.
Proof. intros a b. unfold earlier. apply _. Defined.

(** The rows in the order of their times. *)
Definition by_time (t : gmap Z row) : list (Z * row) := merge_sort earlier (map_to_list t).

Definition sql_limit {A} (n : Z) (l : list A) : list A := if n <? 0 then l else take (Z.to_nat n) l.

Definition of_contact (f : Z) (dir : bytes) (r : row) : bool :=
  (Friend_Num r =? f) && bool_decide (Send_Receive r = dir).

Definition columns (e : Z * row) : list value :=
  [VInt (Msg_SN e.2); VInt e.1; VText (Msg_Sender e.2); VText (Chat_Message e.2)].

(** The greatest serial of a list of rows, 0 for none. *)
Definition max_sn (l : list (Z * row)) : Z :=
  match l with [] => 0 | e :: l => foldr (fun e m => Z.max (Msg_SN e.2) m) (Msg_SN e.2) l end.

(** The rows a query answers with, given its parameters. *)
Definition answer (sql : bytes) (ps : list value) (t : gmap Z row) : list (list value) :=
  match ps with
  | [VInt n] =>
    if bool_decide (sql = SQL_TOP)
    then sql_limit n ((fun e => [VText (Msg_Sender e.2); VText (Chat_Message e.2)]) <$> reverse (by_time t))
    else []
  | [VInt f; VText dir] =>
    if bool_decide (sql = SQL_LAST_SN)
    then [[VInt (max_sn (filter (fun e => of_contact f dir e.2 = true) (by_time t)))]] else []
  | [VInt f; VText dir; VInt from; VInt to; VInt n] =>
    let sel p := sql_limit n (columns <$> filter (fun e => of_contact f dir e.2 && p (Msg_SN e.2) = true) (by_time t)) in
    if bool_decide (sql = SQL_RANGE_IN) then sel (fun sn => (from <=? sn) && (sn <=? to))
    else if bool_decide (sql = SQL_RANGE_WRAP) then sel (fun sn => (from <=? sn) || (sn <=? to))
    else []
  | _ => []
  end.

Definition SQLITE_OK : Z := 0.
Definition SQLITE_ROW : Z := 100.
Definition SQLITE_DONE : Z := 101.

(** A connection: every call reports a code and may fail. [sqlite3_step s sql ps k]
    is step [k] since the reset of a statement with its parameters bound; the laws
    are what SQLite documents for the statements above. A [SELECT] leaves the
    connection as it was for what it answers later. *)
Class sqlite (S : Type) := {
  sqlite3_open_v2 : S -> Z * bool * S;              (* the code, and whether a handle was made *)
  sqlite3_close : S -> S;
  sqlite3_exec : S -> bytes -> Z * S;
  sqlite3_prepare_v2 : S -> bytes -> Z;
  sqlite3_bind : S -> bytes -> Z -> value -> Z;
  sqlite3_step : S -> bytes -> list value -> nat -> Z * list value * S;
  db_table : S -> gmap Z row;
  open_law s : let '(rc, handle, s') := sqlite3_open_v2 s in
    db_table s' = db_table s /\ (rc = SQLITE_OK -> handle = true);
  close_law s : db_table (sqlite3_close s) = db_table s;
  exec_law s sql : sql = PRAGMA_WAL \/ sql = SQL_SCHEMA -> db_table (sqlite3_exec s sql).2 = db_table s;
  insert_law s t sender sn f dir m :
    let '(rc, _, s') := sqlite3_step s SQL_INSERT
                          [VInt t; VText sender; VInt sn; VInt f; VText dir; VText m] 0%nat in
    db_table s' = if rc =? SQLITE_DONE then <[t := mk_row sender sn f dir m]> (db_table s) else db_table s;
  select_law s sql ps k : sql <> SQL_INSERT ->
    let '(rc, cols, s') := sqlite3_step s sql ps k in
    s' = s /\ (rc = SQLITE_ROW -> answer sql ps (db_table s) !! k = Some cols) /\
    (rc = SQLITE_DONE -> answer sql ps (db_table s) !! k = None) }.

(** ** The module *)

(** The connection and the file's variables: which handles are set. *)
Record msg_db (S : Type) : Type := mk_db {
  conn : S;
  g_db : bool;
  g_stmt_insert : bool;
  g_stmt_top : bool;
  g_stmt_last : bool;
  g_ready : bool }.
Arguments mk_db {S}.
Arguments conn {S}.
Arguments g_db {S}.
Arguments g_stmt_insert {S}.
Arguments g_stmt_top {S}.
Arguments g_stmt_last {S}.
Arguments g_ready {S}.

Record CHAT_MSG : Type := mk_chat { cm_sender : bytes; cm_message : bytes }.

Record CHAT_MSG_RECORD : Type := mk_chat_record {
  msg_sn : Z; datetime : Z; sender : bytes; message : bytes }.

(** A copy of at most [dst_size] - 1 bytes into an array, terminated. *)
Definition copy_bounded (dst : bytes) (dst_size : Z) (src : option bytes) : option bytes :=
  if dst_size =? 0 then Some dst
  else
    match src with
    | None => CString.store dst 0 NUL
    | Some src =>
      let n := zlen src in
      let n := if dst_size <=? n then dst_size - 1 else n in
      do! dst := memcpy dst src n;
      CString.store dst n NUL
    end.

(** A text column copied to a field of [size] bytes of a record of the caller. *)
Definition field (size : Z) (v : option value) : option bytes :=
  do! b := copy_bounded (replicate (Z.to_nat size) NUL) size
             (match v with Some (VText s) => Some s | _ => None end);
  Some (until_nul b).

Definition int_column (v : option value) : Z := match v with Some (VInt z) => z | _ => 0 end.

Section MsgDatabase.
Context {S : Type} `{sq : !sqlite S}.
Implicit Types (d : msg_db S).

Definition set_conn d s : msg_db S := mk_db s (g_db d) (g_stmt_insert d) (g_stmt_top d) (g_stmt_last d) (g_ready d).

Definition msg_database_close d : msg_db S :=
  mk_db (if g_db d then sqlite3_close (conn d) else conn d) false false false false false.

Definition msg_database_open d : Z * msg_db S :=
  if g_ready d then (MSG_DB_OK, d)
  else
    let '(rc, handle, s) := sqlite3_open_v2 (conn d) in
    let d := mk_db s handle (g_stmt_insert d) (g_stmt_top d) (g_stmt_last d) false in
    if negb (rc =? SQLITE_OK) then (MSG_DB_ERR_OPEN, msg_database_close d)
    else
      let d := set_conn d (snd (sqlite3_exec (conn d) PRAGMA_WAL)) in
      let '(rc, s) := sqlite3_exec (conn d) SQL_SCHEMA in
      let d := set_conn d s in
      if negb (rc =? SQLITE_OK) then (MSG_DB_ERR_SCHEMA, msg_database_close d)
      else
        let ins := sqlite3_prepare_v2 s SQL_INSERT =? SQLITE_OK in
        let top := ins && (sqlite3_prepare_v2 s SQL_TOP =? SQLITE_OK) in
        let last := top && (sqlite3_prepare_v2 s SQL_LAST_SN =? SQLITE_OK) in
        let d := mk_db s (g_db d) ins top last false in
        if negb last then (MSG_DB_ERR_PREPARE, msg_database_close d)
        else (MSG_DB_OK, mk_db s (g_db d) ins top last true).

Definition msg_database_is_ready d : bool := g_ready d.

(** The bindings of a statement, up to the first that fails. *)
Fixpoint bind_all (s : S) (sql : bytes) (pos : Z) (ps : list value) : Z :=
  match ps with
  | [] => SQLITE_OK
  | v :: ps => let rc := sqlite3_bind s sql pos v in if rc =? SQLITE_OK then bind_all s sql (pos + 1) ps else rc
  end.

Definition clamp_sn (msg_sn : Z) : Z :=
  if msg_sn <? MSG_DB_SN_MIN then MSG_DB_SN_MIN
  else if MSG_DB_SN_MAX <? msg_sn then MSG_DB_SN_MAX else msg_sn.

Definition msg_database_add d (friend_num msg_sn datetime : Z) (sender direction chat_msg : option bytes)
    : Z * msg_db S :=
  if negb (g_ready d) || negb (g_stmt_insert d) then (MSG_DB_ERR_NOT_READY, d)
  else
    match direction with
    | None => (MSG_DB_ERR_RANGE, d)
    | Some direction =>
      if friend_num <? 0 then (MSG_DB_ERR_RANGE, d)
      else
        let ps := [VInt datetime; VText (default [] sender); VInt (clamp_sn msg_sn); VInt friend_num;
                   VText direction; VText (default [] chat_msg)] in
        if negb (bind_all (conn d) SQL_INSERT 1 ps =? SQLITE_OK) then (MSG_DB_ERR_BIND, d)
        else
          let '(rc, _, s) := sqlite3_step (conn d) SQL_INSERT ps 0%nat in
          (if negb (rc =? SQLITE_DONE) then MSG_DB_ERR_STEP else MSG_DB_OK, set_conn d s)
    end.

(** The loop that steps a query and reads its columns into the caller's records:
    those read, the code of the last step, and the connection. *)
Fixpoint read_loop {A} (read : list value -> option A) (s : S) (sql : bytes) (ps : list value)
    (n k : nat) (rc : Z) (out : list A) : option (list A * Z * S) :=
  match n with
  | O => Some (out, rc, s)
  | Datatypes.S n =>
    let '(rc, cols, s) := sqlite3_step s sql ps k in
    if negb (rc =? SQLITE_ROW) then Some (out, rc, s)
    else
      do! r := read cols;
      read_loop read s sql ps n (Datatypes.S k) rc (out ++ [r])
  end.

Definition read_top (cols : list value) : option CHAT_MSG :=
  do! sender := field MSG_DB_SENDER_MAX (cols !! 0%nat);
  do! message := field MSG_DB_MESSAGE_MAX (cols !! 1%nat);
  Some (mk_chat sender message).

Definition msg_database_top d (max : Z) : option (Z * list CHAT_MSG * msg_db S) :=
  if negb (g_ready d) || negb (g_stmt_top d) then Some (MSG_DB_ERR_NOT_READY, [], d)
  else if max <=? 0 then Some (MSG_DB_ERR_RANGE, [], d)
  else if negb (sqlite3_bind (conn d) SQL_TOP 1 (VInt max) =? SQLITE_OK) then Some (MSG_DB_ERR_BIND, [], d)
  else
    do! (out, rc, s) := read_loop read_top (conn d) SQL_TOP [VInt max] (Z.to_nat max) 0 SQLITE_DONE [];
    Some (if (zlen out <? max) && negb (rc =? SQLITE_DONE) then MSG_DB_ERR_STEP else zlen out,
          out, set_conn d s).

(** The code, the value stored through [sn_out] when it is reached, the state. *)
Definition msg_database_last_sn d (friend_num : Z) (direction : option bytes) : Z * option Z * msg_db S :=
  if negb (g_ready d) || negb (g_stmt_last d) then (MSG_DB_ERR_NOT_READY, None, d)
  else
    match direction with
    | None => (MSG_DB_ERR_RANGE, None, d)
    | Some direction =>
      if friend_num <? 0 then (MSG_DB_ERR_RANGE, None, d)
      else
        let ps := [VInt friend_num; VText direction] in
        if negb (bind_all (conn d) SQL_LAST_SN 1 ps =? SQLITE_OK) then (MSG_DB_ERR_BIND, Some 0, d)
        else
          let '(rc, cols, s) := sqlite3_step (conn d) SQL_LAST_SN ps 0%nat in
          let sn := if rc =? SQLITE_ROW then i32 (int_column (cols !! 0%nat)) else 0 in
          (if negb (rc =? SQLITE_ROW) && negb (rc =? SQLITE_DONE) then MSG_DB_ERR_STEP else MSG_DB_OK,
           Some sn, set_conn d s)
    end.

Definition read_record (cols : list value) : option CHAT_MSG_RECORD :=
  do! sender := field MSG_DB_SENDER_MAX (cols !! 2%nat);
  do! message := field MSG_DB_MESSAGE_MAX (cols !! 3%nat);
  Some (mk_chat_record (i32 (int_column (cols !! 0%nat))) (int_column (cols !! 1%nat)) sender message).

Definition serial_stored (sn : Z) : bool := (MSG_DB_SN_MIN <=? sn) && (sn <=? MSG_DB_SN_MAX).

Definition msg_database_range d (friend_num : Z) (direction : option bytes) (from to max : Z)
    : option (Z * list CHAT_MSG_RECORD * msg_db S) :=
  if negb (g_ready d) || negb (g_db d) then Some (MSG_DB_ERR_NOT_READY, [], d)
  else
    match direction with
    | None => Some (MSG_DB_ERR_RANGE, [], d)
    | Some direction =>
      if (max <=? 0) || (friend_num <? 0) then Some (MSG_DB_ERR_RANGE, [], d)
      else if negb (serial_stored from) || negb (serial_stored to) then Some (MSG_DB_ERR_RANGE, [], d)
      else
        let sql := if from <=? to then SQL_RANGE_IN else SQL_RANGE_WRAP in
        if negb (sqlite3_prepare_v2 (conn d) sql =? SQLITE_OK) then Some (MSG_DB_ERR_PREPARE, [], d)
        else
          let ps := [VInt friend_num; VText direction; VInt from; VInt to; VInt max] in
          if negb (bind_all (conn d) sql 1 ps =? SQLITE_OK) then Some (MSG_DB_ERR_BIND, [], d)
          else
            do! (out, rc, s) := read_loop read_record (conn d) sql ps (Z.to_nat max) 0 SQLITE_DONE [];
            Some (if (zlen out <? max) && negb (rc =? SQLITE_DONE) then MSG_DB_ERR_STEP else zlen out,
                  out, set_conn d s)
    end.

End MsgDatabase.

(** * Lemmas *)

(** ** The table in the order of time *)

#[local] Instance earlier_total : Total earlier.
Proof. intros a b. unfold earlier. lia. Qed.

#[local] Instance earlier_trans : Transitive earlier.
Proof. intros a b c. unfold earlier. lia. Qed.

Lemma by_time_elem (t : gmap Z row) k r : (k, r) ∈ by_time t <-> t !! k = Some r.
Proof. unfold by_time. by rewrite merge_sort_Permutation, elem_of_map_to_list. Qed.

Lemma by_time_sorted (t : gmap Z row) : StronglySorted earlier (by_time t).
Proof. apply StronglySorted_merge_sort; apply _. Qed.

Lemma sorted_filter (p : Z * row -> bool) l : StronglySorted earlier l ->
  StronglySorted earlier (filter (fun e => p e = true) l).
Proof.
  induction 1 as [|e l Hl IH He]; [constructor |]. rewrite filter_cons. destruct (p e); cbn; [| done].
  constructor; [done |]. rewrite Forall_forall in *. intros x [_ Hx]%list_elem_of_filter. by apply He.
Qed.

(** ** Copies *)

Definition field_text (size : Z) (v : option value) : bytes :=
  match v with Some (VText s) => until_nul (take (Z.to_nat (size - 1)) s) | _ => [] end.

(** Whatever the database holds, a copy stays inside its field. *)
Lemma field_ok size v : 0 < size -> field size v = Some (field_text size v).
Proof.
  intros Hs. unfold field, copy_bounded. rewrite (proj2 (Z.eqb_neq size 0)) by lia.
  assert (Hz : zlen (replicate (Z.to_nat size) NUL) = size) by (unfold zlen; rewrite length_replicate; lia).
  assert (Hnone : (do! b := CString.store (replicate (Z.to_nat size) NUL) 0 NUL; Some (until_nul b)) = Some []).
  { unfold CString.store. rewrite Hz, (proj2 (Z.ltb_lt 0 size)) by lia. cbn [andb Z.leb].
    by destruct (Z.to_nat size) as [|n] eqn:E; [lia |]. }
  destruct v as [[z | src]|]; [exact Hnone | | exact Hnone]. clear Hnone.
  cbn [field_text]. set (n := if size <=? zlen src then size - 1 else zlen src).
  assert (Hn : n = Z.min (size - 1) (zlen src)) by (unfold n; destruct (size <=? zlen src) eqn:E; zbool; lia).
  pose proof (zlen_nonneg src).
  destruct (copy_text (replicate (Z.to_nat size) NUL) src n) as (b & b' & -> & -> & _ & t & ->); [lia.. |].
  rewrite until_nul_app. f_equal. f_equal. unfold zlen in *.
  destruct (decide (size <= Z.of_nat (length src))); [f_equal; lia |]. rewrite !take_ge by lia. done.
Qed.

Definition record_of (e : Z * row) : CHAT_MSG_RECORD :=
  mk_chat_record (i32 (Msg_SN e.2)) e.1 (field_text MSG_DB_SENDER_MAX (Some (VText (Msg_Sender e.2))))
    (field_text MSG_DB_MESSAGE_MAX (Some (VText (Chat_Message e.2)))).

Lemma read_record_columns e : read_record (columns e) = Some (record_of e).
Proof. unfold read_record. cbn [columns lookup list_lookup]. by rewrite !field_ok. Qed.

Section Reading.
Context {S : Type} `{sq : !sqlite S}.

(** A query is read from its first row on, as far as it goes without an error and
    the caller has room. *)
Lemma read_loop_ok {A} (read : list value -> option A) (g : list value -> A) (s : S) sql ps n :
  sql <> SQL_INSERT -> (forall cols, cols ∈ answer sql ps (db_table s) -> read cols = Some (g cols)) ->
  forall k rc out, exists j rc',
    read_loop read s sql ps n k rc out = Some (out ++ (g <$> take j (drop k (answer sql ps (db_table s)))), rc', s) /\
    length (take j (drop k (answer sql ps (db_table s)))) = j /\ (j <= n)%nat /\
    (j = n \/ (j < n)%nat /\ (rc' = SQLITE_DONE -> (length (answer sql ps (db_table s)) <= k + j)%nat)).
Proof.
  intros Hsql Hread. set (l := answer sql ps (db_table s)) in *.
  induction n as [|n IH]; intros k rc out; cbn [read_loop].
  { exists 0%nat, rc. cbn. rewrite app_nil_r. split_and!; [done | done | lia | by left]. }
  pose proof (select_law s sql ps k Hsql) as Hlaw. destruct (sqlite3_step s sql ps k) as [[rc1 cols] s1].
  destruct Hlaw as (-> & Hrow & Hdone). fold l in Hrow, Hdone.
  destruct (rc1 =? SQLITE_ROW) eqn:E; cbn [negb]; zbool.
  - specialize (Hrow E). rewrite (Hread cols) by (by eapply list_elem_of_lookup_2).
    destruct (IH (Datatypes.S k) rc1 (out ++ [g cols])) as (j & rc' & -> & H1 & H2 & H3).
    exists (Datatypes.S j), rc'. rewrite (drop_S _ _ _ Hrow). cbn [take fmap list_fmap length].
    rewrite <- app_assoc. split_and!; [done | by rewrite H1 | lia |].
    destruct H3 as [-> | [H3 H4]]; [by left | right]. split; [lia |]. intros Hr. specialize (H4 Hr). lia.
  - exists 0%nat, rc1. cbn. rewrite app_nil_r. split_and!; [done | done | lia |].
    right. split; [lia |]. intros Hr. specialize (Hdone Hr). apply lookup_ge_None in Hdone. lia.
Qed.

End Reading.

(** ** Ranges of serials *)

(** The serials from [from] to [to], around the wrap when [to] comes first. *)
Definition in_cycle (from to sn : Z) : bool :=
  if from <=? to then (from <=? sn) && (sn <=? to) else (from <=? sn) || (sn <=? to).

(** Forwards along the cycle, these are the serials no further from [from] than [to]. *)
Lemma in_cycle_distance from to sn : tg_sn_valid from = true -> tg_sn_valid to = true -> tg_sn_valid sn = true ->
  in_cycle from to sn = (tg_sn_distance from sn <=? tg_sn_distance from to).
Proof.
  unfold tg_sn_valid, TG_SN_MIN, TG_SN_MAX. intros Hf Ht Hs. zbool.
  rewrite <- (Z.sub_add 1 from), <- (Z.sub_add 1 to), <- (Z.sub_add 1 sn).
  assert (Hser : forall x, 1 <= x <= 999 -> x - 1 + 1 = ser (x - 1)).
  { intros x Hx. unfold ser, TG_SN_RANGE, TG_SN_MAX, TG_SN_MIN. rewrite Z.mod_small; lia. }
  rewrite (Hser from), (Hser to), (Hser sn), !tg_sn_distance_ser, <- (Hser from), <- (Hser to), <- (Hser sn) by lia.
  unfold in_cycle, TG_SN_RANGE, TG_SN_MAX, TG_SN_MIN. change (999 - 1 + 1) with 999.
  apply Bool.eq_iff_eq_true. destruct (_ <=? _) eqn:E; rewrite ?andb_true_iff, ?orb_true_iff, ?Z.leb_le; zbool;
    Z.div_mod_to_equations; lia.
Qed.

(** The rows asked for, oldest first. *)
Definition in_range (f : Z) (dir : bytes) (from to : Z) (t : gmap Z row) : list (Z * row) :=
  filter (fun e => of_contact f dir e.2 && in_cycle from to (Msg_SN e.2) = true) (by_time t).

Definition range_sql (from to : Z) : bytes := if from <=? to then SQL_RANGE_IN else SQL_RANGE_WRAP.

Lemma range_answer f dir from to n t : 0 <= n ->
  answer (range_sql from to) [VInt f; VText dir; VInt from; VInt to; VInt n] t =
  take (Z.to_nat n) (columns <$> in_range f dir from to t).
Proof.
  intros Hn. assert (Hlim : forall A (l : list A), sql_limit n l = take (Z.to_nat n) l).
  { intros A l. unfold sql_limit. by rewrite (proj2 (Z.ltb_ge n 0) Hn). }
  unfold answer, range_sql, in_range, in_cycle. destruct (from <=? to).
  - rewrite bool_decide_eq_true_2 by done. by rewrite Hlim.
  - rewrite bool_decide_eq_false_2, bool_decide_eq_true_2 by done. by rewrite Hlim.
Qed.

(** * The module's contract *)

Section Contract.
Context {S : Type} `{sq : !sqlite S}.
Implicit Types (d : msg_db S).

(** Every handle is set, or none is. *)
Definition wf_db d : Prop :=
  if g_ready d then g_db d = true /\ g_stmt_insert d = true /\ g_stmt_top d = true /\ g_stmt_last d = true
  else g_db d = false /\ g_stmt_insert d = false /\ g_stmt_top d = false /\ g_stmt_last d = false.

(** The serials of the rows are within the bounds the module keeps. *)
Definition serials_ok d : Prop := forall t r, db_table (conn d) !! t = Some r -> MSG_DB_SN_MIN <= Msg_SN r <= MSG_DB_SN_MAX.

Lemma close_ok d : wf_db (msg_database_close d) /\ db_table (conn (msg_database_close d)) = db_table (conn d).
Proof. split; [by split_and! |]. cbn. destruct (g_db d); [apply close_law | done]. Qed.

Lemma open_ok d : wf_db d ->
  let '(rc, d') := msg_database_open d in
  wf_db d' /\ db_table (conn d') = db_table (conn d) /\ g_ready d' = (rc =? MSG_DB_OK).
Proof.
  intros Hw. unfold msg_database_open. destruct (g_ready d) eqn:Er; [by split_and! |].
  unfold wf_db in Hw. rewrite Er in Hw. destruct Hw as (Hd & Hi & Ht & Hl).
  pose proof (open_law (conn d)) as Ho. destruct (sqlite3_open_v2 (conn d)) as [[rc handle] s].
  destruct Ho as [Htab Hhandle].
  assert (Hclose : forall d' code, db_table (conn d') = db_table (conn d) -> code <> MSG_DB_OK ->
    wf_db (msg_database_close d') /\ db_table (conn (msg_database_close d')) = db_table (conn d) /\
    g_ready (msg_database_close d') = (code =? MSG_DB_OK)).
  { intros d' c Ht' Hc. destruct (close_ok d') as [H1 H2]. split_and!; [exact H1 | congruence |].
    by rewrite (proj2 (Z.eqb_neq c MSG_DB_OK) Hc). }
  destruct (rc =? SQLITE_OK) eqn:E1; cbn [negb]; [| by apply Hclose]. zbool.
  pose proof (exec_law s PRAGMA_WAL (or_introl eq_refl)) as H1. cbn [set_conn conn].
  pose proof (exec_law (sqlite3_exec s PRAGMA_WAL).2 SQL_SCHEMA (or_intror eq_refl)) as H2.
  destruct (sqlite3_exec (sqlite3_exec s PRAGMA_WAL).2 SQL_SCHEMA) as [rc2 s2]. cbn [snd] in H2.
  assert (H3 : db_table s2 = db_table (conn d)) by congruence.
  destruct (rc2 =? SQLITE_OK) eqn:E2; cbn [negb]; [| by apply Hclose].
  set (ins := _ =? SQLITE_OK). set (top := ins && _). set (last := top && _).
  destruct last eqn:El; cbn [negb]; [| by apply Hclose].
  assert (Hall : ins = true /\ top = true).
  { unfold last in El. apply andb_true_iff in El as [El _]. split; [| done]. unfold top in El. by zbool. }
  destruct Hall as [-> ->]. cbn. rewrite (Hhandle E1). by split_and!.
Qed.

Lemma clamp_sn_ok sn : MSG_DB_SN_MIN <= clamp_sn sn <= MSG_DB_SN_MAX.
Proof.
  unfold clamp_sn, MSG_DB_SN_MIN, MSG_DB_SN_MAX.
  destruct (_ <? _) eqn:E1; [lia |]. destruct (999 <? sn) eqn:E2; zbool; lia.
Qed.

Definition stored_row (f sn : Z) (sender dir m : option bytes) : row :=
  mk_row (default [] sender) (clamp_sn sn) f (default [] dir) (default [] m).

Lemma add_ok d f sn t sender dir m : wf_db d ->
  let '(rc, d') := msg_database_add d f sn t sender dir m in
  wf_db d' /\
  (if g_ready d then if (f <? 0) || bool_decide (dir = None) then rc = MSG_DB_ERR_RANGE
                     else rc = MSG_DB_OK \/ rc = MSG_DB_ERR_BIND \/ rc = MSG_DB_ERR_STEP
   else rc = MSG_DB_ERR_NOT_READY) /\
  db_table (conn d') = if rc =? MSG_DB_OK then <[t := stored_row f sn sender dir m]> (db_table (conn d))
                    else db_table (conn d).
Proof.
  intros Hw. unfold msg_database_add. unfold wf_db in Hw. destruct (g_ready d) eqn:Er; cbn [negb orb].
  2: { unfold wf_db. rewrite Er. by destruct Hw as (? & ? & ? & ?); split_and!. }
  destruct Hw as (Hd & Hi & Ht & Hl). rewrite Hi. cbn [negb].
  assert (Hwf : forall s, wf_db (set_conn d s)) by (intros s; unfold wf_db; cbn; rewrite Er; by split_and!).
  assert (Hwd : wf_db d) by (unfold wf_db; rewrite Er; by split_and!).
  destruct dir as [dir|]; [| rewrite bool_decide_eq_true_2, orb_true_r by done; by split_and!].
  rewrite bool_decide_eq_false_2, orb_false_r by done.
  destruct (f <? 0); [by split_and! |].
  set (ps := [VInt t; _; _; _; _; _]). destruct (bind_all _ _ _ ps =? SQLITE_OK); cbn [negb].
  2: { split_and!; [exact Hwd | by right; left | done]. }
  pose proof (insert_law (conn d) t (default [] sender) (clamp_sn sn) f dir (default [] m)) as Hins. fold ps in Hins.
  destruct (sqlite3_step _ _ _ _) as [[rc cols] s]. split; [apply Hwf |].
  cbn [conn set_conn]. rewrite Hins. destruct (rc =? SQLITE_DONE); cbn [negb].
  - split; [by left | done].
  - split; [by right; right | done].
Qed.

Lemma add_serials d f sn t sender dir m : wf_db d -> serials_ok d ->
  serials_ok (msg_database_add d f sn t sender dir m).2.
Proof.
  intros Hw Hs. pose proof (add_ok d f sn t sender dir m Hw) as H.
  destruct (msg_database_add _ _ _ _ _ _ _) as [rc d']. destruct H as (_ & _ & Ht). cbn.
  intros k r Hk. rewrite Ht in Hk. destruct (rc =? MSG_DB_OK); [| by apply (Hs k)].
  apply lookup_insert_Some in Hk as [[_ <-] | [_ Hk]]; [apply clamp_sn_ok | by apply (Hs k)].
Qed.

(** What reading a range from the first row on brings. *)
Lemma read_range (s : S) f dir from to n : 0 < n ->
  let found := record_of <$> take (Z.to_nat n) (in_range f dir from to (db_table s)) in
  exists out rc,
    read_loop read_record s (range_sql from to) [VInt f; VText dir; VInt from; VInt to; VInt n]
      (Z.to_nat n) 0 SQLITE_DONE [] = Some (out, rc, s) /\
    out `prefix_of` found /\ (n <= zlen out \/ rc = SQLITE_DONE -> out = found).
Proof.
  intros Hn found. set (ps := [VInt f; _; _; _; _]). set (rows := in_range f dir from to (db_table s)) in *.
  pose proof (range_answer f dir from to n (db_table s) ltac:(lia)) as Hans. fold ps rows in Hans.
  set (g := fun cols => default (mk_chat_record 0 0 [] []) (read_record cols)).
  destruct (read_loop_ok read_record g s (range_sql from to) ps (Z.to_nat n))
    with (k := 0%nat) (rc := SQLITE_DONE) (out := @nil CHAT_MSG_RECORD) as (j & rc & -> & Hj1 & Hj2 & Hj3).
  { unfold range_sql. by destruct (from <=? to). }
  { intros cols Hin. rewrite Hans, <- fmap_take in Hin. apply list_elem_of_fmap in Hin as (e & -> & _).
    unfold g. by rewrite read_record_columns. }
  rewrite drop_0, Hans in *. cbn [app].
  assert (Hout : g <$> take j (take (Z.to_nat n) (columns <$> rows)) = take j found).
  { unfold found. rewrite <- !fmap_take, <- list_fmap_compose. apply list_fmap_ext. intros i e _.
    unfold compose, g. by rewrite read_record_columns. }
  assert (Hfound : length found = length (take (Z.to_nat n) (columns <$> rows)))
    by (unfold found; rewrite <- fmap_take, !length_fmap; done).
  rewrite Hout. exists (take j found), rc. split; [done |]. split; [apply prefix_take |]. intros Hend.
  apply take_ge. change (length found <= j)%nat. rewrite Hfound. unfold zlen in Hend.
  rewrite length_take, Hfound in Hend. rewrite length_take in Hj1.
  destruct Hj3 as [-> | [Hj3 Hj4]]; [rewrite length_take; lia |].
  destruct Hend as [Hend | Hend]; [lia |]. specialize (Hj4 Hend). lia.
Qed.

Lemma range_ok d f dir from to n : wf_db d ->
  exists rc out, msg_database_range d f dir from to n = Some (rc, out, d) /\
    if negb (g_ready d) then rc = MSG_DB_ERR_NOT_READY /\ out = []
    else if (n <=? 0) || (f <? 0) || (negb (serial_stored from) || negb (serial_stored to)) || bool_decide (dir = None)
    then rc = MSG_DB_ERR_RANGE /\ out = []
    else let found := record_of <$> take (Z.to_nat n) (in_range f (default [] dir) from to (db_table (conn d))) in
      (rc = MSG_DB_ERR_PREPARE \/ rc = MSG_DB_ERR_BIND) /\ out = [] \/
      rc = MSG_DB_ERR_STEP /\ out `prefix_of` found \/
      rc = zlen out /\ out = found.
Proof.
  intros Hw. unfold msg_database_range. unfold wf_db in Hw. destruct (g_ready d) eqn:Er; cbn [negb orb].
  2: { by eexists _, _. }
  destruct Hw as (Hd & _). rewrite Hd. cbn [negb].
  destruct dir as [dir|]; [| rewrite bool_decide_eq_true_2, orb_true_r by done; by eexists _, _].
  rewrite bool_decide_eq_false_2, orb_false_r by done.
  destruct ((n <=? 0) || (f <? 0)) eqn:Eargs; cbn [orb]; [by eexists _, _ |].
  destruct (negb (serial_stored from) || negb (serial_stored to)) eqn:Esn; [by eexists _, _ |].
  fold (range_sql from to). zbool.
  destruct (_ =? SQLITE_OK); cbn [negb]; [| eexists _, _; split; [done |]; left; auto].
  destruct (bind_all _ _ _ _ =? SQLITE_OK); cbn [negb]; [| eexists _, _; split; [done |]; left; auto].
  destruct (read_range (conn d) f dir from to n ltac:(lia)) as (out & rc & -> & Hpre & Hall).
  eexists _, _. split; [by destruct d |]. right.
  destruct ((zlen out <? n) && negb (rc =? SQLITE_DONE)) eqn:E; [by left |]. right. split; [done |].
  apply Hall. zbool. destruct E as [E | E]; zbool; auto.
Qed.

(** The greatest serial stored for a contact and direction. *)
Definition stored_sn (f : Z) (dir : bytes) (t : gmap Z row) : Z :=
  max_sn (filter (fun e => of_contact f dir e.2 = true) (by_time t)).

Lemma max_sn_spec e0 l : (exists e, e ∈ e0 :: l /\ max_sn (e0 :: l) = Msg_SN e.2) /\
  forall e, e ∈ e0 :: l -> Msg_SN e.2 <= max_sn (e0 :: l).
Proof.
  cbn [max_sn]. induction l as [|e l [(em & Hem & Hm) IH]]; cbn [foldr].
  - split; [exists e0; split; [by left | done] |]. intros e [-> | H]%elem_of_cons; [done | by apply not_elem_of_nil in H].
  - set (m := foldr _ _ l) in *. split.
    + destruct (Z.max_spec (Msg_SN e.2) m) as [[_ ->] | [_ ->]]; [exists em | exists e]; (split; [| done]);
        rewrite !elem_of_cons in *; intuition.
    + intros e' He'. rewrite !elem_of_cons in He'.
      assert (He : e' = e \/ e' ∈ e0 :: l) by (rewrite elem_of_cons; intuition).
      destruct He as [-> | He]; [lia |]. pose proof (IH e' He). lia.
Qed.

Lemma stored_sn_bounds d f dir : serials_ok d -> 0 <= stored_sn f dir (db_table (conn d)) <= MSG_DB_SN_MAX.
Proof.
  intros Hs. unfold stored_sn.
  assert (Hin : forall e, e ∈ filter (fun e => of_contact f dir e.2 = true) (by_time (db_table (conn d))) ->
    0 <= Msg_SN e.2 <= MSG_DB_SN_MAX).
  { intros [t r] [_ He%by_time_elem]%list_elem_of_filter. by apply (Hs t). }
  destruct (filter _ _) as [|e0 l]; [done |].
  destruct (max_sn_spec e0 l) as [(e & He & ->) _]. by apply Hin.
Qed.

(** The serial read back is the greatest one stored, 0 when there is none. *)
Lemma last_sn_ok d f dir : wf_db d -> serials_ok d ->
  exists rc sn, msg_database_last_sn d f dir = (rc, sn, d) /\
    if negb (g_ready d) then rc = MSG_DB_ERR_NOT_READY /\ sn = None
    else if (f <? 0) || bool_decide (dir = None) then rc = MSG_DB_ERR_RANGE /\ sn = None
    else rc = MSG_DB_ERR_BIND /\ sn = Some 0 \/ rc = MSG_DB_ERR_STEP /\ sn = Some 0 \/
      rc = MSG_DB_OK /\ sn = Some (stored_sn f (default [] dir) (db_table (conn d))).
Proof.
  intros Hw Hser. unfold msg_database_last_sn. unfold wf_db in Hw. destruct (g_ready d) eqn:Er; cbn [negb orb].
  2: { by eexists _, _. }
  destruct Hw as (_ & _ & _ & ->). cbn [negb].
  destruct dir as [dir|]; [| rewrite bool_decide_eq_true_2, orb_true_r by done; by eexists _, _].
  rewrite bool_decide_eq_false_2, orb_false_r by done. destruct (f <? 0); [by eexists _, _ |].
  destruct (bind_all _ _ _ _ =? SQLITE_OK); cbn [negb]; [| eexists _, _; split; [done |]; by left].
  pose proof (select_law (conn d) SQL_LAST_SN [VInt f; VText dir] 0 ltac:(done)) as Hlaw.
  destruct (sqlite3_step _ _ _ _) as [[rc cols] s]. destruct Hlaw as (-> & Hrow & Hdone).
  eexists _, _. split; [by destruct d |]. destruct (rc =? SQLITE_ROW) eqn:E; cbn [negb andb]; zbool.
  - right; right. split; [done |]. specialize (Hrow E). cbn [answer] in Hrow.
    rewrite bool_decide_eq_true_2 in Hrow by done. injection Hrow as <-. cbn [lookup list_lookup int_column]. unfold default, id.
    f_equal. fold (stored_sn f dir (db_table (conn d))). apply i32_id.
    pose proof (stored_sn_bounds d f dir Hser) as Hb. unfold MSG_DB_SN_MAX in Hb. lia.
  - destruct (rc =? SQLITE_DONE) eqn:E2; cbn [negb]; zbool; [| right; by left].
    specialize (Hdone E2). cbn [answer] in Hdone. rewrite bool_decide_eq_true_2 in Hdone by done. done.
Qed.

Lemma top_defined d n : is_Some (msg_database_top d n).
Proof.
  unfold msg_database_top. destruct (_ || _); [by eexists |]. destruct (_ <=? 0); [by eexists |].
  destruct (negb _); [by eexists |].
  assert (H : forall k (s : S) j rc out, is_Some (read_loop read_top s SQL_TOP [VInt n] k j rc out)).
  { induction k as [|k IH]; intros s j rc out; cbn [read_loop]; [by eexists |].
    destruct (sqlite3_step s SQL_TOP [VInt n] j) as [[rc' cols] s']. destruct (negb _); [by eexists |].
    unfold read_top. rewrite !field_ok by done. apply IH. }
  destruct (H (Z.to_nat n) (conn d) 0%nat SQLITE_DONE []) as [[[out rc] s] ->]. by eexists.
Qed.

Lemma top_ok d n : wf_db d ->
  exists rc out, msg_database_top d n = Some (rc, out, d) /\
    if negb (g_ready d) then rc = MSG_DB_ERR_NOT_READY /\ out = []
    else if n <=? 0 then rc = MSG_DB_ERR_RANGE /\ out = []
    else rc = MSG_DB_ERR_BIND /\ out = [] \/ rc = MSG_DB_ERR_STEP \/ rc = zlen out.
Proof.
  intros Hw. unfold msg_database_top. unfold wf_db in Hw. destruct (g_ready d) eqn:Er; cbn [negb orb].
  2: { by eexists _, _. }
  destruct Hw as (_ & _ & -> & _). cbn [negb]. destruct (n <=? 0) eqn:En; [by eexists _, _ |]. zbool.
  destruct (_ =? SQLITE_OK); cbn [negb]; [| eexists _, _; split; [done |]; by left].
  destruct (read_loop_ok read_top (fun cols => mk_chat (field_text MSG_DB_SENDER_MAX (cols !! 0%nat))
    (field_text MSG_DB_MESSAGE_MAX (cols !! 1%nat))) (conn d) SQL_TOP [VInt n] (Z.to_nat n))
    with (k := 0%nat) (rc := SQLITE_DONE) (out := @nil CHAT_MSG) as (j & rc & -> & _).
  { done. }
  { intros cols _. unfold read_top. by rewrite !field_ok. }
  eexists _, _. split; [by destruct d |]. right. destruct (_ && _); auto.
Qed.

(** ** Any sequence of calls *)

Inductive db_cmd : Type :=
| DOpen | DClose
| DAdd (f sn t : Z) (sender dir m : option bytes)
| DTop (n : Z) | DLast (f : Z) (dir : option bytes) | DRange (f : Z) (dir : option bytes) (from to n : Z).

(** One call: the state, and the record appended when it is. *)
Definition db_call (c : db_cmd) d : option (msg_db S * list (Z * row)) :=
  match c with
  | DOpen => Some ((msg_database_open d).2, [])
  | DClose => Some (msg_database_close d, [])
  | DAdd f sn t sender dir m =>
    let '(rc, d) := msg_database_add d f sn t sender dir m in
    Some (d, if rc =? MSG_DB_OK then [(t, stored_row f sn sender dir m)] else [])
  | DTop n => do! (_, d) := msg_database_top d n; Some (d, [])
  | DLast f dir => Some ((msg_database_last_sn d f dir).2, [])
  | DRange f dir from to n => do! (_, d) := msg_database_range d f dir from to n; Some (d, [])
  end.

Fixpoint db_calls (cs : list db_cmd) d : option (msg_db S * list (Z * row)) :=
  match cs with
  | [] => Some (d, [])
  | c :: cs => do! (d, l) := db_call c d; do! (d, l') := db_calls cs d; Some (d, l ++ l')
  end.

(** A table after a list of records: a later one replaces an earlier one of the
    same second. *)
Definition insert_all (t : gmap Z row) (l : list (Z * row)) : gmap Z row :=
  fold_left (fun t e => <[e.1 := e.2]> t) l t.

Lemma db_call_ok c d : wf_db d -> serials_ok d ->
  exists d' l, db_call c d = Some (d', l) /\ wf_db d' /\ serials_ok d' /\
    db_table (conn d') = insert_all (db_table (conn d)) l.
Proof.
  intros Hw Hs. destruct c as [| | f sn t sender dir m | n | f dir | f dir from to n]; cbn [db_call].
  - pose proof (open_ok d Hw) as H. destruct (msg_database_open d) as [rc d']. destruct H as (H1 & H2 & _).
    exists d', []. split_and!; try done. intros k r Hk. apply (Hs k). cbn in *. congruence.
  - destruct (close_ok d) as [H1 H2]. eexists _, []. split_and!; try done.
    intros k r Hk. apply (Hs k). congruence.
  - pose proof (add_ok d f sn t sender dir m Hw) as H. pose proof (add_serials d f sn t sender dir m Hw Hs) as Hs'.
    destruct (msg_database_add _ _ _ _ _ _ _) as [rc d']. destruct H as (H1 & _ & H2).
    eexists d', _. split_and!; try done. rewrite H2. by destruct (rc =? MSG_DB_OK).
  - destruct (top_ok d n Hw) as (rc & out & -> & _). by exists d, [].
  - destruct (last_sn_ok d f dir Hw Hs) as (rc & out & -> & _). by exists d, [].
  - destruct (range_ok d f dir from to n Hw) as (rc & out & -> & _). by exists d, [].
Qed.

Lemma db_calls_ok cs : forall d, wf_db d -> serials_ok d ->
  exists d' l, db_calls cs d = Some (d', l) /\ wf_db d' /\ serials_ok d' /\
    db_table (conn d') = insert_all (db_table (conn d)) l.
Proof.
  induction cs as [|c cs IH]; intros d Hw Hs; cbn [db_calls]; [by exists d, [] |].
  destruct (db_call_ok c d Hw Hs) as (d1 & l1 & -> & Hw1 & Hs1 & H1).
  destruct (IH d1 Hw1 Hs1) as (d2 & l2 & -> & Hw2 & Hs2 & H2).
  exists d2, (l1 ++ l2). split_and!; [done.. |]. rewrite H2, H1. unfold insert_all. by rewrite fold_left_app.
Qed.

End Contract.

(** ** What the relayer uses of the module

    Appending a record, reading a range of serials and the highest one ([None] is a
    negative result), and the last records with the code of the call. [db_added]
    lists the records accepted so far, oldest first. *)
Definition db_record : Type := (Z * Z * Z * bytes * bytes * bytes)%type.

Class database (D : Type) := {
  db_add : D -> Z -> Z -> Z -> bytes -> bytes -> bytes -> Z * D;
  db_range : D -> Z -> bytes -> Z -> Z -> Z -> option (list (Z * Z * bytes));
  db_last_sn : D -> Z -> bytes -> option Z;
  db_top : D -> Z -> Z * list CHAT_MSG;
  db_added : D -> list db_record;
  db_add_law d f sn t s dir m : 0 <= f ->
    let '(rc, d') := db_add d f sn t s dir m in
    db_added d' = if rc =? 0 then db_added d ++ [(f, sn, t, s, dir, m)] else db_added d }.

(** The module with the history of what it accepted. Reading the last records is
    defined whatever the database holds (by [top_defined]). *)
#[export] Program Instance msg_database {S} `{!sqlite S} : database (msg_db S * list db_record) := {|
  db_add d f sn t s dir m :=
    let '(rc, d1) := msg_database_add d.1 f sn t (Some s) (Some dir) (Some m) in
    (rc, (d1, if rc =? MSG_DB_OK then d.2 ++ [(f, sn, t, s, dir, m)] else d.2));
  db_range d f dir from to n :=
    do! (rc, out, _) := msg_database_range d.1 f (Some dir) from to n;
    if rc <? 0 then None else Some ((fun r => (msg_sn r, datetime r, message r)) <$> out);
  db_last_sn d f dir :=
    let '(rc, sn, _) := msg_database_last_sn d.1 f (Some dir) in
    if rc =? MSG_DB_OK then sn else None;
  db_top d n :=
    match msg_database_top d.1 n with Some (rc, out, _) => (rc, out) | None => (MSG_DB_ERR_NOT_READY, []) end;
  db_added d := d.2 |}.
Next Obligation. intros S sq [d l] f sn t s dir m _. cbn. by destruct (msg_database_add _ _ _ _ _ _ _) as [rc d1]. Qed.

(** ** A connection that never fails, to run examples on *)

#[export] Program Instance mem_sqlite : sqlite (gmap Z row) := {|
  sqlite3_open_v2 s := (SQLITE_OK, true, s);
  sqlite3_close s := s;
  sqlite3_exec s _ := (SQLITE_OK, s);
  sqlite3_prepare_v2 _ _ := SQLITE_OK;
  sqlite3_bind _ _ _ _ := SQLITE_OK;
  sqlite3_step s sql ps k :=
    if bool_decide (sql = SQL_INSERT) then
      match ps with
      | [VInt t; VText sender; VInt sn; VInt f; VText dir; VText m] =>
        (SQLITE_DONE, [], <[t := mk_row sender sn f dir m]> s)
      | _ => (1, [], s)
      end
    else match answer sql ps s !! k with Some cols => (SQLITE_ROW, cols, s) | None => (SQLITE_DONE, [], s) end;
  db_table s := s |}.
Solve All Obligations with try done.
Next Obligation.
  intros s sql ps k Hsql. cbn. case_bool_decide; [done |]. by destruct (_ !! k).
Qed.

Definition closed_db : msg_db (gmap Z row) := mk_db ∅ false false false false false.
Definition opened_db : msg_db (gmap Z row) := (msg_database_open closed_db).2.

Lemma opened_wf : wf_db opened_db.
Proof. by split_and!. Qed.

Lemma opened_serials : serials_ok opened_db.
Proof. intros t r H. by destruct (lookup_empty_Some (M := gmap Z) t r H). Qed.

(** * Properties *)

(** Claim C24. No sequence of calls is undefined behaviour or leaves the module
    half open, whatever SQLite reports: either every handle is set or none is.
    The table is what the accepted records make of it, one after the other; a
    failed call, a query, opening and closing leave it unchanged; every serial in
    it stays between 0 and 999. *)
Theorem msg_database_refines {S} `{!sqlite S} cs (d : msg_db S) : wf_db d -> serials_ok d ->
  exists d' l, db_calls cs d = Some (d', l) /\ wf_db d' /\ serials_ok d' /\
    db_table (conn d') = insert_all (db_table (conn d)) l.
Proof. apply db_calls_ok. Qed.

Lemma msg_database_refines_witness : exists d' l,
  db_calls [DOpen; DAdd 4 1200 77 None (Some ($"incoming")) None; DTop 3; DClose] closed_db = Some (d', l) /\
  db_table (conn d') = insert_all ∅ l.
Proof.
  destruct (msg_database_refines [DOpen; DAdd 4 1200 77 None (Some ($"incoming")) None; DTop 3; DClose] closed_db)
    as (d' & l & H1 & _ & _ & H2).
  - by split_and!.
  - exact opened_serials.
  - by exists d', l.
Defined.

(** [msg_database_add] on every branch: it refuses when the module is
    not open, or a negative contact or no direction; otherwise it appends the row
    with its serial clamped into 0..999, or reports the failure and appends
    nothing. *)
Theorem msg_database_add_result {S} `{!sqlite S} (d : msg_db S) f sn t sender dir m : wf_db d ->
  let '(rc, d') := msg_database_add d f sn t sender dir m in
  wf_db d' /\
  (if g_ready d then if (f <? 0) || bool_decide (dir = None) then rc = MSG_DB_ERR_RANGE
                     else rc = MSG_DB_OK \/ rc = MSG_DB_ERR_BIND \/ rc = MSG_DB_ERR_STEP
   else rc = MSG_DB_ERR_NOT_READY) /\
  db_table (conn d') = if rc =? MSG_DB_OK then <[t := stored_row f sn sender dir m]> (db_table (conn d))
                    else db_table (conn d).
Proof. apply add_ok. Qed.

Lemma msg_database_add_result_witness :
  db_table (conn (msg_database_add opened_db 4 1200 77 None (Some ($"incoming")) None).2) =
    {[ 77 := mk_row [] 999 4 ($"incoming") [] ]}.
Proof.
  pose proof (msg_database_add_result opened_db 4 1200 77 None (Some ($"incoming")) None opened_wf) as H.
  destruct (msg_database_add opened_db 4 1200 77 None (Some ($"incoming")) None) as [rc d'] eqn:E.
  destruct H as (_ & _ & H). cbn [snd]. rewrite H. vm_compute in E. injection E as <- _. reflexivity.
Defined.

(** Claim C25. A replay request is answered with exactly the rows of the contact
    and direction whose serials lie between the two bounds along the cycle of
    serials, around the wrap if need be, oldest first, at most [n] of them, their
    texts cut to the size of their fields; or with an error code. A step that
    fails leaves an initial part of them. The bounds are those the trackers count
    with. *)
Theorem msg_database_range_result {S} `{!sqlite S} (d : msg_db S) f dir from to n :
  wf_db d -> g_ready d = true -> 0 < n -> 0 <= f ->
  tg_sn_valid from = true -> tg_sn_valid to = true ->
  let found := record_of <$> take (Z.to_nat n) (in_range f dir from to (db_table (conn d))) in
  (exists rc out, msg_database_range d f (Some dir) from to n = Some (rc, out, d) /\
    ((rc = MSG_DB_ERR_PREPARE \/ rc = MSG_DB_ERR_BIND) /\ out = [] \/
     rc = MSG_DB_ERR_STEP /\ out `prefix_of` found \/
     rc = zlen out /\ out = found)) /\
  StronglySorted earlier (in_range f dir from to (db_table (conn d))) /\
  forall t r, (t, r) ∈ in_range f dir from to (db_table (conn d)) <->
    db_table (conn d) !! t = Some r /\ Friend_Num r = f /\ Send_Receive r = dir /\
    in_cycle from to (Msg_SN r) = true /\
    (tg_sn_valid (Msg_SN r) = true -> tg_sn_distance from (Msg_SN r) <= tg_sn_distance from to).
Proof.
  intros Hw Hr Hn Hf Hfrom Hto found. split; [| split].
  - destruct (range_ok d f (Some dir) from to n Hw) as (rc & out & H1 & H2). rewrite Hr in H2. cbn [negb] in H2.
    assert (Hs : forall x, tg_sn_valid x = true -> serial_stored x = true).
    { intros x Hx. unfold tg_sn_valid, serial_stored, TG_SN_MIN, TG_SN_MAX, MSG_DB_SN_MIN, MSG_DB_SN_MAX in *. zbool. lia. }
    rewrite (Hs from), (Hs to), (proj2 (Z.leb_gt n 0)), (proj2 (Z.ltb_ge f 0)) in H2 by done.
    by exists rc, out.
  - apply sorted_filter, by_time_sorted.
  - intros t r. unfold in_range. rewrite list_elem_of_filter, by_time_elem. cbn [snd].
    unfold of_contact. rewrite !andb_true_iff, Z.eqb_eq, bool_decide_eq_true.
    split; [| tauto]. intros [[[H1 H2] H3] H4]. split_and!; try done. intros Hv.
    rewrite in_cycle_distance in H3 by done. by apply Z.leb_le.
Qed.

(** Three telegrams to contact 2 around the wrap, and one to another contact. *)
Definition wrapped_db : msg_db (gmap Z row) :=
  match db_calls [DAdd 2 998 10 (Some ($"AA")) (Some ($"outgoing")) (Some ($"a"));
                  DAdd 2 999 20 (Some ($"AA")) (Some ($"outgoing")) (Some ($"b"));
                  DAdd 2 1 30 (Some ($"AA")) (Some ($"outgoing")) (Some ($"c"));
                  DAdd 3 1 40 (Some ($"AA")) (Some ($"outgoing")) (Some ($"d"))] opened_db with
  | Some (d, _) => d
  | None => opened_db
  end.

Lemma wrapped_wf : wf_db wrapped_db.
Proof. by split_and!. Qed.

Lemma msg_database_range_result_witness : exists rc out,
  msg_database_range wrapped_db 2 (Some ($"outgoing")) 999 1 5 = Some (rc, out, wrapped_db) /\
  ((rc = MSG_DB_ERR_PREPARE \/ rc = MSG_DB_ERR_BIND) /\ out = [] \/
   rc = MSG_DB_ERR_STEP /\ out `prefix_of` [mk_chat_record 999 20 ($"AA") ($"b"); mk_chat_record 1 30 ($"AA") ($"c")] \/
   rc = zlen out /\ out = [mk_chat_record 999 20 ($"AA") ($"b"); mk_chat_record 1 30 ($"AA") ($"c")]).
Proof.
  assert (Hf : record_of <$> take 5 (in_range 2 ($"outgoing") 999 1 (db_table (conn wrapped_db))) =
    [mk_chat_record 999 20 ($"AA") ($"b"); mk_chat_record 1 30 ($"AA") ($"c")]) by (vm_compute; reflexivity).
  rewrite <- Hf.
  apply (msg_database_range_result wrapped_db 2 ($"outgoing") 999 1 5).
  - exact wrapped_wf.
  - reflexivity.
  - lia.
  - lia.
  - reflexivity.
  - reflexivity.
Defined.

(** The time of a record in seconds is the table's primary key: a record
    appended in the same second as another, or received with a time its sender
    chose, replaces it without a trace, whatever contact, direction and serial it
    had, although both calls report that their row has been committed. *)
Theorem msg_database_same_second {S} `{!sqlite S} (d d1 d2 : msg_db S) t
    f1 sn1 s1 dir1 m1 f2 sn2 s2 dir2 m2 : wf_db d ->
  msg_database_add d f1 sn1 t s1 dir1 m1 = (MSG_DB_OK, d1) ->
  msg_database_add d1 f2 sn2 t s2 dir2 m2 = (MSG_DB_OK, d2) ->
  db_table (conn d2) = <[t := stored_row f2 sn2 s2 dir2 m2]> (db_table (conn d)).
Proof.
  intros Hw H1 H2. pose proof (add_ok d f1 sn1 t s1 dir1 m1 Hw) as A. rewrite H1 in A. destruct A as (Hw1 & _ & A).
  pose proof (add_ok d1 f2 sn2 t s2 dir2 m2 Hw1) as B. rewrite H2 in B. destruct B as (_ & _ & B).
  rewrite B, A. apply insert_insert_eq.
Qed.

Lemma msg_database_same_second_witness :
  let d1 := (msg_database_add opened_db 1 5 700 (Some ($"AA")) (Some ($"incoming")) (Some ($"lost"))).2 in
  let d2 := (msg_database_add d1 2 9 700 (Some ($"BB")) (Some ($"incoming")) (Some ($"kept"))).2 in
  db_table (conn d2) = <[700 := mk_row ($"BB") 9 2 ($"incoming") ($"kept")]> (db_table (conn opened_db)).
Proof.
  intros d1 d2.
  apply (msg_database_same_second opened_db d1 d2 700 1 5 (Some ($"AA")) (Some ($"incoming")) (Some ($"lost"))
    2 9 (Some ($"BB")) (Some ($"incoming")) (Some ($"kept"))).
  - exact opened_wf.
  - vm_compute. reflexivity.
  - vm_compute. reflexivity.
Defined.

(** After a restart the receive tracker is resumed from the greatest
    stored serial. Once serial 999 is in the history that is 999 for ever, so
    whatever was received since the wrap, the tracker expects serial 1 again. *)
Theorem last_sn_after_wrap {S} `{!sqlite S} (d : msg_db S) f dir rc sn : wf_db d -> serials_ok d ->
  msg_database_last_sn d f (Some dir) = (rc, Some sn, d) -> rc = MSG_DB_OK ->
  sn = stored_sn f dir (db_table (conn d)) /\
  ((exists t r, db_table (conn d) !! t = Some r /\ of_contact f dir r = true /\ Msg_SN r = TG_SN_MAX) ->
   sn_tracker_resume sn = mk_sn_tracker TG_SN_MIN true []).
Proof.
  intros Hw Hs H ->. destruct (last_sn_ok d f (Some dir) Hw Hs) as (rc & sn' & H1 & H2).
  rewrite H in H1. injection H1 as <- <-.
  assert (Hsn : sn = stored_sn f dir (db_table (conn d))).
  { destruct (negb (g_ready d)); [by destruct H2 | destruct (_ || _); [by destruct H2 |]].
    destruct H2 as [[H2 _] | [[H2 _] | [_ [= ->]]]]; done. }
  split; [done |]. intros (t & r & Hr & Hc & Hm).
  assert (Hmax : sn = TG_SN_MAX); [| by rewrite Hmax].
  pose proof (stored_sn_bounds d f dir Hs) as Hb. unfold MSG_DB_SN_MAX in Hb. unfold TG_SN_MAX in *. subst sn.
  unfold stored_sn in *. assert (Hin : (t, r) ∈ filter (fun e => of_contact f dir e.2 = true) (by_time (db_table (conn d)))).
  { apply list_elem_of_filter. by rewrite by_time_elem. }
  destruct (filter _ _) as [|e0 l]; [by apply not_elem_of_nil in Hin |].
  destruct (max_sn_spec e0 l) as [_ Hle]. specialize (Hle _ Hin). cbn [snd] in Hle. lia.
Qed.

Lemma last_sn_after_wrap_witness :
  sn_tracker_resume (default 0 (msg_database_last_sn wrapped_db 2 (Some ($"outgoing"))).1.2) =
  mk_sn_tracker TG_SN_MIN true [].
Proof.
  destruct (last_sn_after_wrap wrapped_db 2 ($"outgoing") MSG_DB_OK 999) as [_ H].
  - exact wrapped_wf.
  - intros t r H. unfold MSG_DB_SN_MIN, MSG_DB_SN_MAX.
    destruct (db_calls_ok [DAdd 2 998 10 (Some ($"AA")) (Some ($"outgoing")) (Some ($"a"));
                  DAdd 2 999 20 (Some ($"AA")) (Some ($"outgoing")) (Some ($"b"));
                  DAdd 2 1 30 (Some ($"AA")) (Some ($"outgoing")) (Some ($"c"));
                  DAdd 3 1 40 (Some ($"AA")) (Some ($"outgoing")) (Some ($"d"))] opened_db opened_wf opened_serials)
      as (d' & l & E & _ & Hs & _).
    unfold wrapped_db in H. rewrite E in H. exact (Hs t r H).
  - vm_compute. reflexivity.
  - reflexivity.
  - apply H. exists 20, (mk_row ($"AA") 999 2 ($"outgoing") ($"b")). vm_compute. auto.
Defined.
