(* ===== verification/Misc.v ===== *)
(** * Helpers ([src/misc.c], [src/misc.h])

    The parsing and string routines the command interpreter and the key lists
    rest on: exact integer parsing, quoting, hexadecimal, names, elapsed time,
    and the search of a key file that decides who is a master and who is
    blocked. Constants of [tox.h] the routines use are parameters. *)

From S2P Require Import Prelude.
From S2P Require Import CString.

(** ** Constants of the toxcore header *)
Class tox_params := {
  TOX_PUBLIC_KEY_SIZE : Z;
  TOX_ADDRESS_SIZE : Z;
  TOX_MAX_NAME_LENGTH : Z;
  TOX_MAX_MESSAGE_LENGTH : Z;
  public_key_pos : 0 < TOX_PUBLIC_KEY_SIZE;
  key_line_fits : 2 * TOX_ADDRESS_SIZE < 255;
  address_key : TOX_PUBLIC_KEY_SIZE < TOX_ADDRESS_SIZE;
  name_pos : 0 < TOX_MAX_NAME_LENGTH <= 256;
  message_size : 512 <= TOX_MAX_MESSAGE_LENGTH < 2 ^ 16 }.

(** The values of toxcore 0.2. *)
#[export] Program Instance tox_02 : tox_params := {|
  TOX_PUBLIC_KEY_SIZE := 32; TOX_ADDRESS_SIZE := 38; TOX_MAX_NAME_LENGTH := 128;
  TOX_MAX_MESSAGE_LENGTH := 1372 |}.
Solve All Obligations with lia.

Definition UNKNOWN_NAME : bytes := $"Anonymous       ".
Definition TOXIC_MAX_NAME_LENGTH : Z := 256.

(** ** Time *)

Definition timed_out (timestamp curtime timeout : Z) : bool :=
  if curtime <=? timestamp then false else timeout <=? u64 (curtime - timestamp).

Definition get_elapsed_time_str (bufsize secs : Z) : bytes :=
  let minutes := (secs mod 3600) / 60 in
  let hours := (secs / 3600) mod 24 in
  let days := (secs / 3600) / 24 in
  snprintf bufsize (fmt_d days ++ $"d " ++ fmt_d hours ++ $"h " ++ fmt_d minutes ++ $"m").

(** ** Hexadecimal *)

Definition hex_digit_value (c : byte) : Z :=
  if (48 <=? code c) && (code c <=? 57) then code c - 48
  else if (97 <=? code c) && (code c <=? 102) then code c - 97 + 10
  else if (65 <=? code c) && (code c <=? 70) then code c - 65 + 10
  else -1.

(** The loop of [hex_string_to_bin] over an even number of characters. *)
Fixpoint hex_loop (s : bytes) : option bytes :=
  match s with
  | a :: b :: s =>
    let hi := hex_digit_value a in
    let lo := hex_digit_value b in
    if (hi <? 0) || (lo <? 0) then None
    else do! val := hex_loop s; Some (chr (Z.lor (Z.shiftl hi 4) lo) :: val)
  | _ => Some []
  end.

(** The allocation is taken to succeed. *)
Definition hex_string_to_bin (hex_string : option bytes) : option bytes :=
  match hex_string with
  | None => None
  | Some s => if (zlen s =? 0) || negb (zlen s mod 2 =? 0) then None else hex_loop s
  end.

(** ** Strings *)

(** [copy_tox_str]: the array after the call and the length copied. *)
Definition copy_tox_str (msg : bytes) (size : Z) (src_data : bytes) (length : Z)
    : option (bytes * Z) :=
  let len := Z.min length (u64 (size - 1)) in
  do! msg := memcpy msg src_data len;
  do! msg := store msg len NUL;
  Some (msg, u16 len).

(** The search loop of [char_find]. *)
Fixpoint find_loop (s : bytes) (ch : byte) (i : Z) : Z :=
  match s with
  | [] => i
  | c :: s => if bool_decide (c = ch) then i else find_loop s ch (i + 1)
  end.

Definition char_find (idx : Z) (s : option bytes) (ch : byte) : Z :=
  match s with
  | None => 0
  | Some s =>
    if idx <? 0 then 0
    else if zlen s <=? idx then zlen s
    else find_loop (drop (Z.to_nat idx) s) ch idx
  end.

(** [None] in [out] is a rejected text: the caller's variable is left alone. *)
Definition parse_int_range (text : option bytes) (min max : Z) : option Z :=
  match text with
  | None | Some [] => None
  | Some ((c :: _) as s) =>
    if max <? min then None
    else if isspace c then None
    else
      match strtol s with
      | None => None
      | Some (value, erange, rest) =>
        if negb (bool_decide (rest = [])) || erange then None
        else if (value <? min) || (max <? value) then None
        else Some value
      end
  end.

Definition QUOTE : byte := "034"%char.

Definition last_is (c : byte) (s : bytes) : bool :=
  match last s with Some d => bool_decide (d = c) | None => false end.

(** [unquote_str] into an array of [out_size > 0] bytes: the string it holds. *)
Definition unquote_str (arg : option bytes) (out_size : Z) : bytes :=
  match arg with
  | None => []
  | Some arg =>
    let arg := match arg with
      | c :: t => if bool_decide (c = QUOTE) then t else arg
      | [] => arg
      end in
    let len := if last_is QUOTE arg then zlen arg - 1 else zlen arg in
    let len := if out_size - 1 <? len then out_size - 1 else len in
    take (Z.to_nat len) arg
  end.

Definition invalid_chars : bytes := ["/"%char; LF; TAB; "011"%char; CR].

Definition is_valid_char (ch : byte) : bool := negb (has_char ch invalid_chars).

Definition filter_str (str : bytes) (len : Z) : bytes :=
  ((fun c => if negb (is_valid_char c) || bool_decide (c = NUL) then SPC else c)
     <$> take (Z.to_nat len) str) ++ drop (Z.to_nat len) str.

Fixpoint nick_loop (nick : bytes) : bool :=
  match nick with
  | [] => true
  | ch :: nick =>
    if (bool_decide (ch = SPC) &&
        match nick with d :: _ => bool_decide (d = SPC) | [] => false end)
       || negb (is_valid_char ch) then false
    else nick_loop nick
  end.

Definition valid_nick (nick : bytes) : bool :=
  match nick with
  | [] => false
  | c :: _ => if bool_decide (c = SPC) then false else nick_loop nick
  end.

(** ** Key files *)

(** [fgets(id, size, fp)]: what it stores and what is left of the file. *)
Fixpoint fgets_take (n : nat) (s : bytes) : bytes * bytes :=
  match n, s with
  | O, _ => ([], s)
  | _, [] => ([], [])
  | S n, c :: s =>
    if bool_decide (c = LF) then ([c], s)
    else let '(l, r) := fgets_take n s in (c :: l, r)
  end.

Definition ID_SIZE : nat := 256.

Definition fgets (s : bytes) : option (bytes * bytes) :=
  match s with [] => None | _ => Some (fgets_take (ID_SIZE - 1) s) end.

(** [id] cut at [strcspn(id, "\r\n")]. *)
Fixpoint cut_line (s : bytes) : bytes :=
  match s with
  | [] => []
  | c :: s => if bool_decide (c = CR) || bool_decide (c = LF) || bool_decide (c = NUL)
              then [] else c :: cut_line s
  end.

Section Keys.
Context `{tox : tox_params}.

(** Does a line hold this key? The body of the loop of [file_contains_key]. *)
Definition key_line (public_key id : bytes) : bool :=
  let id := cut_line id in
  if zlen id <? TOX_PUBLIC_KEY_SIZE * 2 then false
  else
    match hex_string_to_bin (Some id) with
    | None => false
    | Some key_bin =>
      bool_decide (take (Z.to_nat TOX_PUBLIC_KEY_SIZE) key_bin =
                   take (Z.to_nat TOX_PUBLIC_KEY_SIZE) public_key)
    end.

Fixpoint key_loop (fuel : nat) (public_key s : bytes) : Z :=
  match fuel with
  | O => 0
  | S fuel =>
    match fgets s with
    | None => 0
    | Some (id, rest) => if key_line public_key id then 1 else key_loop fuel public_key rest
    end
  end.

(** Over the files by name; [can_create] and [can_read] are the results of the
    two calls of [fopen]. Every call of [fgets] consumes a byte, so the length of
    the file is fuel enough. *)
Definition file_contains_key (files : gmap bytes bytes) (can_create can_read : bool)
    (public_key path : option bytes) : Z * gmap bytes bytes :=
  match public_key, path with
  | Some public_key, Some path =>
    match files !! path with
    | None => if can_create then (0, <[path := []]> files) else (-1, files)
    | Some s =>
      if negb can_read then (-1, files) else (key_loop (S (length s)) public_key s, files)
    end
  | _, _ => (-1, files)
  end.
End Keys.

(** * Lemmas *)

Lemma hex_digit_upper z : 0 <= z < 16 -> hex_digit_value (hex_upper z) = z.
Proof.
  intros H. unfold hex_upper, hex_digit_value. destruct (z <? 10) eqn:E; zbool;
    rewrite code_chr by lia.
  - rewrite (proj2 (Z.leb_le _ _)), (proj2 (Z.leb_le _ _)) by lia. cbn [andb]. lia.
  - rewrite (proj2 (Z.leb_gt (55 + z) 57)) by lia. rewrite andb_false_r.
    rewrite (proj2 (Z.leb_gt 97 (55 + z))) by lia. cbn [andb].
    rewrite (proj2 (Z.leb_le 65 _)), (proj2 (Z.leb_le _ 70)) by lia. cbn [andb]. lia.
Qed.

Lemma nibbles z : 0 <= z < 256 -> Z.lor (Z.shiftl (z / 16) 4) (z mod 16) = z.
Proof.
  intros H. rewrite Z.lor_comm, Z.shiftl_mul_pow2 by lia. change (2 ^ 4) with 16.
  pose proof (Z.div_mod z 16 ltac:(lia)). rewrite <- Z.lxor_lor, <- Z.add_nocarry_lxor; [lia | |].
  all: apply Z.bits_inj'; intros k Hk; rewrite Z.land_spec, Z.bits_0.
  all: change 16 with (2 ^ 4); rewrite <- Z.shiftl_mul_pow2, <- Z.land_ones, Z.land_spec by lia.
  all: destruct (Z.lt_ge_cases k 4);
    [rewrite Z.shiftl_spec_low by lia; apply andb_false_r
    | rewrite Z.ones_spec_high by lia; by rewrite andb_false_r].
Qed.

Definition hex_text (bs : bytes) : bytes := concat (fmt_02X <$> bs).

Lemma hex_text_cons c bs : hex_text (c :: bs) = hex_upper (code c / 16) :: hex_upper (code c mod 16) :: hex_text bs.
Proof. done. Qed.

Lemma zlen_hex_text bs : zlen (hex_text bs) = 2 * zlen bs.
Proof. induction bs as [|c bs IH]; [done |]. rewrite hex_text_cons, !zlen_cons, IH. lia. Qed.

Lemma hex_loop_text bs rest : hex_loop (hex_text bs ++ rest) =
  (do! val := hex_loop rest; Some (bs ++ val)).
Proof.
  induction bs as [|c bs IH].
  - cbn [hex_text app fmap list_fmap concat]. by destruct (hex_loop rest).
  - rewrite hex_text_cons. cbn [app hex_loop]. pose proof (code_range c).
    assert (0 <= code c / 16 < 16) by (Z.div_mod_to_equations; lia).
    assert (0 <= code c mod 16 < 16) by (apply Z.mod_pos_bound; lia).
    rewrite !hex_digit_upper by done.
    rewrite (proj2 (Z.ltb_ge _ _)), (proj2 (Z.ltb_ge _ _)) by lia. cbn [orb].
    rewrite IH, nibbles, chr_code by done. by destruct (hex_loop rest).
Qed.

(** ** Numerals *)

(** The text of the integer [v]: an optional sign and digits, nothing else. *)
Definition numeral (s : bytes) (v : Z) : Prop :=
  exists sg ds, s = sg ++ ds /\ ds <> [] /\ forallb is_digit ds = true /\
    ((sg = [] \/ sg = ["+"%char]) /\ v = fst (digits 0 ds) \/
     sg = ["-"%char] /\ v = - fst (digits 0 ds)).

Lemma digits_rest ds : forall acc, forallb is_digit ds = true -> snd (digits acc ds) = [].
Proof.
  induction ds as [|c ds IH]; intros acc H; [done |]. cbn in H |- *. zbool. rewrite_all H.
  by apply IH.
Qed.

Lemma digits_all s : forall acc, snd (digits acc s) = [] -> forallb is_digit s = true.
Proof.
  induction s as [|c s IH]; intros acc H; [done |]. cbn in H |- *. destruct (is_digit c); [| done].
  by apply IH in H.
Qed.

Lemma not_space_digit c : is_digit c = true -> isspace c = false.
Proof.
  unfold is_digit, isspace. intros H. zbool. apply orb_false_iff. split; [apply Z.eqb_neq; lia |].
  apply andb_false_iff. right. apply Z.leb_gt. lia.
Qed.

Lemma sign_digit c s : is_digit c = true -> sign (c :: s) = (false, c :: s).
Proof.
  intros H. unfold sign. assert (c <> "-"%char) by (intros ->; done).
  assert (c <> "+"%char) by (intros ->; done).
  by rewrite !bool_decide_eq_false_2.
Qed.

Lemma skip_space_not c s : isspace c = false -> skip_space (c :: s) = c :: s.
Proof. intros H. cbn. by rewrite H. Qed.

(** What [strtol] makes of a complete numeral. *)
Lemma strtol_numeral s v : numeral s v ->
  (exists c t, s = c :: t /\ isspace c = false) /\
  strtol s = Some (fst (clamp_long v), snd (clamp_long v), []).
Proof.
  intros (sg & ds & -> & Hne & Hd & Hv). destruct ds as [|d ds]; [done |].
  assert (Hd1 : is_digit d = true) by (cbn in Hd; by zbool).
  pose proof (digits_rest (d :: ds) 0 Hd) as Hr.
  assert (Hgo : forall neg : bool, (let '(v0, rest) := digits 0 (d :: ds) in
     let '(z, erange) := clamp_long (if neg then - v0 else v0) in Some (z, erange, rest)) =
     Some (fst (clamp_long (if neg then - fst (digits 0 (d :: ds)) else fst (digits 0 (d :: ds)))),
           snd (clamp_long (if neg then - fst (digits 0 (d :: ds)) else fst (digits 0 (d :: ds)))), [])).
  { intros neg. destruct (digits 0 (d :: ds)) as [v0 rest]. cbn in Hr |- *. subst rest.
    by destruct (clamp_long _). }
  destruct Hv as [[[-> | ->] ->] | [-> ->]]; cbn [app].
  - split; [exists d, ds; split; [done | by apply not_space_digit] |].
    unfold strtol. rewrite (skip_space_not d ds) by (by apply not_space_digit).
    rewrite sign_digit, Hd1 by done. apply (Hgo false).
  - split; [by eexists _, _ |]. unfold strtol. rewrite skip_space_not by done.
    cbn [sign]. rewrite bool_decide_eq_false_2, bool_decide_eq_true_2, Hd1 by done. apply (Hgo false).
  - split; [by eexists _, _ |]. unfold strtol. rewrite skip_space_not by done.
    cbn [sign]. rewrite bool_decide_eq_true_2, Hd1 by done. apply (Hgo true).
Qed.

(** Conversely, what [strtol] consumes completely is a numeral. *)
Lemma strtol_consumed c t v e : isspace c = false -> strtol (c :: t) = Some (v, e, []) ->
  exists w, numeral (c :: t) w /\ v = fst (clamp_long w) /\ e = snd (clamp_long w).
Proof.
  intros Hs H. unfold strtol in H. rewrite skip_space_not in H by done.
  assert (Hex : exists (neg : bool) sg ds, sign (c :: t) = (neg, ds) /\ c :: t = sg ++ ds /\
    (neg = false /\ (sg = [] \/ sg = ["+"%char]) \/ neg = true /\ sg = ["-"%char])).
  { cbn [sign]. case_bool_decide as E1; [subst; exists true, ["-"%char], t; naive_solver |].
    case_bool_decide as E2; [subst; exists false, ["+"%char], t; naive_solver |].
    exists false. exists (@nil byte). exists (cons c t). naive_solver. }
  destruct Hex as (neg & sg & ds & Hsgn & Heq & Hsg). rewrite Hsgn in H.
  destruct ds as [|d ds]; [done |]. destruct (is_digit d) eqn:Hd; [| done].
  pose proof (digits_all (d :: ds) 0) as Hall.
  destruct (digits 0 (d :: ds)) as [w rest] eqn:Ed.
  destruct (clamp_long (if neg then - w else w)) as [z er] eqn:Ec. injection H as -> -> ->.
  exists (if neg then - w else w). rewrite Ec. split; [| done].
  exists sg, (d :: ds). split_and!; [done | done | by apply Hall |]. rewrite Ed. cbn.
  destruct Hsg as [[-> Hsg] | [-> ->]]; [by left | by right].
Qed.

Lemma clamp_exact v : snd (clamp_long v) = false <-> LONG_MIN <= v <= LONG_MAX.
Proof.
  unfold clamp_long. destruct (v <? LONG_MIN) eqn:E1; zbool; [split; [done | lia] |].
  destruct (LONG_MAX <? v) eqn:E2; zbool; split; done || lia.
Qed.

Lemma clamp_value v : LONG_MIN <= v <= LONG_MAX -> clamp_long v = (v, false).
Proof.
  intros H. unfold clamp_long. rewrite (proj2 (Z.ltb_ge v LONG_MIN)) by lia.
  by rewrite (proj2 (Z.ltb_ge LONG_MAX v)) by lia.
Qed.

(** ** Lines of a key file *)

Definition file_of (lines : list bytes) : bytes := concat ((fun l => l ++ [LF]) <$> lines).

Lemma fgets_line l rest n : has_char LF l = false -> (length l < n)%nat ->
  fgets_take n (l ++ LF :: rest) = (l ++ [LF], rest).
Proof.
  revert n. induction l as [|c l IH]; intros [|n] H Hn; cbn in *; try lia.
  - done.
  - zbool. rewrite bool_decide_eq_false_2 by done. rewrite IH by (done || lia). done.
Qed.

Lemma cut_line_LF l : cut_line (l ++ [LF]) = cut_line l.
Proof. induction l as [|c l IH]; [done |]. cbn. destruct (_ || _); [done | by rewrite IH]. Qed.

Lemma key_loop_lines `{tox_params} pk lines : forall fuel, (length (file_of lines) < fuel)%nat ->
  Forall (fun l => has_char LF l = false /\ (length l < 255)%nat) lines ->
  key_loop fuel pk (file_of lines) = if existsb (key_line pk) lines then 1 else 0.
Proof.
  induction lines as [|l lines IH]; intros [|fuel] Hf Hl; cbn [file_of fmap list_fmap concat] in *;
    try (cbn in Hf; lia); [done |].
  apply Forall_cons in Hl as [[Hlf Hlen] Hls]. rewrite <- app_assoc in *. cbn [app key_loop].
  assert (Hg : fgets (l ++ LF :: file_of lines) = Some (l ++ [LF], file_of lines)).
  { unfold fgets. change (ID_SIZE - 1)%nat with 255%nat.
    destruct (l ++ LF :: file_of lines) as [|c s] eqn:E; [by destruct l |].
    rewrite <- E. by rewrite fgets_line. }
  unfold file_of in Hg at 1. rewrite Hg. cbn [existsb].
  assert (key_line pk (l ++ [LF]) = key_line pk l) as -> by (unfold key_line; by rewrite cut_line_LF).
  destruct (key_line pk l); [done |]. cbn [orb]. apply IH; [| done].
  rewrite length_app in Hf. cbn in Hf. unfold file_of. lia.
Qed.

(** A line holding an address grants the key it begins with. *)
Lemma cut_line_hex bs : cut_line (hex_text bs) = hex_text bs.
Proof.
  assert (Hh : forall z, 0 <= z < 16 -> bool_decide (hex_upper z = CR) || bool_decide (hex_upper z = LF)
    || bool_decide (hex_upper z = NUL) = false).
  { intros z Hz. rewrite !bool_decide_eq_false_2; [done | | |]; intros E;
      apply (f_equal hex_digit_value) in E; rewrite hex_digit_upper in E by done;
      vm_compute in E; lia. }
  induction bs as [|c bs IH]; [done |]. rewrite hex_text_cons. cbn [cut_line].
  pose proof (code_range c). rewrite !Hh by (Z.div_mod_to_equations; lia).
  by rewrite IH.
Qed.

Lemma hex_string_ok bs : bs <> [] -> hex_string_to_bin (Some (hex_text bs)) = Some bs.
Proof.
  intros Hne. unfold hex_string_to_bin. rewrite zlen_hex_text.
  destruct (2 * zlen bs =? 0) eqn:E; zbool.
  { destruct Hne. apply zlen_0_nil. lia. }
  rewrite Z.mul_comm, Z_mod_mult. cbn [orb negb Z.eqb].
  pose proof (hex_loop_text bs []) as H. rewrite app_nil_r in H. rewrite H. cbn. by rewrite app_nil_r.
Qed.

Lemma key_line_address `{tox_params} pk addr : zlen addr = TOX_ADDRESS_SIZE ->
  key_line pk (hex_text addr) =
  bool_decide (take (Z.to_nat TOX_PUBLIC_KEY_SIZE) addr = take (Z.to_nat TOX_PUBLIC_KEY_SIZE) pk).
Proof.
  intros Ha. unfold key_line. rewrite cut_line_hex, zlen_hex_text, Ha.
  pose proof address_key. pose proof public_key_pos.
  rewrite (proj2 (Z.ltb_ge _ _)) by lia. rewrite hex_string_ok; [done |].
  intros ->. unfold zlen in Ha. cbn in Ha. lia.
Qed.

(** A printed number in range reads back. *)
Lemma parse_int_range_fmt z mn mx : mn <= z <= mx -> LONG_MIN <= z <= LONG_MAX ->
  parse_int_range (Some (fmt_d z)) mn mx = Some z.
Proof.
  intros Hr Hl. assert (Hc : exists c t, fmt_d z = c :: t /\ isspace c = false).
  { unfold fmt_d, LONG_MIN, LONG_MAX in *. destruct (z <? 0) eqn:E; [by eexists _, _ |]. zbool.
    destruct (dec_long z) as (Hd & Hne & _); [lia |]. destruct (dec z) as [|c t]; [done |].
    exists c, t. split; [done |]. apply not_space_digit. by inversion Hd. }
  destruct Hc as (c & t & Hf & Hs). pose proof (strtol_fmt_d z [] Hl I) as Hst.
  rewrite app_nil_r in Hst. rewrite Hf in *. unfold parse_int_range.
  rewrite (proj2 (Z.ltb_ge mx mn)), Hs, Hst by lia. rewrite bool_decide_eq_true_2 by done. cbn [negb orb].
  by rewrite (proj2 (Z.ltb_ge z mn)), (proj2 (Z.ltb_ge mx z)) by lia.
Qed.

(** * Properties *)

(** [parse_int_range] accepts exactly the complete decimal numerals in
    range: an optional sign and digits, no space, no trailing text, a value that
    fits a [long] and lies in [[min, max]]; and it returns that value. *)
Theorem parse_int_range_exact text mn mx v :
  parse_int_range (Some text) mn mx = Some v <->
  numeral text v /\ mn <= v <= mx /\ LONG_MIN <= v <= LONG_MAX.
Proof.
  split.
  - destruct text as [|c t]; [done |]. cbn [parse_int_range].
    destruct (mx <? mn) eqn:E0; [done |]. destruct (isspace c) eqn:E1; [done |].
    destruct (strtol (c :: t)) as [[[z e] rest]|] eqn:E2; [| done].
    destruct (negb (bool_decide (rest = [])) || e) eqn:E3; [done |].
    destruct ((z <? mn) || (mx <? z)) eqn:E4; [done |]. intros [= ->]. zbool. subst rest.
    destruct (strtol_consumed c t v e E1 E2) as (w & Hn & Hv & He). subst e.
    destruct (snd (clamp_long w)) eqn:Ew; [done |].
    apply clamp_exact in Ew. rewrite clamp_value in Hv by done. cbn in Hv. subst w.
    split_and!; done || lia.
  - intros (Hn & Hr & Hl). destruct (strtol_numeral text v Hn) as [(c & t & -> & Hsp) Hst].
    cbn [parse_int_range]. rewrite (proj2 (Z.ltb_ge mx mn)) by lia. rewrite Hsp, Hst, clamp_value by done.
    cbn [fst snd]. rewrite bool_decide_eq_true_2 by done. cbn [negb orb].
    by rewrite (proj2 (Z.ltb_ge v mn)), (proj2 (Z.ltb_ge mx v)) by lia.
Qed.

(** A key file grants exactly the keys on its lines: with lines the
    reader's buffer can hold, the search answers 1 when some line is an even
    number of hexadecimal digits that begin with the key, 0 otherwise, and the
    line written for an address grants the public key of that address only. *)
Theorem file_contains_key_exact `{tox_params} files can_create pk path lines addr :
  files !! path = Some (file_of lines) -> zlen addr = TOX_ADDRESS_SIZE ->
  Forall (fun l => has_char LF l = false /\ (length l < 255)%nat) lines ->
  file_contains_key files can_create true (Some pk) (Some path) =
    (if existsb (key_line pk) lines then 1 else 0, files) /\
  key_line pk (hex_text addr) =
    bool_decide (take (Z.to_nat TOX_PUBLIC_KEY_SIZE) addr = take (Z.to_nat TOX_PUBLIC_KEY_SIZE) pk).
Proof.
  intros Hf Ha Hl. split; [| by apply key_line_address].
  unfold file_contains_key. rewrite Hf. cbn [negb]. by rewrite key_loop_lines by (done || lia).
Qed.

Lemma file_contains_key_exact_witness :
  let pk := replicate 32 "k"%char in let addr := replicate 38 "k"%char in
  fst (file_contains_key (<[$"masterkeys" := file_of [$"# masters"; hex_text addr]]> ∅) true true
         (Some pk) (Some ($"masterkeys"))) = 1.
Proof.
  intros pk addr.
  destruct (file_contains_key_exact (<[$"masterkeys" := file_of [$"# masters"; hex_text addr]]> ∅) true
    pk ($"masterkeys") [$"# masters"; hex_text addr] addr) as [H _].
  - by rewrite lookup_insert_eq.
  - by vm_compute.
  - repeat constructor; vm_compute; try reflexivity; lia.
  - rewrite H. by vm_compute.
Defined.
