(* ===== verification/Log.v ===== *)
(** * The log ([src/log.c]) and what the relayer writes to it ([src/toxrelayer.c])

    A line is formatted into an array of 512 bytes, stamped with the time of day and
    printed. The formats of the sources are read by an interpreter of the conversions
    they use, so that an argument of the wrong kind, which C leaves undefined, is the
    result [None]. The time of day comes from [localtime], a parameter: it depends on
    the time zone, and it can answer with a null pointer. *)

From S2P Require Import Prelude.
From S2P Require Import CString.
From S2P Require Import Telegram.
From S2P Require Import SnTracker.
From S2P Require Import Misc.
From S2P Require Import Relay.

(** ** The C library: [printf], [localtime], [strftime] *)

(** A format: literal characters and conversions, [%d], [%u], [%s], with [l] or [z] for
    the longer types and a zero and a digit for padding to a width. *)
Inductive piece : Type := Lit (c : byte) | Conv (width : Z) (long : bool) (c : byte).

(** How far a conversion has been read. *)
Inductive reading : Type := InText | AfterPercent | AfterZero | AfterFlags (width : Z) (long : bool).

Definition is_modifier (c : byte) : bool := bool_decide (c = "l"%char) || bool_decide (c = "z"%char).

Fixpoint pieces (st : reading) (format : bytes) : option (list piece) :=
  match format with
  | [] => match st with InText => Some [] | _ => None end
  | c :: format =>
    match st with
    | InText =>
      if bool_decide (c = "%"%char) then pieces AfterPercent format
      else do! l := pieces InText format; Some (Lit c :: l)
    | AfterPercent =>
      if bool_decide (c = "%"%char) then do! l := pieces InText format; Some (Lit c :: l)
      else if bool_decide (c = "0"%char) then pieces AfterZero format
      else if is_modifier c then pieces (AfterFlags 0 true) format
      else do! l := pieces InText format; Some (Conv 0 false c :: l)
    | AfterZero => if is_digit c then pieces (AfterFlags (code c - 48) false) format else None
    | AfterFlags width long =>
      if negb long && is_modifier c then pieces (AfterFlags width true) format
      else do! l := pieces InText format; Some (Conv width long c :: l)
    end
  end.

(** An argument after the format, by its promoted type: [int], [unsigned], [size_t] or
    another unsigned of 64 bits, text. *)
Inductive arg : Type := ArgInt (z : Z) | ArgUnsigned (z : Z) | ArgSize (z : Z) | ArgStr (s : bytes).

Definition padded (width z : Z) : bytes := if width =? 0 then fmt_d z else fmt_0d width z.
Definition padded_unsigned (width z : Z) : bytes :=
  if width =? 0 then dec z else replicate (Z.to_nat (width - zlen (dec z))) "0"%char ++ dec z.

(** One conversion. Another conversion, or an argument of another type, is undefined. *)
Definition convert (width : Z) (long : bool) (c : byte) (a : arg) : option bytes :=
  match a with
  | ArgInt z => if negb long && bool_decide (c = "d"%char) then Some (padded width z) else None
  | ArgUnsigned z => if negb long && bool_decide (c = "u"%char) then Some (padded_unsigned width z) else None
  | ArgSize z => if long && bool_decide (c = "u"%char) then Some (padded_unsigned width z) else None
  | ArgStr s => if negb long && (width =? 0) && bool_decide (c = "s"%char) then Some (until_nul s) else None
  end.

(** Too few arguments are undefined, more are ignored. *)
Fixpoint fill (l : list piece) (args : list arg) : option bytes :=
  match l with
  | [] => Some []
  | Lit c :: l => do! s := fill l args; Some (c :: s)
  | Conv width long c :: l =>
    match args with
    | [] => None
    | a :: args => do! t := convert width long c a; do! s := fill l args; Some (t ++ s)
    end
  end.

Definition expand (format : bytes) (args : list arg) : option bytes :=
  do! l := pieces InText format; fill l args.

(** [vsnprintf(buf, size, ...)]: its result, negative when the length is no [int],
    and the text in [buf]. *)
Definition vsnprintf (size : Z) (format : bytes) (args : list arg) : option (Z * bytes) :=
  do! s := expand format args;
  Some (if INT_MAX <? zlen s then -1 else zlen s, snprintf size s).

(** What the sources read of a [struct tm]. *)
Record tm : Type := mk_tm { tm_hour : Z; tm_min : Z; tm_sec : Z }.

Class wall_clock : Type := { localtime : Z -> option tm }.

(** The documented ranges; 60 is a leap second. *)
Definition tm_ok (t : tm) : Prop := 0 <= tm_hour t <= 23 /\ 0 <= tm_min t <= 59 /\ 0 <= tm_sec t <= 60.

Fixpoint expand_time (format : bytes) (t : tm) : bytes :=
  match format with
  | [] => []
  | c :: format =>
    if bool_decide (c = "%"%char) then
      match format with
      | [] => []
      | d :: format =>
        (if bool_decide (d = "H"%char) then fmt_0d 2 (tm_hour t)
         else if bool_decide (d = "M"%char) then fmt_0d 2 (tm_min t)
         else if bool_decide (d = "S"%char) then fmt_0d 2 (tm_sec t) else [])
        ++ expand_time format t
      end
    else c :: expand_time format t
  end.

(** [strftime(buf, max, ...)]: 0 when text and terminator do not fit, with [buf] left
    in an unspecified state (here: as it was); else the text and its terminator. *)
Definition strftime (buf : bytes) (max : Z) (format : bytes) (t : tm) : option (Z * bytes) :=
  let s := expand_time format t in
  if zlen s <? max then
    do! buf := memcpy buf s (zlen s);
    do! buf := CString.store buf (zlen s) NUL;
    Some (zlen s, buf)
  else Some (0, buf).

(** ** [log.c] *)

Inductive stream : Type := STDOUT | STDERR.
Definition output : Type := list (stream * bytes).

Definition TIMESTAMP_SIZE : Z := 64.
Definition MAX_MESSAGE_SIZE : Z := 512.

Definition console_out (format : bytes) (args : list arg) : option output :=
  do! s := expand format args; Some [(STDOUT, s)].
Definition console_err (format : bytes) (args : list arg) : option output :=
  do! s := expand format args; Some [(STDERR, s)].

Section Log.
Context `{clock : wall_clock}.

Definition get_wall_time (now : Z) : option tm := localtime now.

(** The stamp, an array on the stack whose first bytes [strftime] may leave
    unspecified. The pointer from [localtime] is not tested. *)
Definition stamp (now : Z) : option bytes :=
  do! t := get_wall_time now;
  do! (stamped, ts) := strftime (replicate (Z.to_nat TIMESTAMP_SIZE) NUL) TIMESTAMP_SIZE ($"[%H:%M:%S]") t;
  do! ts := if stamped =? 0 then CString.store ts 0 NUL else Some ts;
  Some (until_nul ts).

Definition log_timestamp (now : Z) (message : bytes) (args : list arg) : option output :=
  do! (formatted, format) := vsnprintf MAX_MESSAGE_SIZE message args;
  if formatted <? 0 then Some []
  else
    do! ts := stamp now;
    console_out ($"%s %s" ++ [LF]) [ArgStr ts; ArgStr format].

Definition log_error_timestamp (now err : Z) (message : bytes) (args : list arg) : option output :=
  do! (formatted, format) := vsnprintf MAX_MESSAGE_SIZE message args;
  if formatted <? 0 then Some []
  else
    do! ts := stamp now;
    console_err ($"%s %s (error %d)" ++ [LF]) [ArgStr ts; ArgStr format; ArgInt err].

(** ** [get_time_str] ([misc.c]): the array after the call *)

Definition TIMESTAMP_DEFAULT : bytes := $"%H:%M".

Definition get_time_str (now : Z) (buf : option bytes) (bufsize : Z) : option (option bytes) :=
  match buf with
  | None => Some None
  | Some buf =>
    if bufsize =? 0 then Some (Some buf)
    else
      do! buf := CString.store buf 0 NUL;
      match localtime now with
      | None => Some (Some buf)
      | Some tm_info =>
        do! (n, buf) := strftime buf bufsize TIMESTAMP_DEFAULT tm_info;
        do! buf := if n =? 0 then CString.store buf 0 NUL else Some buf;
        Some (Some buf)
      end
  end.

(** ** What the relayer reports *)

Definition relay_log_outcome (now : Z) (outcome : relay_outcome) (channel : Z) : option output :=
  match outcome with
  | RELAY_DUPLICATE => log_timestamp now ($"Duplicate telegram from channel %u ignored") [ArgUnsigned channel]
  | RELAY_GAP_REQUESTED => log_timestamp now ($"Requested a replay from channel %u") [ArgUnsigned channel]
  | RELAY_RECOVERED =>
    log_timestamp now ($"Recovered a previously missing telegram on channel %u") [ArgUnsigned channel]
  | RELAY_RESYNCED =>
    log_timestamp now ($"Sequence gap on channel %u exceeded %d; resynchronised")
      [ArgUnsigned channel; ArgInt RELAY_MAX_GAP]
  | RELAY_RELAYED => log_timestamp now ($"Relayed a telegram from channel %u") [ArgUnsigned channel]
  | RELAY_NO_ROUTE => log_timestamp now ($"No relay route for a telegram from channel %u") [ArgUnsigned channel]
  | RELAY_SERVED => log_timestamp now ($"Answered a replay request from channel %u") [ArgUnsigned channel]
  | RELAY_NOTHING_STORED =>
    log_timestamp now ($"Replay request from channel %u had nothing stored") [ArgUnsigned channel]
  | RELAY_DISCARDED =>
    log_error_timestamp now (-1) ($"Discarded a malformed record from channel %u") [ArgUnsigned channel]
  | RELAY_STORED | RELAY_NO_PEER => Some []
  end.

(** The queue's drop callback. *)
Definition on_telegram_dropped (now friendnum attempts : Z) : option output :=
  log_error_timestamp now (-1) ($"Telegram to friend %d retired after %u attempts (undeliverable)")
    [ArgInt friendnum; ArgUnsigned attempts].

End Log.

(** ** Texts *)

(** One output after another, and one for each element of a list. *)
Definition followed (a b : option output) : option output :=
  do! x := a; do! y := b; Some (x ++ y).

Notation "a >>> b" := (followed a b) (at level 60, right associativity) : relay_scope.

Fixpoint each {A} (f : Z -> A -> option output) (i : Z) (l : list A) : option output :=
  match l with
  | [] => Some []
  | x :: l => f i x >>> each f (i + 1) l
  end.

(** Printing one text after the other. *)
Fixpoint print (l : list bytes) : option output :=
  match l with
  | [] => Some []
  | s :: l => console_out s [] >>> print l
  end.

Definition print_usage : option output := print
  [$"usage: toxrelayer [OPTION] ..." ++ [LF];
   $"    -4, --ipv4              Force IPv4" ++ [LF];
   $"    -h, --help              Show this message and exit" ++ [LF];
   $"    -L, --no-lan            Disable LAN" ++ [LF];
   $"    -P, --HTTP-proxy        Use HTTP proxy. Requires: [IP] [port]" ++ [LF];
   $"    -p, --SOCKS5-proxy      Use SOCKS proxy. Requires: [IP] [port]" ++ [LF];
   $"    -t, --force-tcp         Force connections through TCP relays (DHT disabled)" ++ [LF]].

Definition welcom_logo_metaCom : option output := print
  [[LF];
   $"    _____ _____  _____ ____ " ++ [LF];
   $"   |_   _/ _ \ \/ /_ _/ ___|" ++ [LF];
   $"     | || | | \  / | | |    " ++ [LF];
   $"     | || |_| /  \ | | |___ " ++ [LF];
   $"     |_| \___/_/\_\___\____| ...Second Life in Metaverse." ++ [LF; LF];
   $" > Welcome to metaCom freedom_world!" ++ [LF];
   $"     Start with blockchain-based web3 instant messaging." ++ [LF; LF]].

(** A member's new name. [length] bytes are at [name]. *)
Definition on_conference_peer_name (name : bytes) (length : Z) : option output :=
  do! (nick, length) := copy_tox_str (replicate (Z.to_nat (TOXIC_MAX_NAME_LENGTH + 1)) NUL) (TOXIC_MAX_NAME_LENGTH + 1) name length;
  console_out ($"conference_peer_name: %s" ++ [LF]) [ArgStr (filter_str nick length)].

(** * Lemmas *)

(** The time of day as it is printed. *)
Definition clock_text (t : tm) : bytes :=
  $"[" ++ fmt_0d 2 (tm_hour t) ++ $":" ++ fmt_0d 2 (tm_min t) ++ $":" ++ fmt_0d 2 (tm_sec t) ++ $"]".

Lemma fmt_02d z : 0 <= z <= 99 -> zlen (fmt_0d 2 z) = 2 /\ cstring (fmt_0d 2 z).
Proof.
  intros Hz. unfold fmt_0d, cstring. destruct (z <? 0) eqn:E; zbool; [lia |]. split.
  - pose proof (dec_length z 2 ltac:(lia) ltac:(lia)). zlen.
  - destruct (dec_long z) as (H & _); [lia |].
    by rewrite has_char_app, has_char_replicate, has_char_digits by done.
Qed.

Lemma clock_text_ok t : tm_ok t -> zlen (clock_text t) = 10 /\ cstring (clock_text t).
Proof.
  intros (Hh & Hm & Hs). unfold clock_text, cstring.
  destruct (fmt_02d (tm_hour t)) as [H1 C1]; [lia |]. destruct (fmt_02d (tm_min t)) as [H2 C2]; [lia |].
  destruct (fmt_02d (tm_sec t)) as [H3 C3]; [lia |]. unfold cstring in *.
  rewrite !has_char_app, C1, C2, C3, !zlen_app, H1, H2, H3. done.
Qed.

Lemma strftime_fits buf max format t : let s := expand_time format t in
  zlen s < max -> zlen s < zlen buf ->
  exists rest, strftime buf max format t = Some (zlen s, s ++ NUL :: rest) /\ zlen (s ++ NUL :: rest) = zlen buf.
Proof.
  intros s Hm Hb. unfold strftime. fold s. rewrite (proj2 (Z.ltb_lt _ _) Hm).
  destruct (copy_text buf s (zlen s)) as (b & b' & -> & E & Hl & rest & Ht); [unfold zlen; lia | done | done |].
  rewrite E. exists rest. assert (b' = s ++ NUL :: rest) as ->; [| done].
  rewrite Ht. unfold zlen. by rewrite Nat2Z.id, take_ge.
Qed.

Section Lines.
Context `{clock : wall_clock}.

Lemma stamp_ok now t : localtime now = Some t -> tm_ok t -> stamp now = Some (clock_text t).
Proof.
  intros Ht Hok. unfold stamp, get_wall_time. rewrite Ht. destruct (clock_text_ok t Hok) as [Hl Hc].
  destruct (strftime_fits (replicate (Z.to_nat TIMESTAMP_SIZE) NUL) TIMESTAMP_SIZE ($"[%H:%M:%S]") t) as (rest & -> & _);
    change (expand_time ($"[%H:%M:%S]") t) with (clock_text t); [by rewrite Hl | by rewrite Hl |].
  rewrite (proj2 (Z.eqb_neq _ _)) by lia. by rewrite until_nul_app, until_nul_cstring.
Qed.

(** What is kept of a message, and the line around it. *)
Definition kept_text (s : bytes) : bytes := snprintf MAX_MESSAGE_SIZE s.
Definition line (t : tm) (s rest : bytes) : bytes := clock_text t ++ $" " ++ kept_text s ++ rest ++ [LF].

Lemma cstring_kept s : cstring s -> cstring (kept_text s).
Proof. apply has_char_take. Qed.

Lemma log_line now t message args s : localtime now = Some t -> tm_ok t ->
  expand message args = Some s -> cstring s -> zlen s <= INT_MAX ->
  log_timestamp now message args = Some [(STDOUT, line t s [])].
Proof.
  intros Ht Hok Hs Hc Hl. unfold log_timestamp, vsnprintf. rewrite Hs, (proj2 (Z.ltb_ge _ _) Hl).
  destruct (clock_text_ok t Hok) as [_ Hct].
  rewrite (proj2 (Z.ltb_ge _ _)), (stamp_ok now t Ht Hok) by apply zlen_nonneg. unfold console_out, line.
  assert (He : forall a b, expand ($"%s %s" ++ [LF]) [ArgStr a; ArgStr b] = Some (until_nul a ++ $" " ++ until_nul b ++ [LF]))
    by (intros; reflexivity).
  rewrite He, (until_nul_cstring _ Hct). fold (kept_text s). by rewrite (until_nul_cstring _ (cstring_kept _ Hc)).
Qed.

Lemma log_error_line now t err message args s : localtime now = Some t -> tm_ok t ->
  expand message args = Some s -> cstring s -> zlen s <= INT_MAX ->
  log_error_timestamp now err message args = Some [(STDERR, line t s ($" (error " ++ fmt_d err ++ $")"))].
Proof.
  intros Ht Hok Hs Hc Hl. unfold log_error_timestamp, vsnprintf. rewrite Hs, (proj2 (Z.ltb_ge _ _) Hl).
  destruct (clock_text_ok t Hok) as [_ Hct].
  rewrite (proj2 (Z.ltb_ge _ _)), (stamp_ok now t Ht Hok) by apply zlen_nonneg. unfold console_err, line.
  assert (He : forall a b, expand ($"%s %s (error %d)" ++ [LF]) [ArgStr a; ArgStr b; ArgInt err] =
    Some (until_nul a ++ $" " ++ until_nul b ++ $" (error " ++ fmt_d err ++ $")" ++ [LF])) by (intros; reflexivity).
  rewrite He, (until_nul_cstring _ Hct). fold (kept_text s). rewrite (until_nul_cstring _ (cstring_kept _ Hc)).
  by rewrite <- !app_assoc.
Qed.

End Lines.

(** ** The report of an outcome *)

(** What is said before and after the channel, for the outcomes that are reported. *)
Definition words (o : relay_outcome) : option (bytes * bytes) :=
  match o with
  | RELAY_DUPLICATE => Some ($"Duplicate telegram from channel ", $" ignored")
  | RELAY_GAP_REQUESTED => Some ($"Requested a replay from channel ", [])
  | RELAY_RECOVERED => Some ($"Recovered a previously missing telegram on channel ", [])
  | RELAY_RESYNCED => Some ($"Sequence gap on channel ", $" exceeded 64; resynchronised")
  | RELAY_RELAYED => Some ($"Relayed a telegram from channel ", [])
  | RELAY_NO_ROUTE => Some ($"No relay route for a telegram from channel ", [])
  | RELAY_SERVED => Some ($"Answered a replay request from channel ", [])
  | RELAY_NOTHING_STORED => Some ($"Replay request from channel ", $" had nothing stored")
  | RELAY_DISCARDED => Some ($"Discarded a malformed record from channel ", [])
  | RELAY_STORED | RELAY_NO_PEER => None
  end.

Definition report_text (o : relay_outcome) (channel : Z) : option bytes :=
  option_map (fun w => w.1 ++ dec channel ++ w.2) (words o).

Definition report_stream (o : relay_outcome) : stream := match o with RELAY_DISCARDED => STDERR | _ => STDOUT end.
Definition report_tail (o : relay_outcome) : bytes := match o with RELAY_DISCARDED => $" (error -1)" | _ => [] end.

Lemma dec_u32 c : 0 <= c < 2 ^ 32 -> all_digits (dec c) /\ cstring (dec c) /\ 1 <= zlen (dec c) <= 10 /\
  forall s, stops s -> digits 0 (dec c ++ s) = (c, s).
Proof.
  intros Hc. destruct (dec_spec c) as (Hd & Hv & Hl & _); [lia |]. split_and!; [done | | lia | |].
  - unfold cstring. by apply has_char_digits.
  - apply (dec_length c 10); lia.
  - intros s Hs. by rewrite digits_app, digits_stop, Hv by done.
Qed.

(** The words are text, short, and their first three letters tell them apart. *)
Lemma words_ok o p s : words o = Some (p, s) ->
  cstring p /\ cstring s /\ stops s /\ 3 <= zlen p <= 60 /\ zlen s <= 30.
Proof. destruct o; intros [= <- <-]; vm_compute; intuition congruence. Qed.

Definition initials (o : relay_outcome) : option bytes := option_map (fun w => take 3 w.1) (words o).

Lemma initials_inj o o' : initials o = initials o' -> is_Some (words o) -> o = o'.
Proof. destruct o, o'; (done || (cbn; congruence) || (intros _ [? H]; discriminate H)). Qed.

Lemma report_ok o c x : report_text o c = Some x -> 0 <= c < 2 ^ 32 -> cstring x /\ zlen x <= 100.
Proof.
  unfold report_text. destruct (words o) as [[p s]|] eqn:E; [| done]. intros [= <-] Hc.
  destruct (words_ok o p s E) as (Hp & Hs & _ & ? & ?). destruct (dec_u32 c Hc) as (_ & Hd & ? & _).
  unfold cstring in *. rewrite !has_char_app, Hp, Hs, Hd, !zlen_app. split; [done | cbn [fst snd]; lia].
Qed.

Lemma report_inj o o' c c' x : 0 <= c < 2 ^ 32 -> 0 <= c' < 2 ^ 32 ->
  report_text o c = Some x -> report_text o' c' = Some x -> o = o' /\ c = c'.
Proof.
  unfold report_text. intros Hc Hc'. destruct (words o) as [[p s]|] eqn:E; [| done].
  destruct (words o') as [[p' s']|] eqn:E'; [| done]. cbn [option_map fst snd]. intros [= <-] H.
  destruct (words_ok o p s E) as (_ & _ & Hs & Hp & _). destruct (words_ok o' p' s' E') as (_ & _ & Hs' & Hp' & _).
  assert (o = o') as <-.
  { apply initials_inj; [| by rewrite E]. unfold initials. rewrite E, E'. cbn [option_map fst]. f_equal.
    apply Some_inj, (f_equal (take 3)) in H. rewrite !take_app_le in H by (unfold zlen in *; lia). done. }
  split; [done |]. rewrite E in E'. injection E' as <- <-. injection H as H%app_inv_head.
  destruct (dec_u32 c Hc) as (_ & _ & _ & Hd). destruct (dec_u32 c' Hc') as (_ & _ & _ & Hd').
  pose proof (Hd s Hs) as H1. rewrite <- H, Hd' in H1 by done. congruence.
Qed.

Section Reports.
Context `{clock : wall_clock}.

Lemma report_line now t o c : localtime now = Some t -> tm_ok t -> 0 <= c < 2 ^ 32 ->
  relay_log_outcome now o c = Some
    match report_text o c with Some x => [(report_stream o, line t x (report_tail o))] | None => [] end.
Proof.
  intros Ht Hok Hc. destruct (report_text o c) as [x|] eqn:E; [| by destruct o].
  destruct (report_ok o c x E Hc) as [Hcs Hl].
  assert (Hi : zlen x <= INT_MAX) by (unfold INT_MAX; lia).
  destruct o; unfold report_text in E; cbn [words option_map fst snd] in E; try discriminate E;
    injection E as Ex; unfold relay_log_outcome;
    (apply log_line || apply log_error_line); try done; by rewrite <- Ex.
Qed.

(** The report of a telegram that the queue gave up. *)
Lemma dropped_line now t f n : localtime now = Some t -> tm_ok t -> LONG_MIN <= f <= LONG_MAX -> 0 <= n < 2 ^ 32 ->
  on_telegram_dropped now f n = Some [(STDERR, line t
    ($"Telegram to friend " ++ fmt_d f ++ $" retired after " ++ dec n ++ $" attempts (undeliverable)") ($" (error -1)"))].
Proof.
  intros Ht Hok Hf Hn. destruct (dec_u32 n Hn) as (_ & Hd & Hl & _). unfold cstring in Hd.
  pose proof (has_char_fmt_d NUL f Hf eq_refl ltac:(done)) as Hcf. pose proof (zlen_fmt_d f Hf) as Hlf.
  unfold on_telegram_dropped. apply log_error_line; [done | done | | |].
  - reflexivity.
  - unfold cstring. rewrite !has_char_app, Hcf, Hd. done.
  - rewrite !zlen_app. unfold INT_MAX. change (zlen ($"Telegram to friend ")) with 19.
    change (zlen ($" retired after ")) with 15. change (zlen ($" attempts (undeliverable)")) with 25. lia.
Qed.

Lemma get_time_str_ok now b bufsize : 0 < bufsize <= zlen b -> (forall t, localtime now = Some t -> tm_ok t) ->
  exists b', get_time_str now (Some b) bufsize = Some (Some b') /\ zlen b' = zlen b /\
    until_nul b' = match localtime now with
      | Some t => if 5 <? bufsize then fmt_0d 2 (tm_hour t) ++ $":" ++ fmt_0d 2 (tm_min t) else []
      | None => []
      end.
Proof.
  intros Hb Hok. unfold get_time_str. rewrite (proj2 (Z.eqb_neq _ _)) by lia.
  destruct b as [|c b]; [unfold zlen in Hb; cbn in Hb; lia |].
  destruct (store_in (c :: b) 0 NUL) as (b0 & E0 & Hl0); [lia |]. rewrite E0.
  assert (H0 : exists r, b0 = NUL :: r).
  { unfold CString.store in E0. destruct (_ && _); [| done]. injection E0 as <-. by eexists. }
  destruct H0 as [r ->]. destruct (localtime now) as [t|] eqn:Et; [| by exists (NUL :: r)].
  destruct (Hok t eq_refl) as (Hh & Hm & _). destruct (fmt_02d (tm_hour t)) as [H1 C1]; [lia |].
  destruct (fmt_02d (tm_min t)) as [H2 C2]; [lia |].
  set (x := fmt_0d 2 (tm_hour t) ++ $":" ++ fmt_0d 2 (tm_min t)).
  assert (Hx : expand_time TIMESTAMP_DEFAULT t = x) by (cbn; unfold x; by rewrite app_nil_r).
  assert (Hxl : zlen x = 5) by (unfold x; rewrite !zlen_app, H1, H2; done).
  assert (Hxc : cstring x) by (unfold x, cstring in *; by rewrite !has_char_app, C1, C2).
  destruct (Z.ltb_spec 5 bufsize) as [Hs | Hs].
  - destruct (strftime_fits (NUL :: r) bufsize TIMESTAMP_DEFAULT t) as (rest & -> & Hl); rewrite ?Hx, ?Hxl in *; [lia | lia |].
    cbn [Z.eqb]. exists (x ++ NUL :: rest). split_and!; [done | congruence |].
    by rewrite until_nul_app, until_nul_cstring.
  - unfold strftime. rewrite Hx, Hxl, (proj2 (Z.ltb_ge _ _)) by lia. cbn [Z.eqb].
    destruct (store_in (NUL :: r) 0 NUL) as (b1 & E1 & Hl1); [lia |]. rewrite E1. exists b1.
    split_and!; [done | congruence |].
    unfold CString.store in E1. destruct (_ && _); [| done]. by injection E1 as <-.
Qed.

End Reports.

(** ** Texts *)

Lemma followed_defined a b : is_Some a -> is_Some b -> is_Some (a >>> b).
Proof. intros [x ->] [y ->]. by eexists. Qed.

Lemma each_defined {A} (f : Z -> A -> option output) l : (forall i x, x ∈ l -> is_Some (f i x)) -> forall i, is_Some (each f i l).
Proof.
  induction l as [|x l IH]; intros H i; cbn [each]; [by eexists |].
  apply followed_defined; [apply H; left |]. apply IH. intros j y Hy. apply H. by right.
Qed.

Lemma texts_defined : is_Some print_usage /\ is_Some welcom_logo_metaCom.
Proof. split; vm_compute; by eexists. Qed.

Lemma filter_str_text s t : filter_str (s ++ t) (zlen s) = filter_str s (zlen s) ++ t.
Proof.
  unfold filter_str, zlen. rewrite !Nat2Z.id, take_app_length, drop_app_length, (take_ge s), (drop_ge s) by done.
  by rewrite app_nil_r.
Qed.

Lemma filter_str_cstring s : cstring (filter_str s (zlen s)) /\ zlen (filter_str s (zlen s)) = zlen s.
Proof.
  unfold filter_str, zlen. rewrite Nat2Z.id, take_ge, drop_ge, app_nil_r by done. rewrite length_fmap. split; [| done].
  unfold cstring. induction s as [|c s IH]; [done |]. rewrite fmap_cons. cbn [has_char]. rewrite IH, orb_false_r.
  apply bool_decide_eq_false. destruct (negb (is_valid_char c) || bool_decide (c = NUL)) eqn:E; [done |]. by zbool.
Qed.

(** A new name is printed on one line, whatever its bytes are, and cut to the array. *)
Lemma peer_name_line name n : 0 <= n <= zlen name -> zlen name < 2 ^ 16 ->
  let shown := take (Z.to_nat (Z.min n TOXIC_MAX_NAME_LENGTH)) name in
  on_conference_peer_name name n =
    Some [(STDOUT, $"conference_peer_name: " ++ filter_str shown (zlen shown) ++ [LF])].
Proof.
  intros Hn Hz shown. unfold on_conference_peer_name, copy_tox_str.
  set (m := TOXIC_MAX_NAME_LENGTH). assert (Hm : m = 256) by done.
  rewrite (u64_id (m + 1 - 1)) by lia. replace (m + 1 - 1) with m by lia.
  destruct (copy_text (replicate (Z.to_nat (m + 1)) NUL) name (Z.min n m)) as (b & b' & -> & -> & _ & t & ->);
    [lia | unfold zlen; rewrite length_replicate; lia | lia |].
  assert (Hu : u16 (Z.min n m) = zlen shown).
  { unfold u16, shown. rewrite Z.mod_small, zlen_take by lia. fold m. lia. }
  rewrite Hu. fold m in shown. fold shown. rewrite filter_str_text. destruct (filter_str_cstring shown) as [Hc _].
  unfold console_out.
  assert (He : forall s, expand ($"conference_peer_name: %s" ++ [LF]) [ArgStr s] = Some ($"conference_peer_name: " ++ until_nul s ++ [LF]))
    by (intros s; reflexivity).
  rewrite He, until_nul_app, (until_nul_cstring _ Hc). reflexivity.
Qed.

(** * Properties *)

(** Claim C14. What the relay did with a record is reported on a line of its own: for
    every outcome that is reported and every channel the formats are given arguments
    of their types, the text fits the log's array uncut, and the line is the time, the
    text and, on the error stream only for a discarded record, the error. Nothing is
    printed for a stored record or a missing peer, and no two reports of different
    outcomes or channels are the same. *)
Theorem relay_reports `{wall_clock} now t o c : localtime now = Some t -> tm_ok t -> 0 <= c < 2 ^ 32 ->
  match report_text o c with
  | Some x =>
    kept_text x = x /\ zlen (clock_text t) = 10 /\
    relay_log_outcome now o c = Some [(report_stream o, clock_text t ++ $" " ++ x ++ report_tail o ++ [LF])] /\
    forall o' c', 0 <= c' < 2 ^ 32 -> relay_log_outcome now o' c' = relay_log_outcome now o c -> o' = o /\ c' = c
  | None => (o = RELAY_STORED \/ o = RELAY_NO_PEER) /\ relay_log_outcome now o c = Some []
  end.
Proof.
  intros Ht Hok Hc. pose proof (report_line now t o c Ht Hok Hc) as Hl.
  destruct (report_text o c) as [x|] eqn:E; [| by destruct o; try discriminate E; auto].
  destruct (report_ok o c x E Hc) as [_ Hx].
  assert (Hk : forall y, zlen y <= 100 -> kept_text y = y) by (intros y Hy; apply snprintf_fits; unfold MAX_MESSAGE_SIZE; lia).
  split_and!; [by apply Hk | by apply clock_text_ok | rewrite Hl; unfold line; by rewrite Hk |].
  intros o' c' Hc' Heq. rewrite Hl, (report_line now t o' c' Ht Hok Hc') in Heq.
  destruct (report_text o' c') as [x'|] eqn:E'; [| discriminate Heq].
  destruct (report_ok o' c' x' E' Hc') as [_ Hx']. injection Heq as Hs Heq. unfold line in Heq. rewrite !Hk in Heq by done.
  assert (Htail : report_tail o' = report_tail o) by (revert Hs; by destruct o', o).
  rewrite Htail in Heq. apply app_inv_head, (app_inv_head ($" ")), app_inv_tail in Heq as ->.
  by apply (report_inj o' o c' c x).
Qed.

(** The clock of a place on the meridian. *)
Definition utc : wall_clock := {|
  localtime now := if 0 <=? now then Some (mk_tm (now / 3600 mod 24) (now / 60 mod 60) (now mod 60)) else None |}.

Lemma relay_reports_witness :
  relay_log_outcome (clock := utc) 43509 RELAY_RESYNCED 7 =
    Some [(STDOUT, $"[12:05:09] Sequence gap on channel 7 exceeded 64; resynchronised" ++ [LF])] /\
  relay_log_outcome (clock := utc) 43509 RELAY_DISCARDED 7 =
    Some [(STDERR, $"[12:05:09] Discarded a malformed record from channel 7 (error -1)" ++ [LF])].
Proof.
  destruct (@relay_reports utc 43509 (mk_tm 12 5 9) RELAY_RESYNCED 7) as (_ & _ & H1 & _);
    [reflexivity | repeat split; cbn; lia | lia |].
  destruct (@relay_reports utc 43509 (mk_tm 12 5 9) RELAY_DISCARDED 7) as (_ & _ & H2 & _);
    [reflexivity | repeat split; cbn; lia | lia |].
  exact (conj H1 H2).
Defined.

(** A time stamp is complete or empty: [get_time_str] leaves in an array of at least
    [bufsize] bytes the hour and minute when they fit and the time is known, and the
    empty text otherwise. *)
Theorem get_time_str_result `{wall_clock} now b bufsize : 0 < bufsize <= zlen b ->
  (forall t, localtime now = Some t -> tm_ok t) ->
  exists b', get_time_str now (Some b) bufsize = Some (Some b') /\ zlen b' = zlen b /\
    until_nul b' = match localtime now with
      | Some t => if 5 <? bufsize then fmt_0d 2 (tm_hour t) ++ $":" ++ fmt_0d 2 (tm_min t) else []
      | None => []
      end.
Proof. apply get_time_str_ok. Qed.

(** The log does not test the pointer: without a time of day it is undefined. *)
Theorem log_needs_wall_time `{wall_clock} now message args s : localtime now = None ->
  expand message args = Some s -> zlen s <= INT_MAX -> log_timestamp now message args = None.
Proof.
  intros Ht Hs Hl. unfold log_timestamp, vsnprintf, stamp, get_wall_time. rewrite Hs, Ht.
  by rewrite (proj2 (Z.ltb_ge _ _) Hl), (proj2 (Z.ltb_ge _ _)) by apply zlen_nonneg.
Qed.
