(* ===== verification/Ini.v ===== *)
(** * Settings: reading INI files

    [src/minIni.c] with [src/minGlue.h] and [src/minIni.h]: the text handling of the
    parser and every function that reads. A file is read line by line through a
    buffer of 512 bytes; the stream is the content of the file when it was opened
    and a position in it. Reading an open file is taken to work (a read error would
    be seen as the end of the file).

    The reference at the end describes a file as its list of lines; the theorems
    state that the parser, with its buffer and its loops, computes the same. *)

From S2P Require Import Prelude.
From S2P Require Import CString.
From S2P Require Import MqPersist.
From S2P Require Import Misc.

Definition INI_BUFFERSIZE : nat := 512.
Definition INI_LINETERM : bytes := [LF].

Definition DQ : byte := "034"%char.
Definition BSL : byte := "\"%char.

Inductive quote_option : Type := QUOTE_NONE | QUOTE_ENQUOTE | QUOTE_DEQUOTE.

(** ** Characters *)

(** [strchr] and [strrchr]: the index of the first and the last occurrence. *)
Fixpoint strchr (c : byte) (s : bytes) : option nat :=
  match s with
  | [] => None
  | d :: s => if bool_decide (d = c) then Some 0%nat else S <$> strchr c s
  end.

Fixpoint strrchr (c : byte) (s : bytes) : option nat :=
  match s with
  | [] => None
  | d :: s =>
    match strrchr c s with
    | Some i => Some (S i)
    | None => if bool_decide (d = c) then Some 0%nat else None
    end
  end.

(** [*s == c] for a [c] that is not NUL. *)
Definition head_is (c : byte) (s : bytes) : bool :=
  match s with d :: _ => bool_decide (d = c) | [] => false end.

(** ['\0' < c && c <= ' '], of a signed or an unsigned [char]. *)
Definition blank (c : byte) : bool := (1 <=? code c) && (code c <=? 32).

Fixpoint skipleading (str : bytes) : bytes :=
  match str with
  | c :: s => if blank c then skipleading s else str
  | [] => []
  end.

(** The text up to the end that [skiptrailing] finds. *)
Fixpoint striptrailing (str : bytes) : bytes :=
  match str with
  | [] => []
  | c :: s =>
    match striptrailing s with
    | [] => if blank c then [] else [c]
    | s => c :: s
    end
  end.

(** [skiptrailing(base + n, base) - base]. *)
Definition skiptrailing (base : bytes) (n : nat) : nat := length (striptrailing (take n base)).

(** ** Copies *)

(** The loop of [QUOTE_ENQUOTE] with [room] bytes left for the text. *)
Fixpoint enquote (source : bytes) (room : nat) : bytes :=
  match source, room with
  | c :: s, S room =>
    if bool_decide (c = DQ) then
      match room with
      | O => []
      | S room => BSL :: DQ :: enquote s room
      end
    else c :: enquote s room
  | _, _ => []
  end.

Fixpoint dequote (source : bytes) (room : nat) : bytes :=
  match source, room with
  | c :: s, S room =>
    match s with
    | d :: s' =>
      if (bool_decide (c = DQ) || bool_decide (c = BSL)) && bool_decide (d = DQ)
      then d :: dequote s' room
      else c :: dequote s room
    | [] => [c]
    end
  | _, _ => []
  end.

(** The text stored in the destination. [None] is the assertion on [maxlen]. *)
Definition ini_strncpy (source : bytes) (maxlen : nat) (option : quote_option) : Datatypes.option bytes :=
  assert! (0 <? maxlen)%nat;
  Some match option with
       | QUOTE_ENQUOTE =>
         if (maxlen <? 3)%nat then take (maxlen - 1) source
         else DQ :: enquote source (maxlen - 3) ++ [DQ]
       | QUOTE_NONE => take (maxlen - 1) source
       | QUOTE_DEQUOTE => dequote source (maxlen - 1)
       end.

(** The text before a trailing comment. *)
Fixpoint strip_comment (isstring : bool) (string : bytes) : bytes :=
  match string with
  | [] => []
  | c :: s =>
    if (bool_decide (c = ";"%char) || bool_decide (c = "#"%char)) && negb isstring then []
    else if bool_decide (c = DQ) then
      match s with
      | d :: s' =>
        if bool_decide (d = DQ) then c :: d :: strip_comment isstring s'
        else c :: strip_comment (negb isstring) s
      | [] => [c]
      end
    else if bool_decide (c = BSL) then
      match s with
      | d :: s' =>
        if bool_decide (d = DQ) then c :: d :: strip_comment isstring s'
        else c :: strip_comment isstring s
      | [] => [c]
      end
    else c :: strip_comment isstring s
  end.

Definition cleanstring (string : bytes) : bytes * quote_option :=
  let string := striptrailing (strip_comment false string) in
  if head_is DQ string && bool_decide (last string = Some DQ)
  then (take (length string - 2) (drop 1 string), QUOTE_DEQUOTE)
  else (string, QUOTE_NONE).

(** The comparison of the header for platforms without one: the difference of the first
    characters that differ in upper case, as [char] is signed. *)
Definition upper_char (c : byte) : Z :=
  let c := (code c + 128) mod 256 - 128 in
  if (97 <=? c) && (c <=? 122) then c + (65 - 97) else c.

Fixpoint strnicmp (s1 s2 : bytes) (n : nat) : Z :=
  match n with
  | O => 0
  | S n =>
    match s1, s2 with
    | [], [] => 0
    | _, _ =>
      let c1 := upper_char (default NUL (head s1)) in
      let c2 := upper_char (default NUL (head s2)) in
      if negb (c1 =? c2) then c1 - c2 else strnicmp (tail s1) (tail s2) n
    end
  end.

(** Characters are the same in upper case when they are in lower case. *)
Lemma upper_char_eq c d : upper_char c = upper_char d <-> tolower c = tolower d.
Proof.
  assert (Hl : forall c, code (tolower c) = if (65 <=? code c) && (code c <=? 90) then code c + 32 else code c).
  { intros x. pose proof (code_range x). unfold tolower. destruct (_ && _) eqn:E; [| done]. zbool. apply code_chr. lia. }
  assert (Hu : forall c, upper_char c = if (97 <=? code c) && (code c <=? 122) then code c - 32
    else if 128 <=? code c then code c - 256 else code c).
  { intros x. pose proof (code_range x). unfold upper_char. destruct (Z.leb_spec 128 (code x)).
    - assert ((code x + 128) mod 256 = code x - 128) as -> by (symmetry; apply Z.mod_unique with 1; lia).
      rewrite (proj2 (Z.leb_gt 97 _)) by lia. cbn [andb]. rewrite (proj2 (Z.leb_gt (code x) 122)) by lia. rewrite andb_false_r. lia.
    - rewrite Z.mod_small by lia. replace (code x + 128 - 128) with (code x) by lia. by destruct (_ && _); lia. }
  pose proof (code_range c). pose proof (code_range d).
  assert (Heq : upper_char c = upper_char d <-> code (tolower c) = code (tolower d)).
  { rewrite !Hl, !Hu. repeat match goal with |- context [?a <=? ?b] => destruct (Z.leb_spec a b) end; cbn [andb]; lia. }
  rewrite Heq. split; [apply code_inj | congruence].
Qed.

Lemma upper_nul c : upper_char c = 0 <-> c = NUL.
Proof.
  change 0 with (upper_char NUL). rewrite upper_char_eq. split; [| by intros ->]. intros H. apply code_inj.
  apply (f_equal code) in H. change (code (tolower NUL)) with 0 in H. pose proof (code_range c). unfold tolower in H.
  destruct (_ && _) eqn:E; [| done]. zbool. rewrite code_chr in H by lia. lia.
Qed.

(** The comparison finds two texts equal when they are so up to [n] characters, in any
    case. *)
Theorem strnicmp_prefix n : forall s1 s2, cstring s1 -> cstring s2 ->
  strnicmp s1 s2 n = 0 <-> str_caseeq (take n s1) (take n s2) = true.
Proof.
  unfold str_caseeq, cstring. setoid_rewrite bool_decide_eq_true.
  induction n as [|n IH]; intros s1 s2 H1 H2; cbn [strnicmp]; [by rewrite !take_0 |].
  destruct s1 as [|c s1], s2 as [|d s2]; cbn [head hd_error default from_option id tail take fmap list_fmap]; [done | | |].
  - cbn in H2. zbool. split; [| done]. destruct (negb _) eqn:E; zbool.
    + intros Hz. exfalso. lia.
    + exfalso. symmetry in E. change (upper_char NUL) with 0 in E. apply upper_nul in E. done.
  - cbn in H1. zbool. split; [| done]. destruct (negb _) eqn:E; zbool.
    + intros Hz. exfalso. lia.
    + exfalso. change (upper_char NUL) with 0 in E. apply upper_nul in E. done.
  - cbn in H1, H2. zbool. destruct (negb _) eqn:E; zbool.
    + split; [lia |]. intros [= Hc _]. by apply upper_char_eq in Hc.
    + rewrite IH by done. apply upper_char_eq in E. split; [intros ->; by rewrite E | by intros [= _ ->]].
Qed.

(** ** The stream *)

(** [fgets] at a position of the file: what it stores, as many bytes as a line has
    and the buffer takes, and the position after it. *)
Definition ini_read (size : nat) (data : bytes) (pos : nat) : option (bytes * nat) :=
  match drop pos data with
  | [] => None
  | rest => let line := fst (fgets_take (size - 1) rest) in Some (line, (pos + length line)%nat)
  end.

(** ** Sections and keys *)

(** [sp] is a line whose last bracket is at [ep]. *)
Definition section_is (Section : bytes) (sp : bytes) (ep : nat) : bool :=
  (ep - 1 =? length Section)%nat && str_caseeq (take (length Section) (drop 1 sp)) Section.

(** The end of the key of a line: the equal sign, or else the colon. *)
Definition key_end (sp : bytes) : option nat :=
  match strchr "="%char sp with
  | Some ep => Some ep
  | None => strchr ":"%char sp
  end.

Definition key_is (Key : bytes) (sp : bytes) (ep : nat) : bool :=
  (0 <? length Key)%nat && (skiptrailing sp ep =? length Key)%nat && str_caseeq (take (length Key) sp) Key.

Definition comment (sp : bytes) : bool := head_is ";"%char sp || head_is "#"%char sp.

(** The loop over the lines until a section is found by its name or its number:
    its line and the index of the bracket, and the number reached. The inner [None]
    is the end of the file, the outer one is reached only when the fuel is too small. *)
Fixpoint find_section (fuel : nat) (data : bytes) (Section : option bytes) (idxSection idx : Z) (pos : nat)
    : option (option (bytes * nat * Z) * nat) :=
  match fuel with
  | O => None
  | S fuel =>
    match ini_read INI_BUFFERSIZE data pos with
    | None => Some (None, pos)
    | Some (line, pos) =>
      let sp := skipleading (until_nul line) in
      match strrchr "]"%char sp with
      | Some ep =>
        if negb (head_is "["%char sp) then find_section fuel data Section idxSection idx pos
        else if match Section with Some s => section_is s sp ep | None => false end
        then Some (Some (sp, ep, idx), pos)
        else if idx + 1 =? idxSection then Some (Some (sp, ep, idx + 1), pos)
        else find_section fuel data Section idxSection (idx + 1) pos
      | None => find_section fuel data Section idxSection idx pos
      end
    end
  end.

(** The loop over the lines until a key is found, or the section ends; with the
    positions before and after the last line read. *)
Fixpoint find_key (fuel : nat) (data : bytes) (Key : option bytes) (idxKey idx : Z) (pos : nat)
    : option (option (bytes * nat * Z) * nat * nat) :=
  match fuel with
  | O => None
  | S fuel =>
    let mark := pos in
    match ini_read INI_BUFFERSIZE data pos with
    | None => Some (None, mark, pos)
    | Some (line, pos) =>
      let sp := skipleading (until_nul line) in
      if head_is "["%char sp then Some (None, mark, pos)
      else
        match key_end sp with
        | Some ep =>
          if comment sp then find_key fuel data Key idxKey idx pos
          else if match Key with Some k => key_is k sp ep | None => false end
          then Some (Some (sp, ep, idx), mark, pos)
          else if idx + 1 =? idxKey then Some (Some (sp, ep, idx + 1), mark, pos)
          else find_key fuel data Key idxKey (idx + 1) pos
        | None => find_key fuel data Key idxKey idx pos
        end
    end
  end.

(** The result (the text in the buffer, or [None] for a return of 0), the mark and
    the position of the stream. A read consumes a byte, so the length of the file
    bounds the number of turns. *)
Definition getkeystring (data : bytes) (Section Key : option bytes) (idxSection idxKey : Z) (BufferSize pos : nat)
    : option (option bytes * nat * nat) :=
  let len := length (default [] Section) in
  do! (found, pos) :=
    (if (0 <? len)%nat || (0 <=? idxSection)
     then find_section (S (length data)) data Section idxSection (-1) pos
     else Some (Some ([], 0%nat, -1), pos));
  match found with
  | None => Some (None, pos, pos)
  | Some (sp, ep, idx) =>
    if 0 <=? idxSection then
      if idx =? idxSection
      then do! b := ini_strncpy (take (ep - 1) (drop 1 sp)) BufferSize QUOTE_NONE; Some (Some b, pos, pos)
      else Some (None, pos, pos)
    else
      assert! bool_decide (is_Some Key) || (0 <=? idxKey);
      do! (found, mark, pos) := find_key (S (length data)) data Key idxKey (-1) pos;
      match found with
      | None => Some (None, mark, pos)
      | Some (sp, ep, idx) =>
        if 0 <=? idxKey then
          if idx =? idxKey
          then do! b := ini_strncpy (striptrailing (take ep sp)) BufferSize QUOTE_NONE; Some (Some b, mark, pos)
          else Some (None, mark, pos)
        else
          let '(text, quotes) := cleanstring (skipleading (drop (S ep) sp)) in
          do! b := ini_strncpy text BufferSize quotes;
          Some (Some b, mark, pos)
      end
  end.

(** ** The functions that read *)

(** [fopen] for reading: the content, when the call works and the file exists. *)
Definition ini_openread (Filename : bytes) (w : world) : option bytes * world :=
  let '(ok, w) := sys w in
  (if ok then f_data <$> w_files w !! Filename else None, w).

(** [fclose]; its result is ignored. *)
Definition ini_close (w : world) : world := snd (sys w).

(** Open, search, close: the text found. *)
Definition ini_lookup (Section Key : option bytes) (idxSection idxKey : Z) (BufferSize : Z) (Filename : bytes) (w : world)
    : option (option bytes * world) :=
  match ini_openread Filename w with
  | (None, w) => Some (None, w)
  | (Some data, w) =>
    do! (b, _, _) := getkeystring data Section Key idxSection idxKey (Z.to_nat BufferSize) 0;
    Some (b, ini_close w)
  end.

(** The length returned and the text of the buffer; a call with bad arguments leaves
    [Buffer]. *)
Definition ini_gets (Section Key DefValue : option bytes) (Buffer : bytes) (BufferSize : Z) (Filename : bytes) (w : world)
    : option (Z * bytes * world) :=
  if (BufferSize <=? 0) || negb (bool_decide (is_Some Key)) then Some (0, Buffer, w)
  else
    do! (b, w) := ini_lookup Section Key (-1) (-1) BufferSize Filename w;
    do! b := (match b with
              | Some b => Some b
              | None => ini_strncpy (default [] DefValue) (Z.to_nat BufferSize) QUOTE_NONE
              end);
    Some (zlen b, b, w).

(** [toupper] *)
Definition toupper (c : byte) : byte :=
  if (97 <=? code c) && (code c <=? 122) then chr (code c - 32) else c.

(** [strtol(s, NULL, 16)]: the value, 0 without digits. *)
Definition hex_digit (c : byte) : option Z :=
  let u := code (toupper c) in
  if is_digit c then Some (code c - 48)
  else if (65 <=? u) && (u <=? 70) then Some (u - 55) else None.

Fixpoint hex_digits (acc : Z) (s : bytes) : Z :=
  match s with
  | c :: s => match hex_digit c with Some d => hex_digits (16 * acc + d) s | None => acc end
  | [] => acc
  end.

Definition strtol16 (s : bytes) : Z :=
  let '(neg, s) := sign (skip_space s) in
  let s := match s with
           | z :: x :: d :: _ =>
             if bool_decide (z = "0"%char) && bool_decide (toupper x = "X"%char) && bool_decide (is_Some (hex_digit d))
             then drop 2 s else s
           | _ => s
           end in
  let v := hex_digits 0 s in
  fst (clamp_long (if neg then - v else v)).

Definition strtol10 (s : bytes) : Z :=
  match strtol s with Some (v, _, _) => v | None => 0 end.

Definition ini_getl (Section Key : option bytes) (DefValue : Z) (Filename : bytes) (w : world) : option (Z * world) :=
  do! (len, LocalBuffer, w) := ini_gets Section Key (Some []) [] 64 Filename w;
  Some (if len =? 0 then DefValue
        else if match LocalBuffer with _ :: c :: _ => bool_decide (toupper c = "X"%char) | _ => false end
        then strtol16 LocalBuffer else strtol10 LocalBuffer, w).

(** [float] and its conversions [strtod] and [sprintf] with [%f] are the C library's. *)
Class ini_real (R : Type) := { ini_atof : bytes -> R; ini_ftoa : R -> bytes }.

Definition ini_getf `{ini_real R} (Section Key : option bytes) (DefValue : R) (Filename : bytes) (w : world) : option (R * world) :=
  do! (len, LocalBuffer, w) := ini_gets Section Key (Some []) [] 64 Filename w;
  Some (if len =? 0 then DefValue else ini_atof LocalBuffer, w).

Definition ini_getbool (Section Key : option bytes) (DefValue : Z) (Filename : bytes) (w : world) : option (Z * world) :=
  do! (_, LocalBuffer, w) := ini_gets Section Key (Some []) [] 2 Filename w;
  Some (match LocalBuffer with
        | c :: _ =>
          let c := toupper c in
          if bool_decide (c = "Y"%char) || bool_decide (c = "1"%char) || bool_decide (c = "T"%char) then 1
          else if bool_decide (c = "N"%char) || bool_decide (c = "0"%char) || bool_decide (c = "F"%char) then 0
          else DefValue
        | [] => DefValue
        end, w).

Definition ini_getsection (idx : Z) (Buffer : bytes) (BufferSize : Z) (Filename : bytes) (w : world)
    : option (Z * bytes * world) :=
  if (BufferSize <=? 0) || (idx <? 0) then Some (0, Buffer, w)
  else
    do! (b, w) := ini_lookup None None idx (-1) BufferSize Filename w;
    let b := default [] b in Some (zlen b, b, w).

Definition ini_getkey (Section : option bytes) (idx : Z) (Buffer : bytes) (BufferSize : Z) (Filename : bytes) (w : world)
    : option (Z * bytes * world) :=
  if (BufferSize <=? 0) || (idx <? 0) then Some (0, Buffer, w)
  else
    do! (b, w) := ini_lookup Section None (-1) idx BufferSize Filename w;
    let b := default [] b in Some (zlen b, b, w).

(** What [ini_browse] makes of a line: the name of a section, a key with its value,
    or nothing. [lenSec] bytes of the buffer hold the name of the present section. *)
Inductive browsed : Type :=
| BSection (name : bytes)
| BKey (key value : bytes)
| BNothing.

Definition browse_key (lenSec : nat) (sp : bytes) : option browsed :=
  match key_end sp with
  | None => Some BNothing
  | Some ep =>
    do! key := ini_strncpy (striptrailing (take ep sp)) (INI_BUFFERSIZE - lenSec) QUOTE_NONE;
    let lenKey := S (length key) in
    let '(text, quotes) := cleanstring (skipleading (drop (S ep) sp)) in
    do! value := ini_strncpy text (INI_BUFFERSIZE - lenSec - lenKey) quotes;
    Some (BKey key value)
  end.

Definition browse_line (lenSec : nat) (line : bytes) : option browsed :=
  let sp := skipleading (until_nul line) in
  if bool_decide (sp = []) || comment sp then Some BNothing
  else
    match strrchr "]"%char sp with
    | Some ep =>
      if head_is "["%char sp
      then do! name := ini_strncpy (take (ep - 1) (drop 1 sp)) INI_BUFFERSIZE QUOTE_NONE; Some (BSection name)
      else browse_key lenSec sp
    | None => browse_key lenSec sp
    end.

Fixpoint browse_loop {X} (fuel : nat) (Callback : X -> bytes -> bytes -> bytes -> bool * X) (data section : bytes)
    (pos : nat) (UserData : X) : option X :=
  match fuel with
  | O => None
  | S fuel =>
    let lenSec := S (length section) in
    match ini_read (INI_BUFFERSIZE - lenSec) data pos with
    | None => Some UserData
    | Some (line, pos) =>
      do! b := browse_line lenSec line;
      match b with
      | BNothing => browse_loop fuel Callback data section pos UserData
      | BSection name => browse_loop fuel Callback data name pos UserData
      | BKey key value =>
        let '(go, UserData) := Callback UserData section key value in
        if go then browse_loop fuel Callback data section pos UserData else Some UserData
      end
    end
  end.

Definition ini_browse {X} (Callback : X -> bytes -> bytes -> bytes -> bool * X) (UserData : X) (Filename : bytes) (w : world)
    : option (Z * X * world) :=
  match ini_openread Filename w with
  | (None, w) => Some (0, UserData, w)
  | (Some data, w) =>
    do! UserData := browse_loop (S (length data)) Callback data [] 0 UserData;
    Some (1, UserData, ini_close w)
  end.

(** ** The reference: a file as its lines *)

(** The lines of a file, each with its newline; the last one may lack it. *)
Fixpoint lines (d : bytes) : list bytes :=
  match d with
  | [] => []
  | c :: d =>
    if bool_decide (c = LF) then [c] :: lines d
    else match lines d with [] => [[c]] | l :: ls => (c :: l) :: ls end
  end.

Definition is_heading (l : bytes) : bool := head_is "["%char (skipleading l).

Definition section_line (Section : bytes) (l : bytes) : bool :=
  let sp := skipleading l in
  is_heading l && match strrchr "]"%char sp with Some ep => section_is Section sp ep | None => false end.

Definition is_key_line (Key : bytes) (l : bytes) : bool :=
  let sp := skipleading l in
  match key_end sp with Some ep => negb (comment sp) && key_is Key sp ep | None => false end.

(** The value on a line, without the limit of a buffer. *)
Definition line_value (l : bytes) : bytes :=
  let sp := skipleading l in
  let '(text, quotes) := cleanstring (skipleading (drop (S (default 0%nat (key_end sp))) sp)) in
  match quotes with QUOTE_DEQUOTE => dequote text (length text) | _ => text end.

(** The lines after the first heading of a section; of no section, all lines. *)
Fixpoint after_heading (Section : bytes) (ls : list bytes) : option (list bytes) :=
  match ls with
  | [] => None
  | l :: ls => if section_line Section l then Some ls else after_heading Section ls
  end.

Definition section_lines (Section : bytes) (ls : list bytes) : option (list bytes) :=
  match Section with [] => Some ls | _ => after_heading Section ls end.

(** The first line with the key before the next heading. *)
Fixpoint key_in (Key : bytes) (ls : list bytes) : option bytes :=
  match ls with
  | [] => None
  | l :: ls => if is_heading l then None else if is_key_line Key l then Some l else key_in Key ls
  end.

(** The value of a key in a section. *)
Definition setting (Section Key : bytes) (ls : list bytes) : option bytes :=
  do! body := section_lines Section ls;
  do! l := key_in Key body;
  Some (line_value l).

(** A file as the program writes it: no NUL, and every line fits the buffer. *)
Definition ini_line (l : bytes) : Prop := has_char NUL l = false /\ (length l < INI_BUFFERSIZE)%nat.
Definition ini_text (data : bytes) : Prop := Forall ini_line (lines data).

(** * Lemmas *)

(** ** Lines *)

Lemma concat_lines d : concat (lines d) = d.
Proof.
  induction d as [|c d IH]; [done |]. cbn [lines]. case_bool_decide; cbn [concat].
  - by rewrite IH.
  - destruct (lines d) as [|l ls]; cbn [concat] in *; [by rewrite <- IH | by rewrite <- IH].
Qed.

(** A list of lines: all but the last end in a newline, and none has one before. *)
Fixpoint line_list (ls : list bytes) : Prop :=
  match ls with
  | [] => True
  | l :: ls => l <> [] /\ has_char LF (removelast l) = false /\ (ls <> [] -> last l = Some LF) /\ line_list ls
  end.

Lemma removelast_cons {A} (c : A) l : l <> [] -> removelast (c :: l) = c :: removelast l.
Proof. by destruct l. Qed.

Lemma line_list_lines d : line_list (lines d).
Proof.
  induction d as [|c d IH]; [done |]. cbn [lines]. case_bool_decide as Hc.
  - subst c. by split_and!.
  - destruct (lines d) as [|l ls]; [by split_and!; intros |]. destruct IH as (Hl & Hf & Ht & IH). split_and!; [done | | | done].
    + rewrite removelast_cons by done. cbn. by rewrite bool_decide_eq_false_2.
    + intros Hls. specialize (Ht Hls). by destruct l.
Qed.

Lemma removelast_snoc {A} (l : list A) x : removelast (l ++ [x]) = l.
Proof. rewrite removelast_app by done. apply app_nil_r. Qed.

(** A line is its body and a newline, or the end of a file without one. *)
Lemma line_shape l : l <> [] -> has_char LF (removelast l) = false ->
  (exists b, l = b ++ [LF] /\ has_char LF b = false) \/ (last l <> Some LF /\ has_char LF l = false).
Proof.
  intros Hl. destruct l as [|x b _] using rev_ind; [done |]. rewrite removelast_snoc. intros Hb.
  rewrite last_snoc. destruct (decide (x = LF)) as [-> | Hx]; [left; by exists b | right].
  split; [congruence |]. rewrite has_char_app, Hb. cbn. by rewrite bool_decide_eq_false_2.
Qed.

Lemma lines_body b rest : has_char LF b = false -> lines (b ++ LF :: rest) = (b ++ [LF]) :: lines rest.
Proof.
  induction b as [|c b IH]; intros H; cbn in H |- *; [done |]. zbool. rewrite bool_decide_eq_false_2 by done.
  change (b ++ "010"%char :: rest) with (b ++ LF :: rest). by rewrite IH.
Qed.

Lemma lines_open l : l <> [] -> has_char LF l = false -> lines l = [l].
Proof.
  induction l as [|c l IH]; intros Hl H; [done |]. cbn in H |- *. zbool. rewrite bool_decide_eq_false_2 by done.
  destruct l as [|d l]; [done |]. by rewrite IH.
Qed.

(** Lines put together are read back as they were. *)
Lemma lines_concat ls : line_list ls -> lines (concat ls) = ls.
Proof.
  induction ls as [|l ls IH]; [done |]. intros (Hl & Hf & Ht & Hls). cbn [concat].
  destruct (line_shape l Hl Hf) as [(b & -> & Hb) | [Hn Hb]].
  - rewrite <- app_assoc. cbn [app]. rewrite lines_body by done. by rewrite IH.
  - destruct ls as [|l2 ls]; [| by destruct Hn; apply Ht]. cbn [concat]. rewrite app_nil_r. by apply lines_open.
Qed.

Lemma line_list_app l1 l2 : line_list (l1 ++ l2) <->
  line_list l1 /\ line_list l2 /\ (l2 <> [] -> forall l, last l1 = Some l -> last l = Some LF).
Proof.
  induction l1 as [|l l1 IH]; cbn [app line_list]; [split; [intros H; by split_and! | by intros (_ & H & _)] |].
  rewrite IH. split.
  - intros (H1 & H2 & H3 & H4 & H5 & H6). split_and!; try done.
    + intros Hl. apply H3. by destruct l1.
    + intros Hl x. destruct l1 as [|y l1]; cbn [last].
      * intros [= <-]. apply H3. done.
      * apply H6. done.
  - intros ((H1 & H2 & H3 & H4) & H5 & H6). split_and!; try done.
    + intros Hl. destruct l1 as [|y l1]; [by apply (H6 Hl) | by apply H3].
    + intros Hl x Hx. apply (H6 Hl). destruct l1; done.
Qed.

(** ** Reading lines *)

Lemma fgets_take_line l rest n : l <> [] -> has_char LF (removelast l) = false ->
  (rest <> [] -> last l = Some LF) -> (length l <= n)%nat -> fst (fgets_take n (l ++ rest)) = l.
Proof.
  intros Hl Hf Ht Hn. destruct (line_shape l Hl Hf) as [(b & -> & Hb) | [Hx Hb]].
  - rewrite <- app_assoc. rewrite length_app in Hn. cbn in Hn. cbn [app]. by rewrite fgets_line by (done || lia).
  - destruct rest as [|c rest]; [| by destruct Hx; apply Ht]. rewrite app_nil_r. clear Hl Hf Ht Hx.
    revert n Hn. induction l as [|c l IH]; intros [|n] Hn; cbn in *; try done; [lia |]. zbool.
    rewrite bool_decide_eq_false_2 by done. specialize (IH ltac:(done) n ltac:(lia)).
    destruct (fgets_take n l) as [a r]. cbn in *. by rewrite IH.
Qed.

(** What is left of the stream is a list of lines that fit the buffer. *)
Definition at_lines (data : bytes) (pos : nat) (rest : list bytes) : Prop :=
  drop pos data = concat rest /\ line_list rest /\ Forall ini_line rest.

Lemma at_lines_start data : ini_text data -> at_lines data 0 (lines data).
Proof. intros H. split_and!; [by rewrite concat_lines | apply line_list_lines | done]. Qed.

Lemma read_some size data pos : drop pos data <> [] ->
  ini_read size data pos = let l := fst (fgets_take (size - 1) (drop pos data)) in Some (l, (pos + length l)%nat).
Proof. unfold ini_read. by destruct (drop pos data). Qed.

Lemma read_line size data pos l rest : at_lines data pos (l :: rest) -> (length l < size)%nat ->
  ini_read size data pos = Some (l, (pos + length l)%nat) /\ at_lines data (pos + length l) rest /\
  until_nul l = l /\ l <> [].
Proof.
  intros (Hd & (Hl & Hf & Ht & Hr) & [[Hn Hlen] Hi]%Forall_cons) Hs. cbn [concat] in Hd. split_and!; [| | | done].
  - rewrite read_some by (rewrite Hd; by destruct l). cbv zeta. rewrite Hd, fgets_take_line; [done | done | done | | lia].
    intros Hrest. apply Ht. by intros ->.
  - split_and!; [| done | done]. by rewrite <- drop_drop, Hd, drop_app_length.
  - by apply until_nul_cstring.
Qed.

Lemma read_end size data pos : at_lines data pos [] -> ini_read size data pos = None.
Proof. intros (Hd & _). unfold ini_read. by rewrite Hd. Qed.

(** Any read of a file moves on and fits the buffer. *)
Lemma length_fgets_take n s : (length (fst (fgets_take n s)) <= n)%nat /\
  (length (fst (fgets_take n s)) <= length s)%nat /\ (s <> [] -> (0 < n)%nat -> (0 < length (fst (fgets_take n s)))%nat).
Proof.
  revert n. induction s as [|c s IH]; intros [|n]; cbn; try (split_and!; done || lia).
  case_bool_decide; cbn; [split_and!; lia |]. specialize (IH n). destruct (fgets_take n s) as [l r]. cbn in *. lia.
Qed.

Lemma read_progress size data pos line pos' : (2 <= size)%nat -> ini_read size data pos = Some (line, pos') ->
  (pos < pos' <= length data)%nat /\ (length line < size)%nat.
Proof.
  intros Hs. destruct (decide (drop pos data = [])) as [E | E]; [unfold ini_read; by rewrite E |].
  rewrite read_some by done. intros [= <- <-]. destruct (length_fgets_take (size - 1) (drop pos data)) as (H1 & H2 & H3).
  specialize (H3 E ltac:(lia)). rewrite length_drop in H2. lia.
Qed.

(** ** The loops end on any file *)

Lemma find_section_total data Section idxSection fuel : forall idx pos, (pos <= length data)%nat -> (length data < fuel + pos)%nat ->
  exists r pos', find_section fuel data Section idxSection idx pos = Some (r, pos') /\ (pos' <= length data)%nat.
Proof.
  induction fuel as [|fuel IH]; intros idx pos Hp Hf; [lia |]. cbn [find_section].
  destruct (ini_read _ data pos) as [[line pos1]|] eqn:E; [| by eexists _, _].
  apply read_progress in E as [Hp1 _]; [| unfold INI_BUFFERSIZE; lia].
  repeat case_match; try (by eexists _, _; split; [reflexivity | lia]); apply IH; lia.
Qed.

Lemma find_key_total data Key idxKey fuel : forall idx pos, (pos <= length data)%nat -> (length data < fuel + pos)%nat ->
  exists r mark pos', find_key fuel data Key idxKey idx pos = Some (r, mark, pos').
Proof.
  induction fuel as [|fuel IH]; intros idx pos Hp Hf; [lia |]. cbn [find_key].
  destruct (ini_read _ data pos) as [[line pos1]|] eqn:E; [| by eexists _, _, _].
  apply read_progress in E as [Hp1 _]; [| unfold INI_BUFFERSIZE; lia].
  repeat case_match; try (by eexists _, _, _); apply IH; lia.
Qed.

Lemma length_enquote s : forall n, (length (enquote s n) <= n)%nat.
Proof.
  induction s as [|c s IH]; intros [|n]; cbn; try lia. case_bool_decide; cbn.
  - destruct n as [|n]; cbn; [lia |]. specialize (IH n). lia.
  - specialize (IH n). lia.
Qed.

Lemma dequote_cons c d s n : dequote (c :: d :: s) (S n) =
  if (bool_decide (c = DQ) || bool_decide (c = BSL)) && bool_decide (d = DQ) then d :: dequote s n else c :: dequote (d :: s) n.
Proof. reflexivity. Qed.

Lemma length_dequote n : forall s, (length (dequote s n) <= n)%nat.
Proof.
  induction n as [|n IH]; intros [|c [|d s]]; try (cbn; lia). rewrite dequote_cons.
  destruct (_ && _); cbn [length]; [specialize (IH s) | specialize (IH (d :: s))]; lia.
Qed.

(** A copy fits, its terminator included. *)
Lemma strncpy_fits s n o : (0 < n)%nat -> exists b, ini_strncpy s n o = Some b /\ (length b < n)%nat.
Proof.
  intros Hn. unfold ini_strncpy. rewrite (proj2 (Nat.ltb_lt _ _) Hn). eexists. split; [done |]. destruct o.
  - rewrite length_take. lia.
  - destruct (n <? 3)%nat eqn:E; [rewrite length_take; lia |]. apply Nat.ltb_ge in E. cbn. rewrite length_app.
    pose proof (length_enquote s (n - 3)). cbn. lia.
  - pose proof (length_dequote (n - 1) s). lia.
Qed.

Lemma getkeystring_total data Section Key idxSection idxKey size pos : (0 < size)%nat -> (pos <= length data)%nat ->
  is_Some Key \/ 0 <= idxKey \/ 0 <= idxSection ->
  exists b mark pos', getkeystring data Section Key idxSection idxKey size pos = Some (b, mark, pos') /\
    forall t, b = Some t -> (length t < size)%nat.
Proof.
  intros Hs Hp Hk. unfold getkeystring.
  assert (H : exists r pos1, (if (0 <? length (default [] Section))%nat || (0 <=? idxSection)
     then find_section (S (length data)) data Section idxSection (-1) pos
     else Some (Some ([], 0%nat, -1), pos)) = Some (r, pos1) /\ (pos1 <= length data)%nat).
  { destruct (_ || _); [apply find_section_total; lia | by eexists _, _]. }
  destruct H as (r & pos1 & -> & Hp1). destruct r as [[[sp ep] idx]|]; [| by eexists _, _, _].
  destruct (0 <=? idxSection) eqn:Es.
  - destruct (_ =? _); [| by eexists _, _, _].
    destruct (strncpy_fits (take (ep - 1) (drop 1 sp)) size QUOTE_NONE Hs) as (b & -> & Hb).
    eexists _, _, _. split; [done |]. by intros t [= <-].
  - zbool. rewrite (proj2 (orb_true_iff _ _)).
    2: { destruct Hk as [Hk | [Hk | Hk]]; [left; by apply bool_decide_eq_true | right; by apply Z.leb_le | lia]. }
    destruct (find_key_total data Key idxKey (S (length data)) (-1) pos1) as (r & mark & pos2 & ->); [lia | lia |].
    destruct r as [[[sp2 ep2] idx2]|]; [| by eexists _, _, _].
    destruct (0 <=? idxKey); [destruct (_ =? _); [| by eexists _, _, _] |].
    + destruct (strncpy_fits (striptrailing (take ep2 sp2)) size QUOTE_NONE Hs) as (b & -> & Hb).
      eexists _, _, _. split; [done |]. by intros t [= <-].
    + destruct (cleanstring _) as [text q]. destruct (strncpy_fits text size q Hs) as (b & -> & Hb).
      eexists _, _, _. split; [done |]. by intros t [= <-].
Qed.

(** ** The loops compute the reference *)

Lemma length_line_list ls : line_list ls -> (length ls <= length (concat ls))%nat.
Proof.
  induction ls as [|l ls IH]; [done |]. intros (Hl & _ & _ & H). cbn [concat]. rewrite length_app. specialize (IH H).
  destruct l; [done |]. cbn. lia.
Qed.

Lemma at_lines_fuel data pos ls : at_lines data pos ls -> (length ls < S (length data))%nat.
Proof.
  intros (Hd & Hl & _). apply length_line_list in Hl. rewrite <- Hd, length_drop in Hl. lia.
Qed.

Lemma at_lines_here data pos ls : at_lines data pos ls -> take pos data ++ concat ls = data.
Proof. intros (<- & _). apply take_drop. Qed.

Lemma find_section_lines data Section fuel : forall ls idx pos, at_lines data pos ls -> (length ls < fuel)%nat -> -1 <= idx ->
  match after_heading Section ls with
  | Some rest => exists sp ep idx' pos', find_section fuel data (Some Section) (-1) idx pos = Some (Some (sp, ep, idx'), pos') /\
      at_lines data pos' rest
  | None => exists pos', find_section fuel data (Some Section) (-1) idx pos = Some (None, pos')
  end.
Proof.
  induction fuel as [|fuel IH]; intros ls idx pos Ha Hf Hi; [lia |]. cbn [find_section].
  destruct ls as [|l ls]; [rewrite (read_end _ _ _ Ha); by eexists |]. cbn [after_heading].
  assert (Hl : (length l < INI_BUFFERSIZE)%nat) by (destruct Ha as (_ & _ & Ha); by apply Forall_cons in Ha as [[_ ?] _]).
  destruct (read_line INI_BUFFERSIZE _ _ _ _ Ha Hl) as (-> & Ha1 & -> & _). unfold section_line, is_heading.
  cbn [length] in Hf.
  destruct (strrchr "]"%char (skipleading l)) as [ep|]; [| rewrite andb_false_r; apply IH; done || lia].
  destruct (head_is "["%char (skipleading l)); cbn [negb andb]; [| apply IH; done || lia].
  destruct (section_is Section (skipleading l) ep); [by eexists _, _, _, _ |].
  rewrite (proj2 (Z.eqb_neq (idx + 1) (-1))) by lia. apply IH; done || lia.
Qed.

Lemma find_key_lines data Key fuel : forall ls idx pos, at_lines data pos ls -> (length ls < fuel)%nat -> -1 <= idx ->
  match key_in Key ls with
  | Some l => exists before after ep idx' mark pos', ls = before ++ l :: after /\
      Forall (fun x => is_heading x = false /\ is_key_line Key x = false) before /\ is_heading l = false /\ is_key_line Key l = true /\
      key_end (skipleading l) = Some ep /\
      find_key fuel data (Some Key) (-1) idx pos = Some (Some (skipleading l, ep, idx'), mark, pos') /\
      at_lines data mark (l :: after) /\ pos' = (mark + length l)%nat /\ at_lines data pos' after
  | None => exists mark pos', find_key fuel data (Some Key) (-1) idx pos = Some (None, mark, pos')
  end.
Proof.
  induction fuel as [|fuel IH]; intros ls idx pos Ha Hf Hi; [lia |]. cbn [find_key].
  destruct ls as [|l ls]; [rewrite (read_end _ _ _ Ha); by eexists _, _ |]. cbn [key_in].
  assert (Hl : (length l < INI_BUFFERSIZE)%nat) by (destruct Ha as (_ & _ & Ha'); by apply Forall_cons in Ha' as [[_ ?] _]).
  destruct (read_line INI_BUFFERSIZE _ _ _ _ Ha Hl) as (-> & Ha1 & -> & _). change (head_is "["%char (skipleading l)) with (is_heading l).
  cbn [length] in Hf. destruct (is_heading l) eqn:Hh; [by eexists _, _ |].
  assert (Hnext : forall idx', -1 <= idx' -> is_key_line Key l = false ->
    match key_in Key ls with
    | Some l0 => exists before after ep i mark pos', l :: ls = before ++ l0 :: after /\
        Forall (fun x => is_heading x = false /\ is_key_line Key x = false) before /\ is_heading l0 = false /\ is_key_line Key l0 = true /\
        key_end (skipleading l0) = Some ep /\
        find_key fuel data (Some Key) (-1) idx' (pos + length l) = Some (Some (skipleading l0, ep, i), mark, pos') /\
        at_lines data mark (l0 :: after) /\ pos' = (mark + length l0)%nat /\ at_lines data pos' after
    | None => exists mark pos', find_key fuel data (Some Key) (-1) idx' (pos + length l) = Some (None, mark, pos')
    end).
  { intros idx' Hi' Hk. specialize (IH ls idx' (pos + length l)%nat Ha1 ltac:(lia) Hi'). destruct (key_in Key ls) as [l0|]; [| done].
    destruct IH as (before & after & ep & i & mark & pos' & -> & Hb & H). exists (l :: before), after, ep, i, mark, pos'.
    split; [done |]. split; [by constructor | done]. }
  assert (Hkl : is_key_line Key l = match key_end (skipleading l) with
    Some ep => negb (comment (skipleading l)) && key_is Key (skipleading l) ep | None => false end) by done.
  destruct (key_end (skipleading l)) as [ep|] eqn:Ee; [| rewrite Hkl; by apply Hnext].
  destruct (comment (skipleading l)); cbn [negb andb] in Hkl; [rewrite Hkl; by apply Hnext |].
  destruct (key_is Key (skipleading l) ep); rewrite Hkl.
  - by exists [], ls, ep, idx, pos, (pos + length l)%nat.
  - rewrite (proj2 (Z.eqb_neq (idx + 1) (-1))) by lia. apply Hnext; [lia | done].
Qed.

(** A copy is a prefix of the value without limit. *)
Lemma dequote_take n : forall s m, (n <= m)%nat -> dequote s n = take n (dequote s m).
Proof.
  induction n as [|n IH]; intros s m Hm; [by destruct s; rewrite take_0 |].
  destruct m as [|m]; [lia |]. destruct s as [|c [|d s]]; [done | cbn; by rewrite take_nil |]. rewrite !dequote_cons.
  destruct (_ && _); cbn [take]; by rewrite (IH _ m) by lia.
Qed.

Lemma dequote_enough s n : (length s <= n)%nat -> dequote s n = dequote s (length s).
Proof.
  intros Hn. rewrite (dequote_take (length s) s n Hn). rewrite take_ge; [done |].
  clear Hn. revert n. assert (H : forall k s n, (length s <= k)%nat -> (length (dequote s n) <= length s)%nat).
  { induction k as [|k IH]; intros [|c [|d t]] [|n] Hk; try (cbn in *; lia). rewrite dequote_cons.
    destruct (_ && _); cbn [length] in *; [specialize (IH t n ltac:(lia)) | specialize (IH (d :: t) n ltac:(cbn; lia))]; cbn in *; lia. }
  intros n. by apply (H (length s)).
Qed.

Lemma copy_value s q size : q <> QUOTE_ENQUOTE -> (0 < size)%nat ->
  ini_strncpy s size q = Some (take (size - 1) (match q with QUOTE_DEQUOTE => dequote s (length s) | _ => s end)).
Proof.
  intros Hq Hs. unfold ini_strncpy. rewrite (proj2 (Nat.ltb_lt _ _) Hs). destruct q; [done | done |]. f_equal.
  destruct (Nat.le_ge_cases (size - 1) (length s)) as [H | H]; [by apply dequote_take |].
  rewrite dequote_enough by done. symmetry. apply take_ge. by pose proof (length_dequote (length s) s); lia.
Qed.

(** Where the setting is: its line begins at the mark. *)
Lemma getkeystring_found data Section Key size : ini_text data -> (0 < size)%nat ->
  match section_lines (default [] Section) (lines data) with
  | Some body =>
    match key_in Key body with
    | Some l => exists before after head, body = before ++ l :: after /\
        Forall (fun x => is_heading x = false /\ is_key_line Key x = false) before /\ is_heading l = false /\ is_key_line Key l = true /\
        at_lines data head (l :: after) /\
        getkeystring data Section (Some Key) (-1) (-1) size 0 = Some (Some (take (size - 1) (line_value l)), head, (head + length l)%nat)
    | None => exists head tail, getkeystring data Section (Some Key) (-1) (-1) size 0 = Some (None, head, tail)
    end
  | None => exists head tail, getkeystring data Section (Some Key) (-1) (-1) size 0 = Some (None, head, tail)
  end.
Proof.
  intros Ht Hs. pose proof (at_lines_start _ Ht) as Ha. unfold section_lines, getkeystring. rewrite orb_false_r.
  set (search pos := do! (found, mark, pos) := find_key (S (length data)) data (Some Key) (-1) (-1) pos;
        match found with
        | None => Some (None, mark, pos)
        | Some (sp, ep, idx) =>
          let '(text, quotes) := cleanstring (skipleading (drop (S ep) sp)) in
          do! b := ini_strncpy text size quotes; Some (Some b, mark, pos)
        end).
  assert (Hkey : forall body pos, at_lines data pos body ->
    match key_in Key body with
    | Some l => exists before after head, body = before ++ l :: after /\
        Forall (fun x => is_heading x = false /\ is_key_line Key x = false) before /\ is_heading l = false /\ is_key_line Key l = true /\
        at_lines data head (l :: after) /\ search pos = Some (Some (take (size - 1) (line_value l)), head, (head + length l)%nat)
    | None => exists head tail, search pos = Some (None, head, tail)
    end).
  { intros body pos Hr. unfold search.
    pose proof (find_key_lines data Key (S (length data)) body (-1) pos Hr (at_lines_fuel _ _ _ Hr) ltac:(lia)) as H.
    destruct (key_in Key body) as [l|].
    - destruct H as (before & after & ep & idx & mark & pos' & -> & Hb & Hh & Hk & He & -> & Hm & -> & _).
      exists before, after, mark. split_and!; try done. unfold line_value. rewrite He.
      cbn [default]. unfold id. destruct (cleanstring _) as [text q] eqn:Ec. rewrite copy_value; [done | | done].
      unfold cleanstring in Ec. by destruct (_ && _); injection Ec as _ <-.
    - destruct H as (mark & pos' & ->). by eexists _, _. }
  destruct (default [] Section) as [|c s] eqn:Esec; cbn [length Nat.ltb Nat.leb]; [by apply Hkey |].
  assert (Section = Some (c :: s)) as -> by (destruct Section; cbn in Esec; unfold id in Esec; congruence).
  pose proof (find_section_lines data (c :: s) (S (length data)) (lines data) (-1) 0 Ha (at_lines_fuel _ _ _ Ha) ltac:(lia)) as H.
  destruct (after_heading (c :: s) (lines data)) as [body|].
  - destruct H as (sp & ep & idx & pos' & -> & Hr). by apply Hkey.
  - destruct H as (pos' & ->). by eexists _, _.
Qed.

Lemma getkeystring_lines data Section Key size : ini_text data -> (0 < size)%nat -> exists mark pos',
  getkeystring data Section (Some Key) (-1) (-1) size 0 =
    Some (take (size - 1) <$> setting (default [] Section) Key (lines data), mark, pos').
Proof.
  intros Ht Hs. pose proof (getkeystring_found data Section Key size Ht Hs) as H. unfold setting.
  destruct (section_lines _ _) as [body|]; [| done]. destruct (key_in Key body) as [l|]; [| done].
  destruct H as (before & after & head & _ & _ & _ & _ & _ & ->). by eexists _, _.
Qed.

(** What a file holds; a missing one holds nothing. *)
Definition content (Filename : bytes) (w : world) : bytes := default [] (f_data <$> w_files w !! Filename).

Lemma sys_works w : w_plan w = [] -> sys w = (true, w).
Proof. unfold sys, ask. by intros ->. Qed.

Lemma close_works w : w_plan w = [] -> ini_close w = w.
Proof. intros H. unfold ini_close. by rewrite sys_works. Qed.

Lemma ini_gets_works Section Key dflt buf size F w : w_plan w = [] -> ini_text (content F w) -> 0 < size ->
  let v := take (Z.to_nat size - 1) (default dflt (setting (default [] Section) Key (lines (content F w)))) in
  ini_gets Section (Some Key) (Some dflt) buf size F w = Some (zlen v, v, w).
Proof.
  intros Hp Ht Hs v. unfold ini_gets, ini_lookup, ini_openread. rewrite (proj2 (Z.leb_gt _ _) Hs), sys_works by done.
  cbn [orb negb bool_decide]. rewrite bool_decide_true by done. cbn [negb]. unfold v, content in *.
  destruct (w_files w !! F) as [f|]; cbn [fmap option_fmap option_map default] in *; unfold id in *.
  - destruct (getkeystring_lines (f_data f) Section Key (Z.to_nat size) Ht) as (mark & pos & ->); [lia |].
    rewrite close_works by done. destruct (setting _ Key (lines (f_data f))) as [t|]; [done |]. cbn [fmap option_fmap option_map].
    by rewrite (copy_value dflt QUOTE_NONE) by (done || lia).
  - rewrite (copy_value dflt QUOTE_NONE) by (done || lia). cbn [lines].
    assert (forall s, setting s Key [] = None) as -> by (by intros []). done.
Qed.

(** * Properties *)

(** Claim C37. Reading a setting through the buffer, line by line, gives what the list
    of lines of the file says: the value after the first line with the key, between
    the first heading of the section and the next heading, cleaned of blanks, comment
    and quotes; the default when there is none or no file; cut to the buffer. *)
Theorem ini_gets_reference Section Key dflt buf size F w :
  w_plan w = [] -> ini_text (content F w) -> 0 < size ->
  let v := take (Z.to_nat size - 1) (default dflt (setting (default [] Section) Key (lines (content F w)))) in
  ini_gets Section (Some Key) (Some dflt) buf size F w = Some (zlen v, v, w).
Proof. apply ini_gets_works. Qed.

Definition sample_config : bytes :=
  $"; settings" ++ [LF] ++ $"[Outgoing_SN]" ++ [LF] ++ $" send000 = 0041  # last" ++ [LF] ++ $"[names]" ++ [LF] ++
  $"own: " ++ [DQ] ++ $"a;b" ++ [BSL; DQ; DQ].

Definition ini_world (data : bytes) : world := mk_world {[ $"metaCom.config" := mk_file data true ]} [] [] [].

Lemma sample_config_text : ini_text sample_config.
Proof. unfold ini_text. vm_compute lines. repeat constructor; unfold INI_BUFFERSIZE; cbn; lia || done. Qed.

Lemma ini_gets_reference_witness :
  ini_gets (Some ($"outgoing_sn")) (Some ($"SEND000")) (Some ($"1")) [] 128 ($"metaCom.config") (ini_world sample_config) =
    Some (4, $"0041", ini_world sample_config) /\
  ini_gets (Some ($"names")) (Some ($"own")) (Some []) [] 3 ($"metaCom.config") (ini_world sample_config) =
    Some (2, $"a;", ini_world sample_config).
Proof.
  pose proof (ini_gets_reference (Some ($"outgoing_sn")) ($"SEND000") ($"1") [] 128 ($"metaCom.config") (ini_world sample_config)
    eq_refl sample_config_text eq_refl) as H1.
  pose proof (ini_gets_reference (Some ($"names")) ($"own") [] [] 3 ($"metaCom.config") (ini_world sample_config)
    eq_refl sample_config_text eq_refl) as H2.
  exact (conj H1 H2).
Defined.

(** Reading a setting ends and stays inside the buffer whatever the file
    holds (long lines, bytes of zero, unbalanced quotes and brackets) and whatever
    calls fail, and leaves every file as it is. *)
Theorem ini_gets_total Section Key dflt buf size F w : 0 < size ->
  exists b w', ini_gets Section (Some Key) dflt buf size F w = Some (zlen b, b, w') /\ zlen b < size /\ w_files w' = w_files w.
Proof.
  intros Hs. unfold ini_gets, ini_lookup, ini_openread. rewrite (proj2 (Z.leb_gt _ _) Hs). cbn [orb].
  rewrite bool_decide_true by done. cbn [negb]. pose proof (proj1 (sys_files w)) as Hf. destruct (sys w) as [ok w1]. cbn [snd] in Hf.
  assert (Hd : forall w2, w_files w2 = w_files w -> exists b w', (do! b := ini_strncpy (default [] dflt) (Z.to_nat size) QUOTE_NONE;
      Some (zlen b, b, w2)) = Some (zlen b, b, w') /\ zlen b < size /\ w_files w' = w_files w).
  { intros w2 H2. destruct (strncpy_fits (default [] dflt) (Z.to_nat size) QUOTE_NONE ltac:(lia)) as (b & -> & Hb).
    exists b, w2. split_and!; [done | unfold zlen; lia | done]. }
  destruct (if ok then f_data <$> w_files w1 !! F else None) as [data|]; [| by apply Hd].
  destruct (getkeystring_total data Section (Some Key) (-1) (-1) (Z.to_nat size) 0) as (b & mark & pos & -> & Hb); [lia | lia | by left |].
  assert (Hc : w_files (ini_close w1) = w_files w) by (unfold ini_close; rewrite (proj1 (sys_files w1)); done).
  destruct b as [b|]; [| by apply Hd]. specialize (Hb b eq_refl). exists b, (ini_close w1).
  split_and!; [done | unfold zlen; lia | done].
Qed.

Lemma ini_gets_total_witness : exists b w',
  ini_gets (Some ($"s")) (Some ($"k")) None [] 4 ($"metaCom.config") (ini_world ($"[s]" ++ [NUL; LF] ++ $"k=" ++ replicate 700 DQ)) =
    Some (zlen b, b, w') /\ zlen b < 4.
Proof.
  destruct (ini_gets_total (Some ($"s")) ($"k") None [] 4 ($"metaCom.config") (ini_world ($"[s]" ++ [NUL; LF] ++ $"k=" ++ replicate 700 DQ)))
    as (b & w' & H1 & H2 & _); [done |].
  exists b, w'. exact (conj H1 H2).
Defined.
