(* ===== verification/IniWrite.v ===== *)
(** * Settings: writing INI files

    [ini_puts] of [src/minIni.c]: a file is copied line by line to a temporary one
    with the line of the key replaced, added or left out, and the copy is renamed over
    the original; a line of the same length is written in place. The copy goes
    through a cache: the lengths of the lines read are added up, and when the buffer
    would overflow they are read a second time from the last mark and written out.

    The theorems state that this computes an edit of the list of lines, that what is
    written is read back and that no other setting changes; and what is lost when a
    call fails. *)

From S2P Require Import Prelude.
From S2P Require Import CString.
From S2P Require Import MqPersist.
From S2P Require Import Misc.
From S2P Require Import Ini.

(** ** Texts *)

(** The name with its last character replaced; without one the store is before the
    array. *)
Definition ini_tempname (source : bytes) (maxlength : nat) : option bytes :=
  do! dest := ini_strncpy source maxlength QUOTE_NONE;
  match dest with [] => None | _ => Some (removelast dest ++ ["~"%char]) end.

Definition check_enquote (Value : bytes) : quote_option :=
  if has_char DQ Value || has_char ";"%char Value || has_char "#"%char Value || bool_decide (last Value = Some SPC)
  then QUOTE_ENQUOTE else QUOTE_NONE.

(** The lines that [writesection] and [writekey] leave in the buffer. *)
Definition section_text (Section : bytes) : option bytes :=
  do! s := ini_strncpy Section (INI_BUFFERSIZE - 4) QUOTE_NONE;
  Some ("["%char :: s ++ "]"%char :: INI_LINETERM).

Definition key_text (Key Value : bytes) : option bytes :=
  do! k := ini_strncpy Key (INI_BUFFERSIZE - 3) QUOTE_NONE;
  do! v := ini_strncpy Value (INI_BUFFERSIZE - S (length k) - 2) (check_enquote Value);
  Some (k ++ "="%char :: v ++ INI_LINETERM).

(** ** Writing *)

(** [fputs]; its result is ignored. *)
Definition ini_write (text : bytes) (path : bytes) (w : world) : world := snd (fwrite path text w).

(** [fseek] and [fputs] on a file opened for update. *)
Definition ini_write_at (text : bytes) (pos : nat) (path : bytes) (w : world) : world :=
  let '(n, w) := match ask w with
    | (Works, w) => (length text, w)
    | (Fails, w) => (0%nat, w)
    | (Short n, w) => (Nat.min n (length text), w)
    end in
  let old := match w_files w !! path with Some f => f_data f | None => [] end in
  set_files w (<[path := mk_file (take pos old ++ take n text ++ drop (pos + n) old) false]> (w_files w)).

Definition writesection (Section : option bytes) (path : bytes) (w : world) : option world :=
  match Section with
  | None | Some [] => Some w
  | Some s => do! t := section_text s; Some (ini_write t path w)
  end.

Definition writekey (Key Value : bytes) (path : bytes) (w : world) : option world :=
  do! t := key_text Key Value; Some (ini_write t path w).

(** ** The copy *)

(** The position in the file read, the mark, the length of the cached lines, the text
    in the buffer, and the files. *)
Record copying : Type := mk_copying {
  c_pos : nat;
  c_mark : nat;
  c_len : nat;
  c_buf : bytes;
  c_world : world }.

Definition with_mark (st : copying) : copying := mk_copying (c_pos st) (c_pos st) (c_len st) (c_buf st) (c_world st).
Definition with_len (st : copying) n : copying := mk_copying (c_pos st) (c_mark st) n (c_buf st) (c_world st).
Definition with_world (st : copying) w : copying := mk_copying (c_pos st) (c_mark st) (c_len st) (c_buf st) w.

Definition cache_accum (string : bytes) (size max : nat) : option nat :=
  if (max <=? size + length string)%nat then None else Some (size + length string)%nat.

(** Reading [size] bytes again, [b] read so far. At the end of the file the loop
    would not end: [None]. A turn reads a byte, which bounds the fuel. *)
Fixpoint flush_loop (fuel : nat) (data : bytes) (size pos : nat) (b : bytes) : option (bytes * nat) :=
  if (size <=? length b)%nat then Some (b, pos)
  else
    match fuel with
    | O => None
    | S fuel =>
      match ini_read (INI_BUFFERSIZE - length b) data pos with
      | None => None
      | Some (line, pos) => flush_loop fuel data size pos (b ++ take (size - length b) (until_nul line))
      end
    end.

Section Copy.
Variable data : bytes.
Variable tmp : bytes.

(** [ini_read] into the buffer. *)
Definition next_line (st : copying) : bool * copying :=
  match ini_read INI_BUFFERSIZE data (c_pos st) with
  | None => (false, st)
  | Some (line, pos) => (true, mk_copying pos (c_mark st) (c_len st) (until_nul line) (c_world st))
  end.

Definition cache_flush (st : copying) : option (bool * copying) :=
  assert! (c_len st <=? INI_BUFFERSIZE)%nat;
  do! (b, pos) := flush_loop (S (length data)) data (c_len st) (c_mark st) [];
  let b := take (INI_BUFFERSIZE - 1) b in
  let w := match b with [] => c_world st | _ => ini_write b tmp (c_world st) end in
  Some ((1 <? length b)%nat && bool_decide (last b = Some LF), mk_copying pos pos 0 b w).

(** The line in the buffer is added to the cache, emptied before if it would
    overflow. *)
Definition accumulate (st : copying) : option copying :=
  match cache_accum (c_buf st) (c_len st) INI_BUFFERSIZE with
  | Some n => Some (with_len st n)
  | None =>
    do! (_, st) := cache_flush st;
    let '(_, st) := next_line st in
    Some match cache_accum (c_buf st) (c_len st) INI_BUFFERSIZE with Some n => with_len st n | None => st end
  end.

Definition put_text (t : bytes) (st : copying) : copying := with_world st (ini_write t tmp (c_world st)).

Definition put_key (Key Value : bytes) (st : copying) : option copying :=
  do! t := key_text Key Value;
  Some (mk_copying (c_pos st) (c_mark st) (c_len st) t (ini_write t tmp (c_world st))).

Definition put_section (Section : option bytes) (st : copying) : option copying :=
  do! w := writesection Section tmp (c_world st); Some (with_world st w).

(** The lines up to the heading of the section; whether it was found. *)
Fixpoint seek_section (fuel : nat) (Section : bytes) (keep : bool) (st : copying) : option (bool * copying) :=
  match fuel with
  | O => None
  | S fuel =>
    let '(ok, st) := next_line st in
    if negb ok then Some (false, st)
    else
      let found := section_line Section (c_buf st) in
      do! st := (if negb found || keep then accumulate st else Some st);
      if found then Some (true, st) else seek_section fuel Section keep st
  end.

(** The lines up to the one with the key or the next heading: [None] at the end of
    the file, else whether it is a heading. *)
Definition has_key (Key : option bytes) (l : bytes) : bool :=
  let sp := skipleading l in
  match Key, key_end sp with Some k, Some ep => key_is k sp ep | _, _ => false end.

Fixpoint seek_key (fuel : nat) (Key : option bytes) (st : copying) : option (option bool * copying) :=
  match fuel with
  | O => None
  | S fuel =>
    let '(ok, st) := next_line st in
    if negb ok then Some (None, st)
    else if has_key Key (c_buf st) || is_heading (c_buf st) then Some (Some (is_heading (c_buf st)), st)
    else
      do! st := (match Key with None => Some (with_mark st) | Some _ => accumulate st end);
      seek_key fuel Key st
  end.

Fixpoint copy_rest (fuel : nat) (st : copying) : option copying :=
  match fuel with
  | O => None
  | S fuel =>
    let '(ok, st) := next_line st in
    if negb ok then Some st else do! st := accumulate st; copy_rest fuel st
  end.

End Copy.

(** The copy replaces the file; no result is looked at. *)
Definition close_rename (Filename : bytes) (w : world) : option (Z * world) :=
  let w := ini_close (ini_close w) in
  let w := snd (unlink Filename w) in
  do! buffer := ini_tempname Filename INI_BUFFERSIZE;
  Some (1, snd (rename buffer Filename w)).

(** From the line after the heading to the end: the line of the key is replaced, or
    the new one put before the next heading or at the end. *)
Definition rewrite_entry (data tmp : bytes) (fuel : nat) (Key Value : option bytes) (Filename : bytes) (st : copying)
    : option (Z * world) :=
  do! (stop, st) := seek_key data tmp fuel Key st;
  do! (flag, st) := cache_flush data tmp st;
  match stop with
  | None =>
    do! st := (match Key, Value with
               | Some k, Some v => put_key tmp k v (if flag : bool then st else put_text tmp INI_LINETERM st)
               | _, _ => Some st
               end);
    close_rename Filename (c_world st)
  | Some heading =>
    do! st := (match Key, Value with Some k, Some v => put_key tmp k v st | _, _ => Some st end);
    let '(_, st) := next_line data st in
    let st := if heading : bool
              then match cache_accum (c_buf st) (c_len st) INI_BUFFERSIZE with Some n => with_len st n | None => st end
              else with_mark st in
    do! st := copy_rest data tmp fuel st;
    do! (_, st) := cache_flush data tmp st;
    close_rename Filename (c_world st)
  end.

Definition ini_rewrite (data : bytes) (Section Key Value : option bytes) (Filename : bytes) (w : world) : option (Z * world) :=
  do! tmp := ini_tempname Filename INI_BUFFERSIZE;
  let '(ok, w) := fopen_wb tmp w in
  if negb ok then Some (0, ini_close w)
  else
    let fuel := S (length data) in
    let st := mk_copying 0 0 0 tmp w in
    do! (found, st) :=
      (match Section with
       | None | Some [] => Some (true, st)
       | Some s => seek_section data tmp fuel s (bool_decide (is_Some Key)) st
       end);
    do! (flag, st) := cache_flush data tmp st;
    let line_break st := if flag : bool then st else put_text tmp INI_LINETERM st in
    if negb found then
      do! st := (match Key, Value with
                 | Some k, Some v => do! st := put_section tmp Section (line_break st); put_key tmp k v st
                 | _, _ => Some st
                 end);
      close_rename Filename (c_world st)
    else
      let st := match Key with None => with_mark (snd (next_line data st)) | Some _ => st end in
      rewrite_entry data tmp fuel Key Value Filename st.

(** The two short cuts for a setting that exists: it has the value already, or its
    line is as long as the new one. *)
Definition ini_shortcut (data : bytes) (Section : option bytes) (Key Value Filename : bytes) (w : world)
    : option (option (Z * world)) :=
  do! (b, head, tail) := getkeystring data Section (Some Key) (-1) (-1) INI_BUFFERSIZE 0;
  match b with
  | None => Some None
  | Some text =>
    if bool_decide (text = Value) then Some (Some (1, ini_close w))
    else
      do! line := key_text Key Value;
      if (length line =? tail - head)%nat then
        let '(ok, w) := sys (ini_close w) in
        if negb ok then Some (Some (0, w))
        else Some (Some (1, ini_close (ini_write_at line head Filename w)))
      else Some None
  end.

(** A new file with the one setting. *)
Definition ini_create (Section : option bytes) (Key Value Filename : bytes) (w : world) : option (Z * world) :=
  let '(ok, w) := fopen_wb Filename w in
  if negb ok then Some (0, w)
  else
    do! w := writesection Section Filename w;
    do! w := writekey Key Value Filename w;
    Some (1, ini_close w).

Definition ini_puts (Section Key Value : option bytes) (Filename : bytes) (w : world) : option (Z * world) :=
  match ini_openread Filename w with
  | (None, w) =>
    match Key, Value with
    | Some k, Some v => ini_create Section k v Filename w
    | _, _ => Some (1, w)
    end
  | (Some data, w) =>
    do! done := (match Key, Value with
                 | Some k, Some v => ini_shortcut data Section k v Filename w
                 | _, _ => Some None
                 end);
    match done with
    | Some r => Some r
    | None => ini_rewrite data Section Key Value Filename w
    end
  end.

(** ** Numbers *)

(** The digits of a [long], last first; 19 turns take every [long] below 10. C
    divides towards zero. *)
Fixpoint long_digits (fuel : nat) (value : Z) : bytes :=
  let n := Z.rem value 10 in
  chr (Z.abs n + 48) ::
  match fuel with
  | O => []
  | S fuel => if Z.quot value 10 =? 0 then [] else long_digits fuel (Z.quot value 10)
  end.

Definition long2str (value : Z) : bytes :=
  reverse (long_digits 19 value ++ if value <? 0 then ["-"%char] else []).

Definition ini_putl (Section Key : option bytes) (Value : Z) (Filename : bytes) (w : world) : option (Z * world) :=
  ini_puts Section Key (Some (long2str Value)) Filename w.

(** The text of a number is printed into an array of 64 bytes without a bound. *)
Definition ini_putf `{ini_real R} (Section Key : option bytes) (Value : R) (Filename : bytes) (w : world) : option (Z * world) :=
  do! LocalBuffer := memcpy (replicate 64 NUL) (ini_ftoa Value ++ [NUL]) (zlen (ini_ftoa Value) + 1);
  ini_puts Section Key (Some (until_nul LocalBuffer)) Filename w.

(** ** The reference: an edit of the lines *)

(** The last line gets its newline. *)
Fixpoint close (ls : list bytes) : list bytes :=
  match ls with
  | [] => []
  | [l] => [if bool_decide (last l = Some LF) then l else l ++ [LF]]
  | l :: ls => l :: close ls
  end.

(** The lines up to the heading of a section, with it, and those after it. *)
Fixpoint heading_split (Section : bytes) (ls : list bytes) : option (list bytes * list bytes) :=
  match ls with
  | [] => None
  | l :: ls =>
    if section_line Section l then Some ([l], ls)
    else do! (before, body) := heading_split Section ls; Some (l :: before, body)
  end.

Definition section_split (Section : bytes) (ls : list bytes) : option (list bytes * list bytes) :=
  match Section with [] => Some ([], ls) | _ => heading_split Section ls end.

(** The lines up to the one with the key or the next heading. *)
Fixpoint key_split (Key : option bytes) (ls : list bytes) : list bytes * option (bytes * list bytes) :=
  match ls with
  | [] => ([], None)
  | l :: ls =>
    if has_key Key l || is_heading l then ([], Some (l, ls))
    else let '(before, r) := key_split Key ls in (l :: before, r)
  end.

(** The file with a line put in; [blank] is the empty line that may come before what
    is added at the end. *)
Definition edit (blank : list bytes) (Section Key heading line : bytes) (ls : list bytes) : list bytes :=
  match section_split Section ls with
  | None => close ls ++ blank ++ [heading; line]
  | Some (before, body) =>
    match key_split (Some Key) body with
    | (a, None) => close (before ++ a) ++ blank ++ [line]
    | (a, Some (l, after)) => before ++ a ++ line :: if is_heading l then l :: after else after
    end
  end.

(** * Lemmas *)

(** ** The copy *)

Lemma at_lines_skip data cached : forall pos rest, at_lines data pos (cached ++ rest) ->
  at_lines data (pos + length (concat cached)) rest.
Proof.
  intros pos rest (Hd & Hl & Hi). rewrite concat_app in Hd. apply line_list_app in Hl as (_ & Hl & _).
  apply Forall_app in Hi as [_ Hi]. split_and!; [| done | done]. by rewrite <- drop_drop, Hd, drop_app_length.
Qed.

Lemma flush_loop_ok data fuel cached : forall rest pos b, at_lines data pos (cached ++ rest) ->
  (length b + length (concat cached) < INI_BUFFERSIZE)%nat -> (length cached <= fuel)%nat ->
  flush_loop fuel data (length b + length (concat cached)) pos b =
    Some (b ++ concat cached, (pos + length (concat cached))%nat).
Proof.
  revert fuel. induction cached as [|l cached IH]; intros fuel rest pos b Ha Hr Hf.
  - cbn [concat length] in *. rewrite Nat.add_0_r, app_nil_r. assert (Hle : (length b <=? length b)%nat = true) by (apply Nat.leb_le; lia).
    destruct fuel; cbn [flush_loop]; rewrite Hle; by rewrite Nat.add_0_r.
  - cbn [length] in Hf. destruct fuel as [|fuel]; [lia |]. cbn [concat flush_loop] in *. rewrite length_app in *. cbn [app] in Ha.
    destruct (read_line (INI_BUFFERSIZE - length b) _ _ _ _ Ha) as (-> & Ha1 & -> & Hne); [lia |].
    assert (0 < length l)%nat by (destruct l; [done | cbn; lia]).
    rewrite (proj2 (Nat.leb_gt _ _)) by lia. rewrite take_ge by lia.
    specialize (IH fuel rest (pos + length l)%nat (b ++ l) Ha1). rewrite length_app in IH.
    rewrite Nat.add_assoc, IH by lia. by rewrite <- app_assoc, Nat.add_assoc.
Qed.

Section CopyLemmas.
Variable data tmp : bytes.
Variable m : gmap bytes file.

(** The files with the copy so far, when calls work. *)
Definition written (w : world) (out : bytes) : Prop :=
  w_plan w = [] /\ exists synced, w_files w = <[tmp := mk_file out synced]> m.

Lemma write_ok w out t : written w out -> written (ini_write t tmp w) (out ++ t).
Proof.
  intros [Hp [sy Hf]]. unfold ini_write, fwrite, ask. rewrite Hp. cbn. split; [done |]. exists false.
  rewrite Hf, lookup_insert_eq, firstn_all. cbn. by rewrite insert_insert_eq.
Qed.

(** The lines [cached] are counted and not yet written, [out] is written. *)
Record cache_ok (st : copying) (cached rest : list bytes) (out : bytes) : Prop := {
  cp_lines : at_lines data (c_mark st) (cached ++ rest);
  cp_len : c_len st = length (concat cached);
  cp_room : (c_len st < INI_BUFFERSIZE)%nat;
  cp_out : written (c_world st) out }.

Definition copied (st : copying) (cached rest : list bytes) (out : bytes) : Prop :=
  cache_ok st cached rest out /\ c_pos st = (c_mark st + c_len st)%nat.

(** One line further, which is in the buffer. *)
Definition reading (st : copying) (cached : list bytes) (l : bytes) (rest : list bytes) (out : bytes) : Prop :=
  cache_ok st cached (l :: rest) out /\ c_buf st = l /\ c_pos st = (c_mark st + c_len st + length l)%nat.

Lemma length_at_lines pos ls : at_lines data pos ls -> (length ls <= length data)%nat.
Proof. intros H. apply at_lines_fuel in H. lia. Qed.

Lemma cache_flush_ok st cached rest out : cache_ok st cached rest out ->
  exists flag st', cache_flush data tmp st = Some (flag, st') /\ copied st' [] rest (out ++ concat cached) /\
    (flag = true -> last (concat cached) = Some LF).
Proof.
  intros [Ha Hl Hr Ho]. unfold cache_flush. rewrite (proj2 (Nat.leb_le _ _)) by lia.
  pose proof (flush_loop_ok data (S (length data)) cached rest (c_mark st) [] Ha) as Hfl. cbn [length Nat.add app] in Hfl.
  rewrite Hl, Hfl; [| lia |]. 2: { pose proof (length_at_lines _ _ Ha). rewrite length_app in *. lia. }
  rewrite take_ge by lia. eexists _, _. split; [done |]. split_and!; [|].
  - split; [| cbn; lia]. split; cbn; [by apply at_lines_skip | done | unfold INI_BUFFERSIZE; lia |].
    destruct (concat cached) as [|c t]; [by rewrite app_nil_r | by apply write_ok].
  - intros [_ H]%andb_true_iff. by apply bool_decide_eq_true in H.
Qed.

Lemma next_line_ok st cached l rest out : copied st cached (l :: rest) out ->
  exists st', next_line data st = (true, st') /\ reading st' cached l rest out.
Proof.
  intros [[Ha Hl Hr Ho] Hp]. pose proof (at_lines_skip _ _ _ _ Ha) as Hn. rewrite <- Hl, <- Hp in Hn.
  assert (Hlen : (length l < INI_BUFFERSIZE)%nat) by (destruct Hn as (_ & _ & Hn); by apply Forall_cons in Hn as [[_ ?] _]).
  destruct (read_line INI_BUFFERSIZE _ _ _ _ Hn Hlen) as (Hread & _ & Hu & _). unfold next_line. rewrite Hread, Hu.
  eexists. split; [done |]. split_and!; [by split | done | cbn; lia].
Qed.

Lemma next_line_end st cached out : copied st cached [] out -> next_line data st = (false, st).
Proof.
  intros [[Ha Hl _ _] Hp]. pose proof (at_lines_skip _ _ _ _ Ha) as Hn. rewrite <- Hl, <- Hp in Hn.
  unfold next_line. by rewrite (read_end _ _ _ Hn).
Qed.

Lemma reading_keep st cached l rest out : reading st cached l rest out -> (c_len st + length l < INI_BUFFERSIZE)%nat ->
  copied (with_len st (c_len st + length l)) (cached ++ [l]) rest out.
Proof.
  intros ([Ha Hl Hr Ho] & Hb & Hp) Hlt. split; [| cbn; lia]. split; cbn; [by rewrite <- app_assoc | | done | done].
  rewrite concat_app, length_app, Hl. cbn. by rewrite app_nil_r.
Qed.

Lemma accumulate_ok st cached l rest out : reading st cached l rest out ->
  exists st' cached' out', accumulate data tmp st = Some st' /\ copied st' cached' rest out' /\
    out' ++ concat cached' = out ++ concat cached ++ l.
Proof.
  intros Hrd. pose proof Hrd as (Hc & Hb & Hp). unfold accumulate, cache_accum. rewrite Hb.
  destruct (INI_BUFFERSIZE <=? c_len st + length l)%nat eqn:E.
  - destruct (cache_flush_ok _ _ _ _ Hc) as (flag & st1 & -> & H1 & _).
    destruct (next_line_ok _ _ _ _ _ H1) as (st2 & -> & H2). pose proof H2 as ([Ha Hl Hr Ho] & Hb2 & _). rewrite Hb2.
    assert (Hlen : (length l < INI_BUFFERSIZE)%nat) by (destruct Ha as (_ & _ & Ha); by apply Forall_cons in Ha as [[_ ?] _]).
    cbn in Hl. rewrite Hl. cbn [Nat.add]. rewrite (proj2 (Nat.leb_gt _ _)) by done.
    eexists _, [l], _. split; [done |]. pose proof (reading_keep _ _ _ _ _ H2) as H3. rewrite Hl in H3. cbn [Nat.add app] in H3.
    split; [by apply H3 |]. cbn. by rewrite app_nil_r, app_assoc.
  - apply Nat.leb_gt in E. eexists _, _, _. split; [done |]. split; [by apply reading_keep |].
    rewrite concat_app. cbn. by rewrite app_nil_r.
Qed.

(** [total] is what is written and cached together. *)
Definition at_total (st : copying) (rest : list bytes) (total : bytes) : Prop :=
  exists cached out, copied st cached rest out /\ out ++ concat cached = total.

Definition line_total (st : copying) (l : bytes) (rest : list bytes) (total : bytes) : Prop :=
  exists cached out, reading st cached l rest out /\ out ++ concat cached = total.

Lemma total_next st l rest total : at_total st (l :: rest) total ->
  exists st', next_line data st = (true, st') /\ line_total st' l rest total /\ c_buf st' = l.
Proof.
  intros (c & out & H & <-). destruct (next_line_ok _ _ _ _ _ H) as (st' & E & Hr). exists st'. split_and!; [done | by exists c, out | apply Hr].
Qed.

Lemma total_end st total : at_total st [] total -> next_line data st = (false, st).
Proof. intros (c & out & H & _). exact (next_line_end _ _ _ H). Qed.

Lemma total_accumulate st l rest total : line_total st l rest total ->
  exists st', accumulate data tmp st = Some st' /\ at_total st' rest (total ++ l).
Proof.
  intros (c & out & H & <-). destruct (accumulate_ok _ _ _ _ _ H) as (st' & c' & out' & E & H' & Ht).
  exists st'. split; [done |]. exists c', out'. by rewrite Ht, app_assoc.
Qed.

(** An empty cache: all is written, and the flag says that the last line is closed. *)
Lemma total_flush st rest total : at_total st rest total ->
  exists flag st', cache_flush data tmp st = Some (flag, st') /\ copied st' [] rest total /\
    (flag = true -> last total = Some LF).
Proof.
  intros (c & out & [H _] & <-). destruct (cache_flush_ok _ _ _ _ H) as (flag & st' & E & H' & Hf).
  exists flag, st'. split_and!; [done | done |]. intros Hl. specialize (Hf Hl). by rewrite last_app, Hf.
Qed.

Lemma total_flush_line st l rest total : line_total st l rest total ->
  exists flag st', cache_flush data tmp st = Some (flag, st') /\ copied st' [] (l :: rest) total.
Proof.
  intros (c & out & [H _] & <-). destruct (cache_flush_ok _ _ _ _ H) as (flag & st' & E & H' & _). by exists flag, st'.
Qed.

Lemma copied_total st rest out : copied st [] rest out -> at_total st rest out.
Proof. intros H. exists [], out. by rewrite app_nil_r. Qed.

Lemma seek_section_ok Section fuel : forall ls st total, at_total st ls total -> (length ls < fuel)%nat ->
  match heading_split Section ls with
  | Some (before, rest) => exists st', seek_section data tmp fuel Section true st = Some (true, st') /\ at_total st' rest (total ++ concat before)
  | None => exists st', seek_section data tmp fuel Section true st = Some (false, st') /\ at_total st' [] (total ++ concat ls)
  end.
Proof.
  induction fuel as [|fuel IH]; intros ls st total Ht Hf; [lia |]. cbn [seek_section]. destruct ls as [|l ls].
  - rewrite (total_end _ _ Ht). cbn. rewrite app_nil_r. by exists st.
  - destruct (total_next _ _ _ _ Ht) as (st1 & -> & H1 & ->). cbn [negb heading_split orb]. rewrite orb_true_r.
    destruct (total_accumulate _ _ _ _ H1) as (st2 & -> & H2). destruct (section_line Section l).
    + exists st2. cbn. by rewrite app_nil_r.
    + cbn [length] in Hf. specialize (IH ls st2 _ H2 ltac:(lia)). destruct (heading_split Section ls) as [[before rest]|];
        destruct IH as (st3 & E & H3); exists st3; cbn [concat]; by rewrite app_assoc.
Qed.

Lemma seek_key_ok k fuel : forall ls st total, at_total st ls total -> (length ls < fuel)%nat ->
  match key_split (Some k) ls with
  | (a, None) => exists st', seek_key data tmp fuel (Some k) st = Some (None, st') /\ at_total st' [] (total ++ concat a)
  | (a, Some (l, after)) => exists st', seek_key data tmp fuel (Some k) st = Some (Some (is_heading l), st') /\
      line_total st' l after (total ++ concat a)
  end.
Proof.
  induction fuel as [|fuel IH]; intros ls st total Ht Hf; [lia |]. cbn [seek_key]. destruct ls as [|l ls].
  - rewrite (total_end _ _ Ht). cbn. rewrite app_nil_r. by exists st.
  - destruct (total_next _ _ _ _ Ht) as (st1 & -> & H1 & ->). cbn [negb key_split].
    destruct (has_key (Some k) l || is_heading l); [exists st1; cbn; by rewrite app_nil_r |].
    destruct (total_accumulate _ _ _ _ H1) as (st2 & -> & H2). cbn [length] in Hf. specialize (IH ls st2 _ H2 ltac:(lia)).
    destruct (key_split (Some k) ls) as [a [[x after]|]]; destruct IH as (st3 & E & H3); exists st3; cbn [concat]; by rewrite app_assoc.
Qed.

Lemma copy_rest_ok fuel : forall ls st total, at_total st ls total -> (length ls < fuel)%nat ->
  exists st', copy_rest data tmp fuel st = Some st' /\ at_total st' [] (total ++ concat ls).
Proof.
  induction fuel as [|fuel IH]; intros ls st total Ht Hf; [lia |]. cbn [copy_rest]. destruct ls as [|l ls].
  - rewrite (total_end _ _ Ht). cbn. rewrite app_nil_r. by exists st.
  - destruct (total_next _ _ _ _ Ht) as (st1 & -> & H1 & _). cbn [negb].
    destruct (total_accumulate _ _ _ _ H1) as (st2 & -> & H2). cbn [length] in Hf.
    destruct (IH ls st2 _ H2 ltac:(lia)) as (st3 & E & H3). exists st3. cbn [concat]. by rewrite app_assoc.
Qed.

(** Texts put in while the cache is empty. *)
Lemma copied_put st rest out t : copied st [] rest out ->
  copied (put_text tmp t st) [] rest (out ++ t).
Proof. intros [[Ha Hl Hr Ho] Hp]. split; [split; cbn; [done | done | done | by apply write_ok] | done]. Qed.

Lemma copied_key st rest out k v t : copied st [] rest out -> key_text k v = Some t ->
  exists st', put_key tmp k v st = Some st' /\ copied st' [] rest (out ++ t).
Proof.
  intros [[Ha Hl Hr Ho] Hp] Ht. unfold put_key. rewrite Ht. eexists. split; [done |].
  split; [split; cbn; [done | done | done | by apply write_ok] | done].
Qed.

Lemma copied_section st rest out s t : copied st [] rest out -> s <> [] -> section_text s = Some t ->
  exists st', put_section tmp (Some s) st = Some st' /\ copied st' [] rest (out ++ t).
Proof.
  intros [[Ha Hl Hr Ho] Hp] Hs Ht. unfold put_section, writesection. destruct s; [done |]. rewrite Ht. eexists. split; [done |].
  split; [split; cbn; [done | done | done | by apply write_ok] | done].
Qed.

End CopyLemmas.

(** ** The whole copy *)

Definition blank_ok (blank : list bytes) : Prop := blank = [] \/ blank = [[LF]].

(** A line break after the copy closes its last line or adds an empty one. *)
Lemma close_break ls (flag : bool) : line_list ls -> (flag = true -> last (concat ls) = Some LF) ->
  exists blank, blank_ok blank /\ concat ls ++ (if flag then [] else [LF]) = concat (close ls ++ blank).
Proof.
  induction ls as [|l ls IH]; intros Hl Hf.
  - destruct flag; [by specialize (Hf eq_refl) |]. exists [[LF]]. split; [by right | done].
  - destruct ls as [|l2 ls].
    + cbn [close concat] in *. rewrite app_nil_r in *. case_bool_decide as E.
      * destruct flag; [exists []; split; [by left |] | exists [[LF]]; split; [by right |]]; cbn; by rewrite ?app_nil_r.
      * destruct flag; [by specialize (Hf eq_refl) |]. exists []. split; [by left |]. cbn. by rewrite app_nil_r.
    + destruct Hl as (_ & _ & _ & Hl). destruct (IH Hl) as (blank & Hb & E).
      { intros Hfl. specialize (Hf Hfl). cbn [concat] in *. rewrite last_app in Hf.
        destruct Hl as (Hne & _). destruct l2 as [|a l2]; [done |]. cbn [app] in *.
        destruct (last (a :: l2 ++ concat ls)) eqn:El; [done | by apply last_None in El]. }
      exists blank. split; [done |]. change (close (l :: l2 :: ls)) with (l :: close (l2 :: ls)).
      cbn [app]. change (concat (l :: l2 :: ls)) with (l ++ concat (l2 :: ls)). change (concat (l :: ?x)) with (l ++ concat x).
      by rewrite <- app_assoc, E.
Qed.

(** The file is replaced, the temporary one is gone. *)
Definition replaced (w w' : world) (F tmp data : bytes) : Prop :=
  w_plan w' = [] /\ content F w' = data /\ is_Some (w_files w' !! F) /\
  forall p, p <> F -> p <> tmp -> w_files w' !! p = w_files w !! p.

Lemma close_rename_ok w0 w F tmp out : ini_tempname F INI_BUFFERSIZE = Some tmp -> tmp <> F ->
  written tmp (w_files w0) w out -> exists w', close_rename F w = Some (1, w') /\ replaced w0 w' F tmp out.
Proof.
  intros Ht Hne [Hp [sy Hf]]. unfold close_rename. rewrite !close_works, Ht by (rewrite ?close_works; done).
  eexists. split; [done |]. unfold unlink. rewrite sys_works by done. cbn [snd]. unfold rename.
  rewrite sys_works by done. cbn [w_files set_files]. rewrite Hf, lookup_delete_ne, lookup_insert_eq by done. cbn [snd].
  unfold replaced, content. cbn. rewrite lookup_insert_eq. split_and!; [done | done | by eexists |].
  intros p Hp1 Hp2. by rewrite lookup_insert_ne, !lookup_delete_ne, lookup_insert_ne.
Qed.

Lemma fopen_works path w : w_plan w = [] ->
  fopen_wb path w = (true, set_files w (<[path := mk_file [] false]> (w_files w))).
Proof. intros H. unfold fopen_wb. by rewrite sys_works. Qed.

Lemma split_concat Section ls before rest : heading_split Section ls = Some (before, rest) -> ls = before ++ rest.
Proof.
  revert before. induction ls as [|l ls IH]; intros before; [done |]. cbn [heading_split].
  destruct (section_line Section l); [by intros [= <- <-] |].
  destruct (heading_split Section ls) as [[b r]|]; [| done]. intros [= <- <-]. by rewrite (IH b).
Qed.

Lemma key_split_concat Key ls : match key_split Key ls with
  | (a, None) => ls = a
  | (a, Some (l, after)) => ls = a ++ l :: after
  end.
Proof.
  induction ls as [|l ls IH]; [done |]. cbn [key_split]. destruct (_ || _); [done |].
  destruct (key_split Key ls) as [a [[x after]|]]; cbn; by rewrite IH.
Qed.

Section Rewrite.
Variables F tmp : bytes.
Hypothesis tempname : ini_tempname F INI_BUFFERSIZE = Some tmp.
Hypothesis tempname_other : tmp <> F.

(** From the line after the heading on. *)
Lemma rewrite_body data w0 st rest done_ k v t : key_text k v = Some t ->
  copied data tmp (w_files w0) st [] rest done_ -> line_list rest ->
  exists w', rewrite_entry data tmp (S (length data)) (Some k) (Some v) F st = Some (1, w') /\
    exists text, replaced w0 w' F tmp text /\
      match key_split (Some k) rest with
      | (a, None) => exists flag : bool, text = done_ ++ concat a ++ (if flag then [] else [LF]) ++ t /\
          (flag = true -> last (done_ ++ concat a) = Some LF)
      | (a, Some (l, after)) => text = done_ ++ concat a ++ t ++ concat (if is_heading l then l :: after else after)
      end.
Proof.
  intros Ht Hc Hl. unfold rewrite_entry. pose proof (copied_total _ _ _ _ _ _ Hc) as Htot.
  assert (Hf : (length rest < S (length data))%nat) by (destruct Hc as [[Ha _ _ _] _]; by apply at_lines_fuel in Ha).
  pose proof (seek_key_ok data tmp (w_files w0) k (S (length data)) rest st done_ Htot Hf) as Hs.
  pose proof (key_split_concat (Some k) rest) as Hsp.
  destruct (key_split (Some k) rest) as [a [[l after]|]].
  - destruct Hs as (st1 & -> & H1). destruct (total_flush_line _ _ _ _ _ _ _ H1) as (flag & st2 & -> & H2).
    destruct (copied_key _ _ _ _ _ _ k v t H2 Ht) as (st3 & -> & H3).
    destruct (next_line_ok _ _ _ _ _ _ _ _ H3) as (st4 & -> & H4). pose proof H4 as ([Ha Hlen Hr Ho] & Hb & Hp4).
    assert (Hrest : exists st5, (if is_heading l then match cache_accum (c_buf st4) (c_len st4) INI_BUFFERSIZE with Some n => with_len st4 n | None => st4 end
        else with_mark st4) = st5 /\ at_total data tmp (w_files w0) st5 after ((done_ ++ concat a) ++ t ++ (if is_heading l then l else []))).
    { eexists. split; [done |]. destruct (is_heading l).
      - cbn in Hlen. assert (Hll : (length l < INI_BUFFERSIZE)%nat)
          by (destruct Ha as (_ & _ & Ha); by apply Forall_cons in Ha as [[_ ?] _]).
        pose proof (reading_keep _ _ _ _ _ _ _ _ H4) as Hk. unfold cache_accum. rewrite Hb, Hlen in *. cbn [Nat.add app] in *.
        rewrite (proj2 (Nat.leb_gt _ _)) by done. exists [l], ((done_ ++ concat a) ++ t). split; [by apply Hk |].
        cbn. by rewrite app_nil_r, <- !app_assoc.
      - rewrite app_nil_r. exists [], ((done_ ++ concat a) ++ t). split; [| cbn; by rewrite app_nil_r].
        cbn in Hlen. split; [| cbn; lia]. split; cbn; [| done | done | done].
        rewrite Hp4, Hlen. change (l :: after) with ([l] ++ after) in Ha. cbn [app] in Ha.
        pose proof (at_lines_skip _ [l] _ _ Ha) as Hsk. cbn in Hsk. rewrite app_nil_r in Hsk. by rewrite Nat.add_0_r. }
    cbv beta iota zeta. destruct Hrest as (st5 & -> & H5).
    destruct (copy_rest_ok data tmp (w_files w0) (S (length data)) after st5 _ H5) as (st6 & -> & H6).
    { rewrite Hsp, length_app in Hf. cbn in Hf. lia. }
    destruct (total_flush _ _ _ _ _ _ H6) as (flag7 & st7 & -> & [[_ _ _ Ho7] _] & _).
    destruct (close_rename_ok w0 _ F tmp _ tempname tempname_other Ho7) as (w' & E & Hw). exists w'. split; [done |].
    eexists. split; [exact Hw |]. destruct (is_heading l); cbn [concat]; by rewrite <- ?app_assoc, ?app_nil_r.
  - destruct Hs as (st1 & -> & H1). destruct (total_flush _ _ _ _ _ _ H1) as (flag & st2 & -> & H2 & Hfl).
    assert (H3 : copied data tmp (w_files w0) (if flag then st2 else put_text tmp INI_LINETERM st2) []
      [] ((done_ ++ concat a) ++ if flag then [] else [LF])).
    { destruct flag; [by rewrite app_nil_r | by apply copied_put]. }
    destruct (copied_key _ _ _ _ _ _ k v t H3 Ht) as (st3 & -> & [[_ _ _ Ho3] _]).
    destruct (close_rename_ok w0 _ F tmp _ tempname tempname_other Ho3) as (w' & E & Hw). exists w'. split; [done |].
    eexists. split; [exact Hw |]. exists flag. split; [by rewrite <- !app_assoc | done].
Qed.

(** The same with the cache flushed first, as a change of the lines. *)
Lemma rewrite_entry_ok data w k v t before rest st total : key_text k v = Some t -> lines data = before ++ rest ->
  at_total data tmp (w_files w) st rest total -> total = concat before ->
  exists w' blank, (do! (_, st) := cache_flush data tmp st;
      rewrite_entry data tmp (S (length data)) (Some k) (Some v) F st) = Some (1, w') /\ blank_ok blank /\
    replaced w w' F tmp (concat (match key_split (Some k) rest with
      | (a, None) => close (before ++ a) ++ blank ++ [t]
      | (a, Some (l, after)) => before ++ a ++ t :: if is_heading l then l :: after else after
      end)).
Proof.
  intros Ht Hls Htot ->. pose proof (line_list_lines data) as Hll. rewrite Hls in Hll.
  destruct (total_flush _ _ _ _ _ _ Htot) as (flag0 & st1 & -> & H1 & _).
  pose proof (proj1 (line_list_app _ _) Hll) as (_ & Hrest & _).
  destruct (rewrite_body data w st1 rest (concat before) k v t Ht H1 Hrest) as (w' & E & text & Hw & Htext).
  pose proof (key_split_concat (Some k) rest) as Hsp. destruct (key_split (Some k) rest) as [a [[l after]|]].
  - exists w', []. split_and!; [exact E | by left |]. rewrite !concat_app. cbn [concat]. rewrite Htext in Hw. done.
  - destruct Htext as (flag & -> & Hfl). rewrite Hsp in Hll. rewrite <- concat_app in Hfl.
    destruct (close_break (before ++ a) flag Hll Hfl) as (blank & Hb & Eb). exists w', blank. split_and!; [exact E | done |].
    rewrite app_assoc, concat_app, <- Eb. cbn [concat]. rewrite app_nil_r, concat_app, <- !app_assoc. exact Hw.
Qed.

(** Copying the file is an edit of its lines. *)
Lemma rewrite_ok w Section k v t h : w_plan w = [] -> ini_text (content F w) ->
  key_text k v = Some t -> section_text (default [] Section) = Some h ->
  exists w' blank, ini_rewrite (content F w) Section (Some k) (Some v) F w = Some (1, w') /\ blank_ok blank /\
    replaced w w' F tmp (concat (edit blank (default [] Section) k h t (lines (content F w)))).
Proof.
  intros Hp Hi Ht Hh. set (data := content F w) in *. unfold ini_rewrite. rewrite tempname, fopen_works by done. cbn [negb].
  set (st0 := mk_copying 0 0 0 tmp _). pose proof (at_lines_start _ Hi) as Ha.
  assert (H0 : copied data tmp (w_files w) st0 [] (lines data) []).
  { split; [| done]. split; cbn; [done | done | unfold INI_BUFFERSIZE; lia | split; [done | by exists false]]. }
  unfold edit, section_split. destruct (default [] Section) as [|c s] eqn:Es.
  - assert ((match Section with None | Some [] => Some (true, st0) | Some s =>
      seek_section data tmp (S (length data)) s (bool_decide (is_Some (Some k))) st0 end) = Some (true, st0)) as ->
      by (destruct Section as [[|? ?]|]; done).
    cbn [negb]. apply (rewrite_entry_ok data w k v t [] (lines data) st0 []); [done | done | by apply copied_total | done].
  - assert (Section = Some (c :: s)) as -> by (destruct Section; cbn in Es; unfold id in Es; congruence).
    rewrite bool_decide_true by done.
    pose proof (seek_section_ok data tmp (w_files w) (c :: s) (S (length data)) (lines data) st0 [] (copied_total _ _ _ _ _ _ H0)
      (at_lines_fuel _ _ _ Ha)) as Hs.
    destruct (heading_split (c :: s) (lines data)) as [[before rest]|] eqn:Eh.
    + destruct Hs as (st1 & -> & H1). cbn [negb].
      exact (rewrite_entry_ok data w k v t before rest st1 (concat before) Ht (split_concat _ _ _ _ Eh) H1 eq_refl).
    + destruct Hs as (st1 & -> & H1). destruct (total_flush _ _ _ _ _ _ H1) as (flag & st2 & -> & H2 & Hfl). cbn [negb app] in *.
      assert (H3 : copied data tmp (w_files w) (if flag then st2 else put_text tmp INI_LINETERM st2) []
        [] (concat (lines data) ++ if flag then [] else [LF])).
      { destruct flag; [by rewrite app_nil_r | by apply copied_put]. }
      destruct (copied_section _ _ _ _ _ _ (c :: s) h H3) as (st3 & -> & H4); [done | done |].
      destruct (copied_key _ _ _ _ _ _ k v t H4 Ht) as (st4 & -> & [[_ _ _ Ho] _]).
      destruct (close_rename_ok w _ F tmp _ tempname tempname_other Ho) as (w' & E & Hw).
      destruct (close_break (lines data) flag (line_list_lines _) Hfl) as (blank & Hb & Eb).
      exists w', blank. split_and!; [exact E | done |]. rewrite app_assoc, concat_app, <- Eb. cbn [concat].
      by rewrite app_nil_r, <- !app_assoc in *.
Qed.

End Rewrite.

(** ** Lines with and without their newline *)

Lemma skipleading_LF s : skipleading (s ++ [LF]) = match skipleading s with [] => [] | t => t ++ [LF] end.
Proof. induction s as [|c s IH]; [done |]. cbn. destruct (blank c); [exact IH | done]. Qed.

Lemma striptrailing_blank s c : blank c = true -> striptrailing (s ++ [c]) = striptrailing s.
Proof. intros Hc. induction s as [|d s IH]; cbn; [by rewrite Hc | by rewrite IH]. Qed.

Lemma strrchr_snoc c s d : c <> d -> strrchr c (s ++ [d]) = strrchr c s.
Proof.
  intros Hc. induction s as [|e s IH]; cbn; [by rewrite bool_decide_eq_false_2 by congruence | by rewrite IH].
Qed.

Lemma strchr_snoc c s d : c <> d -> strchr c (s ++ [d]) = strchr c s.
Proof.
  intros Hc. induction s as [|e s IH]; cbn; [by rewrite bool_decide_eq_false_2 by congruence | by rewrite IH].
Qed.

Lemma strchr_lt c s i : strchr c s = Some i -> (i < length s)%nat.
Proof.
  revert i. induction s as [|d s IH]; intros i; [done |]. cbn. case_bool_decide; [intros [= <-]; lia |].
  destruct (strchr c s) as [j|]; [| done]. intros [= <-]. specialize (IH j eq_refl). lia.
Qed.

Lemma strrchr_lt c s i : strrchr c s = Some i -> (i < length s)%nat.
Proof.
  revert i. induction s as [|d s IH]; intros i; [done |]. cbn. destruct (strrchr c s) as [j|].
  - intros [= <-]. specialize (IH j eq_refl). lia.
  - case_bool_decide; [intros [= <-]; lia | done].
Qed.

Lemma length_striptrailing s : (length (striptrailing s) <= length s)%nat.
Proof.
  induction s as [|c s IH]; [done |]. cbn. destruct (striptrailing s); [destruct (blank c); cbn; lia | cbn in *; lia].
Qed.

Lemma length_skiptrailing s n : (skiptrailing s n <= n)%nat.
Proof. unfold skiptrailing. pose proof (length_striptrailing (take n s)). rewrite length_take in H. lia. Qed.

Lemma take_snoc {A} n (s : list A) x : (n <= length s)%nat -> take n (s ++ [x]) = take n s.
Proof. intros H. by rewrite take_app_le. Qed.

Lemma key_end_lt s ep : key_end s = Some ep -> (ep < length s)%nat.
Proof. unfold key_end. destruct (strchr "="%char s) eqn:E; [intros [= <-]; exact (strchr_lt _ _ _ E) | apply strchr_lt]. Qed.

Lemma key_end_LF s : key_end (s ++ [LF]) = key_end s.
Proof. unfold key_end. by rewrite !strchr_snoc. Qed.

Lemma header_LF l : is_heading (l ++ [LF]) = is_heading l.
Proof. unfold is_heading. rewrite skipleading_LF. by destruct (skipleading l). Qed.

Lemma section_line_LF S l : section_line S (l ++ [LF]) = section_line S l.
Proof.
  unfold section_line. rewrite header_LF, skipleading_LF. destruct (skipleading l) as [|c s] eqn:E; [done |].
  rewrite strrchr_snoc by done. f_equal. destruct (strrchr "]"%char (c :: s)) as [ep|] eqn:Ep; [| done].
  apply strrchr_lt in Ep. unfold section_is. destruct (ep - 1 =? length S)%nat eqn:El; [| done]. apply Nat.eqb_eq in El.
  cbn [app skipn andb length] in *. rewrite !drop_0. by rewrite take_snoc by lia.
Qed.

Lemma key_line_LF K l : is_key_line K (l ++ [LF]) = is_key_line K l.
Proof.
  unfold is_key_line. rewrite skipleading_LF. destruct (skipleading l) as [|c s]; [done |]. set (sp := c :: s).
  rewrite key_end_LF. destruct (key_end sp) as [ep|] eqn:Ee; [| done]. apply key_end_lt in Ee. f_equal.
  unfold key_is. assert (skiptrailing (sp ++ [LF]) ep = skiptrailing sp ep) as -> by (unfold skiptrailing; by rewrite take_snoc by lia).
  destruct (skiptrailing sp ep =? length K)%nat eqn:El; [| by rewrite !andb_false_r]. apply Nat.eqb_eq in El.
  pose proof (length_skiptrailing sp ep). by rewrite take_snoc by lia.
Qed.

(** A newline at the end may be cut off with a comment, and nothing else changes. *)
Lemma strip_comment_LF n : forall b s, (length s <= n)%nat -> exists e, (e = [] \/ e = [LF]) /\
  strip_comment b (s ++ [LF]) = strip_comment b s ++ e.
Proof.
  induction n as [|n IH]; intros b s Hn.
  - destruct s; [| cbn in Hn; lia]. exists [LF]. split; [by right | by destruct b].
  - destruct s as [|c s]; [exists [LF]; split; [by right | by destruct b] |]. cbn [length] in Hn. cbn [app strip_comment].
    destruct (_ && negb b); [exists []; split; [by left | done] |].
    assert (Hk : forall b', exists e, (e = [] \/ e = [LF]) /\ c :: strip_comment b' (s ++ [LF]) = (c :: strip_comment b' s) ++ e).
    { intros b'. destruct (IH b' s) as (e & He & E); [lia |]. exists e. by rewrite E. }
    assert (Hskip : forall d s' b', s = d :: s' -> exists e, (e = [] \/ e = [LF]) /\
      c :: d :: strip_comment b' (s' ++ [LF]) = (c :: d :: strip_comment b' s') ++ e).
    { intros d s' b' ->. cbn [length] in Hn. destruct (IH b' s') as (e & He & E); [lia |]. exists e. by rewrite E. }
    destruct (bool_decide (c = DQ)); [| destruct (bool_decide (c = BSL)); [| by apply Hk]].
    + destruct s as [|d s']; cbn [app].
      * exists [LF]. split; [by right |]. cbn. by destruct b.
      * destruct (bool_decide (d = DQ)); [by apply Hskip | by apply Hk].
    + destruct s as [|d s']; cbn [app].
      * exists [LF]. split; [by right |]. cbn. by destruct b.
      * destruct (bool_decide (d = DQ)); [by apply Hskip | by apply Hk].
Qed.

Lemma cleanstring_LF s : cleanstring (s ++ [LF]) = cleanstring s.
Proof.
  unfold cleanstring. destruct (strip_comment_LF (length s) false s) as (e & He & ->); [lia |].
  destruct He as [-> | ->]; [by rewrite app_nil_r | by rewrite striptrailing_blank].
Qed.

Lemma line_value_LF l : key_end (skipleading l) <> None -> line_value (l ++ [LF]) = line_value l.
Proof.
  unfold line_value. rewrite skipleading_LF. destruct (skipleading l) as [|c s]; [done |]. set (sp := c :: s).
  rewrite key_end_LF. destruct (key_end sp) as [ep|] eqn:Ee; [| done]. intros _. apply key_end_lt in Ee. cbn [default].
  unfold id. rewrite drop_app_le by lia. rewrite skipleading_LF.
  destruct (skipleading (drop (Datatypes.S ep) sp)) as [|d t]; [done |]. by rewrite cleanstring_LF.
Qed.

(** Lines that say the same. *)
Record same_line (l l' : bytes) : Prop := {
  same_header : is_heading l = is_heading l';
  same_section S : section_line S l = section_line S l';
  same_key K : is_key_line K l = is_key_line K l';
  same_value K : is_key_line K l = true -> line_value l = line_value l' }.

Lemma same_refl l : same_line l l.
Proof. by split. Qed.

Lemma same_LF l : same_line l (l ++ [LF]).
Proof.
  split; [by rewrite header_LF | intros S; by rewrite section_line_LF | intros K; by rewrite key_line_LF |].
  intros K HK. symmetry. apply line_value_LF. unfold is_key_line in HK. by destruct (key_end _).
Qed.

Lemma close_same ls : Forall2 same_line ls (close ls).
Proof.
  induction ls as [|l [|l2 ls] IH]; [constructor | |].
  - cbn. constructor; [| constructor]. case_bool_decide; [apply same_refl | apply same_LF].
  - change (close (l :: l2 :: ls)) with (l :: close (l2 :: ls)). constructor; [apply same_refl | done].
Qed.

Lemma after_heading_same S ls ls' : Forall2 same_line ls ls' ->
  match after_heading S ls, after_heading S ls' with
  | Some r, Some r' => Forall2 same_line r r' | None, None => True | _, _ => False end.
Proof.
  induction 1 as [|l l' ls ls' Hl H IH]; [done |]. cbn [after_heading]. rewrite <- (same_section _ _ Hl).
  by destruct (section_line S l).
Qed.

Lemma key_in_same K ls ls' : Forall2 same_line ls ls' ->
  (do! l := key_in K ls; Some (line_value l)) = (do! l := key_in K ls'; Some (line_value l)).
Proof.
  induction 1 as [|l l' ls ls' Hl H IH]; [done |]. cbn [key_in]. rewrite <- (same_header _ _ Hl), <- (same_key _ _ Hl).
  destruct (is_heading l); [done |]. destruct (is_key_line K l) eqn:E; [| done]. by rewrite (same_value _ _ Hl K E).
Qed.

Lemma setting_same S K ls ls' : Forall2 same_line ls ls' -> setting S K ls = setting S K ls'.
Proof.
  intros H. unfold setting, section_lines. destruct S as [|c S]; [by apply key_in_same |].
  pose proof (after_heading_same (c :: S) ls ls' H) as Ha.
  destruct (after_heading _ ls), (after_heading _ ls'); try done. by apply key_in_same.
Qed.

(** ** What can be written and read back *)

(** A text on a line of its own. *)
Definition one_line (s : bytes) : bool := negb (has_char LF s) && negb (has_char NUL s).

Definition first_and_last (f : byte -> bool) (s : bytes) : bool :=
  match s, last s with c :: _, Some d => f c && f d | _, _ => true end.

Definition key_name_ok (K : bytes) : bool :=
  one_line K && negb (has_char "="%char K) && bool_decide (K <> []) && first_and_last (fun c => negb (blank c)) K &&
  negb (head_is "["%char K) && negb (comment K).

Definition section_ok (S : bytes) : bool := one_line S && (length S <=? 507)%nat.

Fixpoint escape (V : bytes) : bytes :=
  match V with
  | [] => []
  | c :: V => if bool_decide (c = DQ) then BSL :: DQ :: escape V else c :: escape V
  end.

Definition value_text (V : bytes) : bytes :=
  match check_enquote V with QUOTE_ENQUOTE => DQ :: escape V ++ [DQ] | _ => V end.

Definition value_ok (V : bytes) : bool :=
  one_line V && match check_enquote V with QUOTE_ENQUOTE => true | _ => first_and_last (fun c => negb (blank c)) V end.

(** The line fits the buffer with its terminator. *)
Definition fits (K V : bytes) : bool := (length K + length (value_text V) <=? 508)%nat.

Lemma check_enquote_cases V : (check_enquote V = QUOTE_ENQUOTE /\ V <> []) \/
  (check_enquote V = QUOTE_NONE /\ has_char DQ V = false /\ has_char ";"%char V = false /\ has_char "#"%char V = false).
Proof.
  unfold check_enquote. destruct (_ || _) eqn:E; [left; split; [done |]; by intros -> | right]. zbool. by split_and!.
Qed.

Lemma quoted_plain V : check_enquote V = QUOTE_NONE -> value_text V = V.
Proof. unfold value_text. by intros ->. Qed.

Lemma quoted_quotes V : check_enquote V = QUOTE_ENQUOTE -> value_text V = DQ :: escape V ++ [DQ].
Proof. unfold value_text. by intros ->. Qed.

Lemma enquote_escape V : forall n, (length (escape V) <= n)%nat -> enquote V n = escape V.
Proof.
  induction V as [|c V IH]; intros n Hn; [by destruct n |]. cbn [escape] in *. destruct n as [|n]; [case_bool_decide; cbn in Hn; lia |].
  cbn [enquote]. case_bool_decide.
  - cbn [length] in Hn. destruct n as [|n]; [lia |]. by rewrite IH by lia.
  - cbn [length] in Hn. by rewrite IH by lia.
Qed.

(** The line of a setting that fits. *)
Lemma key_text_fits K V : fits K V = true -> key_text K V = Some (K ++ "="%char :: value_text V ++ [LF]).
Proof.
  unfold fits. rewrite Nat.leb_le. intros H. unfold key_text. rewrite (copy_value K QUOTE_NONE) by (done || (unfold INI_BUFFERSIZE; lia)).
  rewrite take_ge by (unfold INI_BUFFERSIZE; lia).
  destruct (check_enquote_cases V) as [[E _] | (E & _)]; rewrite E.
  - rewrite quoted_quotes in * by done. cbn [length] in H. rewrite length_app in H. cbn [length] in H.
    unfold ini_strncpy. rewrite (proj2 (Nat.ltb_lt _ _)) by (unfold INI_BUFFERSIZE; lia).
    rewrite (proj2 (Nat.ltb_ge _ _)) by (unfold INI_BUFFERSIZE; lia). cbn. rewrite enquote_escape by (unfold INI_BUFFERSIZE; lia).
    done.
  - rewrite quoted_plain in * by done. rewrite (copy_value V QUOTE_NONE) by (done || (unfold INI_BUFFERSIZE; lia)).
    rewrite take_ge by (unfold INI_BUFFERSIZE; lia). done.
Qed.

Lemma section_text_fits S : section_ok S = true -> section_text S = Some ("["%char :: S ++ "]"%char :: [LF]).
Proof.
  unfold section_ok. intros [_ H]%andb_true_iff. apply Nat.leb_le in H. unfold section_text.
  rewrite (copy_value S QUOTE_NONE) by (done || (unfold INI_BUFFERSIZE; lia)). by rewrite take_ge by (unfold INI_BUFFERSIZE; lia).
Qed.

Lemma strchr_none c s : has_char c s = false -> strchr c s = None.
Proof. induction s as [|d s IH]; [done |]. cbn. intros H. zbool. rewrite bool_decide_eq_false_2 by done. by rewrite IH. Qed.

Lemma strchr_app c s t : has_char c s = false -> strchr c (s ++ c :: t) = Some (length s).
Proof.
  induction s as [|d s IH]; cbn; intros H; [by rewrite bool_decide_eq_true_2 |]. zbool.
  rewrite bool_decide_eq_false_2 by done. by rewrite IH.
Qed.

Lemma skipleading_head c s : blank c = false -> skipleading (c :: s) = c :: s.
Proof. cbn. by intros ->. Qed.

Lemma striptrailing_last s c : last s = Some c -> blank c = false -> striptrailing s = s.
Proof.
  revert c. induction s as [|d s IH]; intros c Hl Hc; [done |]. cbn [striptrailing]. destruct s as [|e s].
  - injection Hl as ->. cbn. by rewrite Hc.
  - by rewrite (IH c).
Qed.

Lemma key_ok_inv K : key_name_ok K = true -> exists c s d, K = c :: s /\ last K = Some d /\ blank c = false /\ blank d = false /\
  c <> "["%char /\ c <> ";"%char /\ c <> "#"%char /\ has_char LF K = false /\ has_char NUL K = false /\ has_char "="%char K = false.
Proof.
  unfold key_name_ok, one_line, comment. intros H. zbool. destruct K as [|c s]; [done |]. cbn [head_is] in *.
  destruct (last (c :: s)) as [d|] eqn:El; [| by apply last_None in El]. unfold first_and_last in *. rewrite El in *. zbool.
  by exists c, s, d.
Qed.

(** The line of a key: found by the key in any case, no heading. *)
Section KeyLine.
Variables (K x : bytes).
Hypothesis HK : key_name_ok K = true.
Let line := K ++ "="%char :: x.

Lemma key_line_start : skipleading line = line /\ key_end line = Some (length K) /\ is_heading line = false /\ comment line = false.
Proof.
  destruct (key_ok_inv K HK) as (c & s & d & E & _ & Hc & _ & H1 & H2 & H3 & _ & _ & He).
  assert (Hs : skipleading line = line) by (unfold line; rewrite E; by apply skipleading_head).
  split_and!; [done | | |].
  - unfold key_end, line. by rewrite strchr_app.
  - unfold is_heading. rewrite Hs. unfold line. rewrite E. cbn. by apply bool_decide_eq_false_2.
  - unfold comment, line. rewrite E. cbn. by rewrite !bool_decide_eq_false_2.
Qed.

Lemma key_is_line K' : key_is K' line (length K) = str_caseeq K K'.
Proof.
  destruct (key_ok_inv K HK) as (c & s & d & E & El & Hc & Hd & _).
  unfold key_is, skiptrailing, line. rewrite take_app_length, (striptrailing_last K d El Hd).
  destruct (decide (length K = length K')) as [Hl | Hl].
  - rewrite (proj2 (Nat.eqb_eq _ _) Hl), <- Hl, take_app_length. rewrite E. done.
  - rewrite (proj2 (Nat.eqb_neq _ _) Hl), andb_false_r. cbn [andb]. symmetry. apply bool_decide_eq_false_2.
    intros Heq. apply Hl. apply (f_equal length) in Heq. by rewrite !length_fmap in Heq.
Qed.

Lemma key_line_is K' : is_key_line K' line = str_caseeq K K'.
Proof.
  destruct key_line_start as (Hs & He & _ & Hc). unfold is_key_line. rewrite Hs, He, Hc. apply key_is_line.
Qed.

Lemma has_key_is K' : has_key (Some K') line = str_caseeq K K'.
Proof. destruct key_line_start as (Hs & He & _ & Hc). unfold has_key. rewrite Hs, He. apply key_is_line. Qed.

Lemma line_value_is : line_value line = let '(text, quotes) := cleanstring (skipleading x) in
  match quotes with QUOTE_DEQUOTE => dequote text (length text) | _ => text end.
Proof.
  destruct key_line_start as (Hs & He & _). unfold line_value. rewrite Hs, He. cbn [default]. unfold id.
  assert (drop (Datatypes.S (length K)) line = x) as ->; [| done].
  unfold line. change ("="%char :: x) with (["="%char] ++ x). rewrite app_assoc. apply drop_app_length'. rewrite length_app. cbn. lia.
Qed.
End KeyLine.

(** The value on the line is the value written. *)
Lemma strip_comment_plain b s : has_char DQ s = false -> has_char ";"%char s = false -> has_char "#"%char s = false ->
  strip_comment b s = s.
Proof.
  induction s as [|c s IH]; [done |]. cbn [has_char strip_comment]. intros H1 H2 H3. zbool.
  rewrite !(bool_decide_eq_false_2 (c = ";"%char)), !(bool_decide_eq_false_2 (c = "#"%char)), !(bool_decide_eq_false_2 (c = DQ)) by done.
  cbn [orb andb]. rewrite IH by done. case_bool_decide; [| done]. destruct s as [|d s]; [done |]. cbn [has_char] in *. zbool.
  by rewrite bool_decide_eq_false_2.
Qed.

Lemma escape_head V d t : escape V = d :: t -> d <> DQ.
Proof. destruct V as [|c V]; [done |]. cbn. case_bool_decide; intros [= <- _]; [by vm_compute | done]. Qed.

Lemma strip_comment_quoted V : strip_comment true (escape V ++ [DQ; LF]) = escape V ++ [DQ; LF].
Proof.
  induction V as [|c V IH]; [done |]. cbn [escape]. case_bool_decide as Hc.
  - cbn [app strip_comment]. rewrite andb_false_r, (bool_decide_eq_false_2 (BSL = DQ)), (bool_decide_eq_true_2 (BSL = BSL)),
      (bool_decide_eq_true_2 (DQ = DQ)) by done. by rewrite IH.
  - cbn [app]. cbn [strip_comment]. rewrite andb_false_r, (bool_decide_eq_false_2 (c = DQ)) by done.
    case_bool_decide as Hb; [| by rewrite IH]. destruct (escape V) as [|d t] eqn:E; [done |].
    cbn [app]. rewrite bool_decide_eq_false_2 by (by eapply escape_head). cbn [app] in IH. by rewrite IH.
Qed.

Lemma dequote_escape V : forall n, (length (escape V) <= n)%nat -> dequote (escape V) n = V.
Proof.
  induction V as [|c V IH]; intros n Hn; [by destruct n |]. cbn [escape] in *. case_bool_decide as Hc.
  - cbn [length] in Hn. destruct n as [|n]; [lia |]. rewrite dequote_cons.
    rewrite (bool_decide_eq_true_2 (BSL = BSL)), orb_true_r, (bool_decide_eq_true_2 (DQ = DQ)) by done. cbn [andb].
    rewrite IH by lia. by rewrite Hc.
  - cbn [length] in Hn. destruct n as [|n]; [lia |]. specialize (IH n ltac:(lia)). destruct (escape V) as [|d t] eqn:E.
    + destruct V as [|e V]; [done |]. cbn [escape] in E. by destruct (bool_decide (e = DQ)).
    + rewrite dequote_cons, (bool_decide_eq_false_2 (d = DQ)) by (by eapply escape_head). rewrite andb_false_r. by rewrite IH.
Qed.

Lemma cleaned_value V : value_ok V = true ->
  (let '(text, quotes) := cleanstring (skipleading (value_text V ++ [LF])) in
   match quotes with QUOTE_DEQUOTE => dequote text (length text) | _ => text end) = V.
Proof.
  unfold value_ok. intros [Hone H]%andb_true_iff. destruct (check_enquote_cases V) as [[E Hne] | (E & H1 & H2 & H3)]; rewrite E in H.
  - rewrite quoted_quotes by done. cbn [app]. rewrite <- app_assoc. rewrite skipleading_head by done.
    unfold cleanstring. cbn [strip_comment app].
    rewrite (bool_decide_eq_false_2 (DQ = ";"%char)), (bool_decide_eq_false_2 (DQ = "#"%char)), (bool_decide_eq_true_2 (DQ = DQ)) by done.
    cbn [orb andb negb]. pose proof (strip_comment_quoted V) as Hq. destruct (escape V) as [|d t] eqn:Ee.
    { destruct V as [|e V]; [done |]. cbn [escape] in Ee. by destruct (bool_decide (e = DQ)). }
    cbn [app] in *. rewrite (bool_decide_eq_false_2 (d = DQ)) by (by eapply escape_head). rewrite Hq.
    change (DQ :: d :: t ++ [DQ; LF]) with (DQ :: (d :: t) ++ [DQ] ++ [LF]). rewrite app_assoc, app_comm_cons.
    rewrite striptrailing_blank by done. rewrite (striptrailing_last _ DQ) by (by rewrite ?app_comm_cons, last_snoc || done).
    change (DQ :: (d :: t) ++ [DQ]) with ((DQ :: d :: t) ++ [DQ]). rewrite last_snoc. cbn [head_is app].
    rewrite !bool_decide_eq_true_2 by done. cbn [andb]. rewrite skipn_cons, drop_0.
    assert (length (DQ :: d :: t ++ [DQ]) - 2 = length (d :: t))%nat as -> by (cbn; rewrite length_app; cbn; lia).
    change (d :: t ++ [DQ]) with ((d :: t) ++ [DQ]). rewrite take_app_length, <- Ee. by apply dequote_escape.
  - rewrite quoted_plain by done. unfold first_and_last in H. destruct V as [|c V]; [done |].
    destruct (last (c :: V)) as [d|] eqn:El; [| by apply last_None in El]. zbool.
    cbn [app]. rewrite skipleading_head by done. rewrite app_comm_cons, cleanstring_LF. unfold cleanstring.
    rewrite strip_comment_plain by done. rewrite (striptrailing_last _ d) by done.
    cbn [has_char head_is] in *. zbool. by rewrite bool_decide_eq_false_2.
Qed.

Lemma line_value_written K V : key_name_ok K = true -> value_ok V = true -> line_value (K ++ "="%char :: value_text V ++ [LF]) = V.
Proof. intros HK HV. rewrite line_value_is by done. by apply cleaned_value. Qed.

(** The line of a heading. *)
Lemma strrchr_app c s t : has_char c t = false -> strrchr c (s ++ c :: t) = Some (length s).
Proof.
  intros Ht. induction s as [|d s IH]; cbn; [| by rewrite IH].
  assert (strrchr c t = None) as ->; [| by rewrite bool_decide_eq_true_2].
  induction t as [|e t IHt]; [done |]. cbn in *. zbool. rewrite IHt by done. by rewrite bool_decide_eq_false_2.
Qed.

Lemma heading_line S : is_heading ("["%char :: S ++ "]"%char :: [LF]) = true /\
  forall S', section_line S' ("["%char :: S ++ "]"%char :: [LF]) = str_caseeq S S'.
Proof.
  assert (Hh : is_heading ("["%char :: S ++ "]"%char :: [LF]) = true) by (unfold is_heading; rewrite skipleading_head by done; done).
  split; [done |]. intros S'. unfold section_line. rewrite Hh, skipleading_head by done. cbn [andb].
  assert (strrchr "]"%char ("["%char :: S ++ "]"%char :: [LF]) = Some (length ("["%char :: S))) as ->
    by (by apply (strrchr_app _ ("["%char :: S))).
  unfold section_is. cbn [length]. rewrite Nat.sub_succ, Nat.sub_0_r, skipn_cons, drop_0.
  destruct (decide (length S = length S')) as [Hl | Hl].
  - rewrite (proj2 (Nat.eqb_eq _ _) Hl), <- Hl, take_app_length. done.
  - rewrite (proj2 (Nat.eqb_neq _ _) Hl). cbn [andb]. symmetry. apply bool_decide_eq_false_2.
    intros Heq. apply Hl. apply (f_equal length) in Heq. by rewrite !length_fmap in Heq.
Qed.

(** ** Settings after an edit *)

Lemma caseeq_true a b : str_caseeq a b = true <-> tolower <$> a = tolower <$> b.
Proof. unfold str_caseeq. apply bool_decide_eq_true. Qed.

Lemma caseeq_length a b : str_caseeq a b = true -> length a = length b.
Proof. intros H%caseeq_true. apply (f_equal length) in H. by rewrite !length_fmap in H. Qed.

Lemma caseeq_refl a : str_caseeq a a = true.
Proof. by apply caseeq_true. Qed.

Lemma caseeq_subst a b x : str_caseeq a b = true -> str_caseeq x a = str_caseeq x b.
Proof. intros H%caseeq_true. unfold str_caseeq. by rewrite H. Qed.

Lemma section_is_case S S' sp ep : str_caseeq S S' = true -> section_is S sp ep = section_is S' sp ep.
Proof. intros H. unfold section_is. by rewrite (caseeq_length _ _ H), (caseeq_subst _ _ _ H). Qed.

Lemma section_line_case S S' l : str_caseeq S S' = true -> section_line S l = section_line S' l.
Proof. intros H. unfold section_line. f_equal. destruct (strrchr _ _); [by apply section_is_case | done]. Qed.

Lemma section_line_both S S' l : section_line S l = true -> section_line S' l = true -> str_caseeq S S' = true.
Proof.
  unfold section_line. intros [_ H]%andb_true_iff [_ H']%andb_true_iff. destruct (strrchr _ _); [| done].
  unfold section_is in *. apply andb_true_iff in H as [Hl%Nat.eqb_eq H]. apply andb_true_iff in H' as [Hl'%Nat.eqb_eq H'].
  rewrite <- Hl', Hl in H'. apply caseeq_true in H, H'. apply caseeq_true. congruence.
Qed.

Lemma section_line_header S l : section_line S l = true -> is_heading l = true.
Proof. by intros [? _]%andb_true_iff. Qed.

Lemma key_line_has K l : is_key_line K l = true -> has_key (Some K) l = true.
Proof. unfold is_key_line, has_key. destruct (key_end _); [| done]. by intros [_ ?]%andb_true_iff. Qed.

Lemma has_key_other K K' l : has_key (Some K) l = true -> str_caseeq K K' = false -> is_key_line K' l = false.
Proof.
  intros H Hc. destruct (is_key_line K' l) eqn:E; [| done]. apply key_line_has in E. unfold has_key, key_is in *.
  destruct (key_end _); [| done]. zbool.
  match goal with H1 : (_ =? length K)%nat = true, H2 : (_ =? length K')%nat = true |- _ => apply Nat.eqb_eq in H1, H2 end.
  match goal with H1 : str_caseeq _ K = true, H2 : str_caseeq _ K' = true |- _ => apply caseeq_true in H1, H2 end.
  apply not_true_iff_false in Hc. destruct Hc. apply caseeq_true. congruence.
Qed.

Lemma has_key_case K K' l : str_caseeq K K' = true -> has_key (Some K) l = has_key (Some K') l.
Proof.
  intros H. unfold has_key, key_is. destruct (key_end _); [| done]. by rewrite (caseeq_length _ _ H), (caseeq_subst _ _ _ H).
Qed.

Lemma after_heading_app S p q : after_heading S (p ++ q) =
  match after_heading S p with Some r => Some (r ++ q) | None => after_heading S q end.
Proof. induction p as [|l p IH]; [done |]. cbn. by destruct (section_line S l). Qed.

Lemma after_heading_clear S a : Forall (fun l => is_heading l = false) a -> after_heading S a = None.
Proof.
  induction 1 as [|l a Hl _ IH]; [done |]. cbn. destruct (section_line S l) eqn:E; [| done].
  apply section_line_header in E. congruence.
Qed.

(** A line that is no heading and has not the key. *)
Definition invisible (K l : bytes) : Prop := is_heading l = false /\ is_key_line K l = false.

Lemma key_in_header K r x q : is_heading x = true -> key_in K (r ++ x :: q) = key_in K r.
Proof. intros Hx. induction r as [|l r IH]; cbn; [by rewrite Hx | by rewrite IH]. Qed.

Lemma key_in_invisible K p l q : invisible K l -> key_in K (p ++ l :: q) = key_in K (p ++ q).
Proof. intros [Hh Hk]. induction p as [|x p IH]; cbn; [by rewrite Hh, Hk | by rewrite IH]. Qed.

Lemma key_in_clear K a q : Forall (invisible K) a -> key_in K (a ++ q) = key_in K q.
Proof. induction 1 as [|l a [Hh Hk] _ IH]; [done |]. cbn. by rewrite Hh, Hk. Qed.

Lemma setting_invisible S K p l q : invisible K l -> setting S K (p ++ l :: q) = setting S K (p ++ q).
Proof.
  intros Hl. unfold setting, section_lines. destruct S as [|c S]; [by rewrite key_in_invisible |]. set (s := c :: S).
  rewrite !after_heading_app. destruct (after_heading s p); [by rewrite key_in_invisible |]. cbn [after_heading].
  destruct (section_line s l) eqn:E; [| done]. apply section_line_header in E. destruct Hl. congruence.
Qed.

Lemma heading_split_spec S ls before body : heading_split S ls = Some (before, body) ->
  exists b x, before = b ++ [x] /\ section_line S x = true /\ after_heading S b = None.
Proof.
  revert before. induction ls as [|l ls IH]; intros before; [done |]. cbn [heading_split].
  destruct (section_line S l) eqn:E; [intros [= <- <-]; by exists [], l |].
  destruct (heading_split S ls) as [[b r]|]; [| done]. intros [= <- <-].
  destruct (IH b eq_refl) as (b0 & x & -> & Hx & Hn). exists (l :: b0), x. cbn. by rewrite E.
Qed.

Lemma heading_split_none S ls : heading_split S ls = None -> after_heading S ls = None.
Proof.
  induction ls as [|l ls IH]; [done |]. cbn. destruct (section_line S l); [done |].
  destruct (heading_split S ls) as [[b r]|]; [done | intros _; by apply IH].
Qed.

Lemma section_split_concat S ls before body : section_split S ls = Some (before, body) -> ls = before ++ body.
Proof. unfold section_split. destruct S; [by intros [= <- <-] | apply split_concat]. Qed.

Lemma section_lines_before S ls before body q : section_split S ls = Some (before, body) -> section_lines S (before ++ q) = Some q.
Proof.
  unfold section_split, section_lines. destruct S as [|c S]; [by intros [= <- <-] |].
  intros (b & x & -> & Hx & Hn)%heading_split_spec. by rewrite <- app_assoc, after_heading_app, Hn; cbn; rewrite Hx.
Qed.

Lemma key_split_spec K ls : Forall (fun l => is_heading l = false /\ has_key (Some K) l = false) (fst (key_split (Some K) ls)) /\
  forall l after, snd (key_split (Some K) ls) = Some (l, after) -> is_heading l = false -> has_key (Some K) l = true.
Proof.
  induction ls as [|l ls [IH1 IH2]]; [done |]. cbn [key_split]. destruct (_ || _) eqn:E.
  - split; [done |]. intros x after [= <- <-] Hh. rewrite Hh, orb_false_r in E. done.
  - zbool. destruct (key_split (Some K) ls) as [a r]. split; [by constructor | done].
Qed.

Lemma blank_invisible K blank : blank_ok blank -> Forall (invisible K) blank.
Proof. intros [-> | ->]; [constructor | by repeat constructor]. Qed.

Lemma setting_close S K ls q : setting S K (close ls ++ q) = setting S K (ls ++ q).
Proof.
  symmetry. apply setting_same. apply Forall2_app; [apply close_same |]. induction q; constructor; [apply same_refl | done].
Qed.

Section Edit.
Variables (S K h t : bytes) (blank : list bytes).
Hypothesis t_header : is_heading t = false.
Hypothesis t_key : forall K', is_key_line K' t = str_caseeq K K'.
Hypothesis h_header : is_heading h = true.
Hypothesis h_section : forall S', section_line S' h = str_caseeq S S'.
Hypothesis Hblank : blank_ok blank.

Lemma clear_before ls : Forall (fun l => is_heading l = false /\ has_key (Some K) l = false) ls -> Forall (invisible K) ls.
Proof.
  intros H. eapply Forall_impl; [exact H |]. intros l [Hh Hk]. split; [done |]. destruct (is_key_line K l) eqn:E; [| done]. apply key_line_has in E. congruence.
Qed.

(** The line put in is the one found. *)
Lemma setting_edit ls : setting S K (edit blank S K h t ls) = Some (line_value t).
Proof.
  assert (Hkt : forall a q, Forall (invisible K) a -> key_in K (a ++ t :: q) = Some t).
  { intros a q Ha. rewrite key_in_clear by done. cbn. by rewrite t_header, t_key, caseeq_refl. }
  unfold edit. destruct (section_split S ls) as [[before body]|] eqn:Es.
  - destruct (key_split_spec K body) as [Ha _]. destruct (key_split (Some K) body) as [a [[l after]|]]; cbn [fst] in Ha.
    + unfold setting. rewrite (section_lines_before _ _ _ _ _ Es), Hkt; [done | by apply clear_before].
    + rewrite setting_close, <- app_assoc. unfold setting. rewrite (section_lines_before _ _ _ _ _ Es), app_assoc, Hkt; [done |].
      apply Forall_app. split; [by apply clear_before | by apply blank_invisible].
  - rewrite setting_close. unfold section_split in Es. unfold setting, section_lines. destruct S as [|c s] eqn:ES; [done |].
    rewrite after_heading_app, (heading_split_none _ _ Es). rewrite after_heading_app.
    rewrite after_heading_clear by (eapply Forall_impl; [exact (blank_invisible K _ Hblank) | by intros ? []]).
    cbn [after_heading]. rewrite h_section, caseeq_refl. cbn [key_in].
    by rewrite t_header, t_key, caseeq_refl.
Qed.

(** Another section sees the same lines. *)
Lemma setting_region S' K' ls before body X Y : str_caseeq S S' = false -> section_split S ls = Some (before, body) ->
  after_heading S' X = after_heading S' Y -> setting S' K' (before ++ X) = setting S' K' (before ++ Y).
Proof.
  intros Hs Hsp Hxy. unfold section_split in Hsp. unfold setting, section_lines. destruct S as [|c s] eqn:ES.
  - injection Hsp as <- <-. destruct S' as [|c' s']; [done |]. cbn [app]. by rewrite Hxy.
  - apply heading_split_spec in Hsp as (b & x & -> & Hx & _). pose proof (section_line_header _ _ Hx) as Hh.
    rewrite <- !app_assoc. cbn [app]. destruct S' as [|c' s']; [by rewrite !key_in_header |].
    rewrite !after_heading_app. destruct (after_heading (c' :: s') b); [by rewrite !key_in_header |]. cbn [after_heading].
    destruct (section_line (c' :: s') x) eqn:E; [| by rewrite Hxy].
    by rewrite (section_line_both _ _ _ Hx E) in Hs.
Qed.

Lemma setting_edit_other ls S' K' : str_caseeq S S' && str_caseeq K K' = false ->
  setting S' K' (edit blank S K h t ls) = setting S' K' ls.
Proof.
  intros Ho. unfold edit. destruct (section_split S ls) as [[before body]|] eqn:Es.
  - pose proof (section_split_concat _ _ _ _ Es) as ->. destruct (key_split_spec K body) as [Ha Hl].
    pose proof (key_split_concat (Some K) body) as Hb.
    assert (Hah : Forall (fun l => is_heading l = false) (fst (key_split (Some K) body))) by (eapply Forall_impl; [exact Ha | by intros ? []]).
    destruct (str_caseeq K K') eqn:EK.
    + rewrite andb_true_r in Ho. destruct (key_split (Some K) body) as [a [[l after]|]]; cbn [fst snd] in *; rewrite Hb.
      * eapply setting_region; [done | exact Es |]. rewrite !after_heading_app, !(after_heading_clear _ a Hah). cbn [after_heading].
        destruct (section_line S' t) eqn:E; [apply section_line_header in E; congruence |].
        destruct (is_heading l) eqn:Hlh; [done |]. destruct (section_line S' l) eqn:E2; [apply section_line_header in E2; congruence | done].
      * rewrite setting_close, <- app_assoc. eapply setting_region; [done | exact Es |].
        rewrite after_heading_app, (after_heading_clear _ a Hah). apply after_heading_clear, Forall_app. split.
        -- eapply Forall_impl; [exact (blank_invisible K _ Hblank) | by intros ? []].
        -- by constructor.
    + assert (Ht : invisible K' t) by (split; [done | by rewrite t_key]).
      destruct (key_split (Some K) body) as [a [[l after]|]]; cbn [fst snd] in *; rewrite Hb.
      * rewrite !(app_assoc before a). rewrite setting_invisible by done. destruct (is_heading l) eqn:Hlh; [done |].
        rewrite (setting_invisible _ _ _ l); [done |]. split; [done |]. eapply has_key_other; [by eapply Hl | done].
      * rewrite setting_close. rewrite app_assoc. rewrite setting_invisible, app_nil_r by done.
        destruct Hblank as [-> | ->]; [by rewrite app_nil_r |]. by rewrite setting_invisible, app_nil_r.
  - rewrite setting_close. unfold section_split in Es. destruct S as [|c s] eqn:ES; [done |]. rewrite <- ES in *.
    assert (Hnone : after_heading S ls = None) by (by apply heading_split_none).
    assert (Hbt : forall p q, setting S' K' (p ++ blank ++ q) = setting S' K' (p ++ q)).
    { intros p q. destruct Hblank as [-> | ->]; [done |]. by apply setting_invisible. }
    rewrite Hbt. unfold setting, section_lines. destruct S' as [|c' s'] eqn:ES'; [by rewrite key_in_header |]. rewrite <- ES' in *.
    rewrite after_heading_app. destruct (after_heading S' ls) as [r|] eqn:Ea; [by rewrite key_in_header |]. cbn [after_heading].
    rewrite h_section. destruct (str_caseeq S S') eqn:ESS.
    + cbn [andb] in Ho. cbn. by rewrite t_header, t_key, Ho.
    + destruct (section_line S' t) eqn:E; [apply section_line_header in E; congruence | done].
Qed.
End Edit.

(** ** The edited lines are the lines of the new file *)

Definition complete (l : bytes) : Prop := exists b, l = b ++ [LF] /\ has_char LF b = false.

(** A file whose lines fit the buffer, the last one also when it is closed. *)
Definition ini_file_ok (data : bytes) : Prop := Forall ini_line (close (lines data)).

Lemma complete_last l : complete l -> last l = Some LF.
Proof. intros (b & -> & _). apply last_snoc. Qed.

Lemma complete_list p q : Forall complete p -> line_list q -> line_list (p ++ q).
Proof.
  intros Hp Hq. induction Hp as [|l p (b & -> & Hb) _ IH]; [done |]. cbn [app line_list]. rewrite removelast_snoc, last_snoc.
  split_and!; [by destruct b | done | done | done].
Qed.

Lemma complete_before p q : line_list (p ++ q) -> q <> [] -> Forall complete p.
Proof.
  intros H Hq. induction p as [|l p IH]; [constructor |]. destruct H as (Hl & Hf & Ht & H). constructor; [| by apply IH].
  destruct (line_shape l Hl Hf) as [? | [Hn _]]; [done |]. destruct Hn. apply Ht. by destruct p.
Qed.

Lemma close_complete p : Forall complete p -> close p = p.
Proof.
  induction 1 as [|l p Hl Hp IH]; [done |]. destruct p as [|l2 p]; [| change (l :: close (l2 :: p) = l :: l2 :: p); by rewrite IH].
  cbn. by rewrite bool_decide_eq_true_2 by by apply complete_last.
Qed.

Lemma complete_close ls : line_list ls -> Forall complete (close ls).
Proof.
  induction ls as [|l [|l2 ls] IH]; [constructor | |].
  - intros (Hl & Hf & _). cbn. constructor; [| constructor]. destruct (line_shape l Hl Hf) as [H | [Hn Hb]].
    + by rewrite bool_decide_eq_true_2 by by apply complete_last.
    + rewrite bool_decide_eq_false_2 by done. by exists l.
  - intros (Hl & Hf & Ht & H). change (close (l :: l2 :: ls)) with (l :: close (l2 :: ls)). constructor; [| by apply IH].
    destruct (line_shape l Hl Hf) as [? | [Hn _]]; [done |]. destruct Hn. by apply Ht.
Qed.

Lemma close_app p q : q <> [] -> close (p ++ q) = p ++ close q.
Proof.
  intros Hq. induction p as [|l p IH]; [done |]. cbn [app]. destruct (p ++ q) as [|l2 r] eqn:E.
  - by apply app_eq_nil in E as [_ ->].
  - change (l :: close (l2 :: r) = l :: p ++ close q). by rewrite IH.
Qed.

Lemma close_lines_ok ls : Forall ini_line (close ls) -> Forall ini_line ls.
Proof.
  induction ls as [|l [|l2 ls] IH]; [done | |].
  - cbn. intros [Hl _]%Forall_cons. constructor; [| constructor]. case_bool_decide; [done |]. destruct Hl as [Hn Hl].
    rewrite has_char_app, length_app in *. zbool. split; [done | cbn in *; lia].
  - change (close (l :: l2 :: ls)) with (l :: close (l2 :: ls)). intros [Hl H]%Forall_cons. constructor; [done | by apply IH].
Qed.

Lemma file_ok_text data : ini_file_ok data -> ini_text data.
Proof. apply close_lines_ok. Qed.

(** The text of lines that fit. *)
Definition lines_ok (ls : list bytes) : Prop := line_list ls /\ Forall ini_line (close ls).

Lemma lines_ok_file ls : lines_ok ls -> ini_file_ok (concat ls) /\ lines (concat ls) = ls.
Proof. intros [H1 H2]. unfold ini_file_ok. by rewrite lines_concat. Qed.

Lemma complete_ok p : Forall complete p -> Forall ini_line p -> lines_ok p.
Proof.
  intros H1 H2. split; [| by rewrite close_complete]. rewrite <- (app_nil_r p). by apply complete_list.
Qed.

Section EditOk.
Variables (S K h t : bytes) (blank : list bytes).
Hypothesis t_ok : complete t /\ ini_line t.
Hypothesis h_ok : complete h /\ ini_line h.
Hypothesis Hblank : blank_ok blank.

Lemma blank_complete : Forall complete blank /\ Forall ini_line blank.
Proof.
  destruct Hblank as [-> | ->]; [by split |]. split; (constructor; [| constructor]); [by exists [] |].
  split; [done | unfold INI_BUFFERSIZE; cbn; lia].
Qed.

Lemma edit_ok ls : lines_ok ls -> lines_ok (edit blank S K h t ls).
Proof.
  intros [Hl Hi]. destruct blank_complete as [Hb1 Hb2]. destruct t_ok as [Ht1 Ht2]. destruct h_ok as [Hh1 Hh2]. unfold edit.
  destruct (section_split S ls) as [[before body]|] eqn:Es.
  - pose proof (section_split_concat _ _ _ _ Es) as ->. pose proof (key_split_concat (Some K) body) as Hb.
    destruct (key_split (Some K) body) as [a [[l after]|]]; subst body.
    + rewrite app_assoc in *. pose proof (complete_before _ _ Hl ltac:(done)) as Hc.
      apply line_list_app in Hl as (_ & Hl & _). rewrite close_app in Hi by done. apply Forall_app in Hi as [Hi1 Hi2].
      assert (Hrest : lines_ok (if is_heading l then l :: after else after)).
      { destruct (is_heading l); [by split |]. change (l :: after) with ([l] ++ after) in *. apply line_list_app in Hl as (_ & Hl & _).
        split; [done |]. destruct after; [constructor |]. rewrite close_app in Hi2 by done. by apply Forall_app in Hi2 as [_ ?]. }
      destruct Hrest as [Hr1 Hr2]. change (t :: ?r) with ([t] ++ r). rewrite app_assoc. 
      assert (Hc2 : Forall complete ((before ++ a) ++ [t])) by (apply Forall_app; split; [done | by constructor]).
      assert (Hi3 : Forall ini_line ((before ++ a) ++ [t])) by (apply Forall_app; split; [done | by constructor]).
      split; [by apply complete_list |]. destruct (if is_heading l then l :: after else after) as [|x r] eqn:Er.
      * rewrite app_nil_r. by rewrite close_complete.
      * rewrite close_app by done. by apply Forall_app.
    + apply complete_ok; repeat apply Forall_app_2; try done; [by apply complete_close | by constructor ..].
  - apply complete_ok; repeat apply Forall_app_2; try done; [by apply complete_close | by constructor; [| constructor] ..].
Qed.
End EditOk.

Lemma lines_ok_lines data : ini_file_ok data -> lines_ok (lines data).
Proof. intros H. split; [apply line_list_lines | done]. Qed.

(** The texts written are lines. *)
Lemma has_char_escape c V : c <> BSL -> has_char c V = false -> has_char c (escape V) = false.
Proof.
  intros Hc. induction V as [|d V IH]; cbn [escape has_char]; [done |]. intros H. zbool. case_bool_decide; subst; cbn [has_char].
  - by rewrite !bool_decide_eq_false_2, IH by congruence.
  - by rewrite bool_decide_eq_false_2, IH.
Qed.

Lemma quoted_one_line V : one_line V = true -> one_line (value_text V) = true.
Proof.
  unfold one_line. intros H. zbool. unfold value_text. destruct (check_enquote V); [by rewrite H, H0 | | by rewrite H, H0].
  cbn [has_char]. rewrite !has_char_app, !has_char_escape by done. done.
Qed.

Lemma key_text_ok K V : key_name_ok K = true -> value_ok V = true -> fits K V = true ->
  let t := K ++ "="%char :: value_text V ++ [LF] in complete t /\ ini_line t.
Proof.
  intros HK [HV _]%andb_true_iff Hf. unfold fits in Hf. apply Nat.leb_le in Hf. apply quoted_one_line in HV.
  destruct (key_ok_inv K HK) as (c & s & d & _ & _ & _ & _ & _ & _ & _ & H1 & H2 & _). unfold one_line in HV. zbool. split.
  - exists (K ++ "="%char :: value_text V). split; [by rewrite <- app_assoc |]. rewrite has_char_app, H1. cbn. done.
  - split.
    + rewrite has_char_app, H2. cbn. rewrite has_char_app. by rewrite H0.
    + rewrite length_app. cbn [length]. rewrite length_app. unfold INI_BUFFERSIZE. cbn. lia.
Qed.

Lemma section_text_ok S : section_ok S = true -> let h := "["%char :: S ++ "]"%char :: [LF] in complete h /\ ini_line h.
Proof.
  unfold section_ok, one_line. intros [H Hl%Nat.leb_le]%andb_true_iff. zbool. split.
  - exists ("["%char :: S ++ ["]"%char]). split; [cbn; by rewrite <- app_assoc |]. cbn. rewrite has_char_app, H. done.
  - split.
    + cbn. by rewrite has_char_app, H0.
    + cbn [length]. rewrite length_app. unfold INI_BUFFERSIZE. cbn. lia.
Qed.

(** A comment has no key that could be written. *)
Lemma has_key_line K l : key_name_ok K = true -> has_key (Some K) l = is_key_line K l.
Proof.
  intros HK. unfold has_key, is_key_line. destruct (key_end (skipleading l)) as [ep|]; [| done].
  destruct (comment (skipleading l)) eqn:Ec; [| done]. cbn [negb andb]. unfold key_is.
  destruct (key_ok_inv K HK) as (c & s & d & -> & _ & _ & _ & _ & H2 & H3 & _). destruct (skipleading l) as [|x sp]; [done |].
  cbn [length take]. destruct (str_caseeq (x :: take (length s) sp) (c :: s)) eqn:E; [exfalso | by rewrite andb_false_r].
  apply caseeq_true in E. rewrite !fmap_cons in E. injection E as E _.
  assert (Hx : x = ";"%char \/ x = "#"%char) by (unfold comment, head_is in Ec; apply orb_true_iff in Ec as [?|?]; zbool; auto).
  assert (Hlow : forall y, y = ";"%char \/ y = "#"%char -> tolower y = y) by (by intros y [-> | ->]).
  rewrite (Hlow x Hx) in E. unfold tolower in E. destruct ((65 <=? code c) && (code c <=? 90)) eqn:Er.
  - zbool. assert (H5 : code ";"%char = 59 /\ code "#"%char = 35) by done.
    destruct Hx as [-> | ->]; apply (f_equal code) in E; rewrite code_chr in E by lia; lia.
  - destruct Hx as [-> | ->]; congruence.
Qed.

Lemma key_split_found K a l after : key_name_ok K = true -> Forall (fun x => is_heading x = false /\ is_key_line K x = false) a ->
  is_key_line K l = true -> key_split (Some K) (a ++ l :: after) = (a, Some (l, after)).
Proof.
  intros HK Ha Hl. induction Ha as [|x a [Hh Hk] _ IH]; cbn [app key_split]; rewrite has_key_line by done.
  - by rewrite Hl.
  - by rewrite Hh, Hk, IH.
Qed.

(** ** The short cuts *)

Lemma length_strip_comment n : forall b s, (length s <= n)%nat -> (length (strip_comment b s) <= length s)%nat.
Proof.
  induction n as [|n IH]; intros b s Hn; [by destruct s; [| cbn in Hn; lia] |]. destruct s as [|c s]; [done |].
  cbn [strip_comment length] in *. destruct (_ && _); [cbn; lia |].
  assert (Hc : forall b', (length (c :: strip_comment b' s) <= Datatypes.S (length s))%nat) by (intros b'; cbn; specialize (IH b' s ltac:(lia)); lia).
  destruct (bool_decide (c = DQ)); [| destruct (bool_decide (c = BSL)); [| by apply Hc]].
  all: destruct s as [|d s']; [cbn; lia |]; destruct (bool_decide (d = DQ)); [| by apply Hc].
  all: cbn [length] in *; specialize (IH b s' ltac:(lia)); lia.
Qed.

Lemma length_skipleading s : (length (skipleading s) <= length s)%nat.
Proof. induction s as [|c s IH]; [done |]. cbn. destruct (blank c); cbn; lia. Qed.

Lemma length_line_value l : (length (line_value l) <= length l)%nat.
Proof.
  unfold line_value. set (x := skipleading (drop _ _)). assert (Hx : (length x <= length l)%nat).
  { unfold x. etransitivity; [apply length_skipleading |]. rewrite length_drop. pose proof (length_skipleading l). lia. }
  unfold cleanstring. set (y := striptrailing _). assert (Hy : (length y <= length l)%nat).
  { unfold y. etransitivity; [apply length_striptrailing |]. pose proof (length_strip_comment (length x) false x ltac:(lia)). lia. }
  destruct (_ && _).
  - etransitivity; [apply length_dequote |]. rewrite length_take, length_drop. lia.
  - done.
Qed.

Lemma write_at_works t pos F w old : w_plan w = [] -> f_data <$> w_files w !! F = Some old ->
  ini_write_at t pos F w = set_files w (<[F := mk_file (take pos old ++ t ++ drop (pos + length t) old) false]> (w_files w)).
Proof.
  intros Hp Hf. unfold ini_write_at, ask. rewrite Hp, firstn_all. destruct (w_files w !! F); [| done]. by injection Hf as ->.
Qed.

Section Puts.
Variables F tmp : bytes.
Hypothesis tempname : ini_tempname F INI_BUFFERSIZE = Some tmp.
Hypothesis tempname_other : tmp <> F.
Variables (Section : option bytes) (K V : bytes).
Hypothesis HS : section_ok (default [] Section) = true.
Hypothesis HK : key_name_ok K = true.
Hypothesis HV : value_ok V = true.
Hypothesis Hfit : fits K V = true.

Abbreviation S := (default [] Section).
Abbreviation h := ("["%char :: S ++ "]"%char :: [LF]).
Abbreviation t := (K ++ "="%char :: value_text V ++ [LF]).

(** What a write leaves: the file as it was, when it had the value, or edited. *)
Definition put_done (w w' : world) : Prop :=
  w_plan w' = [] /\ (forall p, p <> F -> p <> tmp -> w_files w' !! p = w_files w !! p) /\
  (content F w' = content F w /\ setting S K (lines (content F w)) = Some V \/
   exists blank, blank_ok blank /\ content F w' = concat (edit blank S K h t (lines (content F w)))).

(** The same line, or one of the same length. *)
Lemma shortcut_ok w data : w_plan w = [] -> f_data <$> w_files w !! F = Some data -> ini_text data ->
  ini_shortcut data Section K V F w = Some None \/
  exists w', ini_shortcut data Section K V F w = Some (Some (1, w')) /\ put_done w w'.
Proof.
  intros Hp Hf Ht. unfold ini_shortcut. assert (Hc : content F w = data) by (unfold content; by rewrite Hf).
  pose proof (getkeystring_found data Section K INI_BUFFERSIZE Ht ltac:(unfold INI_BUFFERSIZE; lia)) as H.
  pose proof (line_list_lines data) as Hll. unfold put_done, setting, edit. rewrite Hc.
  destruct (section_lines S (lines data)) as [body|] eqn:Esec; [| destruct H as (head & tail & ->); by left].
  destruct (key_in K body) as [l|] eqn:Ekey; [| destruct H as (head & tail & ->); by left].
  destruct H as (a & after & head & Hbody & Ha & Hh & Hk & Hat & ->).
  assert (Hlen : (length l < INI_BUFFERSIZE)%nat) by (destruct Hat as (_ & _ & Hi); by apply Forall_cons in Hi as [[_ ?] _]).
  pose proof (length_line_value l). rewrite take_ge by lia. case_bool_decide as Ev.
  - right. rewrite close_works by done. eexists. split; [done |]. split_and!; [done | done |]. left. by rewrite Hc, Ev.
  - rewrite key_text_fits by done. destruct (length t =? head + length l - head)%nat eqn:El; [| by left]. right.
    apply Nat.eqb_eq in El. rewrite close_works, sys_works by done. cbn [negb]. rewrite (write_at_works _ _ _ _ data) by done.
    rewrite close_works by done. eexists. split; [done |]. cbn. split_and!; [done | intros p ? _; by rewrite lookup_insert_ne |].
    right. exists []. split; [by left |]. unfold content. cbn. rewrite lookup_insert_eq. cbn.
    assert (Hsp : exists before, section_split S (lines data) = Some (before, body) /\ lines data = before ++ body).
    { unfold section_lines, section_split in *. destruct S as [|c s]; [injection Esec as <-; by exists [] |].
      clear -Esec. revert Esec. induction (lines data) as [|x ls IH]; [done |]. cbn [after_heading heading_split].
      destruct (section_line _ x); [intros [= <-]; by exists [x] |]. intros Hx. destruct (IH Hx) as (b & -> & ->). by exists (x :: b). }
    destruct Hsp as (before & -> & Hls). rewrite Hbody, key_split_found by done. rewrite Hh.
    destruct Hat as (Hd & _). rewrite <- drop_drop, Hd. cbn [concat]. rewrite drop_app_length' by lia.
    assert (take head data = concat (before ++ a)) as ->; [| by rewrite !concat_app; cbn [concat]; rewrite <- app_assoc].
    apply (app_inv_tail (concat (l :: after))). rewrite <- Hd at 1. rewrite take_drop, <- concat_app, <- app_assoc, <- Hbody, <- Hls.
    symmetry. apply concat_lines.
Qed.

Lemma create_ok w : w_plan w = [] -> exists w', ini_create Section K V F w = Some (1, w') /\ w_plan w' = [] /\
  (forall p, p <> F -> w_files w' !! p = w_files w !! p) /\ content F w' = concat ((match S with [] => [] | _ => [h] end) ++ [t]).
Proof.
  intros Hp. unfold ini_create. rewrite fopen_works by done. cbn [negb]. set (w1 := set_files w _).
  assert (H1 : written F (w_files w) w1 []) by (split; [done | by exists false]).
  assert (H2 : exists w2, writesection Section F w1 = Some w2 /\ written F (w_files w) w2 (match S with [] => [] | _ => h end)).
  { unfold writesection. destruct Section as [[|c s]|]; [by exists w1 | | by exists w1]. cbn [default] in HS. unfold id in HS.
    rewrite section_text_fits by done. eexists. split; [done |]. by apply (write_ok _ _ _ []). }
  destruct H2 as (w2 & -> & H2). unfold writekey. rewrite key_text_fits by done.
  apply (write_ok _ _ _ _ t) in H2 as [Hp2 [sy Hf2]]. rewrite close_works by done. eexists. split; [done |].
  split_and!; [done | intros p ?; by rewrite Hf2, lookup_insert_ne |].
  unfold content. rewrite Hf2, lookup_insert_eq. cbn [fmap option_fmap option_map f_data default]. unfold id.
  rewrite concat_app. cbn [concat app]. rewrite app_nil_r. f_equal. by destruct (from_option _ _ Section); cbn; rewrite ?app_nil_r.
Qed.

Lemma puts_ok w : w_plan w = [] -> ini_file_ok (content F w) ->
  exists w', ini_puts Section (Some K) (Some V) F w = Some (1, w') /\ put_done w w'.
Proof.
  intros Hp Hi. pose proof (file_ok_text _ Hi) as Ht. unfold ini_puts, ini_openread. rewrite sys_works by done.
  destruct (w_files w !! F) as [f|] eqn:Ef; cbn [fmap option_fmap option_map].
  - assert (Hc : content F w = f_data f) by (unfold content; by rewrite Ef). rewrite Hc in Ht.
    assert (Hf : f_data <$> w_files w !! F = Some (f_data f)) by (by rewrite Ef).
    destruct (shortcut_ok w (f_data f) Hp Hf Ht) as [-> | (w' & -> & Hw)]; [| by exists w'].
    rewrite <- Hc in *. destruct (rewrite_ok F tmp tempname tempname_other w Section K V t h Hp Ht (key_text_fits _ _ Hfit) (section_text_fits _ HS))
      as (w' & blank & E & Hb & (H1 & H2 & _ & H3)).
    exists w'. split; [exact E |]. split_and!; [done | done |]. right. by exists blank.
  - assert (Hc : content F w = []) by (unfold content; by rewrite Ef).
    destruct (create_ok w Hp) as (w' & -> & Hp' & Hw & Hf'). exists w'. split; [done |]. split_and!; [done | intros p ? _; by apply Hw |].
    right. exists []. split; [by left |]. rewrite Hf', Hc. unfold edit, section_split. by destruct S.
Qed.

(** The setting is what was written, every other one what it was. *)
Lemma put_done_settings w w' : ini_file_ok (content F w) -> put_done w w' ->
  ini_file_ok (content F w') /\ setting S K (lines (content F w')) = Some V /\
  forall S' K', str_caseeq S S' && str_caseeq K K' = false ->
    setting S' K' (lines (content F w')) = setting S' K' (lines (content F w)).
Proof.
  intros Hi (_ & _ & [[Hc Hv] | (blank & Hb & Hc)]).
  - rewrite Hc. by split_and!.
  - destruct (key_line_start K (value_text V ++ [LF]) HK) as (_ & _ & Hh & _). destruct (heading_line S) as [Hsh Hss].
    destruct (lines_ok_file _ (edit_ok S K h t blank (key_text_ok K V HK HV Hfit) (section_text_ok S HS) Hb _ (lines_ok_lines _ Hi)))
      as [Hok Hls].
    rewrite Hc, Hls. split_and!; [done | |].
    + rewrite (setting_edit S K h t blank); [by rewrite line_value_written | done | by apply key_line_is | done | done].
    + intros S' K' Ho. by apply (setting_edit_other S K h t blank Hh (key_line_is K _ HK) Hsh Hss Hb).
Qed.
End Puts.

(** ** Numbers *)

Lemma long_digits_opp fuel : forall n, long_digits fuel (- n) = long_digits fuel n.
Proof.
  induction fuel as [|fuel IH]; intros n; cbn [long_digits]; rewrite Z.rem_opp_l', Z.abs_opp; [done |].
  rewrite Z.quot_opp_l, IH by done. destruct (Z.quot n 10 =? 0) eqn:E; zbool.
  - rewrite E. done.
  - by rewrite (proj2 (Z.eqb_neq _ _)) by lia.
Qed.

Lemma long_digits_dec fuel : forall n acc, 0 <= n -> dec_go fuel n acc = reverse (long_digits fuel n) ++ acc.
Proof.
  induction fuel as [|fuel IH]; intros n acc Hn; cbn [long_digits dec_go]; rewrite Z.rem_mod_nonneg by lia;
    pose proof (Z.mod_pos_bound n 10 ltac:(lia)); rewrite Z.abs_eq, (Z.add_comm _ 48) by lia; fold (digit (n mod 10)); [done |].
  rewrite Z.quot_div_nonneg by lia. destruct (n <? 10) eqn:E; zbool.
  - rewrite Z.div_small, Z.mod_small by lia. done.
  - rewrite (proj2 (Z.eqb_neq (n / 10) 0)) by (pose proof (Z.div_le_lower_bound n 10 1 ltac:(lia)); lia).
    rewrite IH by (apply Z.div_pos; lia). by rewrite reverse_cons, <- app_assoc.
Qed.

(** [long2str] prints as [%ld] does, the smallest number included. *)
Lemma long2str_fmt n : long2str n = fmt_d n.
Proof.
  unfold long2str, fmt_d, dec. destruct (n <? 0) eqn:E; zbool.
  - rewrite reverse_app, long_digits_dec, app_nil_r, long_digits_opp by lia. done.
  - by rewrite long_digits_dec, !app_nil_r by lia.
Qed.

(** ** The name of the temporary file *)

Lemma tempname_ok F : F <> [] -> (length F < INI_BUFFERSIZE)%nat -> last F <> Some "~"%char ->
  exists tmp, ini_tempname F INI_BUFFERSIZE = Some tmp /\ tmp <> F.
Proof.
  intros Hne Hl Hlast. unfold ini_tempname. rewrite (copy_value F QUOTE_NONE) by (done || (unfold INI_BUFFERSIZE; lia)).
  rewrite take_ge by lia. destruct F as [|c F]; [done |]. eexists. split; [done |]. intros Heq. apply Hlast. rewrite <- Heq.
  apply last_snoc.
Qed.

(** What the callers of [ini_puts] respect. *)
Record put_args (Section : option bytes) (K V F : bytes) : Prop := {
  arg_section : section_ok (default [] Section) = true;
  arg_key : key_name_ok K = true;
  arg_value : value_ok V = true;
  arg_fits : fits K V = true;
  arg_name : F <> [] /\ (length F < INI_BUFFERSIZE)%nat /\ last F <> Some "~"%char }.

(** A name is the same in any case. *)
Definition same_setting (S K S' K' : bytes) : bool := str_caseeq S S' && str_caseeq K K'.

Lemma section_lines_case S S' ls : str_caseeq S S' = true -> section_lines S' ls = section_lines S ls.
Proof.
  intros E. pose proof (caseeq_length _ _ E) as Hl. unfold section_lines.
  assert (Ha : after_heading S' ls = after_heading S ls).
  { induction ls as [|l ls IH]; [done |]. cbn [after_heading]. by rewrite (section_line_case _ _ _ E), IH. }
  by destruct S, S'.
Qed.

Lemma key_in_case K K' body : str_caseeq K K' = true -> key_in K' body = key_in K body.
Proof.
  intros E. assert (Hk : forall l, is_key_line K' l = is_key_line K l).
  { intros l. unfold is_key_line, key_is. destruct (key_end _); [| done]. by rewrite (caseeq_length _ _ E), (caseeq_subst _ _ _ E). }
  induction body as [|l ls IH]; [done |]. cbn [key_in]. by rewrite Hk, IH.
Qed.

Lemma setting_case S S' K K' ls : str_caseeq S S' = true -> str_caseeq K K' = true -> setting S' K' ls = setting S K ls.
Proof.
  intros E1 E2. unfold setting. rewrite (section_lines_case _ _ _ E1). destruct (section_lines _ _); [| done].
  by rewrite (key_in_case _ _ _ E2).
Qed.

Lemma put_gets Section K V F w : put_args Section K V F -> w_plan w = [] -> ini_file_ok (content F w) ->
  exists w', ini_puts Section (Some K) (Some V) F w = Some (1, w') /\ w_plan w' = [] /\ ini_file_ok (content F w') /\
    setting (default [] Section) K (lines (content F w')) = Some V /\
    (forall S' K', same_setting (default [] Section) K S' K' = false ->
      setting S' K' (lines (content F w')) = setting S' K' (lines (content F w))) /\
    exists tmp, ini_tempname F INI_BUFFERSIZE = Some tmp /\ put_done F tmp Section K V w w'.
Proof.
  intros [HS HK HV Hf (H1 & H2 & H3)] Hp Hi. destruct (tempname_ok F H1 H2 H3) as (tmp & Ht & Hne).
  destruct (puts_ok F tmp Ht Hne Section K V HS HK Hf w Hp Hi) as (w' & E & Hw).
  destruct (put_done_settings F tmp Section K V HS HK HV Hf w w' Hi Hw) as (G1 & G2 & G3).
  exists w'. split_and!; try done; [apply Hw | by exists tmp].
Qed.

(** * Properties *)


Definition config : bytes := $"metaCom.config".


(** Claim C36. Writing a setting is an edit of the list of lines, whatever way the
    code takes (nothing to do, in place, through the temporary file and its cache):
    the line of the setting is replaced, or put before the next heading, or added at
    the end under a new heading, and every other line, comments and unknown lines
    included, is kept as it was and in order. *)
Theorem ini_puts_edits Section K V F w : put_args Section K V F -> w_plan w = [] -> ini_file_ok (content F w) ->
  exists w', ini_puts Section (Some K) (Some V) F w = Some (1, w') /\
    (content F w' = content F w /\ setting (default [] Section) K (lines (content F w)) = Some V \/
     exists blank, blank_ok blank /\
       lines (content F w') = edit blank (default [] Section) K ("["%char :: default [] Section ++ "]"%char :: [LF])
                                (K ++ "="%char :: value_text V ++ [LF]) (lines (content F w))).
Proof.
  intros Ha Hp Hi. destruct (put_gets Section K V F w Ha Hp Hi) as (w' & E & _ & _ & _ & _ & tmp & Ht & _ & _ & Hw).
  exists w'. split; [done |]. destruct Hw as [Hw | (blank & Hb & Hw)]; [by left | right]. exists blank. split; [done |].
  destruct Ha as [HS HK HV Hf _].
  destruct (lines_ok_file _ (edit_ok (default [] Section) K _ _ blank (key_text_ok K V HK HV Hf) (section_text_ok _ HS) Hb _ (lines_ok_lines _ Hi)))
    as [_ Hls]. by rewrite Hw, Hls.
Qed.

Lemma ini_puts_edits_witness : exists w',
  ini_puts (Some ($"outgoing_sn")) (Some ($"send007")) (Some ($"0002")) config (ini_world sample_config) = Some (1, w') /\
  lines (content config w') = [$"; settings" ++ [LF]; $"[Outgoing_SN]" ++ [LF]; $" send000 = 0041  # last" ++ [LF];
    $"send007=0002" ++ [LF]; $"[names]" ++ [LF]; $"own: " ++ [DQ] ++ $"a;b" ++ [BSL; DQ; DQ]].
Proof.
  destruct (ini_puts_edits (Some ($"outgoing_sn")) ($"send007") ($"0002") config (ini_world sample_config)) as (w' & H1 & H2).
  - split; [vm_compute; reflexivity .. |]. split_and!; [done | unfold INI_BUFFERSIZE; cbn; lia | done].
  - done.
  - unfold ini_file_ok. vm_compute (close _). repeat constructor; unfold INI_BUFFERSIZE; cbn; lia || done.
  - exists w'. split; [exact H1 |]. destruct H2 as [[_ H2] | (blank & _ & ->)]; [by vm_compute in H2 |]. vm_compute. reflexivity.
Defined.

(** Any [long] written as a setting is read back, the smallest included. *)
Theorem ini_putl_getl Section K v dflt F w : put_args Section K (fmt_d v) F -> LONG_MIN <= v <= LONG_MAX ->
  w_plan w = [] -> ini_file_ok (content F w) ->
  exists w', ini_putl Section (Some K) v F w = Some (1, w') /\ ini_getl Section (Some K) dflt F w' = Some (v, w').
Proof.
  intros Ha Hv Hp Hi. destruct (put_gets Section K (fmt_d v) F w Ha Hp Hi) as (w' & E & Hp' & Hi' & Hs & _).
  exists w'. unfold ini_putl. rewrite long2str_fmt. split; [done |]. unfold ini_getl.
  rewrite ini_gets_works by (done || by apply file_ok_text). rewrite Hs. cbn [default]. unfold id.
  pose proof (zlen_fmt_d v Hv) as Hz. change (Z.to_nat 64 - 1)%nat with 63%nat. rewrite take_ge by (unfold zlen in Hz; lia).
  rewrite (proj2 (Z.eqb_neq _ _)) by lia. unfold strtol10. pose proof (strtol_fmt_d v [] Hv I) as Hst. rewrite app_nil_r in Hst.
  destruct (match fmt_d v with _ :: c :: _ => bool_decide (toupper c = "X"%char) | _ => false end) eqn:Ex; [exfalso | by rewrite Hst].
  assert (Hno : forall c, toupper c = "X"%char -> has_char c (fmt_d v) = false).
  { intros c Hc. apply has_char_fmt_d; [done | |]; unfold toupper in Hc.
    - destruct (is_digit c) eqn:Ed; [| done]. unfold is_digit in Ed. zbool. exfalso.
      rewrite (proj2 (Z.leb_gt 97 _)) in Hc by lia. cbn [andb] in Hc. subst c. unfold code in *. cbn in *. lia.
    - intros ->. done. }
  destruct (fmt_d v) as [|a [|c s]]; [done | done |]. zbool. specialize (Hno c Ex). cbn [has_char] in Hno.
  apply orb_false_iff in Hno as [_ Hno]. apply orb_false_iff in Hno as [Hno _]. by apply bool_decide_eq_false in Hno.
Qed.

(** A floating-point setting is read back as its printed text is read, if that is a
    text of at most 63 bytes, which the longest [float] is. *)
Theorem ini_putf_getf `{ini_real R} Section K (v dflt : R) F w : put_args Section K (ini_ftoa v) F ->
  cstring (ini_ftoa v) -> 0 < zlen (ini_ftoa v) < 64 -> w_plan w = [] -> ini_file_ok (content F w) ->
  exists w', ini_putf Section (Some K) v F w = Some (1, w') /\
    ini_getf Section (Some K) dflt F w' = Some (ini_atof (ini_ftoa v), w').
Proof.
  intros Ha Hc Hl Hp Hi. destruct (put_gets Section K (ini_ftoa v) F w Ha Hp Hi) as (w' & E & Hp' & Hi' & Hs & _).
  exists w'. split.
  - unfold ini_putf, memcpy. rewrite (proj2 (Z.leb_le _ _)) by lia. rewrite (proj2 (Z.leb_le _ (zlen (replicate 64 NUL)))) by (change (zlen (replicate 64 NUL)) with 64; lia).
    rewrite (proj2 (Z.leb_le _ (zlen (_ ++ _)))) by zlen. cbn [andb].
    rewrite take_ge by (unfold zlen; rewrite length_app; cbn; lia). rewrite <- app_assoc. cbn [app].
    by rewrite until_nul_app, until_nul_cstring.
  - unfold ini_getf. rewrite ini_gets_works by (done || by apply file_ok_text). rewrite Hs. cbn [default]. unfold id.
    change (Z.to_nat 64 - 1)%nat with 63%nat. rewrite take_ge by (unfold zlen in Hl; lia).
    by rewrite (proj2 (Z.eqb_neq _ _)) by lia.
Qed.

Lemma ini_putl_getl_witness : exists w', ini_putl (Some ($"n")) (Some ($"k")) LONG_MIN config (mk_world ∅ [] [] []) = Some (1, w') /\
  ini_getl (Some ($"n")) (Some ($"k")) 0 config w' = Some (LONG_MIN, w').
Proof.
  destruct (ini_putl_getl (Some ($"n")) ($"k") LONG_MIN 0 config (mk_world ∅ [] [] [])) as (w' & H1 & H2).
  - split; [vm_compute; reflexivity .. |]. split_and!; [done | unfold INI_BUFFERSIZE; cbn; lia | done].
  - unfold LONG_MIN, LONG_MAX. lia.
  - done.
  - constructor.
  - exists w'. exact (conj H1 H2).
Defined.

(** A file that exists and cannot be opened for reading (say, no descriptor
    is left) is taken for a missing one: the call writes a file with the one setting
    over it and reports success, and every other setting is lost. *)
Theorem ini_puts_unreadable Section K V F w : put_args Section K V F -> w_plan w = [Fails] ->
  exists w', ini_puts Section (Some K) (Some V) F w = Some (1, w') /\
    setting (default [] Section) K (lines (content F w')) = Some V /\
    forall S' K', same_setting (default [] Section) K S' K' = false -> setting S' K' (lines (content F w')) = None.
Proof.
  intros [HS HK HV Hf _] Hp. unfold ini_puts, ini_openread, sys, ask. rewrite Hp.
  destruct (create_ok F Section K V HS Hf (mk_world (w_files w) [] (w_trace w) (w_dirs w)) eq_refl) as (w' & E & _ & _ & Hc).
  exists w'. split; [exact E |].
  set (h := "["%char :: default [] Section ++ "]"%char :: [LF]). set (t := K ++ "="%char :: value_text V ++ [LF]).
  assert (Hed : content F w' = concat (edit [] (default [] Section) K h t [])).
  { rewrite Hc. unfold edit, section_split. by destruct (default [] Section). }
  destruct (key_line_start K (value_text V ++ [LF]) HK) as (_ & _ & Hh & _). destruct (heading_line (default [] Section)) as [Hsh Hss].
  destruct (lines_ok_file _ (edit_ok (default [] Section) K h t [] (key_text_ok K V HK HV Hf) (section_text_ok _ HS) ltac:(by left) []
    ltac:(by split))) as [_ Hls].
  rewrite Hed, Hls. split.
  - rewrite (setting_edit _ K h t []); [by unfold t; rewrite line_value_written | done | by apply key_line_is | done | by left].
  - intros S' K' Ho. rewrite (setting_edit_other _ K h t [] Hh (key_line_is K _ HK) Hsh Hss ltac:(by left) [] S' K' Ho). by destruct S'.
Qed.

Lemma ini_puts_unreadable_witness : exists w',
  ini_puts (Some ($"outgoing_sn")) (Some ($"send007")) (Some ($"0002")) config
    (mk_world {[ config := mk_file sample_config true ]} [Fails] [] []) = Some (1, w') /\
  setting ($"names") ($"own") (lines sample_config) = Some ($"a;b" ++ [DQ]) /\
  setting ($"names") ($"own") (lines (content config w')) = None.
Proof.
  destruct (ini_puts_unreadable (Some ($"outgoing_sn")) ($"send007") ($"0002") config (mk_world {[ config := mk_file sample_config true ]} [Fails] [] []))
    as (w' & H1 & _ & H2).
  - split; [vm_compute; reflexivity .. |]. split_and!; [done | unfold INI_BUFFERSIZE; cbn; lia | done].
  - done.
  - exists w'. assert (H3 : setting ($"names") ($"own") (lines sample_config) = Some ($"a;b" ++ [DQ])) by (vm_compute; reflexivity).
    exact (conj H1 (conj H3 (H2 ($"names") ($"own") eq_refl))).
Defined.


(** The file is removed before the copy is given its name: when the renaming fails the
    settings are in the temporary file, no file is under the name, and the call
    reports success all the same. *)
Theorem ini_puts_not_atomic :
  let w := mk_world {[ config := mk_file sample_config true ]} (replicate 9 Works ++ [Fails]) [] [] in
  exists w', ini_puts (Some ($"outgoing_sn")) (Some ($"send007")) (Some ($"0002")) config w = Some (1, w') /\
    w_files w' !! config = None.
Proof. vm_compute. by eexists. Qed.
