(* ===== verification/Options.v ===== *)
(** * The options of the command line ([src/toxrelayer.c])

    [parse_args] over [getopt_long], and what the library is started with. *)

From S2P Require Import Prelude.
From S2P Require Import CString.
From S2P Require Import Misc.

Definition MAX_PORT_RANGE : Z := 65535.

Inductive proxy_kind : Type := TOX_PROXY_TYPE_NONE | TOX_PROXY_TYPE_HTTP | TOX_PROXY_TYPE_SOCKS5.

#[export] Instance proxy_kind_eq_dec : EqDecision proxy_kind.
Proof. solve_decision. Defined.

Record options : Type := mk_options {
  o_proxy_type : proxy_kind;
  o_proxy_host : bytes;
  o_proxy_port : Z;
  o_disable_udp : bool;
  o_disable_lan : bool;
  o_force_ipv4 : bool }.

(** [set_default_options]. *)
Definition set_default_options : options := mk_options TOX_PROXY_TYPE_NONE [] 0 false false false.

(** [getopt_long] over the arguments of the process: each call gives the next option
    with its argument, or nothing once all have been seen. [optind] indexes [argv],
    which it may permute; [remaining] bounds the calls that find an option. *)
Class getopt (G : Type) := {
  getopt_long : G -> option (byte * option bytes * G);
  optind : G -> Z;
  argv : G -> list bytes;
  set_optind : G -> Z -> G;
  remaining : G -> nat;
  getopt_next g opt arg g' : getopt_long g = Some (opt, arg, g') -> (remaining g' < remaining g)%nat;
  optind_further g : (remaining (set_optind g (optind g + 1)) <= remaining g)%nat }.

(** How [parse_args] ends: it returns, or the process exits. *)
Inductive parsed : Type :=
| Parsed (o : options)
| Usage                       (* [exit(EXIT_SUCCESS)] *)
| Refused.                    (* [exit(EXIT_FAILURE)] *)

Definition set_udp_disabled (o : options) : options :=
  mk_options (o_proxy_type o) (o_proxy_host o) (o_proxy_port o) true (o_disable_lan o) (o_force_ipv4 o).

Definition set_proxy (o : options) (t : proxy_kind) : options :=
  mk_options t (o_proxy_host o) (o_proxy_port o) (o_disable_udp o) (o_disable_lan o) (o_force_ipv4 o).

Section Options.
Context {G : Type} `{go : !getopt G}.

(** The case of [-P], into which [-p] falls, and which falls into that of [-t]. The
    port is the argument after the option's own. *)
Definition proxy_option (o : options) (optarg : option bytes) (g : G) : option (options * G) :=
  match optarg with
  | None => Some (set_proxy o TOX_PROXY_TYPE_NONE, g)
  | Some host =>
    let o := if bool_decide (o_proxy_type o <> TOX_PROXY_TYPE_SOCKS5) then set_proxy o TOX_PROXY_TYPE_HTTP else o in
    let host := snprintf 256 host in
    let g := set_optind g (optind g + 1) in
    match argv g !! Z.to_nat (optind g - 1) with
    | None => None
    | Some text =>
      if bool_decide (head text = Some "-"%char) then None
      else
        match parse_int_range (Some text) 1 MAX_PORT_RANGE with
        | None => None
        | Some port =>
          Some (set_udp_disabled (mk_options (o_proxy_type o) host (u16 port) (o_disable_udp o) (o_disable_lan o)
                                    (o_force_ipv4 o)), g)
        end
    end
  end.

(** [None] when the fuel runs out. *)
Fixpoint parse_options (fuel : nat) (o : options) (g : G) : option parsed :=
  match fuel with
  | O => None
  | S fuel =>
    match getopt_long g with
    | None => Some (Parsed o)
    | Some (opt, optarg, g) =>
      if bool_decide (opt = "4"%char) then
        parse_options fuel (mk_options (o_proxy_type o) (o_proxy_host o) (o_proxy_port o) (o_disable_udp o)
                              (o_disable_lan o) true) g
      else if bool_decide (opt = "L"%char) then
        parse_options fuel (mk_options (o_proxy_type o) (o_proxy_host o) (o_proxy_port o) (o_disable_udp o) true
                              (o_force_ipv4 o)) g
      else if bool_decide (opt = "p"%char) then
        match proxy_option (set_proxy o TOX_PROXY_TYPE_SOCKS5) optarg g with
        | Some (o, g) => parse_options fuel o g
        | None => Some Refused
        end
      else if bool_decide (opt = "P"%char) then
        match proxy_option o optarg g with
        | Some (o, g) => parse_options fuel o g
        | None => Some Refused
        end
      else if bool_decide (opt = "t"%char) then parse_options fuel (set_udp_disabled o) g
      else Some Usage
    end
  end.

Definition parse_args (g : G) : option parsed := parse_options (S (remaining g)) set_default_options g.

End Options.

(** What the library is told; its own defaults are a parameter. *)
Record tox_options : Type := mk_tox_options {
  ipv6_enabled : bool;
  udp_enabled : bool;
  proxy_type : proxy_kind;
  local_discovery_enabled : bool;
  proxy_port : Z;
  proxy_host : bytes }.

Definition init_tox_options (o : options) (default : tox_options) : tox_options :=
  let set := bool_decide (o_proxy_type o <> TOX_PROXY_TYPE_NONE) in
  mk_tox_options (negb (o_force_ipv4 o)) (negb (o_disable_udp o)) (o_proxy_type o) (negb (o_disable_lan o))
    (if set then o_proxy_port o else proxy_port default) (if set then o_proxy_host o else proxy_host default).

(** * Lemmas *)

Section Facts.
Context {G : Type} `{go : !getopt G}.

(** With a proxy the port is one, the host fits its array and UDP is off. *)
Definition proxied (o : options) : Prop :=
  zlen (o_proxy_host o) < 256 /\
  (o_proxy_type o <> TOX_PROXY_TYPE_NONE -> o_disable_udp o = true /\ 1 <= o_proxy_port o <= MAX_PORT_RANGE).

Lemma parse_port text p : parse_int_range (Some text) 1 MAX_PORT_RANGE = Some p -> 1 <= p <= MAX_PORT_RANGE.
Proof. by intros (_ & H & _)%parse_int_range_exact. Qed.

Lemma proxy_option_ok o optarg (g : G) o' g' : zlen (o_proxy_host o) < 256 -> proxy_option o optarg g = Some (o', g') ->
  proxied o' /\ (remaining g' <= remaining g)%nat.
Proof.
  intros Hh H. unfold proxy_option in H. destruct optarg as [host|]; [| by injection H as <- <-].
  destruct (_ !! _) as [text|]; [| done]. destruct (bool_decide (head text = _)); [done |].
  destruct (parse_int_range _ _ _) as [port|] eqn:Ep; [| done]. injection H as <- <-.
  apply parse_port in Ep. split; [| apply optind_further]. split; cbn.
  - unfold snprintf, zlen. rewrite length_take. lia.
  - intros _. split; [done |]. unfold u16, MAX_PORT_RANGE in *. rewrite Z.mod_small; lia.
Qed.

Lemma parse_options_ok fuel : forall o (g : G), proxied o -> (remaining g < fuel)%nat ->
  exists r, parse_options fuel o g = Some r /\ forall o', r = Parsed o' -> proxied o'.
Proof.
  induction fuel as [|fuel IH]; intros o g Ho Hg; [lia |]. cbn [parse_options].
  destruct (getopt_long g) as [[[opt optarg] g1]|] eqn:Eg; [| exists (Parsed o); split; [done | by intros ? [= <-]]].
  apply getopt_next in Eg.
  assert (Hskip : forall o1 g2, proxied o1 -> (remaining g2 <= remaining g1)%nat ->
    exists r, parse_options fuel o1 g2 = Some r /\ forall o', r = Parsed o' -> proxied o') by (intros; apply IH; [done | lia]).
  assert (Hproxy : forall o1, zlen (o_proxy_host o1) < 256 ->
    exists r, match proxy_option o1 optarg g1 with
              | Some (o, g) => parse_options fuel o g
              | None => Some Refused
              end = Some r /\ forall o', r = Parsed o' -> proxied o').
  { intros o1 Ho1. destruct (proxy_option o1 optarg g1) as [[o2 g2]|] eqn:Ep; [| by exists Refused].
    apply proxy_option_ok in Ep as [H1 H2]; [| done]. by apply Hskip. }
  destruct Ho as [Hh Hp].
  destruct (bool_decide (opt = "4"%char)); [apply Hskip; [by split | done] |].
  destruct (bool_decide (opt = "L"%char)); [apply Hskip; [by split | done] |].
  destruct (bool_decide (opt = "p"%char)); [by apply Hproxy |].
  destruct (bool_decide (opt = "P"%char)); [by apply Hproxy |].
  destruct (bool_decide (opt = "t"%char)); [| by exists Usage].
  apply Hskip; [| done]. split; [done |]. cbn. intros Hne. split; [done | apply (Hp Hne)].
Qed.

(** [-P] does not undo an earlier [-p]: the proxy given to it is used as a SOCKS
    proxy. *)
Lemma socks_stays o host (g : G) o' g' : o_proxy_type o = TOX_PROXY_TYPE_SOCKS5 ->
  proxy_option o (Some host) g = Some (o', g') -> o_proxy_type o' = TOX_PROXY_TYPE_SOCKS5.
Proof.
  intros Ho H. unfold proxy_option in H. rewrite bool_decide_eq_false_2 in H by auto.
  destruct (_ !! _) as [text|]; [| done]. destruct (bool_decide (head text = _)); [done |].
  destruct (parse_int_range _ _ _); [| done]. by injection H as <- <-.
Qed.

End Facts.

(** * Properties *)

(** Claim C40. Reading the options always ends, and whatever they are the proxy is
    never bypassed: when the library is started with one, UDP is off, the port is
    between 1 and 65535 and the host fits its array; without one the library keeps
    its own host and port. *)
Theorem proxy_never_bypassed {G : Type} `{!getopt G} (g : G) default :
  exists r, parse_args g = Some r /\
    forall o, r = Parsed o ->
    let t := init_tox_options o default in
    if bool_decide (proxy_type t = TOX_PROXY_TYPE_NONE)
    then proxy_port t = proxy_port default /\ proxy_host t = proxy_host default
    else udp_enabled t = false /\ 1 <= proxy_port t <= MAX_PORT_RANGE /\ zlen (proxy_host t) < 256.
Proof.
  destruct (parse_options_ok (S (remaining g)) set_default_options g) as (r & Hr & Ho); [by split | lia |].
  exists r. split; [exact Hr |]. intros o ->. destruct (Ho o eq_refl) as [Hh Hp]. cbn.
  case_bool_decide as Et; [by rewrite bool_decide_eq_false_2 by auto |].
  destruct (Hp Et) as [-> Hport]. by rewrite bool_decide_eq_true_2 by done.
Qed.

(** ** A list of options already found, to run examples on *)

Abbreviation listing := (list (byte * option bytes * Z) * Z * list bytes)%type.

Definition next_listed (g : listing) : option (byte * option bytes * listing) :=
  match g with
  | ((opt, arg, i) :: l, _, args) => Some (opt, arg, (l, i, args))
  | ([], _, _) => None
  end.

#[export] Program Instance listed_options : getopt listing := {|
  getopt_long := next_listed;
  optind g := g.1.2;
  argv g := g.2;
  set_optind g i := (g.1.1, i, g.2);
  remaining g := length g.1.1 |}.
Next Obligation. intros [[[|[[x y] z] l] i] args] opt arg g' H; [done |]. injection H as <- <- <-. cbn. lia. Qed.
Next Obligation. intros [[l i] args]. done. Qed.

(** [toxrelayer -p socks 9050 -P http 8080]: the second proxy, as a SOCKS proxy. *)
Example two_proxies :
  parse_args ([("p"%char, Some ($"socks"), 3); ("P"%char, Some ($"http"), 6)], 1,
    [$"toxrelayer"; $"-p"; $"socks"; $"9050"; $"-P"; $"http"; $"8080"])
  = Some (Parsed (mk_options TOX_PROXY_TYPE_SOCKS5 ($"http") 8080 true false false)).
Proof. vm_compute. reflexivity. Qed.

Lemma proxy_never_bypassed_witness : exists o,
  parse_args ([("p"%char, Some ($"socks"), 3)], 1, [$"toxrelayer"; $"-p"; $"socks"; $"9050"]) = Some (Parsed o) /\
  udp_enabled (init_tox_options o (mk_tox_options true true TOX_PROXY_TYPE_NONE true 0 [])) = false.
Proof.
  destruct (proxy_never_bypassed ([("p"%char, Some ($"socks"), 3)], 1, [$"toxrelayer"; $"-p"; $"socks"; $"9050"])
    (mk_tox_options true true TOX_PROXY_TYPE_NONE true 0 [])) as (r & Hr & H).
  assert (Hv : parse_args ([("p"%char, Some ($"socks"), 3)], 1, [$"toxrelayer"; $"-p"; $"socks"; $"9050"]) =
    Some (Parsed (mk_options TOX_PROXY_TYPE_SOCKS5 ($"socks") 9050 true false false))) by (vm_compute; reflexivity).
  rewrite Hv in Hr. injection Hr as <-. specialize (H _ eq_refl).
  exists (mk_options TOX_PROXY_TYPE_SOCKS5 ($"socks") 9050 true false false). split; [exact Hv | exact (proj1 H)].
Defined.
