(* ===== verification/GroupChats.v ===== *)
(** * The table of group chats ([src/groupchats.c], [src/groupchats.h])

    The growable table behind the group commands: its allocation, insertion into
    the first inactive slot, removal with the trailing slots given back, and
    lookup by conference number. *)

From S2P Require Import Prelude.
From S2P Require Import CString.
From S2P Require Import Misc.

Definition MAX_NUM_GROUPS : Z := 256.
Definition MAX_PASSWORD_SIZE : Z := 64.
Definition SECONDS_IN_DAY : Z := 86400.

(** [title] and [password] are the strings their arrays hold. *)
Record Group_Chat : Type := mk_group {
  groupnum : Z;
  active : bool;
  has_pass : bool;
  gtype : Z;
  title : bytes;
  title_len : Z;
  password : bytes }.

Definition zero_group : Group_Chat := mk_group 0 false false 0 [] 0 [].

(** The two globals that hold the table: the slots allocated ([NULL] is no slot;
    [g_allocated] is their number) and how many are in use. *)
Record groups : Type := mk_groups {
  g_chats : list Group_Chat;
  chats_idx : Z }.

(** [realloc] is taken to succeed (the code exits otherwise). *)
Definition realloc_groupchats (g : list Group_Chat) (n : Z) : list Group_Chat :=
  if n <=? 0 then []
  else take (Z.to_nat n) g ++ replicate (Z.to_nat n - length g) zero_group.

(** [memset] or an assignment of slot [i]; outside the allocation it is undefined. *)
Definition set_slot (g : list Group_Chat) (i : nat) (c : Group_Chat) : option (list Group_Chat) :=
  if (i <? length g)%nat then Some (upd g i c) else None.

Definition new_group (gnum type : Z) (pass : option bytes) : Group_Chat :=
  match pass with
  | None => mk_group gnum true false type [] 0 []
  | Some p => mk_group gnum true true type [] 0 (snprintf MAX_PASSWORD_SIZE p)
  end.

(** The loop of [group_add] from slot [i]; [n] slots are left. The result is the
    slot filled, if any. *)
Fixpoint add_loop (n : nat) (g : list Group_Chat) (i : nat) (c : Group_Chat)
    : option (option nat * list Group_Chat) :=
  match n with
  | O => Some (None, g)
  | S n =>
    do! s := g !! i;
    if active s then add_loop n g (S i) c
    else do! g := set_slot g i c; Some (Some i, g)
  end.

Definition group_add (t : groups) (gnum type : Z) (pass : option bytes) : option (Z * groups) :=
  let idx := chats_idx t in
  if (idx <? 0) || (MAX_NUM_GROUPS <=? idx) then Some (-1, t)
  else
    let g := realloc_groupchats (g_chats t) (idx + 1) in
    match g with
    | [] => Some (-1, mk_groups g idx)
    | _ =>
      do! g := set_slot g (Z.to_nat idx) zero_group;
      do! (slot, g) := add_loop (Z.to_nat (Z.min (idx + 1) MAX_NUM_GROUPS)) g 0
                         (new_group gnum type pass);
      match slot with
      | None => Some (-1, mk_groups g idx)
      | Some i => Some (0, mk_groups g (if idx =? Z.of_nat i then idx + 1 else idx))
      end
    end.

Definition is_group (gnum : Z) (c : Group_Chat) : bool := active c && (groupnum c =? gnum).

(** The search loop shared by [group_leave] and [group_index]: the first active
    slot below [n] with this number. *)
Fixpoint find_group (n : nat) (g : list Group_Chat) (i : nat) (gnum : Z) : option (option nat) :=
  match n with
  | O => Some None
  | S n =>
    do! s := g !! i;
    if is_group gnum s then Some (Some i) else find_group n g (S i) gnum
  end.

(** The shrinking loop of [group_leave]: slots in use after the trailing inactive
    ones are dropped. *)
Fixpoint shrink (n : nat) (g : list Group_Chat) : option nat :=
  match n with
  | O => Some 0%nat
  | S m => do! s := g !! m; if active s then Some n else shrink m g
  end.

Definition group_leave (t : groups) (gnum : Z) : option groups :=
  do! slot := find_group (Z.to_nat (chats_idx t)) (g_chats t) 0 gnum;
  do! g := match slot with
           | Some i => set_slot (g_chats t) i zero_group
           | None => Some (g_chats t)
           end;
  do! n := shrink (Z.to_nat (chats_idx t)) g;
  Some (mk_groups (realloc_groupchats g (Z.of_nat n)) (Z.of_nat n)).

Definition group_index (t : groups) (gnum : Z) : option Z :=
  do! slot := find_group (Z.to_nat (chats_idx t)) (g_chats t) 0 gnum;
  Some (match slot with Some i => Z.of_nat i | None => -1 end).

(** * Lemmas *)

(** The slots in use. The allocation may be one larger: [group_add] grows the
    table before it finds an inactive slot to reuse. *)
Definition in_use (t : groups) : list Group_Chat := take (Z.to_nat (chats_idx t)) (g_chats t).

(** The slots in use are allocated, within the bound, and do not end in an
    inactive one. *)
Definition wf_groups (t : groups) : Prop :=
  0 <= chats_idx t <= MAX_NUM_GROUPS /\ chats_idx t <= zlen (g_chats t) /\
  (forall c, last (in_use t) = Some c -> active c = true).

Lemma length_in_use t : wf_groups t -> length (in_use t) = Z.to_nat (chats_idx t).
Proof. intros (H1 & H2 & _). unfold in_use, zlen in *. rewrite length_take. lia. Qed.

Lemma in_use_split t : exists rest, g_chats t = in_use t ++ rest.
Proof. exists (drop (Z.to_nat (chats_idx t)) (g_chats t)). symmetry. apply take_drop. Qed.

(** First position of a chat in a list: what the loops look for. *)
Fixpoint position (f : Group_Chat -> bool) (g : list Group_Chat) : option nat :=
  match g with
  | [] => None
  | c :: g => if f c then Some 0%nat else S <$> position f g
  end.

Lemma find_group_ok pre suf rest gnum :
  find_group (length suf) (pre ++ suf ++ rest) (length pre) gnum =
  Some ((fun k => (length pre + k)%nat) <$> position (is_group gnum) suf).
Proof.
  revert pre. induction suf as [|c suf IH]; intros pre; [done |]. cbn [find_group length position app].
  rewrite lookup_app_r, Nat.sub_diag by lia. cbn.
  destruct (is_group gnum c); [cbn; by rewrite Nat.add_0_r |].
  specialize (IH (pre ++ [c])). rewrite <- app_assoc, length_app in IH. cbn in IH.
  replace (length pre + 1)%nat with (S (length pre)) in IH by lia. rewrite IH.
  destruct (position (is_group gnum) suf); cbn; [do 2 f_equal; lia | done].
Qed.

Lemma wf_find t gnum : wf_groups t ->
  find_group (Z.to_nat (chats_idx t)) (g_chats t) 0 gnum = Some (position (is_group gnum) (in_use t)).
Proof.
  intros H. destruct (in_use_split t) as [rest ->]. rewrite <- (length_in_use t H).
  pose proof (find_group_ok [] (in_use t) rest gnum) as Hf. cbn in Hf. rewrite Hf.
  by destruct (position (is_group gnum) (in_use t)).
Qed.

Lemma position_Some f g i : position f g = Some i -> exists c, g !! i = Some c /\ f c = true /\
  forall j d, (j < i)%nat -> g !! j = Some d -> f d = false.
Proof.
  revert i. induction g as [|c g IH]; intros i; [done |]. cbn. destruct (f c) eqn:E.
  - intros [= <-]. exists c. split_and!; [done | done | lia].
  - destruct (position f g) as [k|]; [| done]. cbn. intros [= <-].
    destruct (IH k eq_refl) as (d & H1 & H2 & H3). exists d. split_and!; [done | done |].
    intros [|j] e Hj He; cbn in He; [congruence |]. apply (H3 j); [lia | done].
Qed.

Lemma position_None f g : position f g = None <-> (forall i c, g !! i = Some c -> f c = false).
Proof.
  induction g as [|c g IH]; cbn; [done |]. destruct (f c) eqn:E.
  - split; [done |]. intros H. specialize (H 0%nat c eq_refl). congruence.
  - destruct (position f g) as [k|]; cbn.
    + split; [done |]. intros H. discriminate (proj2 IH (fun i d Hd => H (S i) d Hd)).
    + split; [| done]. intros _ [|i] d Hd; cbn in Hd; [congruence |]. by apply (proj1 IH eq_refl i).
Qed.

Lemma position_intro f g i c : g !! i = Some c -> f c = true ->
  (forall j d, (j < i)%nat -> g !! j = Some d -> f d = false) -> position f g = Some i.
Proof.
  intros Hc Hf Hj. destruct (position f g) as [k|] eqn:E.
  - apply position_Some in E as (d & Hd & Hfd & Hk). f_equal.
    destruct (Nat.lt_trichotomy k i) as [Hlt | [-> | Hlt]]; [| done |].
    + specialize (Hj k d Hlt Hd). congruence.
    + specialize (Hk i c Hlt Hc). congruence.
  - apply (proj1 (position_None f g) E) in Hc. congruence.
Qed.

(** Filling the first inactive slot, the appended one included. *)
Lemma add_loop_ok c : active c = true -> forall suf pre,
  add_loop (length suf) (pre ++ suf) (length pre) c =
  match position (fun s => negb (active s)) suf with
  | Some k => Some (Some (length pre + k)%nat, upd (pre ++ suf) (length pre + k) c)
  | None => Some (None, pre ++ suf)
  end.
Proof.
  intros Hc. induction suf as [|s suf IH]; intros pre; [done |]. cbn [add_loop length position].
  rewrite lookup_app_r, Nat.sub_diag by lia. cbn [lookup list_lookup].
  destruct (active s); cbn [negb].
  - specialize (IH (pre ++ [s])). rewrite <- app_assoc, length_app in IH. cbn in IH.
    replace (length pre + 1)%nat with (S (length pre)) in IH by lia. rewrite IH.
    destruct (position (fun s0 => negb (active s0)) suf); cbn; [| done].
    by replace (length pre + S n)%nat with (S (length pre + n)) by lia.
  - unfold set_slot. rewrite (proj2 (Nat.ltb_lt _ _)) by (rewrite length_app; cbn; lia).
    by rewrite Nat.add_0_r.
Qed.

Lemma shrink_ok n g : (n <= length g)%nat -> exists k, shrink n g = Some k /\ (k <= n)%nat /\
  (forall c, last (take k g) = Some c -> active c = true) /\
  (forall i c, (k <= i < n)%nat -> g !! i = Some c -> active c = false).
Proof.
  induction n as [|n IH]; intros Hn; cbn [shrink].
  - exists 0%nat. split_and!; [done | lia | done | intros; lia].
  - destruct (lookup_lt_is_Some_2 g n) as [c Hc]; [lia |]. rewrite Hc. destruct (active c) eqn:Ea.
    + exists (S n). split_and!; [done | lia | | intros; lia].
      intros d. rewrite (take_S_r _ _ _ Hc), last_snoc. congruence.
    + destruct IH as (k & -> & Hk & H1 & H2); [lia |]. exists k. split_and!; [done | lia | done |].
      intros i d Hi Hd. destruct (Nat.eq_dec i n) as [-> | Hne]; [congruence |]. apply (H2 i); [lia | done].
Qed.

Lemma lookup_upd_other {A} (l : list A) i j x y : i <> j -> l !! j = Some y -> upd l i x !! j = Some y.
Proof. intros Hn Hl. by rewrite lookup_upd_ne. Qed.

(** Changing a slot that is not this group's does not move the group. *)
Lemma position_upd gnum g i s c : g !! i = Some s -> is_group gnum s = false ->
  is_group gnum c = false -> position (is_group gnum) (upd g i c) = position (is_group gnum) g.
Proof.
  intros Hs Hf Hc. destruct (position (is_group gnum) g) as [k|] eqn:E.
  - apply position_Some in E as (d & Hd & Hfd & Hj).
    assert (i <> k) by (intros ->; congruence).
    apply position_intro with d; [by apply lookup_upd_other | done |].
    intros j e Hlt [(_ & -> & _) | [_ He]]%lookup_upd_Some; [done |]. by apply (Hj j).
  - apply position_None. intros j d [(_ & -> & _) | [_ Hd]]%lookup_upd_Some; [done |].
    by apply (proj1 (position_None _ _) E j).
Qed.

(** Inactive slots at the end do not matter to a lookup. *)
Lemma position_inactive gnum g k : (forall i c, (k <= i)%nat -> g !! i = Some c -> active c = false) ->
  position (is_group gnum) (take k g) = position (is_group gnum) g.
Proof.
  intros H. destruct (position (is_group gnum) g) as [j|] eqn:E.
  - apply position_Some in E as (d & Hd & Hf & Hj).
    assert (j < k)%nat.
    { destruct (Nat.lt_ge_cases j k); [done |]. unfold is_group in Hf. rewrite (H j d) in Hf; done. }
    apply position_intro with d; [by rewrite lookup_take_lt | done |].
    intros i e Hi He. rewrite lookup_take_lt in He by lia. by apply (Hj i).
  - apply position_None. intros i c Hc. apply lookup_take_Some in Hc as [Hc _].
    by apply (proj1 (position_None _ _) E i).
Qed.

Lemma realloc_ok g n : 0 <= n -> realloc_groupchats g n =
  take (Z.to_nat n) g ++ replicate (Z.to_nat n - length g) zero_group.
Proof.
  intros Hn. unfold realloc_groupchats. destruct (n <=? 0) eqn:E; zbool; [| done].
  by replace n with 0 by lia.
Qed.

(** After growing the table and clearing the slot past the end. *)
Lemma grown t : wf_groups t -> chats_idx t < MAX_NUM_GROUPS ->
  set_slot (realloc_groupchats (g_chats t) (chats_idx t + 1)) (Z.to_nat (chats_idx t)) zero_group =
  Some (in_use t ++ [zero_group]).
Proof.
  intros H Hlt. pose proof (length_in_use t H) as Hl. destruct H as (Hi & Ha & _).
  unfold in_use, zlen in *.
  set (n := Z.to_nat (chats_idx t)) in *. set (g := g_chats t) in *.
  rewrite realloc_ok by lia. replace (Z.to_nat (chats_idx t + 1)) with (S n) by lia.
  unfold set_slot. rewrite (proj2 (Nat.ltb_lt _ _))
    by (rewrite length_app, length_take, length_replicate; lia).
  f_equal. unfold upd. destruct (decide (n < length g)%nat) as [Hd | Hd].
  - replace (S n - length g)%nat with 0%nat by lia. cbn [replicate]. rewrite app_nil_r.
    destruct (lookup_lt_is_Some_2 g n Hd) as [c Hc]. rewrite (take_S_r _ _ _ Hc).
    rewrite insert_app_r_alt by lia. by rewrite Hl, Nat.sub_diag.
  - replace (S n - length g)%nat with 1%nat by lia. rewrite !take_ge by lia. cbn [replicate].
    rewrite insert_app_r_alt by lia. by replace (n - length g)%nat with 0%nat by lia.
Qed.

(** [group_add] on a table with room: the loop runs over the old slots and the
    fresh one. *)
Lemma group_add_ok t gnum type pass : wf_groups t -> chats_idx t < MAX_NUM_GROUPS ->
  let g := in_use t in let c := new_group gnum type pass in
  exists i, position (fun s => negb (active s)) (g ++ [zero_group]) = Some i /\
    (i <= length g)%nat /\
    group_add t gnum type pass = Some (0, mk_groups (upd (g ++ [zero_group]) i c)
      (if Z.of_nat (length g) =? Z.of_nat i then chats_idx t + 1 else chats_idx t)) /\
    (i < length g -> upd (g ++ [zero_group]) i c = upd g i c ++ [zero_group])%nat.
Proof.
  intros H Hlt. cbv zeta. pose proof (length_in_use t H) as Hlen. pose proof (grown t H Hlt) as Hgr.
  set (g := in_use t) in *. set (c := new_group gnum type pass).
  assert (Hex : exists i, position (fun s => negb (active s)) (g ++ [zero_group]) = Some i /\
    (i <= length g)%nat).
  { destruct (position (fun s => negb (active s)) (g ++ [zero_group])) as [i|] eqn:E.
    - exists i. split; [done |]. apply position_Some in E as (d & Hd & _).
      apply lookup_lt_Some in Hd. rewrite length_app in Hd. cbn in Hd. lia.
    - pose proof (proj1 (position_None _ _) E (length g) zero_group) as Hn.
      rewrite lookup_app_r, Nat.sub_diag in Hn by lia. by discriminate (Hn eq_refl). }
  destruct Hex as (i & Hp & Hle). exists i. split; [done |]. split; [done |]. split.
  - destruct H as (Hi & Ha & _). unfold group_add.
    rewrite (proj2 (Z.ltb_ge _ 0)), (proj2 (Z.leb_gt MAX_NUM_GROUPS _)) by lia. cbn [orb].
    destruct (realloc_groupchats (g_chats t) (chats_idx t + 1)) as [|x y] eqn:Er.
    { unfold set_slot in Hgr. cbn in Hgr. done. }
    rewrite Hgr.
    replace (Z.to_nat (Z.min (chats_idx t + 1) MAX_NUM_GROUPS)) with (length (g ++ [zero_group]))
      by (rewrite length_app; cbn; unfold MAX_NUM_GROUPS in *; lia).
    pose proof (add_loop_ok c) as Hadd. specialize (Hadd ltac:(by destruct pass) (g ++ [zero_group]) []).
    cbn [app length] in Hadd. rewrite Hp in Hadd. cbn [Nat.add] in Hadd. fold c. rewrite Hadd.
    by replace (chats_idx t) with (Z.of_nat (length g)) by lia.
  - intros Hl. unfold upd. by rewrite insert_app_l.
Qed.

Lemma wf_last (g : list Group_Chat) i c : (forall d, last g = Some d -> active d = true) ->
  active c = true -> forall d, last (upd g i c) = Some d -> active d = true.
Proof.
  intros Hg Hc d Hd. rewrite last_lookup in Hd. rewrite length_upd in Hd.
  apply lookup_upd_Some in Hd as [(_ & -> & _) | [_ Hd]]; [done |].
  apply Hg. by rewrite last_lookup.
Qed.

(** What is in use after [group_add]: the slot appended or an inactive one
    reused. *)
Lemma group_add_in_use t gnum type pass : wf_groups t -> chats_idx t < MAX_NUM_GROUPS ->
  exists i t', group_add t gnum type pass = Some (0, t') /\ wf_groups t' /\
    (in_use t' = in_use t ++ [new_group gnum type pass] /\ i = length (in_use t) \/
     exists s, in_use t !! i = Some s /\ active s = false /\
       in_use t' = upd (in_use t) i (new_group gnum type pass)).
Proof.
  intros H Hlt. pose proof (length_in_use t H) as Hlen.
  destruct (group_add_ok t gnum type pass H Hlt) as (i & Hp & Hle & -> & Hins).
  set (c := new_group gnum type pass) in *. assert (Hc : active c = true) by (by destruct pass).
  exists i. eexists. split; [done |].
  destruct (decide (i = length (in_use t))) as [-> | Hne].
  - rewrite Z.eqb_refl. assert (Hu : upd (in_use t ++ [zero_group]) (length (in_use t)) c = in_use t ++ [c]).
    { unfold upd. by rewrite insert_app_r_alt, Nat.sub_diag by lia. }
    rewrite Hu. destruct H as (Hi & Ha & Hlast).
    assert (Hin : in_use (mk_groups (in_use t ++ [c]) (chats_idx t + 1)) = in_use t ++ [c]).
    { unfold in_use at 1. cbn. apply take_ge. rewrite length_app. cbn. lia. }
    split; [| left; by rewrite Hin].
    split_and!; cbn; try lia; [rewrite zlen_app; unfold zlen; cbn; lia |].
    rewrite Hin. intros d. rewrite last_snoc. congruence.
  - rewrite (proj2 (Z.eqb_neq _ _)) by lia. rewrite Hins by lia.
    assert (Hin : in_use (mk_groups (upd (in_use t) i c ++ [zero_group]) (chats_idx t)) = upd (in_use t) i c).
    { unfold in_use at 1. cbn. rewrite <- Hlen, <- (length_upd (in_use t) i c). apply take_app_length. }
    destruct H as (Hi & Ha & Hlast). split.
    + split_and!; cbn; try lia.
      * rewrite zlen_app. unfold zlen in *. rewrite length_upd. cbn. lia.
      * rewrite Hin. by apply wf_last.
    + right. apply position_Some in Hp as (s & Hs & Hn & _). rewrite lookup_app_l in Hs by lia.
      exists s. split_and!; [done | by zbool | done].
Qed.

(** Lookups after the first active slot of a group is cleared and the table is
    shrunk. *)
Lemma group_leave_in_use t gnum : wf_groups t ->
  exists t', group_leave t gnum = Some t' /\ wf_groups t' /\
    let g := match position (is_group gnum) (in_use t) with
             | Some i => upd (in_use t) i zero_group | None => in_use t end in
    exists k, in_use t' = take k g /\
      (forall i c, (k <= i)%nat -> g !! i = Some c -> active c = false).
Proof.
  intros H. pose proof (length_in_use t H) as Hlen. unfold group_leave. rewrite (wf_find t gnum H).
  destruct (in_use_split t) as [rest Hsp]. destruct H as (Hi & Ha & Hlast).
  set (g := match position (is_group gnum) (in_use t) with
            | Some i => upd (in_use t) i zero_group | None => in_use t end).
  assert (Hslot : match position (is_group gnum) (in_use t) with
    | Some i => set_slot (g_chats t) i zero_group | None => Some (g_chats t) end = Some (g ++ rest)).
  { unfold g. destruct (position (is_group gnum) (in_use t)) as [i|] eqn:E; [| by rewrite <- Hsp].
    apply position_Some in E as (c & Hc & _). pose proof (lookup_lt_Some _ _ _ Hc) as Hl.
    unfold set_slot. rewrite Hsp. rewrite (proj2 (Nat.ltb_lt _ _)) by (rewrite length_app; lia).
    unfold upd. by rewrite insert_app_l. }
  rewrite Hslot. cbv zeta.
  assert (Hgl : length g = Z.to_nat (chats_idx t)).
  { unfold g. destruct (position _ _); [by rewrite length_upd |]; done. }
  destruct (shrink_ok (Z.to_nat (chats_idx t)) (g ++ rest)) as (k & -> & Hk & Hl & Hin);
    [rewrite length_app; lia |].
  rewrite realloc_ok by lia. rewrite Nat2Z.id.
  rewrite take_app_le by lia. rewrite take_app_le in Hl by lia.
  replace (k - length (g ++ rest))%nat with 0%nat by (rewrite length_app; lia).
  cbn [replicate]. rewrite app_nil_r. eexists. split; [done |].
  assert (Hu : in_use (mk_groups (take k g) (Z.of_nat k)) = take k g).
  { unfold in_use. cbn. rewrite Nat2Z.id. apply take_ge. rewrite length_take. lia. }
  split.
  - split_and!; cbn; try lia; [unfold zlen; rewrite length_take; lia | by rewrite Hu].
  - exists k. split; [done |]. intros i c Hic Hc. pose proof (lookup_lt_Some _ _ _ Hc).
    apply (Hin i); [lia |]. by rewrite lookup_app_l.
Qed.

Lemma index_ok t gnum : wf_groups t -> group_index t gnum =
  Some (match position (is_group gnum) (in_use t) with Some i => Z.of_nat i | None => -1 end).
Proof. intros H. unfold group_index. by rewrite (wf_find t gnum H). Qed.

Lemma is_group_inactive gnum s : active s = false -> is_group gnum s = false.
Proof. unfold is_group. by intros ->. Qed.

Lemma is_group_other gnum gnum' c : is_group gnum c = true -> gnum' <> gnum -> is_group gnum' c = false.
Proof. unfold is_group. intros H Hn. zbool. apply andb_false_iff. right. apply Z.eqb_neq. congruence. Qed.

Lemma is_group_new gnum type pass gnum' : is_group gnum' (new_group gnum type pass) = (gnum =? gnum').
Proof. by destruct pass. Qed.

Lemma position_app_other f g c : f c = false -> position f (g ++ [c]) = position f g.
Proof.
  intros Hf. induction g as [|d g IH]; cbn; [by rewrite Hf |]. destruct (f d); [done |]. by rewrite IH.
Qed.

(** The chat a number designates. *)
Definition chat_of (t : groups) (gnum : Z) : option Group_Chat :=
  do! i := position (is_group gnum) (in_use t); in_use t !! i.

(** Adding a group whose number is free. *)
Lemma group_add_map t gnum type pass : wf_groups t -> position (is_group gnum) (in_use t) = None ->
  chats_idx t < MAX_NUM_GROUPS ->
  exists t1 i, group_add t gnum type pass = Some (0, t1) /\ wf_groups t1 /\
    position (is_group gnum) (in_use t1) = Some i /\
    in_use t1 !! i = Some (new_group gnum type pass) /\
    (forall j d, j <> i -> in_use t1 !! j = Some d -> is_group gnum d = false) /\
    (forall h, h <> gnum -> position (is_group h) (in_use t1) = position (is_group h) (in_use t) /\
       chat_of t1 h = chat_of t h).
Proof.
  intros H Eno Hlt. destruct (group_add_in_use t gnum type pass H Hlt) as (i & t1 & Hadd & H1 & Hu).
  set (c := new_group gnum type pass) in *.
  assert (Hi : in_use t1 !! i = Some c /\
    (forall h, h <> gnum -> position (is_group h) (in_use t1) = position (is_group h) (in_use t)) /\
    (forall j d, j <> i -> in_use t1 !! j = Some d <-> in_use t !! j = Some d)).
  { destruct Hu as [[-> ->] | (s & Hs & Hina & ->)].
    - split_and!.
      + by rewrite lookup_app_r, Nat.sub_diag by lia.
      + intros h Hh. apply position_app_other. unfold c. rewrite is_group_new. apply Z.eqb_neq. congruence.
      + intros j d Hj. split; intros Hd; pose proof (lookup_lt_Some _ _ _ Hd) as Hl.
        * rewrite length_app in Hl. cbn in Hl. rewrite lookup_app_l in Hd by lia. done.
        * by rewrite lookup_app_l.
    - pose proof (lookup_lt_Some _ _ _ Hs). split_and!.
      + by apply lookup_upd_eq.
      + intros h Hh. apply (position_upd h _ i s); [done | by apply is_group_inactive |].
        unfold c. rewrite is_group_new. apply Z.eqb_neq. congruence.
      + intros j d Hj. by rewrite lookup_upd_ne. }
  destruct Hi as (Hic & Hoth & Hkeep).
  assert (Hne : forall j d, j <> i -> in_use t1 !! j = Some d -> is_group gnum d = false).
  { intros j d Hj Hd%Hkeep; [| done]. by apply (proj1 (position_None _ _) Eno j). }
  exists t1, i. split_and!; try done.
  - apply position_intro with c; [done | unfold c; rewrite is_group_new; apply Z.eqb_refl |].
    intros j d Hj. apply Hne. lia.
  - intros h Hh. split; [by apply Hoth |]. unfold chat_of. rewrite (Hoth h Hh).
    destruct (position (is_group h) (in_use t)) as [j|] eqn:Ej; [| done].
    apply position_Some in Ej as (d & Hd & Hf & _). rewrite Hd.
    destruct (decide (j = i)) as [-> | Hji]; [| by apply Hkeep].
    destruct Hu as [[_ ->] | (s & Hs & Hina & _)].
    + rewrite lookup_ge_None_2 in Hd by lia. done.
    + rewrite Hs in Hd. injection Hd as <-. rewrite is_group_inactive in Hf; done.
Qed.

(** Removing a group whose number is in use once. *)
Lemma group_leave_map t gnum i c : wf_groups t -> position (is_group gnum) (in_use t) = Some i ->
  in_use t !! i = Some c ->
  (forall j d, j <> i -> in_use t !! j = Some d -> is_group gnum d = false) ->
  exists t2, group_leave t gnum = Some t2 /\ wf_groups t2 /\
    position (is_group gnum) (in_use t2) = None /\
    (forall h, h <> gnum -> position (is_group h) (in_use t2) = position (is_group h) (in_use t) /\
       chat_of t2 h = chat_of t h).
Proof.
  intros H Hpos Hc Hne. destruct (group_leave_in_use t gnum H) as (t2 & Hleave & H2 & Hg).
  rewrite Hpos in Hg. cbv zeta in Hg. destruct Hg as (k & Huse & Hina).
  assert (Hcg : is_group gnum c = true).
  { apply position_Some in Hpos as (d & Hd & Hf & _). congruence. }
  assert (Hidx : forall h, position (is_group h) (in_use t2) =
    position (is_group h) (upd (in_use t) i zero_group)).
  { intros h. rewrite Huse. by apply position_inactive. }
  assert (Hother : forall h, h <> gnum -> position (is_group h) (in_use t2) = position (is_group h) (in_use t)).
  { intros h Hh. rewrite Hidx. apply (position_upd h _ i c); [done | by eapply is_group_other | done]. }
  exists t2. split_and!; [done | done | |].
  - rewrite Hidx. apply position_None.
    intros j d [(_ & -> & _) | [Hj Hd]]%lookup_upd_Some; [done |]. by eapply Hne.
  - intros h Hh. split; [by apply Hother |]. unfold chat_of. rewrite (Hother h Hh).
    destruct (position (is_group h) (in_use t)) as [j|] eqn:Ej; [| done].
    rewrite <- (Hother h Hh) in Ej.
    apply position_Some in Ej as (d & Hd & Hf & _). rewrite Hd. rewrite Huse in Hd.
    apply lookup_take_Some in Hd as [Hd _].
    apply lookup_upd_Some in Hd as [(_ & -> & _) | [_ Hd]]; [done | by symmetry].
Qed.

(** [group_add] never fails to return, full table included. *)
Lemma group_add_total t gnum type pass : wf_groups t ->
  exists rc t', group_add t gnum type pass = Some (rc, t') /\ wf_groups t' /\
    (rc = 0 \/ rc = -1 /\ t' = t).
Proof.
  intros H. destruct (decide (chats_idx t < MAX_NUM_GROUPS)) as [Hlt | Hge].
  - destruct (group_add_in_use t gnum type pass H Hlt) as (_ & t' & ? & ? & _). exists 0, t'. eauto.
  - exists (-1), t. split_and!; [| done | eauto]. destruct H as ([? ?] & _). unfold group_add.
    rewrite (proj2 (Z.leb_le MAX_NUM_GROUPS _)) by lia. by rewrite orb_true_r.
Qed.

Lemma wf_write t i c d : wf_groups t -> g_chats t !! i = Some c -> active d = true ->
  set_slot (g_chats t) i d = Some (upd (g_chats t) i d) /\
  wf_groups (mk_groups (upd (g_chats t) i d) (chats_idx t)).
Proof.
  intros (H1 & H2 & H3) Hc Hd. pose proof (lookup_lt_Some _ _ _ Hc) as Hl. split.
  - unfold set_slot. by rewrite (proj2 (Nat.ltb_lt _ _)).
  - split_and!; cbn; try lia; [unfold zlen in *; by rewrite length_upd |].
    unfold in_use in *. cbn. unfold upd. destruct (decide (i < Z.to_nat (chats_idx t))%nat).
    + rewrite take_insert_lt by lia. by apply wf_last.
    + by rewrite take_insert_ge by lia.
Qed.

(** The slot a found index designates, and writing a chat with that number to it. *)
Lemma index_slot t gnum : wf_groups t -> exists idx, group_index t gnum = Some idx /\
  (idx = -1 /\ chat_of t gnum = None \/ 0 <= idx /\ exists c, g_chats t !! Z.to_nat idx = Some c /\
    chat_of t gnum = Some c /\ is_group gnum c = true /\
    forall d, is_group gnum d = true -> exists t', wf_groups t' /\ chat_of t' gnum = Some d /\
      set_slot (g_chats t) (Z.to_nat idx) d = Some (g_chats t') /\ chats_idx t' = chats_idx t).
Proof.
  intros H. rewrite (index_ok t gnum H). eexists. split; [done |]. unfold chat_of at 1 2.
  destruct (position (is_group gnum) (in_use t)) as [i|] eqn:E; [right | by left].
  split; [lia |]. rewrite Nat2Z.id. pose proof E as E0.
  apply position_Some in E as (c & Hc & Hf & Hj). exists c.
  pose proof Hc as Hin. apply lookup_take_Some in Hc as [Hc Hlt].
  split_and!; [done | done | done |]. intros d Hd.
  destruct (wf_write t i c d H Hc) as [Hs Hw]; [unfold is_group in Hd; by zbool |].
  eexists. split; [exact Hw |]. split; [| by rewrite Hs]. unfold chat_of.
  assert (Hu : in_use (mk_groups (upd (g_chats t) i d) (chats_idx t)) = upd (in_use t) i d).
  { unfold in_use, upd. cbn. by rewrite take_insert_lt by lia. }
  rewrite Hu, (position_intro _ _ i d).
  - apply lookup_upd_eq. by eapply lookup_lt_Some.
  - apply lookup_upd_eq. by eapply lookup_lt_Some.
  - done.
  - intros j e Hji He. rewrite lookup_upd_ne in He by lia. by apply (Hj j).
Qed.

(** * Properties *)

(** [group_add], [group_leave] and [group_index] never touch a slot
    outside the allocation and implement a map from conference numbers: adding a
    new group makes it found, with its password, and removing one makes it not
    found when its number is not in use twice, while every other group keeps its
    slot and its data. *)
Theorem group_table_map t gnum type pass : wf_groups t -> group_index t gnum = Some (-1) ->
  chats_idx t < MAX_NUM_GROUPS ->
  exists t1 t2 i, group_add t gnum type pass = Some (0, t1) /\ wf_groups t1 /\
    group_index t1 gnum = Some (Z.of_nat i) /\ chat_of t1 gnum = Some (new_group gnum type pass) /\
    (forall h, h <> gnum -> group_index t1 h = group_index t h /\ chat_of t1 h = chat_of t h) /\
    group_leave t1 gnum = Some t2 /\ wf_groups t2 /\ group_index t2 gnum = Some (-1) /\
    (forall h, h <> gnum -> group_index t2 h = group_index t h /\ chat_of t2 h = chat_of t h).
Proof.
  intros H Hno Hlt. rewrite (index_ok t gnum H) in Hno.
  destruct (position (is_group gnum) (in_use t)) as [?|] eqn:Eno; [injection Hno; lia |].
  destruct (group_add_map t gnum type pass H Eno Hlt) as (t1 & i & Hadd & H1 & Hpos & Hc & Hne & Hoth).
  destruct (group_leave_map t1 gnum i _ H1 Hpos Hc Hne) as (t2 & Hleave & H2 & Hnone & Hoth2).
  exists t1, t2, i. rewrite !index_ok by done. rewrite Hpos, Hnone. split_and!; try done.
  - unfold chat_of. by rewrite Hpos.
  - intros h Hh. rewrite !index_ok by done. by destruct (Hoth h Hh) as [-> ->].
  - intros h Hh. rewrite !index_ok by done. destruct (Hoth2 h Hh) as [-> ->].
    by destruct (Hoth h Hh) as [-> ->].
Qed.

Lemma group_table_map_witness : exists t1 t2 i,
  group_add (mk_groups [] 0) 7 1 (Some ($"secret")) = Some (0, t1) /\
  group_index t1 7 = Some (Z.of_nat i) /\
  chat_of t1 7 = Some (mk_group 7 true true 1 [] 0 ($"secret")) /\
  group_leave t1 7 = Some t2 /\ group_index t2 7 = Some (-1).
Proof.
  destruct (group_table_map (mk_groups [] 0) 7 1 (Some ($"secret")))
    as (t1 & t2 & i & H1 & _ & H2 & H3 & _ & H4 & _ & H5 & _); [| done | done |].
  - split_and!; done.
  - exists t1, t2, i. exact (conj H1 (conj H2 (conj H3 (conj H4 H5)))).
Defined.

(** A full table refuses a new group although it has inactive slots:
    [group_add] tests the number of slots in use before it looks for one to
    reuse. *)
Theorem group_add_ignores_holes :
  let hole := mk_groups (zero_group :: replicate 255 (new_group 1 0 None)) 256 in
  wf_groups hole /\ group_add hole 999 0 None = Some (-1, hole).
Proof.
  split; [| by vm_compute]. split_and!; try (vm_compute; discriminate).
  intros c Hc. vm_compute in Hc. by injection Hc as <-.
Qed.
