(* ===== verification/Bot.v ===== *)
(** * The bot: its state, the toxcore interface and its profile
    ([src/toxrelayer.h], parts of [src/toxrelayer.c])

    What the command handlers and the toxcore callbacks share: the interface to
    toxcore, the global [Tox_Bot], a small state monad in which the handlers are
    written, the key lists that decide who is a master and who is blocked, and
    the two routines that write the profile. *)

From S2P Require Import Prelude.
From S2P Require Import CString.
From S2P Require Import MqPersist.
From S2P Require Import Misc.
From S2P Require Import GroupChats.

(** ** The interface to toxcore

    A call that changes something outside the process is recorded, in order; the
    answers of the library are arbitrary functions of the calls so far, so they
    may change after every one of them. *)
Inductive call : Type :=
| SendMessage (friendnum : Z) (msg : bytes)
| ConferenceNew
| AddAvGroupchat
| ConferenceJoin (friendnum type : Z) (cookie : bytes)
| ConferenceDelete (groupnum : Z)
| ConferenceSendMessage (groupnum : Z) (msg : bytes)
| ConferenceInvite (friendnum groupnum : Z)
| ConferenceSetTitle (groupnum : Z) (title : bytes)
| SelfSetName (name : bytes)
| SelfSetStatus (status : Z)
| SelfSetStatusMessage (msg : bytes)
| FriendAddNorequest (public_key : bytes)
| FriendDelete (friendnum : Z)
| FriendAdd (address : option bytes) (msg : bytes)
| Bootstrap (host : bytes) (port : Z) (public_key : option bytes)
| AddTcpRelay (host : bytes) (port : Z) (public_key : option bytes)
| Iterate.

Abbreviation history := (list call).

(** Enumerators of [tox.h]. *)
Definition TOX_CONFERENCE_TYPE_TEXT : Z := 0.
Definition TOX_CONFERENCE_TYPE_AV : Z := 1.
Definition TOX_USER_STATUS_NONE : Z := 0.
Definition TOX_USER_STATUS_AWAY : Z := 1.
Definition TOX_USER_STATUS_BUSY : Z := 2.

(** A pair [(result, error)] is what the call returns and stores through its
    error argument; [None] is an error. *)
Class toxcore := {
  time : history -> Z;                              (* the C library's clock *)
  friend_name : history -> Z -> bytes;
  friend_public_key : history -> Z -> option bytes;
  friend_online : history -> Z -> bool;
  friend_last_online : history -> Z -> option Z;
  friend_list : history -> list Z;
  friend_exists : history -> Z -> bool;
  friend_send_message : history -> Z -> bytes -> Z * Z;
  friend_add_norequest : history -> bytes -> Z;     (* the error code *)
  self_address : bytes;
  chatlist : history -> list Z;
  conference_peer_count : history -> Z -> option Z;
  conference_get_type : history -> Z -> option Z;
  conference_new : history -> Z * Z;
  add_av_groupchat : history -> Z;
  conference_join : history -> Z -> Z -> bytes -> Z * Z;
  conference_delete : history -> Z -> bool;
  conference_send_message : history -> Z -> bytes -> bool * Z;
  conference_invite : history -> Z -> Z -> bool * Z;
  conference_set_title : history -> Z -> bytes -> bool * Z;
  savedata : history -> bytes;
  pass_encrypt : bytes -> option bytes }.

(** ** State *)

(** [Tox_Bot] (the group table is [groups]), with the calls made and the file
    system. *)
Record bot : Type := mk_bot {
  calls : history;
  disk : world;
  start_time : Z;
  last_connected : Z;
  last_bootstrap : Z;
  inactive_limit : Z;
  default_groupnum : Z;
  num_online_friends : Z;
  table : groups }.

(** ** A monad for the handlers: state, and undefined behaviour as [None] *)

Definition M (A : Type) : Type := bot -> option (A * bot).

#[export] Instance M_ret : MRet M := fun A a s => Some (a, s).
#[export] Instance M_bind : MBind M := fun A B f m s =>
  match m s with Some (a, s') => f a s' | None => None end.

Definition gets {A} (f : bot -> A) : M A := fun s => Some (f s, s).
Definition modify (f : bot -> bot) : M unit := fun s => Some (tt, f s).
Definition or_undefined {A} (o : option A) : M A := fun s => a ← o; Some (a, s).

(** A toxcore call: recorded, and answered by the library. *)
Definition record (c : call) (s : bot) : bot :=
  mk_bot (calls s ++ [c]) (disk s) (start_time s) (last_connected s) (last_bootstrap s)
    (inactive_limit s) (default_groupnum s) (num_online_friends s) (table s).
Definition perform {A} (c : call) (answer : history -> A) : M A :=
  fun s => Some (answer (calls s), record c s).

Definition set_disk (s : bot) (w : world) : bot :=
  mk_bot (calls s) w (start_time s) (last_connected s) (last_bootstrap s)
    (inactive_limit s) (default_groupnum s) (num_online_friends s) (table s).
Definition set_last_connected (v : Z) (s : bot) : bot :=
  mk_bot (calls s) (disk s) (start_time s) v (last_bootstrap s)
    (inactive_limit s) (default_groupnum s) (num_online_friends s) (table s).
Definition set_last_bootstrap (v : Z) (s : bot) : bot :=
  mk_bot (calls s) (disk s) (start_time s) (last_connected s) v
    (inactive_limit s) (default_groupnum s) (num_online_friends s) (table s).
Definition set_inactive_limit (v : Z) (s : bot) : bot :=
  mk_bot (calls s) (disk s) (start_time s) (last_connected s) (last_bootstrap s)
    v (default_groupnum s) (num_online_friends s) (table s).
Definition set_default_groupnum (v : Z) (s : bot) : bot :=
  mk_bot (calls s) (disk s) (start_time s) (last_connected s) (last_bootstrap s)
    (inactive_limit s) v (num_online_friends s) (table s).
Definition set_num_online_friends (v : Z) (s : bot) : bot :=
  mk_bot (calls s) (disk s) (start_time s) (last_connected s) (last_bootstrap s)
    (inactive_limit s) (default_groupnum s) v (table s).
Definition set_table (t : groups) (s : bot) : bot :=
  mk_bot (calls s) (disk s) (start_time s) (last_connected s) (last_bootstrap s)
    (inactive_limit s) (default_groupnum s) (num_online_friends s) t.

(** A C library call on the file system. *)
Definition on_disk {A} (f : world -> A * world) : M A :=
  fun s => let '(a, w) := f (disk s) in Some (a, set_disk s w).

Definition MASTERLIST_FILE : bytes := $"masterkeys".
Definition BLOCKLIST_FILE : bytes := $"blockedkeys".
Definition DATA_FILE : bytes := $"toxbot.tox".
Definition DATA_FILE_PRE_0_1_1 : bytes := $"arkmeta_save".
Definition TEMP_PROFILE_EXT : bytes := $".tmp".

Section Bot.
Context `{tox : tox_params} `{core : toxcore}.

Definition get_time : M Z := gets (fun s => time (calls s)).

Definition init_toxrelayer_state : M unit :=
  now ← get_time;
  modify (fun s => mk_bot (calls s) (disk s) now now (last_bootstrap s)
    (31536000 * 5) 0 0 (mk_groups (g_chats (table s)) 0)).

(** [tox_friend_send_message] of a C string, its result unused. *)
Definition reply (friendnum : Z) (msg : bytes) : M unit :=
  perform (SendMessage friendnum msg) (fun _ => tt).

(** The statements that copy a contact's name into [name[TOX_MAX_NAME_LENGTH]]
    and terminate it; a store outside the array is undefined. *)
Definition get_name (friendnum : Z) : M bytes :=
  nm ← gets (fun s => friend_name (calls s) friendnum);
  name ← or_undefined (memcpy (replicate (Z.to_nat TOX_MAX_NAME_LENGTH) NUL) nm (zlen nm));
  name ← or_undefined (store name (zlen nm) NUL);
  mret (until_nul name).

(** ** Key lists *)

(** [file_contains_key] on the disk: its only change is an empty file where
    there was none. *)
Definition key_in_file (public_key path : bytes) (w : world) : Z * world :=
  let '(ok, w) := sys w in
  let '(found, files) := file_contains_key (f_data <$> w_files w) ok ok (Some public_key) (Some path) in
  (found, match w_files w !! path, files !! path with
          | None, Some data => set_files w (<[path := mk_file data false]> (w_files w))
          | _, _ => w
          end).

Definition friend_is_master (friendnumber : Z) : M bool :=
  key ← gets (fun s => friend_public_key (calls s) friendnumber);
  match key with
  | None => mret false
  | Some public_key => found ← on_disk (key_in_file public_key MASTERLIST_FILE); mret (found =? 1)
  end.

Definition public_key_is_blocked (public_key : bytes) : M bool :=
  found ← on_disk (key_in_file public_key BLOCKLIST_FILE); mret (found =? 1).

(** ** The profile *)

(** [save_data] after [fopen]: allocate, write, close. *)
Definition save_open (path data : bytes) (w : world) : Z * world :=
  let '(allocated, w) := sys w in
  if negb allocated then (-1, snd (sys w))
  else
    let '(written, w) := fwrite path data w in
    let '(closed, w) := sys w in
    (if negb (written =? zlen data) || negb closed then -1 else 0, w).

Definition save_file (path : option bytes) (data : bytes) (w : world) : Z * world :=
  match path with
  | None => (-1, w)
  | Some path =>
    let '(ok, w) := fopen_wb path w in
    if negb ok then (-1, w) else save_open path data w
  end.

Definition save_data (path : option bytes) : M Z :=
  data ← gets (fun s => savedata (calls s)); on_disk (save_file path data).

(** [store_data] after [fopen] of the temporary file; [encrypted] is the branch
    taken for a profile with a password. [fclose] is called on every path. *)
Definition store_open (encrypted : bool) (temp_path path data : bytes) (w : world) : Z * world :=
  let fail w := (-1, snd (sys w)) in
  let '(allocated, w) := sys w in
  if negb allocated then fail w
  else
    let '(out, w) :=
      if encrypted then
        let '(allocated, w) := sys w in
        (if allocated then pass_encrypt data else None, w)
      else (Some data, w) in
    match out with
    | None => fail w
    | Some out =>
      let '(written, w) := fwrite temp_path out w in
      if (zlen out =? 0) || negb (written =? zlen out) then fail w    (* one record *)
      else
        let w := snd (sys w) in
        let '(renamed, w) := rename temp_path path w in
        (if renamed then 0 else -1, w)
    end.

Definition store_file (encrypted : bool) (path : option bytes) (data : bytes) (w : world) : Z * world :=
  match path with
  | None => (-1, w)
  | Some path =>
    let '(allocated, w) := sys w in
    if negb allocated then (-1, w)
    else
      let temp_path := path ++ TEMP_PROFILE_EXT in
      let '(ok, w) := fopen_wb temp_path w in
      if negb ok then (-1, w) else store_open encrypted temp_path path data w
  end.

Definition store_data (encrypted : bool) (path : option bytes) : M Z :=
  data ← gets (fun s => savedata (calls s)); on_disk (store_file encrypted path data).

(** [file_exists] and [file_size] of [misc.c]: [stat] looks at the directory. *)
Definition file_exists (path : bytes) (w : world) : bool := bool_decide (is_Some (w_files w !! path)).
Definition file_size (path : bytes) (w : world) : Z := default 0 (zlen ∘ f_data <$> w_files w !! path).

Definition legacy_data_file_rename (w : world) : Z * world :=
  if negb (file_exists DATA_FILE_PRE_0_1_1 w) then (0, w)
  else if file_exists DATA_FILE w then (-1, w)
  else
    let '(renamed, w) := rename DATA_FILE_PRE_0_1_1 DATA_FILE w in
    (if renamed then 0 else -2, w).

(** [load_tox] after [fopen] of an existing profile: the bytes handed to
    [tox_new], [None] for a refusal to start. *)
Definition load_open (path : bytes) (f : file) (w : world) : option bytes * world :=
  if file_size path w <=? 0 then (None, snd (sys w))
  else
    let '(allocated, w) := sys w in
    if negb allocated then (None, snd (sys w))
    else
      let '(nread, w) := sys w in
      ((if nread then Some (f_data f) else None), snd (sys w)).

(** [load_tox]: what the instance was created from ([Some None] is a new
    identity), or [None] without an instance. [tox_new] says whether the library
    accepts its options, [fresh] is what a new identity saves. *)
Definition load_tox (tox_new : option bytes -> bool) (fresh path : bytes) (w : world)
    : option (option bytes) * world :=
  let '(opened, w) := sys w in
  match (if opened then w_files w !! path else None) with
  | None =>
    if tox_new None then (Some None, snd (save_file (Some path) fresh w)) else (None, w)
  | Some f =>
    match load_open path f w with
    | (None, w) => (None, w)
    | (Some data, w) => (if tox_new (Some data) then Some (Some data) else None, w)
    end
  end.

End Bot.

(** * Reasoning about handlers *)

(** [wp m Q s]: from [s], [m] has no undefined behaviour and ends in [Q]. *)
Definition wp {A} (m : M A) (Q : A -> bot -> Prop) (s : bot) : Prop :=
  match m s with Some (a, s') => Q a s' | None => False end.

(** [triple P m Q]: total correctness. *)
Definition triple {A} (P : bot -> Prop) (m : M A) (Q : A -> bot -> Prop) : Prop :=
  forall s, P s -> wp m Q s.

(** [leads R m]: whatever [m] returns, its final state is related to the initial
    one. *)
Definition leads {A} (R : bot -> bot -> Prop) (m : M A) : Prop :=
  forall s a s', m s = Some (a, s') -> R s s'.

Section Rules.
Context {A B : Type}.
Implicit Types (P : bot -> Prop) (m : M A) (f : A -> M B).

Lemma wp_Some m Q s : wp m Q s <-> exists a s', m s = Some (a, s') /\ Q a s'.
Proof.
  unfold wp. destruct (m s) as [[a s']|]; split; [eauto | | done |].
  - by intros (b & s'' & [= -> ->] & H).
  - by intros (b & s'' & [=] & _).
Qed.

Lemma triple_ret P (Q : A -> bot -> Prop) a : (forall s, P s -> Q a s) -> triple P (mret a) Q.
Proof. intros H s Hs. by apply H. Qed.

Lemma triple_bind P m (Q : A -> bot -> Prop) f (R : B -> bot -> Prop) :
  triple P m Q -> (forall a, triple (Q a) (f a) R) -> triple P (m ≫= f) R.
Proof.
  intros Hm Hf s Hs. specialize (Hm s Hs). unfold wp, mbind, M_bind in *.
  destruct (m s) as [[a s']|]; [| done]. by apply Hf.
Qed.

Lemma triple_pre P P' m (Q : A -> bot -> Prop) : triple P m Q -> (forall s, P' s -> P s) -> triple P' m Q.
Proof. intros H HP s Hs. by apply H, HP. Qed.

Lemma triple_post P m (Q Q' : A -> bot -> Prop) :
  triple P m Q -> (forall a s, Q a s -> Q' a s) -> triple P m Q'.
Proof. intros H HQ s Hs. specialize (H s Hs). unfold wp in *. destruct (m s) as [[a s']|]; auto. Qed.

Lemma triple_gets P (g : bot -> A) : triple P (gets g) (fun a s => P s /\ a = g s).
Proof. intros s Hs. done. Qed.

Lemma triple_gets' P (g : bot -> A) : triple P (gets g) (fun _ => P).
Proof. intros s Hs. done. Qed.

Lemma triple_modify P Q g : (forall s, P s -> Q (g s)) -> triple P (modify g) (fun _ => Q).
Proof. intros H s Hs. by apply H. Qed.

Lemma triple_perform P Q c (answer : history -> A) :
  (forall s, P s -> Q (record c s)) -> triple P (perform c answer) (fun _ => Q).
Proof. intros H s Hs. by apply H. Qed.

Lemma triple_on_disk P Q (g : world -> A * world) :
  (forall s w, P s -> Q (set_disk s w)) -> triple P (on_disk g) (fun _ => Q).
Proof. intros H s Hs. unfold wp, on_disk. destruct (g (disk s)). by apply H. Qed.

Lemma triple_or_undefined P (o : option A) a : o = Some a ->
  triple P (or_undefined o) (fun b s => P s /\ b = a).
Proof. intros -> s Hs. done. Qed.

Lemma leads_ret (R : bot -> bot -> Prop) `{!Reflexive R} (a : A) : leads R (mret a).
Proof. intros s b s' [= _ <-]. done. Qed.

Lemma leads_bind (R : bot -> bot -> Prop) `{!Transitive R} m f :
  leads R m -> (forall a, leads R (f a)) -> leads R (m ≫= f).
Proof.
  intros Hm Hf s b s'. unfold mbind, M_bind. destruct (m s) as [[a s1]|] eqn:E; [| done].
  intros H. transitivity s1; [by apply (Hm s a) | by apply (Hf a s1 b)].
Qed.

Lemma leads_gets (R : bot -> bot -> Prop) `{!Reflexive R} (g : bot -> A) : leads R (gets g).
Proof. intros s a s' [= _ <-]. done. Qed.

Lemma leads_or_undefined (R : bot -> bot -> Prop) `{!Reflexive R} (o : option A) : leads R (or_undefined o).
Proof. intros s a s'. unfold or_undefined. destruct o; [intros [= _ <-]; done | done]. Qed.

Lemma leads_perform (R : bot -> bot -> Prop) c (answer : history -> A) :
  (forall s, R s (record c s)) -> leads R (perform c answer).
Proof. intros H s a s' [= _ <-]. done. Qed.

Lemma bind_Some m f s b s' : (m ≫= f) s = Some (b, s') ->
  exists a s1, m s = Some (a, s1) /\ f a s1 = Some (b, s').
Proof. unfold mbind, M_bind. destruct (m s) as [[a s1]|]; [eauto | done]. Qed.

Lemma bind_eval m f s a s1 : m s = Some (a, s1) -> (m ≫= f) s = f a s1.
Proof. unfold mbind, M_bind. by intros ->. Qed.

End Rules.

Section Facts.
Context `{tox : tox_params} `{core : toxcore}.

(** The copy of a name that leaves room for its terminator. *)
Lemma get_name_ok P friendnum :
  (forall h, zlen (friend_name h friendnum) < TOX_MAX_NAME_LENGTH) ->
  triple P (get_name friendnum) (fun nm s => P s /\ nm = until_nul (friend_name (calls s) friendnum)).
Proof.
  intros Hn s Hs. specialize (Hn (calls s)). unfold get_name, wp, mbind, M_bind, gets, or_undefined.
  pose proof name_pos.
  destruct (copy_text (replicate (Z.to_nat TOX_MAX_NAME_LENGTH) NUL) (friend_name (calls s) friendnum)
    (zlen (friend_name (calls s) friendnum))) as (b & b' & -> & Hb & _ & t & ->); [zlen | zlen | lia |].
  cbn -[until_nul memcpy store]. rewrite Hb. cbn -[until_nul]. split; [done |].
  rewrite until_nul_app. by rewrite take_ge by (unfold zlen; lia).
Qed.

(** A name that fills the array overruns it by one. *)
Lemma get_name_overflow friendnum s : zlen (friend_name (calls s) friendnum) = TOX_MAX_NAME_LENGTH ->
  get_name friendnum s = None.
Proof.
  intros Hn. unfold get_name, mbind, M_bind, gets, or_undefined. pose proof name_pos.
  destruct (memcpy _ _ _) as [b|] eqn:E; cbn -[store]; [| done].
  unfold store. destruct (_ && _) eqn:E2; [| done]. exfalso.
  unfold memcpy in E. destruct (_ && _) eqn:E1 in E; [| done]. injection E as E. subst b. zbool.
  unfold zlen in *. rewrite length_app, length_take, length_drop, length_replicate in *. lia.
Qed.

End Facts.

(** * Writing the profile *)
Section Profile.
Context `{tox : tox_params} `{core : toxcore}.
Variable past : list (gmap bytes file).

(** What [store_data] writes: the profile, or its encryption. *)
Definition profile (encrypted : bool) (data : bytes) : option bytes :=
  if encrypted then pass_encrypt data else Some data.

(** A store that failed with the profile untouched, or replaced it in one step by
    the complete new one. *)
Definition store_end (encrypted : bool) (path data : bytes) (m0 : gmap bytes file) (r : Z * world) : Prop :=
  let '(rc, w') := r in
  (rc = -1 /\ only_tmp past (path ++ TEMP_PROFILE_EXT) m0 w') \/
  (rc = 0 /\ exists w out, only_tmp past (path ++ TEMP_PROFILE_EXT) m0 w /\
     w_trace w' = w_trace w ++ [w_files w'] /\ profile encrypted data = Some out /\
     f_data <$> w_files w' !! path = Some out).

Lemma rename_end encrypted path data out m0 w : only_tmp past (path ++ TEMP_PROFILE_EXT) m0 w ->
  profile encrypted data = Some out -> file_data w (path ++ TEMP_PROFILE_EXT) = Some out ->
  store_end encrypted path data m0
    (let '(renamed, w) := rename (path ++ TEMP_PROFILE_EXT) path w in (if renamed then 0 else -1, w)).
Proof.
  intros H Ho Hd. unfold rename. pose proof (only_tmp_sys past _ _ _ H) as Hs.
  destruct (sys_files w) as (Hf & _ & _). destruct (sys w) as [[] w1]; cbn [snd] in *; [| by left].
  unfold file_data in Hd. rewrite Hf. destruct (w_files w !! _) as [f|] eqn:E; [| done].
  right. split; [done |]. exists w1, out. split_and!; [done | done | done |].
  cbn. rewrite lookup_insert_eq. exact Hd.
Qed.

Lemma fwrite_end encrypted path data out m0 w : only_tmp past (path ++ TEMP_PROFILE_EXT) m0 w ->
  profile encrypted data = Some out -> file_data w (path ++ TEMP_PROFILE_EXT) = Some [] ->
  store_end encrypted path data m0
    (let '(written, w) := fwrite (path ++ TEMP_PROFILE_EXT) out w in
     if (zlen out =? 0) || negb (written =? zlen out) then (-1, snd (sys w))
     else
       let w := snd (sys w) in
       let '(renamed, w) := rename (path ++ TEMP_PROFILE_EXT) path w in (if renamed then 0 else -1, w)).
Proof.
  intros H Ho Hd. destruct (fwrite_ok past _ m0 w out [] H Hd) as (n & w1 & -> & H1 & _ & Hall & _).
  destruct ((zlen out =? 0) || negb (n =? zlen out)) eqn:E; [left; split; [done | by apply only_tmp_sys] |].
  zbool. apply (rename_end encrypted path data out); [by apply only_tmp_sys | done |].
  specialize (Hall ltac:(done)). unfold file_data in *. by rewrite (proj1 (sys_files w1)).
Qed.

Lemma store_ok encrypted path data w : w_trace w = past ->
  store_end encrypted path data (w_files w) (store_file encrypted (Some path) data w).
Proof.
  intros Ht. assert (H : only_tmp past (path ++ TEMP_PROFILE_EXT) (w_files w) w)
    by (split; [done | exists []; by rewrite app_nil_r]).
  unfold store_file, fopen_wb. pose proof (only_tmp_sys past _ _ _ H) as H1.
  destruct (sys w) as [[] w1]; cbn [snd negb] in *; [| by left].
  pose proof (only_tmp_sys past _ _ _ H1) as H2. destruct (sys w1) as [[] w2]; cbn [snd negb] in *; [| by left].
  set (w3 := set_files w2 _). assert (H3 : only_tmp past (path ++ TEMP_PROFILE_EXT) (w_files w) w3).
  { apply only_tmp_set; [done |]. intros p Hp. by apply insert_other. }
  assert (Hd : file_data w3 (path ++ TEMP_PROFILE_EXT) = Some []) by (unfold file_data; cbn; by rewrite lookup_insert_eq).
  unfold store_open. pose proof (only_tmp_sys past _ _ _ H3) as H4. destruct (sys_files w3) as (Hf3 & _ & _).
  destruct (sys w3) as [[] w4]; cbn [snd negb] in *; [| left; split; [done | by apply only_tmp_sys]].
  assert (Hd4 : file_data w4 (path ++ TEMP_PROFILE_EXT) = Some []) by (unfold file_data in *; by rewrite Hf3).
  destruct encrypted.
  - pose proof (only_tmp_sys past _ _ _ H4) as H5. destruct (sys_files w4) as (Hf4 & _ & _).
    destruct (sys w4) as [[] w5]; cbn [snd] in *; [| left; split; [done | by apply only_tmp_sys]].
    destruct (pass_encrypt data) as [out|] eqn:Eo; [| left; split; [done | by apply only_tmp_sys]].
    apply (fwrite_end true path data out); [done | done |]. unfold file_data in *. by rewrite Hf4.
  - by apply (fwrite_end false path data data).
Qed.

(** An unlucky [save_data]: the file is opened, then the write fails. *)
Lemma save_unlucky path data w plan : w_plan w = [Works; Works; Fails] ++ plan -> zlen data <> 0 ->
  exists w', save_file (Some path) data w = (-1, w') /\ file_data w' path = Some [].
Proof.
  intros Hp Hd. unfold save_file, fopen_wb, save_open, fwrite, sys, ask. rewrite Hp. cbn.
  destruct plan as [|[] plan]; cbn -[Z.eqb]; change (Z.of_nat 0) with 0;
    rewrite (proj2 (Z.eqb_neq 0 (zlen data))) by lia; cbn; eexists; (split; [reflexivity |]);
    unfold file_data; cbn; rewrite !lookup_insert_eq; cbn; by rewrite ?lookup_insert_eq.
Qed.

End Profile.

(** * Properties *)


