(* ===== verification/Network.v ===== *)
(** * The bootstrap nodes ([src/toxrelayer.c])

    The table of nodes through which the bot enters the network, and what the library
    is told about them. *)

From S2P Require Import Prelude.
From S2P Require Import CString.
From S2P Require Import MqPersist.
From S2P Require Import Misc.
From S2P Require Import GroupChats.
From S2P Require Import Bot.

Record toxNodes : Type := mk_toxNodes {
  ip : bytes;
  port : Z;
  key : bytes }.

(** The table, without the entry that ends it. *)
Definition nodes : list toxNodes := [
  mk_toxNodes ($"95.79.50.56") 33445
    ($"8E7D0B859922EF569298B4D261A8CCB5FEA14FB91ED412A7603A585A25698832");
  mk_toxNodes ($"85.143.221.42") 33445
    ($"DA4E4ED4B697F2E9B000EEFE3A34B554ACD3F45F5C96EAEA2516DD7FF9AF7B43");
  mk_toxNodes ($"46.229.52.198") 33445
    ($"813C8F4187833EF0655B10F7752141A352248462A567529A38B6BBF73E979307");
  mk_toxNodes ($"144.217.167.73") 33445
    ($"7E5668E0EE09E19F320AD47902419331FFEE147BB3606769CFBE921A2A2FD34C");
  mk_toxNodes ($"198.199.98.108") 33445
    ($"BEF0CFB37AF874BD17B9A8F9FE64C75521DB95A37D33C5BDB00E9CF58659C04F");
  mk_toxNodes ($"81.169.136.229") 33445
    ($"E0DB78116AC6500398DDBA2AEEF3220BB116384CAB714C5D1FCD61EA2B69D75E");
  mk_toxNodes ($"205.185.115.131") 53
    ($"3091C6BEB2A993F1C6300C16549FABA67098FF3D62C6D253828B531470B53D68");
  mk_toxNodes ($"46.101.197.175") 33445
    ($"CD133B521159541FB1D326DE9850F5E56A6C724B5B8E5EB5CD8D950408E95707");
  mk_toxNodes ($"195.201.7.101") 33445
    ($"B84E865125B4EC4C368CD047C72BCE447644A2DC31EF75BD2CDA345BFD310107");
  mk_toxNodes ($"168.138.203.178") 33445
    ($"6D04D8248E553F6F0BFDDB66FBFB03977E3EE54C432D416BC2444986EF02CC17");
  mk_toxNodes ($"5.19.249.240") 38296
    ($"DA98A4C0CD7473A133E115FEA2EBDAEEA2EF4F79FD69325FC070DA4DE4BA3238");
  mk_toxNodes ($"209.59.144.175") 33445
    ($"214B7FEA63227CAEC5BCBA87F7ABEEDB1A2FF6D18377DD86BF551B8E094D5F1E");
  mk_toxNodes ($"188.225.9.167") 33445
    ($"1911341A83E02503AB1FD6561BD64AF3A9D6C3F12B5FBB656976B2E678644A67");
  mk_toxNodes ($"122.116.39.151") 33445
    ($"5716530A10D362867C8E87EE1CD5362A233BAFBBA4CF47FA73B7CAD368BD5E6E");
  mk_toxNodes ($"195.123.208.139") 33445
    ($"534A589BA7427C631773D13083570F529238211893640C99D1507300F055FE73");
  mk_toxNodes ($"104.225.141.59") 43334
    ($"933BA20B2E258B4C0D475B6DECE90C7E827FE83EFA9655414E7841251B19A72C");
  mk_toxNodes ($"137.74.42.224") 33445
    ($"A95177FA018066CF044E811178D26B844CBF7E1E76F140095B3A1807E081A204");
  mk_toxNodes ($"172.105.109.31") 33445
    ($"D46E97CF995DC1820B92B7D899E152A217D36ABE22730FEA4B6BF1BFC06C617C");
  mk_toxNodes ($"91.146.66.26") 33445
    ($"B5E7DAC610DBDE55F359C7F8690B294C8E4FCEC4385DE9525DBFA5523EAD9D53")].

Section Network.
Context `{tox : tox_params} `{core : toxcore}.

(** One node: its key is decoded for the two calls and freed; their errors are only
    printed. *)
Definition bootstrap_node (n : toxNodes) : M unit :=
  let key := hex_string_to_bin (Some (key n)) in
  _ ← perform (Bootstrap (ip n) (port n) key) (fun _ => tt);
  perform (AddTcpRelay (ip n) (port n) key) (fun _ => tt).

Fixpoint bootstrap_loop (l : list toxNodes) : M unit :=
  match l with
  | [] => mret tt
  | n :: l => _ ← bootstrap_node n; bootstrap_loop l
  end.

Definition bootstrap_DHT : M unit := bootstrap_loop nodes.

End Network.

(** ** What the library is told *)

(** The keys of the table as bytes. *)
Definition node_keys : list bytes := default [] (mapM (fun n => hex_string_to_bin (Some (key n))) nodes).

Definition node_calls (n : toxNodes) (k : bytes) : list call :=
  [Bootstrap (ip n) (port n) (Some k); AddTcpRelay (ip n) (port n) (Some k)].

Lemma node_keys_decoded : mapM (fun n => hex_string_to_bin (Some (key n))) nodes = Some node_keys.
Proof. vm_compute. reflexivity. Qed.

Lemma bootstrap_loop_calls `{toxcore} l : forall ks s, mapM (fun n => hex_string_to_bin (Some (key n))) l = Some ks ->
  exists s', bootstrap_loop l s = Some (tt, s') /\ calls s' = calls s ++ concat (zip_with node_calls l ks) /\
    disk s' = disk s /\ table s' = table s.
Proof.
  induction l as [|n l IH]; intros ks s Hk; cbn [mapM] in Hk.
  - injection Hk as <-. exists s. cbn. by rewrite app_nil_r.
  - destruct (hex_string_to_bin (Some (key n))) as [k|] eqn:Ek; [| done]. cbn [mbind option_bind] in Hk.
    destruct (mapM _ l) as [ks'|] eqn:El; [| done]. injection Hk as <-.
    cbn [bootstrap_loop]. unfold bootstrap_node, mbind, M_bind, perform. rewrite Ek.
    destruct (IH ks' (record (AddTcpRelay (ip n) (port n) (Some k)) (record (Bootstrap (ip n) (port n) (Some k)) s)) eq_refl)
      as (s' & -> & Hc & Hd & Ht).
    exists s'. split_and!; [done | | done | done]. rewrite Hc. cbn. by rewrite <- !app_assoc.
Qed.

(** Each node is named in two calls, in the order of the table, by a port in range and
    by the 32 bytes that its text spells. *)
Theorem bootstrap_names_nodes `{toxcore} s : exists s', bootstrap_DHT s = Some (tt, s') /\
  calls s' = calls s ++ concat (zip_with node_calls nodes node_keys) /\ disk s' = disk s /\ table s' = table s /\
  Forall2 (fun n k => hex_text k = key n /\ length k = 32%nat /\ 1 <= port n <= 65535) nodes node_keys.
Proof.
  destruct (bootstrap_loop_calls nodes node_keys s node_keys_decoded) as (s' & H1 & H2 & H3 & H4).
  exists s'. split_and!; [done.. |]. apply Forall2_same_length_lookup_2; [by vm_compute |].
  assert (Hall : forallb (fun '(n, k) => bool_decide (hex_text k = key n) && (length k =? 32)%nat && (1 <=? port n) && (port n <=? 65535))
    (zip nodes node_keys) = true) by (vm_compute; reflexivity).
  intros j n k Hn Hk. rewrite forallb_forall in Hall. specialize (Hall (n, k)). cbv beta iota in Hall.
  assert (Hin : In (n, k) (zip nodes node_keys)).
  { apply list_elem_of_In, list_elem_of_lookup. exists j. apply lookup_zip_with_Some. by exists n, k. }
  specialize (Hall Hin). zbool. apply Nat.eqb_eq in H7. by split_and!.
Qed.
