(* ===== verification/Commands.v ===== *)
(** * The command interpreter ([src/commands.c], [src/commands.h])

    Splitting a line into arguments, the table of commands, every handler and
    the dispatch. A handler is called with the contact who sent the line, the
    number of arguments after the command's name and the arguments; reading an
    argument that was not written is undefined behaviour. Log and console lines
    are not modelled. *)

From S2P Require Import Prelude.
From S2P Require Import CString.
From S2P Require Import MqPersist.
From S2P Require Import Misc.
From S2P Require Import GroupChats.
From S2P Require Import Bot.

Definition MAX_NUM_ARGS : nat := 4.
Definition PURGE_DAYS_MAX : Z := 365000.

(** [strcasecmp(a, b) == 0]. *)
Definition lower (c : byte) : byte :=
  if (65 <=? code c) && (code c <=? 90) then chr (code c + 32) else c.
Definition strcaseeq (a b : bytes) : bool := bool_decide (lower <$> a = lower <$> b).

(** Does the argument start with a quote? *)
Definition quoted (arg : bytes) : bool :=
  match arg with c :: _ => bool_decide (c = QUOTE) | [] => false end.

Section Commands.
Context `{tox : tox_params} `{core : toxcore}.

Definition MAX_COMMAND_LENGTH : Z := TOX_MAX_MESSAGE_LENGTH.

Definition argument (argv : list bytes) (i : nat) : M bytes := or_undefined (argv !! i).

Definition authent_failed (friendnum : Z) : M unit :=
  reply friendnum ($"You do not have permission to use this command.").

Definition send_error (friendnum : Z) (message : bytes) (err : Z) : M unit :=
  reply friendnum (snprintf TOX_MAX_MESSAGE_LENGTH (message ++ $" (error " ++ fmt_d err ++ $")")).

Definition parse_group_number (text : bytes) : option Z := parse_int_range (Some text) 0 INT_MAX.

(** The guard of the commands only a master may use. *)
Definition master_only (friendnum : Z) (body : M unit) : M unit :=
  master ← friend_is_master friendnum;
  if negb master then authent_failed friendnum else body.

(** The statements that read a room number from an argument, or report it. *)
Definition with_group_number (friendnum : Z) (arg error : bytes) (body : Z -> M unit) : M unit :=
  match parse_group_number arg with
  | None => reply friendnum error
  | Some groupnum => body groupnum
  end.

Definition INVALID_GROUP : bytes := $"Error: Invalid group number".

Definition find_index (groupnum : Z) : M Z :=
  t ← gets table; or_undefined (group_index t groupnum).

(** The slot of the table a found index designates. *)
Definition slot (idx : Z) : M Group_Chat :=
  t ← gets table; or_undefined (g_chats t !! Z.to_nat idx).
Definition put_slot (idx : Z) (c : Group_Chat) : M unit :=
  t ← gets table;
  g ← or_undefined (set_slot (g_chats t) (Z.to_nat idx) c);
  modify (set_table (mk_groups g (chats_idx t))).

Definition cmd_default (friendnum argc : Z) (argv : list bytes) : M unit :=
  master_only friendnum (
    if argc <? 1 then reply friendnum ($"Error: Room number required")
    else
      arg ← argument argv 1;
      with_group_number friendnum arg ($"Error: Invalid room number") (fun groupnum =>
        modify (set_default_groupnum groupnum);;
        reply friendnum (snprintf MAX_COMMAND_LENGTH ($"Default room number set to " ++ fmt_d groupnum));;
        get_name friendnum;;
        mret tt)).

Definition cmd_gmessage (friendnum argc : Z) (argv : list bytes) : M unit :=
  master_only friendnum (
    if argc <? 1 then reply friendnum ($"Error: Group number required")
    else if argc <? 2 then reply friendnum ($"Error: Message required")
    else
      arg ← argument argv 1;
      with_group_number friendnum arg INVALID_GROUP (fun groupnum =>
        idx ← find_index groupnum;
        if idx =? -1 then reply friendnum INVALID_GROUP
        else
          text ← argument argv 2;
          if negb (quoted text) then reply friendnum ($"Error: Message must be enclosed in quotes")
          else
            let msg := unquote_str (Some text) MAX_COMMAND_LENGTH in
            sent ← perform (ConferenceSendMessage groupnum msg)
                     (fun h => conference_send_message h groupnum msg);
            let '(ok, err) := sent : bool * Z in
            if negb ok then send_error friendnum ($"Error: Failed to send message.") err
            else
              get_name friendnum;;
              reply friendnum ($"Message sent."))).

(** The room a new conference is made with: [Some] a number, or [None] when the
    library refuses. *)
Definition new_conference (type : Z) : M (option Z) :=
  if type =? TOX_CONFERENCE_TYPE_TEXT then
    created ← perform ConferenceNew conference_new;
    let '(groupnum, err) := created : Z * Z in
    mret (if negb (err =? 0) then None else Some (i32 groupnum))
  else
    groupnum ← perform AddAvGroupchat add_av_groupchat;
    mret (if groupnum =? -1 then None else Some (i32 groupnum)).

(** [group_add] on the table; its result. *)
Definition add_to_table (groupnum type : Z) (password : option bytes) : M Z :=
  t ← gets table;
  added ← or_undefined (group_add t (u32 groupnum) type password);
  let '(rc, t) := added : Z * groups in
  _ ← modify (set_table t); mret rc.

Definition group_type (arg : bytes) : Z :=
  if strcaseeq arg ($"audio") then 1 else 0.

Definition cmd_group (friendnum argc : Z) (argv : list bytes) : M unit :=
  if argc <? 1 then reply friendnum ($"Please specify the group type: audio or text")
  else
    arg ← argument argv 1;
    let type := group_type arg in
    _ ← get_name friendnum;
    created ← new_conference type;
    match (created : option Z) with
    | None => reply friendnum ($"Group chat instance failed to initialize.")
    | Some groupnum =>
      password ← (if 2 <=? argc then p ← argument argv 2; mret (Some p) else mret None);
      if match (password : option bytes) with Some p => MAX_PASSWORD_SIZE <=? zlen p | None => false end
      then reply friendnum ($"Group chat instance failed to initialize: Password too long")
      else
        rc ← add_to_table groupnum type password;
        if rc =? -1 then
          reply friendnum ($"Group chat creation failed");;
          perform (ConferenceDelete (u32 groupnum)) (fun _ => tt)
        else
          let pw := match password with Some _ => $" (Password protected)" | None => [] end in
          reply friendnum (snprintf MAX_COMMAND_LENGTH ($"Group chat " ++ fmt_d groupnum ++ $" created" ++ pw))
    end.

Definition help_lines : list bytes :=
  [$">> Web3 IM-Relayer in Metaverse Cyber";
   $"/info          - Dump current status and list active group chats";
   $"/list         - List all the channels that";
   $"/join <ch>    - Join the msg channel";
   $"/part <ch>    - Leave the channel";
   $"/id           - Dump arkMeta ID";
   $"/default <n>  - Sets default groupchat room to n";
   $"/invite       - Request invite to default group chat";
   $"/invite <n> <p>       - Request invite to group chat n (with password p if protected)";
   $"/group <type> <pass>  - Creates a new groupchat with type: text | audio (optional password)"].

Fixpoint replies (friendnum : Z) (lines : list bytes) : M unit :=
  match lines with
  | [] => mret tt
  | l :: lines => reply friendnum l;; replies friendnum lines
  end.

Definition cmd_help (friendnum argc : Z) (argv : list bytes) : M unit :=
  _ ← replies friendnum help_lines;
  master ← friend_is_master friendnum;
  if (master : bool) then reply friendnum ($"For a list of master commands see the commands.txt file")
  else mret tt.

Definition cmd_id (friendnum argc : Z) (argv : list bytes) : M unit :=
  reply friendnum ($"arkMeta ID :" ++ [LF]);;
  reply friendnum (concat (fmt_02X <$> take (Z.to_nat TOX_ADDRESS_SIZE) self_address)).

(** One room of the listing of [cmd_info]. *)
Definition info_group (friendnum groupnum : Z) : M unit :=
  peers ← gets (fun s => conference_peer_count (calls s) groupnum);
  match (peers : option Z) with
  | None => mret tt
  | Some num_peers =>
    idx ← find_index groupnum;
    title ← (if idx =? -1 then mret ($"None")
             else c ← slot idx; mret (if title_len c =? 0 then $"None" else title c));
    type ← gets (fun s => conference_get_type (calls s) groupnum);
    let type := if bool_decide (type = Some TOX_CONFERENCE_TYPE_AV) then $"Audio" else $"Text" in
    reply friendnum (snprintf MAX_COMMAND_LENGTH
      ($"Group " ++ fmt_d (i32 groupnum) ++ $" | " ++ type ++ $" | peers: " ++ fmt_d (i32 num_peers)
         ++ $" | Title: " ++ title))
  end.

Fixpoint info_groups (friendnum : Z) (groupchat_list : list Z) : M unit :=
  match groupchat_list with
  | [] => mret tt
  | g :: groupchat_list => info_group friendnum g;; info_groups friendnum groupchat_list
  end.

(** The list the library writes must fit [groupchat_list[MAX_NUM_GROUPS]]; the
    loop then runs over all of it. *)
Definition cmd_info (friendnum argc : Z) (argv : list bytes) : M unit :=
  curtime ← get_time;
  start ← gets start_time;
  _ ← reply friendnum (snprintf MAX_COMMAND_LENGTH ($"Uptime: " ++ get_elapsed_time_str 64 (u64 (curtime - start))));
  friends ← gets (fun s => zlen (friend_list (calls s)));
  online ← gets num_online_friends;
  _ ← reply friendnum (snprintf MAX_COMMAND_LENGTH
    ($"Friends: " ++ fmt_d (i32 friends) ++ $" (" ++ fmt_d online ++ $" online)"));
  limit ← gets inactive_limit;
  _ ← reply friendnum (snprintf MAX_COMMAND_LENGTH
    ($"Inactive friends are purged after " ++ fmt_d (limit / SECONDS_IN_DAY) ++ $" days"));
  chats ← gets (fun s => chatlist (calls s));
  if zlen chats =? 0 then reply friendnum ($"No active groupchats")
  else if MAX_NUM_GROUPS <? zlen chats then or_undefined None
  else info_groups friendnum chats.

(** The room an invitation is for: the default one, or the one named. *)
Definition cmd_invite (friendnum argc : Z) (argv : list bytes) : M unit :=
  room ← (if 1 <=? argc then arg ← argument argv 1; mret (parse_group_number arg)
          else g ← gets default_groupnum; mret (Some g));
  match (room : option Z) with
  | None => reply friendnum INVALID_GROUP
  | Some groupnum =>
    idx ← find_index (u32 groupnum);
    if idx =? -1 then reply friendnum ($"Group doesn't exist.")
    else
      c ← slot idx;
      _ ← get_name friendnum;
      passwd ← (if 2 <=? argc then p ← argument argv 2; mret (Some p) else mret None);
      if has_pass c && negb (bool_decide (passwd = Some (password c)))
      then reply friendnum ($"Invalid password.")
      else
        invited ← perform (ConferenceInvite friendnum (u32 groupnum))
                    (fun h => conference_invite h friendnum (u32 groupnum));
        let '(ok, err) := invited : bool * Z in
        if negb ok then send_error friendnum ($"Invite failed") err else mret tt
  end.

Definition cmd_leave (friendnum argc : Z) (argv : list bytes) : M unit :=
  master_only friendnum (
    if argc <? 1 then reply friendnum ($"Error: Group number required")
    else
      arg ← argument argv 1;
      with_group_number friendnum arg INVALID_GROUP (fun groupnum =>
        ok ← perform (ConferenceDelete groupnum) (fun h => conference_delete h groupnum);
        if negb ok then reply friendnum INVALID_GROUP
        else
          _ ← get_name friendnum;
          t ← gets table;
          t ← or_undefined (group_leave t groupnum);
          modify (set_table t);;
          reply friendnum (snprintf MAX_COMMAND_LENGTH ($"Left group " ++ fmt_d groupnum)))).

(** [fopen(path, "a")]. *)
Definition fopen_a (path : bytes) (w : world) : bool * world :=
  match sys w with
  | (true, w) =>
    (true, match w_files w !! path with
           | None => set_files w (<[path := mk_file [] false]> (w_files w))
           | Some _ => w
           end)
  | r => r
  end.

(** [fprintf] of one line to the open file, then [fclose]. *)
Definition append_line (path line : bytes) (w : world) : bool * world :=
  let '(n, w) := fwrite path (line ++ [LF]) w in
  (n =? zlen (line ++ [LF]), snd (sys w)).

Definition cmd_master (friendnum argc : Z) (argv : list bytes) : M unit :=
  master_only friendnum (
    if argc <? 1 then reply friendnum ($"Error: Tox ID required")
    else
      id ← argument argv 1;
      if negb (zlen id =? TOX_ADDRESS_SIZE * 2) then reply friendnum ($"Error: Invalid Tox ID")
      else
        opened ← on_disk (fopen_a MASTERLIST_FILE);
        if negb opened then reply friendnum ($"Error: could not find masterkeys file")
        else
          written ← on_disk (append_line MASTERLIST_FILE id);
          if negb written then reply friendnum ($"Error: could not write to masterkeys file")
          else
            get_name friendnum;;
            reply friendnum ($"ID added to masterkeys list")).

Definition cmd_name (friendnum argc : Z) (argv : list bytes) : M unit :=
  master_only friendnum (
    if argc <? 1 then reply friendnum ($"Error: Name required")
    else
      arg ← argument argv 1;
      let name := if quoted arg then unquote_str (Some arg) TOX_MAX_NAME_LENGTH
                  else snprintf TOX_MAX_NAME_LENGTH arg in
      perform (SelfSetName name) (fun _ => tt);;
      get_name friendnum;;
      save_data (Some DATA_FILE);;
      mret tt).

Definition set_password (c : Group_Chat) (has : bool) (p : bytes) : Group_Chat :=
  mk_group (groupnum c) (active c) has (gtype c) (title c) (title_len c) p.

Definition cmd_passwd (friendnum argc : Z) (argv : list bytes) : M unit :=
  master_only friendnum (
    if argc <? 1 then reply friendnum ($"Error: group number required")
    else
      arg ← argument argv 1;
      with_group_number friendnum arg INVALID_GROUP (fun groupnum =>
        idx ← find_index groupnum;
        if idx =? -1 then reply friendnum INVALID_GROUP
        else
          _ ← get_name friendnum;
          c ← slot idx;
          if argc <? 2 then
            put_slot idx (set_password c false []);;
            reply friendnum ($"No password set")
          else
            p ← argument argv 2;
            if MAX_PASSWORD_SIZE <=? zlen p then reply friendnum ($"Password too long")
            else
              put_slot idx (set_password c true (snprintf MAX_PASSWORD_SIZE p));;
              reply friendnum ($"Password set"))).

Definition cmd_purge (friendnum argc : Z) (argv : list bytes) : M unit :=
  master_only friendnum (
    if argc <? 1 then reply friendnum ($"Error: number > 0 required")
    else
      arg ← argument argv 1;
      match parse_int_range (Some arg) 1 PURGE_DAYS_MAX with
      | None => reply friendnum ($"Error: number > 0 required")
      | Some days =>
        modify (set_inactive_limit (u64 (days * SECONDS_IN_DAY)));;
        get_name friendnum;;
        reply friendnum (snprintf MAX_COMMAND_LENGTH ($"Purge time set to " ++ fmt_d days ++ $" days"))
      end).

Definition user_status (status : bytes) : option Z :=
  if strcaseeq status ($"online") then Some TOX_USER_STATUS_NONE
  else if strcaseeq status ($"away") then Some TOX_USER_STATUS_AWAY
  else if strcaseeq status ($"busy") then Some TOX_USER_STATUS_BUSY
  else None.

Definition cmd_status (friendnum argc : Z) (argv : list bytes) : M unit :=
  master_only friendnum (
    if argc <? 1 then reply friendnum ($"Error: status required")
    else
      status ← argument argv 1;
      match user_status status with
      | None => reply friendnum ($"Invalid status. Valid statuses are: online, busy and away.")
      | Some type =>
        perform (SelfSetStatus type) (fun _ => tt);;
        get_name friendnum;;
        save_data (Some DATA_FILE);;
        mret tt
      end).

Definition cmd_statusmessage (friendnum argc : Z) (argv : list bytes) : M unit :=
  master_only friendnum (
    if argc <? 1 then reply friendnum ($"Error: message required")
    else
      text ← argument argv 1;
      if negb (quoted text) then reply friendnum ($"Error: message must be enclosed in quotes")
      else
        perform (SelfSetStatusMessage (unquote_str (Some text) MAX_COMMAND_LENGTH)) (fun _ => tt);;
        get_name friendnum;;
        save_data (Some DATA_FILE);;
        mret tt).

(** The title kept in the table: at most what [title[TOX_MAX_NAME_LENGTH]] holds. *)
Definition set_title (c : Group_Chat) (text : bytes) : Group_Chat :=
  let copy_len := Z.min (zlen text) (TOX_MAX_NAME_LENGTH - 1) in
  mk_group (groupnum c) (active c) (has_pass c) (gtype c) (until_nul (take (Z.to_nat copy_len) text)) copy_len
    (password c).

Definition cmd_title_set (friendnum argc : Z) (argv : list bytes) : M unit :=
  master_only friendnum (
    if argc <? 2 then reply friendnum ($"Error: Two arguments are required")
    else
      text ← argument argv 2;
      if negb (quoted text) then reply friendnum ($"Error: title must be enclosed in quotes")
      else
        arg ← argument argv 1;
        with_group_number friendnum arg INVALID_GROUP (fun groupnum =>
          let title := unquote_str (Some text) MAX_COMMAND_LENGTH in
          _ ← get_name friendnum;
          set ← perform (ConferenceSetTitle groupnum title)
                  (fun h => conference_set_title h groupnum title);
          let '(ok, err) := set : bool * Z in
          if negb ok then send_error friendnum
            ($"Failed to set title. This may be caused by an invalid group number or an empty room") err
          else
            idx ← find_index groupnum;
            _ ← (if idx =? -1 then mret tt else c ← slot idx; put_slot idx (set_title c title));
            reply friendnum ($"Group title set"))).

(** ** Splitting a line *)

(** Where the argument at the front of [cmd] ends, as in the loop of
    [commands_parse]: [i] and [qt_ofst]; [None] is an unterminated quote. *)
Definition arg_end (cmd : bytes) : option (Z * Z) :=
  if quoted cmd then
    let i := char_find 1 (Some cmd) QUOTE in
    if i =? zlen cmd then None else Some (i, 1)
  else Some (char_find 0 (Some cmd) SPC, 0).

Fixpoint skip_spaces (s : bytes) : bytes :=
  match s with
  | c :: t => if bool_decide (c = SPC) then skip_spaces t else s
  | [] => []
  end.

(** The loop; [n] arguments may still be written. *)
Fixpoint parse_loop (n : nat) (cmd : bytes) (args : list bytes) : option (list bytes) :=
  match n with
  | O => Some args
  | S n =>
    match arg_end cmd with
    | None => None
    | Some (i, qt_ofst) =>
      let copy_len := Z.min (i + qt_ofst) (MAX_COMMAND_LENGTH - 1) in
      let args := args ++ [take (Z.to_nat copy_len) cmd] in
      if i =? zlen cmd then Some args                           (* cmd[i] == 0 *)
      else
        match skip_spaces (drop (Z.to_nat (i + 1)) cmd) with
        | [] => Some args
        | rest => parse_loop n (snprintf MAX_COMMAND_LENGTH rest) args
        end
    end
  end.

(** The arguments, or [None] for the result -1. *)
Definition commands_parse (input : bytes) : option (list bytes) := parse_loop MAX_NUM_ARGS input [].

(** ** The table and the dispatch *)

Definition commands : list (bytes * (Z -> Z -> list bytes -> M unit)) :=
  [($"/default", cmd_default); ($"/group", cmd_group); ($"/gmessage", cmd_gmessage);
   ($"/help", cmd_help); ($"/id", cmd_id); ($"/info", cmd_info); ($"/invite", cmd_invite);
   ($"/leave", cmd_leave); ($"/master", cmd_master); ($"/name", cmd_name);
   ($"/passwd", cmd_passwd); ($"/purge", cmd_purge); ($"/status", cmd_status);
   ($"/statusmessage", cmd_statusmessage); ($"/title", cmd_title_set)].

Fixpoint lookup_command (name : bytes) (l : list (bytes * (Z -> Z -> list bytes -> M unit)))
    : option (Z -> Z -> list bytes -> M unit) :=
  match l with
  | [] => None
  | (n, f) :: l => if str_eq name n then Some f else lookup_command name l
  end.

Definition do_command (friendnum num_args : Z) (args : list bytes) : M Z :=
  name ← argument args 0;
  match lookup_command name commands with
  | Some f => f friendnum (num_args - 1) args;; mret 0
  | None => mret (-1)
  end.

Definition execute (friendnum : Z) (input_msg : bytes) (length : Z) : M Z :=
  if MAX_COMMAND_LENGTH <=? length then mret (-1)
  else
    match commands_parse input_msg with
    | None => mret (-1)
    | Some args => do_command friendnum (zlen args) args
    end.

(** * Lemmas *)

(** ** Splitting *)

Lemma find_loop_hit p c s i : has_char c p = false -> find_loop (p ++ c :: s) c i = i + zlen p.
Proof.
  revert i. induction p as [|d p IH]; intros i H; cbn in *.
  - rewrite bool_decide_eq_true_2 by done. zlen.
  - zbool. rewrite bool_decide_eq_false_2 by done. rewrite IH by done. zlen.
Qed.

Lemma find_loop_miss p c i : has_char c p = false -> find_loop p c i = i + zlen p.
Proof.
  revert i. induction p as [|d p IH]; intros i H; cbn in *; [zlen |].
  zbool. rewrite bool_decide_eq_false_2 by done. rewrite IH by done. zlen.
Qed.

(** What a user means by one argument: a word, or a text in quotes. *)
Definition word (t : bytes) : Prop := t <> [] /\ quoted t = false /\ has_char SPC t = false.
Definition quotation (t : bytes) : Prop :=
  exists b, t = QUOTE :: b ++ [QUOTE] /\ has_char QUOTE b = false.

(** A line: arguments, each with the number of spaces after it. A word that is
    followed by another argument is separated from it. *)
Fixpoint well_spaced (l : list (bytes * nat)) : Prop :=
  match l with
  | [] => True
  | (t, k) :: l => (quotation t \/ word t /\ (l = [] \/ (0 < k)%nat)) /\ well_spaced l
  end.

Definition render (l : list (bytes * nat)) : bytes :=
  concat ((fun '(t, k) => t ++ replicate k SPC) <$> l).

Lemma skip_spaces_replicate k s : skip_spaces (replicate k SPC ++ s) = skip_spaces s.
Proof. induction k; cbn; [done |]. done. Qed.

Lemma skip_spaces_render l : well_spaced l -> skip_spaces (render l) = render l.
Proof.
  destruct l as [|[t k] l]; [done |]. intros [Ht _]. unfold render. cbn. destruct Ht as [(b & -> & _) | [Hw _]].
  - done.
  - destruct Hw as (Hne & _ & Hsp). destruct t as [|c t]; [done |]. cbn in *. zbool.
    by rewrite bool_decide_eq_false_2.
Qed.

(** The end of the argument at the front, and what follows it. *)
Lemma arg_end_quotation t s : quotation t ->
  arg_end (t ++ s) = Some (zlen t - 1, 1) /\ drop (Z.to_nat (zlen t - 1 + 1)) (t ++ s) = s.
Proof.
  intros (b & -> & Hb).
  assert (Hz : zlen (QUOTE :: b ++ [QUOTE]) = zlen b + 2) by zlen. rewrite Hz. split.
  - unfold arg_end. cbn [app quoted]. rewrite bool_decide_eq_true_2 by done. rewrite <- app_assoc. cbn [app].
    assert (Hf : char_find 1 (Some (QUOTE :: b ++ QUOTE :: s)) QUOTE = 1 + zlen b).
    { unfold char_find. destruct (1 <? 0) eqn:?; [done |].
      rewrite (proj2 (Z.leb_gt _ _)) by zlen. change (drop (Z.to_nat 1) (QUOTE :: b ++ QUOTE :: s)) with (b ++ QUOTE :: s).
      by apply find_loop_hit. }
    rewrite Hf. rewrite (proj2 (Z.eqb_neq _ _)) by zlen. do 2 f_equal. lia.
  - replace (Z.to_nat (zlen b + 2 - 1 + 1)) with (length (QUOTE :: b ++ [QUOTE]))
      by (cbn; rewrite length_app; unfold zlen; cbn; lia).
    by rewrite drop_app_length.
Qed.

Lemma arg_end_word t s : word t -> s = [] \/ (exists s', s = SPC :: s') ->
  arg_end (t ++ s) = Some (zlen t, 0) /\ drop (Z.to_nat (zlen t + 1)) (t ++ s) = tail s.
Proof.
  intros (Hne & Hq & Hsp) Hs. assert (Hnz : 0 < zlen t) by (destruct t; [done | zlen]). split.
  - unfold arg_end. assert (quoted (t ++ s) = false) as -> by (by destruct t).
    unfold char_find. rewrite (proj2 (Z.ltb_ge 0 0)), (proj2 (Z.leb_gt _ _)) by (zlen; done). cbn [Z.to_nat].
    rewrite drop_0. destruct Hs as [-> | [s' ->]].
    + rewrite app_nil_r. by rewrite find_loop_miss.
    + by rewrite find_loop_hit.
  - replace (Z.to_nat (zlen t + 1)) with (length t + 1)%nat by (unfold zlen; lia).
    rewrite <- drop_drop, drop_app_length. by destruct s.
Qed.

Lemma render_nil l : well_spaced l -> render l = [] -> l = [].
Proof.
  destruct l as [|[t k] l]; [done |]. intros [Ht _] H. cbn in H. apply app_nil in H as [H _].
  apply app_nil in H as [-> _]. by destruct Ht as [(b & Hb & _) | [[Hb _] _]].
Qed.

(** One turn of the loop on a rendered line. *)
Lemma parse_step t k l : well_spaced ((t, k) :: l) ->
  exists i q, arg_end (render ((t, k) :: l)) = Some (i, q) /\ i + q = zlen t /\
    if i =? zlen (render ((t, k) :: l)) then l = []
    else skip_spaces (drop (Z.to_nat (i + 1)) (render ((t, k) :: l))) = render l.
Proof.
  intros [Ht Hw]. change (render ((t, k) :: l)) with ((t ++ replicate k SPC) ++ render l).
  rewrite <- app_assoc. destruct Ht as [Hq | [Hwd Hk]].
  - destruct (arg_end_quotation t (replicate k SPC ++ render l) Hq) as [-> Hd].
    assert (0 < zlen t) by (destruct Hq as (b & -> & _); zlen).
    eexists _, _. split; [done |]. split; [lia |]. rewrite (proj2 (Z.eqb_neq _ _)) by zlen.
    by rewrite Hd, skip_spaces_replicate, skip_spaces_render.
  - destruct k as [|k]; [destruct Hk as [-> | ?]; [| lia] |].
    + destruct (arg_end_word t [] Hwd) as [He _]; [by left |].
      change (t ++ replicate 0 SPC ++ render []) with (t ++ @nil byte). rewrite He, app_nil_r.
      eexists _, _. split; [done |]. split; [lia |]. by rewrite Z.eqb_refl.
    + destruct (arg_end_word t (replicate (S k) SPC ++ render l) Hwd) as [-> Hd]; [right; by eexists |].
      eexists _, _. split; [done |]. split; [lia |]. rewrite (proj2 (Z.eqb_neq _ _)) by (cbn; zlen).
      rewrite Hd. cbn [replicate app tail]. by rewrite skip_spaces_replicate, skip_spaces_render.
Qed.

Lemma parse_loop_render l : forall n args, l <> [] -> well_spaced l ->
  zlen (render l) < MAX_COMMAND_LENGTH ->
  parse_loop n (render l) args = Some (args ++ take n (fst <$> l)).
Proof.
  induction l as [|[t k] l IH]; intros n args Hne Hw Hlen; [done |]. destruct n as [|n]; [by rewrite app_nil_r |].
  assert (Hz : zlen (render ((t, k) :: l)) = zlen t + Z.of_nat k + zlen (render l)).
  { change (render ((t, k) :: l)) with ((t ++ replicate k SPC) ++ render l). zlen. }
  destruct (parse_step t k l Hw) as (i & q & He & Hi & Hrest). cbn [parse_loop]. rewrite He, Hi.
  rewrite Z.min_l by zlen. rewrite (Nat2Z.id (length t) : Z.to_nat (zlen t) = length t).
  assert (take (length t) (render ((t, k) :: l)) = t) as ->.
  { change (render ((t, k) :: l)) with ((t ++ replicate k SPC) ++ render l).
    by rewrite <- app_assoc, take_app_length. }
  cbn [fmap list_fmap take fst].
  destruct (i =? _); [subst l; by destruct n |]. rewrite Hrest.
  destruct (render l) as [|c r] eqn:Er.
  - rewrite (render_nil l (proj2 Hw) Er). by destruct n.
  - rewrite <- Er in *. rewrite snprintf_fits by zlen.
    rewrite IH; [by rewrite <- app_assoc | by intros -> | apply Hw | zlen].
Qed.

(** At least the command's name is produced, at most four arguments, each of
    which fits its buffer. *)
Lemma parse_loop_args n : forall cmd args l, parse_loop n cmd args = Some l ->
  Forall (fun a => zlen a < MAX_COMMAND_LENGTH) args ->
  Forall (fun a => zlen a < MAX_COMMAND_LENGTH) l /\
  (length args + b2n (0 <? n)%nat <= length l <= length args + n)%nat.
Proof.
  induction n as [|n IH]; intros cmd args l; cbn [parse_loop].
  - intros [= <-] H. split; [done |]. cbn. lia.
  - destruct (arg_end cmd) as [[i q]|]; [| done]. intros H Ha.
    set (a := take _ _) in H.
    assert (Haa : Forall (fun a => zlen a < MAX_COMMAND_LENGTH) (args ++ [a])).
    { apply Forall_app_2; [done |]. apply Forall_singleton. unfold a, zlen, MAX_COMMAND_LENGTH.
      rewrite length_take. pose proof message_size. lia. }
    assert (Hlen : length (args ++ [a]) = S (length args)) by (rewrite length_app; cbn; lia).
    destruct (i =? zlen cmd); [injection H as <-; split; [done |]; cbn; lia |].
    destruct (skip_spaces _); [injection H as <-; split; [done |]; cbn; lia |].
    apply IH in H as [H1 H2]; [| done]. split; [done |]. cbn in *. lia.
Qed.

Lemma commands_parse_args input l : commands_parse input = Some l ->
  Forall (fun a => zlen a < MAX_COMMAND_LENGTH) l /\ (1 <= length l <= 4)%nat.
Proof. intros H. apply parse_loop_args in H as [H1 H2]; [| done]. split; [done |]. unfold MAX_NUM_ARGS in H2. cbn in H2. lia. Qed.

(** ** No handler runs into undefined behaviour *)

(** The table is well formed, before and after. *)
Definition ok (s : bot) : Prop := wf_groups (table s).
Definition safe {A} (m : M A) : Prop := triple ok m (fun _ => ok).

Lemma safe_ret {A} (a : A) : safe (mret a).
Proof. by apply triple_ret. Qed.

Lemma safe_bind {A B} (m : M A) (g : A -> M B) : safe m -> (forall a, safe (g a)) -> safe (m ≫= g).
Proof. apply triple_bind. Qed.

Lemma safe_gets {A} (g : bot -> A) : safe (gets g).
Proof. apply triple_gets'. Qed.

Lemma safe_modify g : (forall s, table (g s) = table s) -> safe (modify g).
Proof. intros H. apply triple_modify. intros s Hs. unfold ok. by rewrite H. Qed.

Lemma safe_reply friendnum msg : safe (reply friendnum msg).
Proof. by apply triple_perform. Qed.

Lemma safe_perform {A} c (answer : history -> A) : safe (perform c answer).
Proof. by apply triple_perform. Qed.

Lemma safe_on_disk {A} (g : world -> A * world) : safe (on_disk g).
Proof. by apply triple_on_disk. Qed.

Lemma safe_argument argv i : (i < length argv)%nat -> safe (argument argv i).
Proof.
  intros H. destruct (lookup_lt_is_Some_2 argv i H) as [a Ha].
  unfold argument. eapply triple_post; [by apply triple_or_undefined|]. by intros b s [? _].
Qed.

(** A slot is read where the table says the group is, and may be overwritten with
    a chat of the same number. *)
Lemma find_index_ok groupnum s : ok s -> exists idx, find_index groupnum s = Some (idx, s) /\
  (idx = -1 /\ chat_of (table s) groupnum = None \/
   idx <> -1 /\ exists c, chat_of (table s) groupnum = Some c /\ is_group groupnum c = true /\
     forall s', table s' = table s -> slot idx s' = Some (c, s') /\
       forall d, is_group groupnum d = true -> exists t',
         put_slot idx d s' = Some (tt, set_table t' s') /\ wf_groups t' /\ chat_of t' groupnum = Some d).
Proof.
  intros Hs. destruct (index_slot (table s) groupnum Hs) as (idx & H & Hc).
  exists idx. split; [unfold find_index, mbind, M_bind, gets, or_undefined; by rewrite H |].
  destruct Hc as [[-> ?] | (Hi & c & Hc & Hch & Hg & Hput)]; [by left | right]. split; [lia |].
  exists c. split; [done |]. split; [done |]. intros s' Ht.
  unfold slot, put_slot, mbind, M_bind, gets, or_undefined. rewrite Ht, Hc. split; [done |].
  intros d Hd. destruct (Hput d Hd) as (t' & Hw & Hch' & -> & Hidx). exists t'. split; [| done].
  cbn. rewrite <- Hidx. by destruct t'.
Qed.

Lemma safe_find_index groupnum : safe (find_index groupnum).
Proof. intros s Hs. destruct (find_index_ok groupnum s Hs) as (idx & H & _). unfold wp. by rewrite H. Qed.

Lemma safe_add_to_table groupnum type password : safe (add_to_table groupnum type password).
Proof.
  intros s Hs. unfold wp, add_to_table, mbind, M_bind, gets, or_undefined.
  destruct (group_add_total (table s) (u32 groupnum) type password Hs) as (rc & t' & -> & Hw & _).
  done.
Qed.

Lemma safe_friend_is_master friendnum : safe (friend_is_master friendnum).
Proof.
  apply safe_bind; [apply safe_gets |]. intros [pk|]; [| apply safe_ret].
  apply safe_bind; [apply safe_on_disk | intros; apply safe_ret].
Qed.

Lemma safe_master_only friendnum body : safe body -> safe (master_only friendnum body).
Proof.
  intros H. apply safe_bind; [apply safe_friend_is_master |].
  intros []; [done | apply safe_reply].
Qed.

Lemma safe_with_group_number friendnum arg error body :
  (forall g, safe (body g)) -> safe (with_group_number friendnum arg error body).
Proof. intros H. unfold with_group_number. destruct (parse_group_number arg); [done | apply safe_reply]. Qed.

Lemma safe_send_error friendnum msg err : safe (send_error friendnum msg err).
Proof. apply safe_reply. Qed.

Lemma safe_replies friendnum lines : safe (replies friendnum lines).
Proof.
  induction lines; cbn; [apply safe_ret | apply safe_bind; [apply safe_reply | done]].
Qed.

Lemma safe_new_conference type : safe (new_conference type).
Proof.
  unfold new_conference. destruct (type =? _); (apply safe_bind; [apply safe_perform |]).
  - intros []. apply safe_ret.
  - intros ?. apply safe_ret.
Qed.

Lemma safe_save_data path : safe (save_data path).
Proof. apply safe_bind; [apply safe_gets | intros; apply safe_on_disk]. Qed.

Section Safe.
Variable friendnum : Z.
Hypothesis short_name : forall h, zlen (friend_name h friendnum) < TOX_MAX_NAME_LENGTH.
Hypothesis few_chats : forall h, zlen (chatlist h) <= MAX_NUM_GROUPS.

Lemma safe_get_name : safe (get_name friendnum).
Proof. eapply triple_post; [by apply get_name_ok |]. by intros nm s [? _]. Qed.

(** [get_name] does not touch the table. *)
Lemma get_name_runs s : exists nm, get_name friendnum s = Some (nm, s).
Proof.
  pose proof (get_name_ok (fun s' => s' = s) friendnum short_name s eq_refl) as H.
  apply wp_Some in H as (nm & s' & H & -> & _). eauto.
Qed.

(** The table is this one. *)
Definition inv (t : groups) (s : bot) : Prop := wf_groups t /\ table s = t.

Lemma inv_safe {A} t (m : M A) : safe m -> triple (inv t) m (fun _ => ok).
Proof. intros H. eapply triple_pre; [exact H |]. by intros s [? <-]. Qed.

Lemma inv_get_name {B} t (g : bytes -> M B) Q :
  (forall nm, triple (inv t) (g nm) Q) -> triple (inv t) (get_name friendnum ≫= g) Q.
Proof.
  intros H. eapply triple_bind; [by apply get_name_ok |]. intros nm.
  eapply triple_pre; [apply (H nm) |]. by intros s [? _].
Qed.

Lemma inv_argument {B} t argv i (g : bytes -> M B) Q : (i < length argv)%nat ->
  (forall a, triple (inv t) (g a) Q) -> triple (inv t) (argument argv i ≫= g) Q.
Proof.
  intros Hi H. destruct (lookup_lt_is_Some_2 argv i Hi) as [a Ha].
  eapply triple_bind; [by apply triple_or_undefined |]. intros b.
  eapply triple_pre; [apply (H b) |]. by intros s [? _].
Qed.

Lemma inv_perform {A B} t c (answer : history -> A) (g : A -> M B) Q :
  (forall a, triple (inv t) (g a) Q) -> triple (inv t) (perform c answer ≫= g) Q.
Proof. intros H. eapply triple_bind; [by apply (triple_perform (inv t) (inv t)) | exact H]. Qed.

Lemma inv_gets {A B} t (h : bot -> A) (g : A -> M B) Q :
  (forall a, triple (inv t) (g a) Q) -> triple (inv t) (gets h ≫= g) Q.
Proof. intros H. eapply triple_bind; [apply triple_gets' | exact H]. Qed.

(** A found slot can be read, and overwritten with a chat of the same number. *)
Definition slot_ok t idx c : Prop :=
  triple (inv t) (slot idx) (fun c' s => inv t s /\ c' = c) /\
  forall d, groupnum d = groupnum c -> active d = active c ->
    triple (inv t) (put_slot idx d) (fun _ => ok).

Lemma inv_slot {B} t idx c (g : Group_Chat -> M B) Q : slot_ok t idx c ->
  triple (inv t) (g c) Q -> triple (inv t) (slot idx ≫= g) Q.
Proof.
  intros [H _] Hg. eapply triple_bind; [exact H |]. intros c'. intros s [? ->]. by apply Hg.
Qed.

Lemma safe_slot {B} (body : Z -> M B) groupnum :
  (forall t, triple (inv t) (body (-1)) (fun _ => ok)) ->
  (forall t idx c, idx <> -1 -> slot_ok t idx c -> triple (inv t) (body idx) (fun _ => ok)) ->
  safe (find_index groupnum ≫= body).
Proof.
  intros H1 H2 s Hs. destruct (find_index_ok groupnum s Hs) as (idx & Hf & Hc).
  unfold wp. rewrite (bind_eval _ _ _ _ _ Hf).
  destruct Hc as [[-> _] | (Hn & c & Hch & Hg & Hc)]; [by apply (H1 (table s)) |].
  apply (H2 (table s) idx c); [done | split | done].
  - intros s' [_ Ht]. unfold wp. by rewrite (proj1 (Hc s' Ht)).
  - intros d Hd Ha s' [_ Ht]. destruct (proj2 (Hc s' Ht) d) as (t' & Hp & Hw & _).
    { unfold is_group in *. by rewrite Hd, Ha. }
    unfold wp. by rewrite Hp.
Qed.

(** One statement of a handler. *)
Ltac safe_step :=
  first
  [ apply safe_ret | apply safe_reply | apply safe_send_error | apply safe_perform | apply safe_gets
  | apply safe_on_disk | apply safe_save_data | apply safe_get_name | apply safe_replies
  | apply safe_new_conference | apply safe_add_to_table | apply safe_friend_is_master
  | apply safe_modify; reflexivity | apply safe_find_index
  | apply safe_argument; unfold zlen in *; lia
  | apply safe_master_only | apply safe_with_group_number; intros ?
  | lazymatch goal with
    | |- safe (find_index _ ≫= ?g) =>
        lazymatch g with context [slot] => fail | _ => apply safe_bind; [| intros ?] end
    | _ => apply safe_bind; [| intros ?]
    end ].
Ltac safe_if := match goal with |- safe (if ?b then _ else _) => destruct b eqn:?; zbool end.
Ltac safe := repeat first [safe_step | safe_if].

Lemma safe_leave groupnum msg :
  safe (t ← gets table; t ← or_undefined (group_leave t groupnum);
        modify (set_table t);; reply friendnum msg).
Proof.
  intros s Hs. unfold wp, mbind, M_bind, gets, or_undefined.
  destruct (group_leave_in_use (table s) groupnum Hs) as (t' & -> & Hw & _). done.
Qed.

Lemma safe_info_group groupnum : safe (info_group friendnum groupnum).
Proof.
  apply safe_bind; [apply safe_gets |]. intros [n|]; [| apply safe_ret].
  apply safe_slot; intros t.
  - rewrite Z.eqb_refl. apply inv_safe. safe.
  - intros idx c Hn Hc. rewrite (proj2 (Z.eqb_neq idx (-1)) Hn).
    eapply triple_bind; [eapply inv_slot; [exact Hc | by apply (triple_ret (inv t) (fun _ => inv t))] |].
    intros title. apply inv_gets. intros type. apply inv_safe. safe.
Qed.

Lemma safe_info_groups l : safe (info_groups friendnum l).
Proof.
  induction l; cbn; [apply safe_ret | apply safe_bind; [apply safe_info_group | done]].
Qed.

Section Handlers.
Variables (argc : Z) (argv : list bytes).
Hypothesis args : argc = zlen argv - 1.

Lemma safe_cmd_info : safe (cmd_info friendnum argc argv).
Proof.
  unfold cmd_info, get_time. do 8 (apply safe_bind; [safe | intros ?]).
  intros s Hs. unfold wp, mbind, M_bind, gets at 1.
  change (gets (fun s0 => chatlist (calls s0)) s) with (Some (chatlist (calls s), s)). cbn iota beta.
  destruct (_ =? 0); [by apply safe_reply |].
  rewrite (proj2 (Z.ltb_ge _ _)) by apply few_chats. by apply safe_info_groups.
Qed.

Lemma safe_cmd_invite : safe (cmd_invite friendnum argc argv).
Proof.
  unfold cmd_invite. apply safe_bind; [safe |]. intros [g|]; [| safe].
  apply safe_slot; intros t.
  - rewrite Z.eqb_refl. apply inv_safe. safe.
  - intros idx c Hn Hc. rewrite (proj2 (Z.eqb_neq idx (-1)) Hn).
    eapply inv_slot; [exact Hc |]. apply inv_safe. safe.
    destruct a1 as [[] ?]; safe.
Qed.

Lemma safe_cmd_passwd : safe (cmd_passwd friendnum argc argv).
Proof.
  unfold cmd_passwd. safe. apply safe_slot; intros t.
  - rewrite Z.eqb_refl. apply inv_safe. safe.
  - intros idx c Hn Hc. rewrite (proj2 (Z.eqb_neq idx (-1)) Hn).
    apply inv_get_name. intros nm. eapply inv_slot; [exact Hc |]. destruct (argc <? 2) eqn:?; zbool.
    + eapply triple_bind; [by apply (proj2 Hc) |]. intros ?. apply safe_reply.
    + apply inv_argument; [unfold zlen in *; lia |]. intros p. destruct (_ <=? _); [apply inv_safe; safe |].
      eapply triple_bind; [by apply (proj2 Hc) |]. intros ?. apply safe_reply.
Qed.

Lemma safe_cmd_title_set : safe (cmd_title_set friendnum argc argv).
Proof.
  unfold cmd_title_set. safe. destruct a2 as [[] err]; cbn [negb]; [| safe].
  apply safe_slot; intros t.
  - rewrite Z.eqb_refl. apply inv_safe. safe.
  - intros idx c Hn Hc. rewrite (proj2 (Z.eqb_neq idx (-1)) Hn).
    eapply triple_bind; [eapply inv_slot; [exact Hc | by apply (proj2 Hc)] |]. intros ?. apply safe_reply.
Qed.


Lemma safe_cmd_group : safe (cmd_group friendnum argc argv).
Proof.
  unfold cmd_group. safe. destruct a1 as [g|]; safe.
Qed.

Lemma safe_cmd_gmessage : safe (cmd_gmessage friendnum argc argv).
Proof. unfold cmd_gmessage. safe. destruct a2 as [[] err]; safe. Qed.

Lemma safe_cmd_leave : safe (cmd_leave friendnum argc argv).
Proof.
  unfold cmd_leave. apply safe_master_only. safe_if; [safe |].
  apply safe_bind; [safe |]. intros arg. apply safe_with_group_number. intros g.
  apply safe_bind; [safe |]. intros []; cbn [negb]; [| safe].
  apply safe_bind; [safe |]. intros _. apply safe_leave.
Qed.

Lemma safe_command name f : In (name, f) commands -> safe (f friendnum argc argv).
Proof.
  unfold commands. cbn [In]. intros H.
  repeat destruct H as [[= <- <-] | H]; [.. | done].
  - unfold cmd_default. safe.
  - apply safe_cmd_group.
  - apply safe_cmd_gmessage.
  - unfold cmd_help. safe.
  - unfold cmd_id. safe.
  - apply safe_cmd_info.
  - apply safe_cmd_invite.
  - apply safe_cmd_leave.
  - unfold cmd_master. safe.
  - unfold cmd_name. safe.
  - apply safe_cmd_passwd.
  - unfold cmd_purge. safe. destruct (parse_int_range _ _ _); safe.
  - unfold cmd_status. safe. destruct (user_status _); safe.
  - unfold cmd_statusmessage. safe.
  - apply safe_cmd_title_set.
Qed.

End Handlers.
End Safe.

Lemma lookup_command_In name f l : lookup_command name l = Some f -> In (name, f) l.
Proof.
  induction l as [|[n g] l IH]; cbn; [done |]. destruct (str_eq name n) eqn:E; [| auto].
  apply str_eq_true in E as ->. intros [= <-]. by left.
Qed.

(** The handler a line is dispatched to, with its arguments. *)
Definition dispatched (input : bytes) (length : Z)
    : option ((Z -> Z -> list bytes -> M unit) * list bytes) :=
  if MAX_COMMAND_LENGTH <=? length then None
  else
    match commands_parse input with
    | Some ((name :: _) as args) => do! f := lookup_command name commands; Some (f, args)
    | _ => None
    end.

Lemma execute_dispatched friendnum input length s : execute friendnum input length s =
  match dispatched input length with
  | None => Some (-1, s)
  | Some (f, args) => match f friendnum (zlen args - 1) args s with
                      | Some (_, s') => Some (0, s') | None => None end
  end.
Proof.
  unfold execute, dispatched. destruct (_ <=? _); [done |].
  destruct (commands_parse input) as [l|] eqn:E; [| done].
  destruct l as [|name l]; [apply commands_parse_args in E as [_ H]; cbn in H; lia |].
  unfold do_command, argument, mbind, M_bind, or_undefined. cbn [lookup list_lookup].
  cbn [mbind option_bind]. by destruct (lookup_command name commands).
Qed.

Lemma dispatched_command input length f args : dispatched input length = Some (f, args) ->
  exists name, In (name, f) commands /\ head args = Some name.
Proof.
  unfold dispatched. destruct (_ <=? _); [done |].
  destruct (commands_parse input) as [[|name l]|]; [done | | done].
  destruct (lookup_command name commands) as [g|] eqn:E; [| done].
  intros [= <- <-]. exists name. split; [by apply lookup_command_In | done].
Qed.

Lemma safe_execute friendnum input length :
  (forall h, zlen (friend_name h friendnum) < TOX_MAX_NAME_LENGTH) ->
  (forall h, zlen (chatlist h) <= MAX_NUM_GROUPS) -> safe (execute friendnum input length).
Proof.
  intros Hn Hc s Hs. unfold wp. rewrite execute_dispatched.
  destruct (dispatched input length) as [[f args]|] eqn:E; [| done].
  apply dispatched_command in E as (name & Hin & _).
  pose proof (safe_command friendnum Hn Hc (zlen args - 1) args eq_refl name f Hin s Hs) as H.
  apply wp_Some in H as (u & s' & -> & Hok). done.
Qed.

(** ** What a contact without rights can cause *)

(** The fields of [Tox_Bot] other than the table. *)
Definition settings (s : bot) : Z * Z * Z * Z * Z * Z :=
  (start_time s, last_connected s, last_bootstrap s, inactive_limit s, default_groupnum s,
   num_online_friends s).

(** No file changes but that an absent list of masters may be created empty. *)
Definition files_kept (s s' : bot) : Prop :=
  (forall p, p <> MASTERLIST_FILE -> w_files (disk s') !! p = w_files (disk s) !! p) /\
  default [] (f_data <$> w_files (disk s') !! MASTERLIST_FILE) =
  default [] (f_data <$> w_files (disk s) !! MASTERLIST_FILE).

Definition same_bot (s s' : bot) : Prop := settings s' = settings s /\ files_kept s s'.

(** Only messages to this contact. *)
Definition quietly (friendnum : Z) (s s' : bot) : Prop :=
  same_bot s s' /\ table s' = table s /\
  exists msgs, calls s' = calls s ++ (SendMessage friendnum <$> msgs).

#[export] Instance same_bot_preorder : PreOrder same_bot.
Proof.
  split.
  - intros s. done.
  - intros s1 s2 s3 (H1 & H2 & H3) (H4 & H5 & H6). split; [congruence |]. split; [| congruence].
    intros p Hp. by rewrite H5, H2.
Qed.

#[export] Instance quietly_preorder friendnum : PreOrder (quietly friendnum).
Proof.
  split.
  - intros s. split; [done |]. split; [done |]. exists []. cbn. by rewrite app_nil_r.
  - intros s1 s2 s3 (H1 & H2 & m1 & H3) (H4 & H5 & m2 & H6). split; [by etrans |]. split; [congruence |].
    exists (m1 ++ m2). rewrite H6, H3, fmap_app. by rewrite app_assoc.
Qed.

Lemma key_in_file_kept pk path w : let w' := snd (key_in_file pk path w) in
  (forall p, p <> path -> w_files w' !! p = w_files w !! p) /\
  default [] (f_data <$> w_files w' !! path) = default [] (f_data <$> w_files w !! path).
Proof.
  cbv zeta. unfold key_in_file, sys, ask.
  assert (Hsame : forall w1, w_files w1 = w_files w -> (forall p, p <> path -> w_files w1 !! p = w_files w !! p) /\
    default [] (f_data <$> w_files w1 !! path) = default [] (f_data <$> w_files w !! path))
    by (by intros w1 ->).
  assert (Hnew : forall w1, w_files w1 = <[path := mk_file [] false]> (w_files w) -> w_files w !! path = None ->
    (forall p, p <> path -> w_files w1 !! p = w_files w !! p) /\
    default [] (f_data <$> w_files w1 !! path) = default [] (f_data <$> w_files w !! path)).
  { intros w1 -> Hn. split; [intros; by rewrite lookup_insert_ne |]. by rewrite lookup_insert_eq, Hn. }
  unfold file_contains_key.
  destruct (w_plan w) as [|[| |n] pl]; cbn [w_files]; rewrite lookup_fmap;
    destruct (w_files w !! path) as [f|] eqn:E; cbn [fmap option_fmap option_map negb snd];
    try (apply Hsame; done);
    rewrite ?lookup_insert_eq; try (by apply Hnew); rewrite ?lookup_fmap, E; by apply Hsame.
Qed.

Lemma quietly_friend_is_master friendnum f : leads (quietly friendnum) (friend_is_master f).
Proof.
  intros s a s' H. unfold friend_is_master in H. apply bind_Some in H as (key & s1 & [= <- <-] & H).
  destruct (friend_public_key (calls s) f) as [pk|]; [| by injection H as _ <-].
  apply bind_Some in H as (found & s2 & Hf & [= _ <-]). unfold on_disk in Hf.
  pose proof (key_in_file_kept pk MASTERLIST_FILE (disk s)) as Hk. cbv zeta in Hk.
  destruct (key_in_file _ _ _) as [r w]. injection Hf as _ <-. split; [done |]. split; [done |].
  exists []. cbn. by rewrite app_nil_r.
Qed.

Lemma quietly_reply friendnum msg : leads (quietly friendnum) (reply friendnum msg).
Proof. intros s a s' [= _ <-]. split; [done |]. split; [done |]. by exists [msg]. Qed.

Ltac quiet_step :=
  first
  [ apply leads_ret; apply _ | apply leads_gets; apply _ | apply quietly_reply
  | apply quietly_friend_is_master | apply leads_or_undefined; apply _
  | apply leads_bind; [apply _ | | intros ?] ].
Ltac quiet := repeat quiet_step.

Lemma quietly_replies friendnum l : leads (quietly friendnum) (replies friendnum l).
Proof. induction l; cbn; quiet. done. Qed.

Lemma quietly_get_name friendnum f : leads (quietly friendnum) (get_name f).
Proof. unfold get_name. quiet. Qed.

Lemma quietly_argument friendnum argv i : leads (quietly friendnum) (argument argv i).
Proof. unfold argument. quiet. Qed.

Lemma quietly_info_group friendnum g : leads (quietly friendnum) (info_group friendnum g).
Proof.
  unfold info_group, find_index, slot. apply leads_bind; [apply _ | quiet |]. intros [n|]; [| quiet].
  quiet. destruct (_ =? _); quiet.
Qed.

Lemma quietly_info_groups friendnum l : leads (quietly friendnum) (info_groups friendnum l).
Proof.
  induction l; cbn; [quiet |]. apply leads_bind; [apply _ | apply quietly_info_group | done].
Qed.

Lemma quietly_info friendnum argc argv : leads (quietly friendnum) (cmd_info friendnum argc argv).
Proof.
  unfold cmd_info, get_time. quiet. destruct (_ =? 0); [quiet |]. destruct (_ <? _); [quiet |].
  apply quietly_info_groups.
Qed.

Lemma quietly_help friendnum argc argv : leads (quietly friendnum) (cmd_help friendnum argc argv).
Proof.
  unfold cmd_help. apply leads_bind; [apply _ | apply quietly_replies |]. intros _.
  apply leads_bind; [apply _ | apply quietly_friend_is_master |]. intros []; quiet.
Qed.

Lemma quietly_guarded friendnum body s a s' s0 : friend_is_master friendnum s = Some (false, s0) ->
  master_only friendnum body s = Some (a, s') -> quietly friendnum s s'.
Proof.
  intros Hm H. unfold master_only in H. rewrite (bind_eval _ _ _ _ _ Hm) in H.
  apply quietly_friend_is_master with (friendnum := friendnum) in Hm. etrans; [exact Hm |].
  by apply quietly_reply in H.
Qed.

(** The calls open to everyone: messages to oneself, a new conference, giving it
    up again, and an invitation for oneself to a room of the table, with its
    password when it has one. *)
Definition allowed (friendnum : Z) (args : list bytes) (s : bot) (c : call) : Prop :=
  match c with
  | SendMessage g _ => g = friendnum
  | ConferenceNew | AddAvGroupchat => True
  | ConferenceDelete n =>
    n = u32 (i32 (fst (conference_new (calls s)))) \/ n = u32 (i32 (add_av_groupchat (calls s)))
  | ConferenceInvite g room => g = friendnum /\ exists chat, chat_of (table s) room = Some chat /\
      (has_pass chat = true -> args !! 2%nat = Some (password chat))
  | _ => False
  end.

Definition unprivileged (friendnum : Z) (args : list bytes) (s s' : bot) : Prop :=
  same_bot s s' /\
  (table s' = table s \/ exists n ty pw rc, group_add (table s) n ty pw = Some (rc, table s')) /\
  exists cs, calls s' = calls s ++ cs /\ Forall (allowed friendnum args s) cs.

Lemma quietly_unprivileged friendnum args s s' : quietly friendnum s s' -> unprivileged friendnum args s s'.
Proof.
  intros (H1 & H2 & msgs & H3). split; [done |]. split; [by left |]. eexists. split; [done |].
  apply Forall_fmap. by apply Forall_true.
Qed.

Lemma get_name_same friendnum s nm s' : get_name friendnum s = Some (nm, s') -> s' = s.
Proof.
  unfold get_name. intros (n & s1 & [= <- <-] & H)%bind_Some.
  apply bind_Some in H as (b & s2 & Hm & H). apply bind_Some in H as (b' & s3 & Hst & [= _ <-]).
  unfold or_undefined in *. destruct (memcpy _ _ _); [| done]. injection Hm as <- <-.
  destruct (store _ _ _); [| done]. by injection Hst as _ <-.
Qed.

Lemma argument_same argv i s a s' : argument argv i s = Some (a, s') -> s' = s /\ argv !! i = Some a.
Proof. unfold argument, or_undefined. destruct (argv !! i); [| done]. by intros [= -> ->]. Qed.

Lemma new_conference_run type s o s' : new_conference type s = Some (o, s') ->
  exists c, (c = ConferenceNew \/ c = AddAvGroupchat) /\ s' = record c s /\
    forall n, o = Some n -> n = i32 (fst (conference_new (calls s))) \/ n = i32 (add_av_groupchat (calls s)).
Proof.
  unfold new_conference. destruct (type =? _); intros H; apply bind_Some in H as (r & s1 & [= <- <-] & H).
  - destruct (conference_new (calls s)) as [n err]. injection H as <- <-. eexists. split; [by left |].
    split; [done |]. intros m. destruct (negb _); [done |]. intros [= <-]. by left.
  - injection H as <- <-. eexists. split; [by right |]. split; [done |]. intros m.
    destruct (_ =? _); [done |]. intros [= <-]. by right.
Qed.

Lemma add_to_table_run g ty pw s rc s' : add_to_table g ty pw s = Some (rc, s') ->
  exists t', group_add (table s) (u32 g) ty pw = Some (rc, t') /\ s' = set_table t' s.
Proof.
  unfold add_to_table, or_undefined, mbind, M_bind, gets.
  destruct (group_add _ _ _ _) as [[rc' t']|]; [| done]. intros [= -> <-]. by exists t'.
Qed.

Lemma unprivileged_group friendnum argc args s a s' : cmd_group friendnum argc args s = Some (a, s') ->
  unprivileged friendnum args s s'.
Proof.
  unfold cmd_group. destruct (argc <? 1).
  { intros H%(quietly_reply friendnum). by apply quietly_unprivileged. }
  intros H. apply bind_Some in H as (arg & s1 & [-> _]%argument_same & H).
  apply bind_Some in H as (nm & s1 & ->%get_name_same & H).
  apply bind_Some in H as (o & s1 & (c & Hc & -> & Hn)%new_conference_run & H).
  assert (Hcs : forall t cs, Forall (allowed friendnum args s) cs ->
    table t = table s \/ (exists n ty pw rc, group_add (table s) n ty pw = Some (rc, table t)) ->
    same_bot s t -> calls t = (calls s ++ [c]) ++ cs -> unprivileged friendnum args s t).
  { intros t cs Hall Ht Hs Heq. split; [done |]. split; [done |]. exists (c :: cs).
    split; [by rewrite Heq, <- app_assoc |]. constructor; [by destruct Hc as [-> | ->] | done]. }
  assert (Hmsg : forall msg, Forall (allowed friendnum args s) [SendMessage friendnum msg])
    by (intros; by apply Forall_singleton).
  destruct o as [g|]; [| injection H as _ <-; by eapply Hcs; [apply Hmsg | left | ..]].
  apply bind_Some in H as (pw & s1 & Hpw & H).
  assert (s1 = record c s) as ->.
  { destruct (2 <=? argc); [| by injection Hpw as _ <-].
    apply bind_Some in Hpw as (p & s2 & [-> _]%argument_same & Hp). by injection Hp as _ <-. }
  destruct (match pw with Some p => _ | None => _ end);
    [injection H as _ <-; by eapply Hcs; [apply Hmsg | left | ..] |].
  apply bind_Some in H as (rc & s1 & (t' & Ht & ->)%add_to_table_run & H). destruct (rc =? -1).
  - apply bind_Some in H as (u & s1 & [= _ <-] & [= _ <-]).
    eapply (Hcs _ [SendMessage friendnum _; ConferenceDelete (u32 g)]); [| right; by eauto | done |].
    + constructor; [done |]. apply Forall_singleton. destruct (Hn g eq_refl) as [-> | ->]; [by left | by right].
    + cbn. by rewrite <- !app_assoc.
  - injection H as _ <-. by eapply Hcs; [apply Hmsg | right; eauto | ..].
Qed.

Lemma unprivileged_invite friendnum argc args s a s' : wf_groups (table s) ->
  cmd_invite friendnum argc args s = Some (a, s') -> unprivileged friendnum args s s'.
Proof.
  intros Hw H. unfold cmd_invite in H. apply bind_Some in H as (room & s1 & Hr & H).
  assert (s1 = s) as ->.
  { destruct (1 <=? argc).
    - apply bind_Some in Hr as (p & s2 & [-> _]%argument_same & Hp). by injection Hp as _ <-.
    - by apply bind_Some in Hr as (g & s2 & [= _ <-] & [= _ <-]). }
  destruct room as [g|].
  2: { apply (quietly_reply friendnum) in H. by apply quietly_unprivileged. }
  destruct (find_index_ok (u32 g) s Hw) as (idx & Hf & Hc). rewrite (bind_eval _ _ _ _ _ Hf) in H.
  destruct Hc as [[-> _] | (Hne & c & Hc & _ & Hsl)].
  { rewrite Z.eqb_refl in H. apply (quietly_reply friendnum) in H. by apply quietly_unprivileged. }
  rewrite (proj2 (Z.eqb_neq _ _) Hne) in H. rewrite (bind_eval _ _ _ _ _ (proj1 (Hsl s eq_refl))) in H.
  apply bind_Some in H as (nm & s1 & ->%get_name_same & H).
  apply bind_Some in H as (pw & s1 & Hpw & H).
  assert (s1 = s /\ forall p, pw = Some p -> args !! 2%nat = Some p) as [-> Hp].
  { destruct (2 <=? argc); [| by injection Hpw as <- <-].
    apply bind_Some in Hpw as (p & s2 & [-> Hp]%argument_same & Hq). injection Hq as <- <-.
    split; [done |]. congruence. }
  destruct (has_pass c && _) eqn:E.
  { apply (quietly_reply friendnum) in H. by apply quietly_unprivileged. }
  apply bind_Some in H as (r & s1 & [= <- <-] & H).
  destruct (conference_invite _ _ _) as [okk err]. set (call := ConferenceInvite friendnum (u32 g)) in *.
  assert (Hall : allowed friendnum args s call).
  { split; [done |]. exists c. split; [done |]. intros Hpass. rewrite Hpass in E. cbn in E. zbool.
    by apply Hp. }
  destruct okk; cbn [negb] in H.
  - injection H as _ <-. split; [done |]. split; [by left |]. exists [call].
    split; [done | by apply Forall_singleton].
  - injection H as _ <-. split; [done |]. split; [by left |]. eexists ([call] ++ [SendMessage friendnum _]).
    split; [cbn; by rewrite <- app_assoc |]. constructor; [done |]. by apply Forall_singleton.
Qed.

(** ** Running a handler forwards *)

Lemma quietly_table friendnum s s' : quietly friendnum s s' -> table s' = table s.
Proof. by intros (_ & ? & _). Qed.

Lemma master_only_run friendnum body s s1 : friend_is_master friendnum s = Some (true, s1) ->
  master_only friendnum body s = body s1 /\ table s1 = table s.
Proof.
  intros H. split; [unfold master_only; by rewrite (bind_eval _ _ _ _ _ H) |].
  by apply (quietly_friend_is_master friendnum), quietly_table in H.
Qed.

Lemma argument_run {B} argv i a (g : bytes -> M B) s : argv !! i = Some a ->
  (argument argv i ≫= g) s = g a s.
Proof. intros H. apply bind_eval. unfold argument, or_undefined. by rewrite H. Qed.

(** A line of words reaches its handler with those words. *)
Lemma execute_words friendnum length f l s : (1 <= List.length l <= 4)%nat ->
  length < MAX_COMMAND_LENGTH -> well_spaced l -> zlen (render l) < MAX_COMMAND_LENGTH ->
  (exists n, head (fst <$> l) = Some n /\ lookup_command n commands = Some f) ->
  execute friendnum (render l) length s =
  match f friendnum (zlen l - 1) (fst <$> l) s with Some (_, s') => Some (0, s') | None => None end.
Proof.
  intros Hl Hlen Hw Hz (n & Hn & Hf). rewrite execute_dispatched.
  assert (commands_parse (render l) = Some (fst <$> l)) as Hp.
  { unfold commands_parse. rewrite parse_loop_render by (done || by destruct l; cbn in *; [lia |]).
    cbn [app]. rewrite take_ge; [done |]. rewrite length_fmap. unfold MAX_NUM_ARGS. lia. }
  unfold dispatched. rewrite (proj2 (Z.leb_gt _ _)), Hp by lia.
  destruct (fst <$> l) as [|a args] eqn:E; [done |]. injection Hn as ->. rewrite Hf.
  by replace (zlen l) with (zlen (n :: args)) by (rewrite <- E; unfold zlen; by rewrite length_fmap).
Qed.

(** Setting a password on a room of the table. *)
Lemma cmd_passwd_run friendnum args room p s s1 c : wf_groups (table s) ->
  (forall h, zlen (friend_name h friendnum) < TOX_MAX_NAME_LENGTH) ->
  friend_is_master friendnum s = Some (true, s1) -> chat_of (table s) room = Some c ->
  args !! 1%nat = Some (fmt_d room) -> args !! 2%nat = Some p -> 0 <= room <= INT_MAX ->
  zlen p < MAX_PASSWORD_SIZE ->
  exists s', cmd_passwd friendnum 2 args s = Some (tt, s') /\ wf_groups (table s') /\
    chat_of (table s') room = Some (set_password c true p).
Proof.
  intros Hw Hn Hm Hc H1 H2 Hr Hp. unfold cmd_passwd.
  pose proof (fun body => master_only_run friendnum body s s1 Hm) as Hrun.
  rewrite (proj1 (Hrun _)). pose proof (proj2 (Hrun (mret tt))) as Ht.
  change (2 <? 1) with false. cbn iota. rewrite (argument_run _ _ _ _ _ H1).
  unfold with_group_number, parse_group_number.
  assert (parse_int_range (Some (fmt_d room)) 0 INT_MAX = Some room) as ->.
  { apply parse_int_range_fmt; unfold INT_MAX, LONG_MIN, LONG_MAX in *; lia. }
  destruct (find_index_ok room s1) as (idx & Hf & Hidx); [unfold ok; by rewrite Ht |].
  rewrite (bind_eval _ _ _ _ _ Hf). rewrite Ht, Hc in Hidx.
  destruct Hidx as [[_ ?] | (Hne & c' & [= <-] & Hg & Hsl)]; [done |].
  rewrite (proj2 (Z.eqb_neq _ _) Hne). destruct (get_name_runs friendnum Hn s1) as [nm Hnm].
  rewrite (bind_eval _ _ _ _ _ Hnm).
  destruct (Hsl s1 Ht) as [Hs Hput]. rewrite (bind_eval _ _ _ _ _ Hs).
  change (2 <? 2) with false. cbn iota. rewrite (argument_run _ _ _ _ _ H2).
  rewrite (proj2 (Z.leb_gt _ _)) by done. rewrite snprintf_fits by done.
  destruct (Hput (set_password c true p)) as (t' & Hpt & Hw' & Hch); [done |].
  rewrite (bind_eval _ _ _ _ _ Hpt). eexists. split; [done |]. done.
Qed.

(** Asking for an invitation to a protected room. *)
Lemma cmd_invite_run friendnum args room p q s c : wf_groups (table s) ->
  (forall h, zlen (friend_name h friendnum) < TOX_MAX_NAME_LENGTH) ->
  chat_of (table s) room = Some c -> has_pass c = true -> password c = p ->
  args !! 1%nat = Some (fmt_d room) -> args !! 2%nat = Some q -> 0 <= room <= INT_MAX ->
  exists s', cmd_invite friendnum 2 args s = Some (tt, s') /\
    exists msgs, calls s' = calls s ++
      (if decide (q = p) then [ConferenceInvite friendnum room] else []) ++ (SendMessage friendnum <$> msgs).
Proof.
  intros Hw Hn Hc Hpass Hpw H1 H2 Hr. unfold cmd_invite.
  change (1 <=? 2) with true. change (2 <=? 2) with true. cbn iota.
  assert (Hroom : (arg ← argument args 1; mret (parse_group_number arg)) s = Some (Some room, s)).
  { rewrite (argument_run _ _ _ _ _ H1). unfold parse_group_number.
    rewrite parse_int_range_fmt; [done | unfold INT_MAX, LONG_MIN, LONG_MAX in *; lia..]. }
  rewrite (bind_eval _ _ _ _ _ Hroom). rewrite (u32_id room) by (unfold INT_MAX in *; lia).
  destruct (find_index_ok room s Hw) as (idx & Hf & Hidx). rewrite (bind_eval _ _ _ _ _ Hf), Hc in *.
  destruct Hidx as [[_ ?] | (Hne & c' & [= <-] & _ & Hsl)]; [done |].
  rewrite (proj2 (Z.eqb_neq _ _) Hne), (bind_eval _ _ _ _ _ (proj1 (Hsl s eq_refl))).
  destruct (get_name_runs friendnum Hn s) as [nm Hnm]. rewrite (bind_eval _ _ _ _ _ Hnm).
  assert (Hq : (p ← argument args 2; mret (Some p)) s = Some (Some q, s)) by exact (argument_run _ _ _ _ _ H2).
  rewrite (bind_eval _ _ _ _ _ Hq), Hpass, Hpw. cbn [andb]. destruct (decide (q = p)) as [-> | Hqp].
  - rewrite bool_decide_eq_true_2 by done. cbn [negb]. unfold perform at 1, mbind, M_bind.
    destruct (conference_invite _ _ _) as [[] err]; cbn [negb].
    + eexists. split; [done |]. exists []. done.
    + eexists. split; [done |]. eexists [_]. cbn. by rewrite <- app_assoc.
  - rewrite bool_decide_eq_false_2 by congruence. cbn [negb]. eexists. split; [done |]. by eexists [_].
Qed.

End Commands.

(** ** A small toxcore to run examples on

    Contact 0 is a master, contact 2 has the longest name the protocol allows;
    conferences are numbered in the order they are made, at most [limit] are
    reported. *)
Definition conferences (h : history) : nat :=
  count (fun c => match c with ConferenceNew => true | _ => false end) h.

Definition sample_core (limit : nat) : toxcore := {|
  time _ := 1000;
  friend_name _ f := if f =? 2 then replicate 128 "x"%char else $"alice";
  friend_public_key _ f := Some (replicate 32 (chr (97 + f)));
  friend_online _ _ := true;
  friend_last_online _ _ := Some 900;
  friend_list _ := [0; 1; 2];
  friend_exists _ f := f <? 3;
  friend_send_message _ _ _ := (1, 0);
  friend_add_norequest _ _ := 0;
  self_address := replicate 38 "s"%char;
  chatlist h := take limit (Z.of_nat <$> seq 0 (conferences h));
  conference_peer_count _ _ := Some 2;
  conference_get_type _ _ := Some TOX_CONFERENCE_TYPE_TEXT;
  conference_new h := (Z.of_nat (conferences h), 0);
  add_av_groupchat _ := -1;
  conference_join _ _ _ _ := (0, 1);
  conference_delete _ _ := true;
  conference_send_message _ _ _ := (true, 0);
  conference_invite _ _ _ := (true, 0);
  conference_set_title _ _ _ := (true, 0);
  savedata _ := $"saved";
  pass_encrypt _ := None |}.

Definition sample_disk : world :=
  mk_world {[ MASTERLIST_FILE := mk_file (hex_text (replicate 32 "a"%char) ++ [LF]) true ]} [] [] [].

Definition sample_bot : bot :=
  mk_bot [] sample_disk 0 0 0 157680000 0 1 (mk_groups [new_group 3 0 None] 1).

Lemma sample_wf : wf_groups (table sample_bot).
Proof.
  split_and!; [done | done | done |]. intros c Hc. by injection Hc as <-.
Qed.

Lemma sample_names n f h : f <> 2 -> zlen (friend_name (toxcore := sample_core n) h f) < 128.
Proof. intros Hf. cbn. by rewrite (proj2 (Z.eqb_neq f 2) Hf). Qed.

(** Lines sent one after the other. *)
Fixpoint execute_all `{tox_params, toxcore} (friendnum : Z) (lines : list bytes) (s : bot) : option bot :=
  match lines with
  | [] => Some s
  | l :: lines => do! (_, s) := execute friendnum l (zlen l) s; execute_all friendnum lines s
  end.

Lemma word_fmt_d z : LONG_MIN <= z <= LONG_MAX -> word (fmt_d z).
Proof.
  intros Hz. split_and!.
  - pose proof (zlen_fmt_d z Hz). apply zlen_nonempty. lia.
  - pose proof (has_char_fmt_d QUOTE z Hz eq_refl) as H. specialize (H ltac:(done)).
    destruct (fmt_d z) as [|c t]; [done |]. cbn in *. by zbool; apply bool_decide_eq_false_2.
  - by apply has_char_fmt_d.
Qed.

Lemma word_intro t : negb (bool_decide (t = [])) && negb (quoted t) && negb (has_char SPC t) = true ->
  word t.
Proof. intros H. zbool. by split_and!. Qed.

(** * Properties *)



(** Claim C30. A contact who is not a master cannot change the bot: whatever the
    line, its settings, its identity, its status, the titles and passwords of its
    rooms and its files stay as they are (an absent list of masters may be
    created empty), the table changes at most by one insertion, and the only
    calls made are messages to that contact, a new conference and giving it up,
    and an invitation of that contact to a room whose password was the one
    given. *)
Theorem execute_unprivileged `{tox_params, toxcore} friendnum input length s s0 r s' :
  friend_is_master friendnum s = Some (false, s0) -> wf_groups (table s) ->
  execute friendnum input length s = Some (r, s') ->
  unprivileged friendnum (from_option snd [] (dispatched input length)) s s'.
Proof.
  intros Hm Hw He. rewrite execute_dispatched in He.
  destruct (dispatched input length) as [[f args]|] eqn:E; cbn [from_option snd].
  2: { injection He as _ <-. apply quietly_unprivileged. reflexivity. }
  destruct (f friendnum (zlen args - 1) args s) as [[[] s1]|] eqn:Ef; [| done]. injection He as _ <-.
  apply dispatched_command in E as (name & Hin & _). unfold commands in Hin. cbn [In] in Hin.
  repeat destruct Hin as [[= <- <-] | Hin]; [.. | done];
    try (apply quietly_unprivileged; by eapply quietly_guarded).
  - by eapply unprivileged_group.
  - apply quietly_unprivileged. by apply (quietly_help friendnum) in Ef.
  - apply quietly_unprivileged. unfold cmd_id in Ef. apply bind_Some in Ef as (u & s2 & H1 & H2).
    apply (quietly_reply friendnum) in H1, H2. by etrans.
  - apply quietly_unprivileged. by apply (quietly_info friendnum) in Ef.
  - by eapply unprivileged_invite.
Qed.

Lemma execute_unprivileged_witness : exists s',
  execute (core := sample_core 200) 1 ($"/purge 1") 8 sample_bot = Some (0, s') /\
  inactive_limit s' = 157680000 /\
  friend_is_master (core := sample_core 200) 0 sample_bot = Some (true, sample_bot).
Proof.
  assert (Hm : friend_is_master (core := sample_core 200) 1 sample_bot = Some (false, sample_bot))
    by (vm_compute; reflexivity).
  destruct (execute (core := sample_core 200) 1 ($"/purge 1") 8 sample_bot) as [[r s']|] eqn:E;
    [| vm_compute in E; discriminate].
  pose proof (execute_unprivileged (H0 := sample_core 200) 1 ($"/purge 1") 8 sample_bot sample_bot r s'
    Hm sample_wf E) as ((Hs & _) & _).
  assert (r = 0) as -> by (vm_compute in E; by injection E).
  exists s'. split; [reflexivity |]. split; [by injection Hs | vm_compute; reflexivity].
Defined.

(** A line reads back as the arguments it was written from: words and
    quoted texts, any number of spaces after each (at least one between a word
    and what follows), in order, quotes kept, the first four of them. *)
Theorem commands_parse_render `{tox_params} l :
  l <> [] -> well_spaced l -> zlen (render l) < MAX_COMMAND_LENGTH ->
  commands_parse (render l) = Some (take 4 (fst <$> l)).
Proof. intros Hne Hw Hz. by apply (parse_loop_render l MAX_NUM_ARGS []). Qed.

Lemma commands_parse_render_witness :
  let q := QUOTE :: $"new title" ++ [QUOTE] in
  commands_parse (render [($"/title", 2%nat); ($"7", 1%nat); (q, 3%nat)]) = Some [$"/title"; $"7"; q].
Proof.
  intros q. apply (commands_parse_render [($"/title", 2%nat); ($"7", 1%nat); (q, 3%nat)]); [done | | done].
  split; [right; split; [by apply word_intro | right; lia] |].
  split; [right; split; [by apply word_intro | right; lia] |]. split; [left; by exists ($"new title") | done].
Defined.

(** A command on a room, as a line. *)
Lemma room_line `{tox_params} cmd room w : LONG_MIN <= room <= LONG_MAX ->
  word cmd -> zlen cmd <= 10 -> word w -> zlen w <= 400 ->
  let l := [(cmd, 1%nat); (fmt_d room, 1%nat); (w, 0%nat)] in
  well_spaced l /\ zlen (render l) < MAX_COMMAND_LENGTH.
Proof.
  intros Hr Hcmd Hcl Hwd Hwl. pose proof message_size. pose proof (zlen_fmt_d room Hr). cbv zeta. split.
  - split; [right; split; [done | right; lia] |].
    split; [right; split; [by apply word_fmt_d | right; lia] |]. split; [right; split; [done | by left] | done].
  - unfold render, MAX_COMMAND_LENGTH. cbn [fmap list_fmap concat]. cbn [replicate]. zlen.
Qed.

(** A room's password decides who gets in: after a master's
    [/passwd <room> <p>], another contact's [/invite <room> <q>] makes the
    invitation call exactly when [q] is [p], and nothing but messages to that
    contact otherwise. *)
Theorem passwd_guards_invite `{tox_params, toxcore} m f room p q s s1 c :
  (forall h, zlen (friend_name h m) < TOX_MAX_NAME_LENGTH) ->
  (forall h, zlen (friend_name h f) < TOX_MAX_NAME_LENGTH) ->
  wf_groups (table s) -> friend_is_master m s = Some (true, s1) ->
  chat_of (table s) room = Some c -> 0 <= room <= INT_MAX ->
  word p -> zlen p < MAX_PASSWORD_SIZE -> word q -> zlen q <= 400 ->
  exists s2 s3 msgs,
    execute m (render [($"/passwd", 1%nat); (fmt_d room, 1%nat); (p, 0%nat)]) 20 s = Some (0, s2) /\
    execute f (render [($"/invite", 1%nat); (fmt_d room, 1%nat); (q, 0%nat)]) 20 s2 = Some (0, s3) /\
    calls s3 = calls s2 ++ (if decide (q = p) then [ConferenceInvite f room] else []) ++
      (SendMessage f <$> msgs).
Proof.
  intros Hm Hf Hw Hmaster Hc Hr Hp Hpl Hq Hql. pose proof message_size.
  assert (Hrl : LONG_MIN <= room <= LONG_MAX) by (unfold INT_MAX, LONG_MIN, LONG_MAX in *; lia).
  pose proof (fun cmd w => room_line cmd room w Hrl) as Hline.
  destruct (cmd_passwd_run m [$"/passwd"; fmt_d room; p] room p s s1 c) as (s2 & Hr2 & Hw2 & Hc2); try done.
  destruct (cmd_invite_run f [$"/invite"; fmt_d room; q] room p q s2 (set_password c true p))
    as (s3 & Hr3 & msgs & Hcalls); try done.
  exists s2, s3, msgs.
  destruct (Hline ($"/passwd") p) as [Hw1 Hz1]; [by apply word_intro | done | done | unfold MAX_PASSWORD_SIZE in *; lia |].
  destruct (Hline ($"/invite") q) as [Hw3 Hz3]; [by apply word_intro | done | done | done |].
  rewrite (execute_words m 20 cmd_passwd), (execute_words f 20 cmd_invite);
    try done; try (unfold MAX_COMMAND_LENGTH; lia); try (by eexists); try (cbn; lia).
  cbn [fmap list_fmap fst]. change (zlen [_; _; _] - 1) with 2. by rewrite Hr2, Hr3.
Qed.

Lemma passwd_guards_invite_witness : exists s2 s3 msgs,
  execute (core := sample_core 200) 0 ($"/passwd 3 opensesame") 20 sample_bot = Some (0, s2) /\
  execute (core := sample_core 200) 1 ($"/invite 3 opensesame") 20 s2 = Some (0, s3) /\
  calls s3 = calls s2 ++ [ConferenceInvite 1 3] ++ (SendMessage 1 <$> msgs).
Proof.
  apply (passwd_guards_invite (H0 := sample_core 200) 0 1 3 ($"opensesame") ($"opensesame")
    sample_bot sample_bot (new_group 3 0 None)).
  - intros h. by apply sample_names.
  - intros h. by apply sample_names.
  - apply sample_wf.
  - vm_compute. reflexivity.
  - reflexivity.
  - unfold INT_MAX. lia.
  - by apply word_intro.
  - reflexivity.
  - by apply word_intro.
  - by vm_compute.
Defined.

(** A name that fills the [TOX_MAX_NAME_LENGTH] bytes the protocol
    allows is written one byte past the array by every command that copies it:
    one [/group] line from such a contact, master or not, is undefined behaviour. *)
Theorem long_name_overruns `{tox_params, toxcore} friendnum s :
  zlen (friend_name (calls s) friendnum) = TOX_MAX_NAME_LENGTH ->
  execute friendnum ($"/group text") 11 s = None.
Proof.
  intros Hn. pose proof message_size.
  change ($"/group text") with (render [($"/group", 1%nat); ($"text", 0%nat)]).
  rewrite (execute_words friendnum 11 cmd_group); [| cbn; lia | unfold MAX_COMMAND_LENGTH; lia | | | by eexists].
  - cbn [fmap list_fmap fst]. unfold cmd_group. change (zlen [_; _] - 1 <? 1) with false. cbn iota.
    rewrite (argument_run _ 1 ($"text")) by done. unfold mbind, M_bind at 1.
    by rewrite (get_name_overflow friendnum s Hn).
  - split; [right; split; [by apply word_intro | right; lia] |].
    split; [right; split; [by apply word_intro | by left] | done].
  - change (zlen (render _)) with 11. unfold MAX_COMMAND_LENGTH. lia.
Qed.

Lemma long_name_overruns_witness :
  execute (core := sample_core 200) 2 ($"/group text") 11 sample_bot = None.
Proof. apply (long_name_overruns (H0 := sample_core 200) 2 sample_bot). vm_compute. reflexivity. Defined.

(** A password of 64 bytes or more leaves the conference it was for in
    toxcore and out of the table, so any contact can make as many as it likes;
    with more than 256 of them, [/info] writes the list past the end of its
    array, although the number it loops over is clamped. *)
Theorem group_flood_overruns_info :
  let line := $"/group text " ++ replicate 64 "p"%char in
  exists s, execute_all (H0 := sample_core 1000) 1 (replicate 257 line) sample_bot = Some s /\
    table s = table sample_bot /\
    existsb (fun c => match c with ConferenceDelete _ => true | _ => false end) (calls s) = false /\
    friend_is_master (core := sample_core 1000) 1 s = Some (false, s) /\
    execute (core := sample_core 1000) 1 ($"/info") 5 s = None.
Proof.
  intros line.
  destruct (execute_all (H0 := sample_core 1000) 1 (replicate 257 line) sample_bot) as [s|] eqn:E;
    [| vm_compute in E; discriminate].
  exists s. split; [reflexivity |]. vm_compute in E. injection E as <-. split_and!; vm_compute; reflexivity.
Qed.
