(* ===== verification/Toxrelayer.v ===== *)
(** * The relayer ([src/toxrelayer.c])

    The process around the components: the directory of contacts, the adapters
    that give the relay policy its environment and the delivery queue its
    transport, the toxcore callbacks and the periodic purges. The message
    database is reached through the interface [database], the INI file through the
    one below. *)

From S2P Require Import Prelude.
From S2P Require Import CString.
From S2P Require Import Telegram.
From S2P Require Import SnTracker.
From S2P Require Import MsgQueue.
From S2P Require Import MqPersist.
From S2P Require Import Relay.
From S2P Require Import MsgDatabase.
From S2P Require Import Misc.
From S2P Require Import GroupChats.
From S2P Require Import Bot.
From S2P Require Import Commands.

Definition MAX_Friend_NUM : Z := 4096.
Definition GROUP_PURGE_INTERVAL : Z := 60 * 10.
Definition GROUP_PURGE_CONNECT_TIMEOUT : Z := 60 * 60.

(** A negative [int] converts to a number far above the bound. *)
Definition friend_number_valid (friendnumber : Z) : bool :=
  (0 <=? friendnumber) && (friendnumber <? MAX_Friend_NUM).

(** ** The settings file

    What is used of [minIni.h], at the one file name and buffer size of the callers:
    the length and text read for a key, and writing one. The operations themselves
    are in [Ini.v] and [IniWrite.v]; [Settings.v] puts them behind this class. *)
Class ini_file (I : Type) := {
  ini_gets : I -> bytes -> bytes -> bytes -> Z * bytes;
  ini_puts : I -> bytes -> bytes -> bytes -> I }.

(** ** State *)

Record RELAY_NAME_LIST : Type := mk_name {
  friend_number : Z;
  public_key_str : bytes;
  nick_name : bytes;
  line_connect : bool;
  meta_chat_flag : bool;
  send_sn : Z;
  receive_sn : Z }.

Definition zero_name : RELAY_NAME_LIST := mk_name 0 [] [] false false 0 0.

(** The globals of the file, with the queue, the files and the bot. *)
Record relayer (D I : Type) : Type := mk_relayer {
  r_bot : bot;
  r_queue : mq;
  r_db : D;
  r_ini : I;
  relay_name_list : list RELAY_NAME_LIST;
  recv_tracker : list sn_tracker;
  last_msg_tx : list Z;
  self_public_key_str : bytes;
  hello_selfname_msg : bytes;
  relay_number : Z;
  pre_friendnumber : Z;
  msg_keeper_receipt : Z }.
Arguments mk_relayer {D I}.
Arguments r_bot {D I}.
Arguments r_queue {D I}.
Arguments r_db {D I}.
Arguments r_ini {D I}.
Arguments relay_name_list {D I}.
Arguments recv_tracker {D I}.
Arguments last_msg_tx {D I}.
Arguments self_public_key_str {D I}.
Arguments hello_selfname_msg {D I}.
Arguments relay_number {D I}.
Arguments pre_friendnumber {D I}.
Arguments msg_keeper_receipt {D I}.

Section Relayer.
Context `{tox : tox_params} `{core : toxcore} `{cfg : mq_config} {D I : Type} `{db : !database D} `{ini : !ini_file I}.

Definition with_bot (w : relayer D I) b : relayer D I := mk_relayer b (r_queue w) (r_db w) (r_ini w) (relay_name_list w)
  (recv_tracker w) (last_msg_tx w) (self_public_key_str w) (hello_selfname_msg w) (relay_number w)
  (pre_friendnumber w) (msg_keeper_receipt w).
Definition with_queue (w : relayer D I) q : relayer D I := mk_relayer (r_bot w) q (r_db w) (r_ini w) (relay_name_list w)
  (recv_tracker w) (last_msg_tx w) (self_public_key_str w) (hello_selfname_msg w) (relay_number w)
  (pre_friendnumber w) (msg_keeper_receipt w).
Definition with_db (w : relayer D I) d : relayer D I := mk_relayer (r_bot w) (r_queue w) d (r_ini w) (relay_name_list w)
  (recv_tracker w) (last_msg_tx w) (self_public_key_str w) (hello_selfname_msg w) (relay_number w)
  (pre_friendnumber w) (msg_keeper_receipt w).
Definition with_ini (w : relayer D I) i : relayer D I := mk_relayer (r_bot w) (r_queue w) (r_db w) i (relay_name_list w)
  (recv_tracker w) (last_msg_tx w) (self_public_key_str w) (hello_selfname_msg w) (relay_number w)
  (pre_friendnumber w) (msg_keeper_receipt w).
Definition with_names (w : relayer D I) l : relayer D I := mk_relayer (r_bot w) (r_queue w) (r_db w) (r_ini w) l
  (recv_tracker w) (last_msg_tx w) (self_public_key_str w) (hello_selfname_msg w) (relay_number w)
  (pre_friendnumber w) (msg_keeper_receipt w).
Definition with_trackers (w : relayer D I) l : relayer D I := mk_relayer (r_bot w) (r_queue w) (r_db w) (r_ini w)
  (relay_name_list w) l (last_msg_tx w) (self_public_key_str w) (hello_selfname_msg w)
  (relay_number w) (pre_friendnumber w) (msg_keeper_receipt w).
Definition with_last_tx (w : relayer D I) l : relayer D I := mk_relayer (r_bot w) (r_queue w) (r_db w) (r_ini w)
  (relay_name_list w) (recv_tracker w) l (self_public_key_str w) (hello_selfname_msg w)
  (relay_number w) (pre_friendnumber w) (msg_keeper_receipt w).
Definition with_self (w : relayer D I) key hello : relayer D I := mk_relayer (r_bot w) (r_queue w) (r_db w) (r_ini w)
  (relay_name_list w) (recv_tracker w) (last_msg_tx w) key hello (relay_number w)
  (pre_friendnumber w) (msg_keeper_receipt w).
Definition with_relay_number (w : relayer D I) n : relayer D I := mk_relayer (r_bot w) (r_queue w) (r_db w) (r_ini w)
  (relay_name_list w) (recv_tracker w) (last_msg_tx w) (self_public_key_str w) (hello_selfname_msg w) n
  (pre_friendnumber w) (msg_keeper_receipt w).
Definition with_pre_friend (w : relayer D I) f : relayer D I := mk_relayer (r_bot w) (r_queue w) (r_db w) (r_ini w)
  (relay_name_list w) (recv_tracker w) (last_msg_tx w) (self_public_key_str w) (hello_selfname_msg w)
  (relay_number w) f (msg_keeper_receipt w).
Definition with_receipt (w : relayer D I) r : relayer D I := mk_relayer (r_bot w) (r_queue w) (r_db w) (r_ini w)
  (relay_name_list w) (recv_tracker w) (last_msg_tx w) (self_public_key_str w) (hello_selfname_msg w)
  (relay_number w) (pre_friendnumber w) r.

(** A handler of the bot, run on its part of the state. *)
Definition lift {A} (m : M A) (w : relayer D I) : option (A * relayer D I) :=
  do! (a, b) := m (r_bot w); Some (a, with_bot w b).

(** ** The directory of contacts *)

(** The first entry whose key occurs in [public_key]. *)
Fixpoint lookup_loop (public_key : bytes) (l : list RELAY_NAME_LIST) (i : Z) : Z :=
  match l with
  | [] => -1
  | e :: l => if strstr public_key (public_key_str e) then i else lookup_loop public_key l (i + 1)
  end.

Definition lookup_ch_num (w : relayer D I) (public_key : bytes) : Z := lookup_loop public_key (relay_name_list w) 0.

(** The statements that read one setting of a contact: [None] is the [continue]
    after a failed read. *)
Definition read_number (i : I) (section key dflt : bytes) (mn mx fallback : Z) : option Z :=
  let '(ret, text) := ini_gets i section key dflt in
  if ret <? 1 then None else Some (default fallback (parse_int_range (Some text) mn mx)).

Definition key_number (prefix : bytes) (i : Z) : bytes := prefix ++ fmt_0d 3 i.

(** The three settings of one contact; a failed read leaves the fields after it. *)
Definition read_settings (f : I) (i : Z) (e : RELAY_NAME_LIST) : RELAY_NAME_LIST :=
  match read_number f ($"outgoing_sn") (key_number ($"send") i) ($"1") TG_SN_MIN TG_SN_MAX TG_SN_MIN with
  | None => e
  | Some sn =>
    let e := mk_name (friend_number e) (public_key_str e) (nick_name e) (line_connect e)
               (meta_chat_flag e) sn (receive_sn e) in
    match read_number f ($"incoming_sn") (key_number ($"recev") i) ($"1") TG_SN_MIN TG_SN_MAX TG_SN_MIN with
    | None => e
    | Some sn =>
      let e := mk_name (friend_number e) (public_key_str e) (nick_name e) (line_connect e)
                 (meta_chat_flag e) (send_sn e) sn in
      match read_number f ($"meta_chat_flag") (key_number ($"meta") i) ($"0") 0 1 0 with
      | None => e
      | Some flag =>
        mk_name (friend_number e) (public_key_str e) (nick_name e) (line_connect e)
          (negb (flag =? 0)) (send_sn e) (receive_sn e)
      end
    end
  end.

(** One contact of the loop of [get_relay_name_list]. A contact that does not
    exist leaves the key buffer unset and reports an absurd name length, a name
    of 128 bytes overruns its array: both undefined. *)
Definition name_entry (h : history) (f : I) (i : Z) (old : RELAY_NAME_LIST) : option RELAY_NAME_LIST :=
  do! pk := friend_public_key h i;
  let nick := friend_name h i in
  assert! zlen nick <? 128;
  Some (read_settings f i (mk_name i (hex_text (take (Z.to_nat TOX_PUBLIC_KEY_SIZE) pk)) (until_nul nick)
    false false (send_sn old) (receive_sn old))).

Fixpoint names_loop (h : history) (f : I) (n : nat) (i : Z) (l : list RELAY_NAME_LIST)
    : option (list RELAY_NAME_LIST) :=
  match n with
  | O => Some l
  | S n =>
    do! old := l !! Z.to_nat i;
    do! e := name_entry h f i old;
    names_loop h f n (i + 1) (upd l (Z.to_nat i) e)
  end.

Definition RELAY_KEY_DEFAULT : bytes :=
  $"6803B6738011AF6CEB44BC5AF0F62BFD2C99BEA32F19D8C1663164A46272465C67C517BA4E3E".

Definition get_relay_name_list (w : relayer D I) : option (relayer D I) :=
  let h := calls (r_bot w) in
  let numfriends := zlen (friend_list h) in
  if MAX_Friend_NUM <? numfriends then Some w
  else
    do! names := names_loop h (r_ini w) (Z.to_nat numfriends) 0 (relay_name_list w);
    let w := with_names w names in
    let self_id_string := hex_text (take (Z.to_nat TOX_ADDRESS_SIZE) self_address) in
    let w := with_self w self_id_string (take 8 self_id_string ++ $"  METACOM") in
    let '(ret, key) := ini_gets (r_ini w) ($"metaCom_Relayer") ($"relay_public_key") RELAY_KEY_DEFAULT in
    Some (with_relay_number w (if ret <? 1 then 0 else lookup_ch_num w key)).

(** ** The relay's environment *)

Definition relay_resolve_peer (w : relayer D I) (public_key_hex : bytes) : Z := lookup_ch_num w public_key_hex.

Definition relay_peer_key (w : relayer D I) (channel : Z) : option bytes :=
  if negb (friend_number_valid channel) then None
  else public_key_str <$> relay_name_list w !! Z.to_nat channel.

Definition relay_peer_is_metacom (w : relayer D I) (channel : Z) : bool :=
  friend_number_valid channel &&
  from_option meta_chat_flag false (relay_name_list w !! Z.to_nat channel).

Definition relay_tracker : tracker_access (relayer D I) := {|
  t_get w channel := if friend_number_valid channel then recv_tracker w !! Z.to_nat channel else None;
  t_set w channel t := if friend_number_valid channel
    then with_trackers w (upd (recv_tracker w) (Z.to_nat channel) t) else w |}.

Definition relay_channel_known (w : relayer D I) (channel : Z) : bool :=
  friend_number_valid channel &&
  match relay_name_list w !! Z.to_nat channel with
  | Some e => negb (bool_decide (public_key_str e = []))
  | None => false
  end.

Definition relay_store (w : relayer D I) (channel sn timestamp : Z) (sender body : bytes) : Z * relayer D I :=
  let '(rc, d) := db_add (r_db w) channel sn timestamp sender ($"incoming") body in
  (rc, with_db w d).

(** A failed assertion of the queue would end the process; it is never reached
    from a well-formed queue. *)
Definition relay_enqueue (w : relayer D I) (channel : Z) (payload : bytes) (len now : Z) : Z * relayer D I :=
  match mq_enqueue (r_queue w) channel (Some payload) len now with
  | Some (rc, q) => ((if rc =? MQ_OK then 0 else -1), with_queue w q)
  | None => (-1, w)
  end.

Definition RELAY_BODY_MAX : Z := 1024.

Definition relay_fetch_range (w : relayer D I) (channel from to max : Z) : option (list relay_record) :=
  do! records := db_range (r_db w) channel ($"outgoing") from to
                   (if max <? RELAY_MAX_REPLAY then max else RELAY_MAX_REPLAY);
  Some ((fun '(sn, ts, message) =>
           mk_relay_record sn ts (take (Z.to_nat (Z.min (u16 (zlen message)) (RELAY_BODY_MAX - 1))) message))
         <$> records).

Definition relay_remember_serial (w : relayer D I) (channel sn : Z) : relayer D I :=
  with_ini w (ini_puts (r_ini w) ($"incoming_sn") (key_number ($"recev") channel) (fmt_0d 4 sn)).

Definition relay_last_stored_sn (w : relayer D I) (channel : Z) : option Z :=
  db_last_sn (r_db w) channel ($"incoming").

(** [g_relay] after [relay_init]; [self_public_key] points at the global array. *)
Definition g_relay (self : bytes) : relay_env (relayer D I) := {|
  self_public_key := Some self;
  resolve_peer := Some relay_resolve_peer;
  peer_key := Some relay_peer_key;
  peer_is_metacom := Some relay_peer_is_metacom;
  tracker := Some relay_tracker;
  channel_known := Some relay_channel_known;
  store := Some relay_store;
  enqueue := Some relay_enqueue;
  fetch_range := Some relay_fetch_range;
  remember_serial := Some relay_remember_serial |}.

(** ** Delivery *)

Definition tox_transport (s : bot) (friendnum : Z) (payload : bytes) : Z * bot :=
  if friendnum <? 0 then (MQ_SEND_FATAL, s)
  else if negb (friend_number_valid friendnum) then (MQ_SEND_FATAL, s)
  else if negb (friend_online (calls s) friendnum) then (MQ_SEND_RETRYABLE, s)
  else
    let '(receipt, err) := friend_send_message (calls s) friendnum payload in
    let s := record (SendMessage friendnum payload) s in
    (if negb (err =? 0) then MQ_SEND_RETRYABLE else i32 receipt, s).

(** The call of [mq_service] in the main loop. *)
Definition service (w : relayer D I) (now : Z) : option (relayer D I) :=
  do! (_, s, q) := mq_service (Some tox_transport) (r_bot w) (r_queue w) now;
  Some (with_queue (with_bot w s) q).

Definition receipt_display (w : relayer D I) (receipt : Z) : relayer D I :=
  if msg_keeper_receipt w =? receipt then with_receipt w 0 else w.

Definition cb_friend_read_receipt (w : relayer D I) (friendnumber receipt : Z) : option (relayer D I) :=
  do! (_, q) := mq_confirm (r_queue w) (i32 friendnumber) (i32 receipt);
  Some (receipt_display (with_queue w q) receipt).

(** ** Callbacks *)

(** The statements that read a contact's name into an array of [size] bytes. *)
Definition read_name (w : relayer D I) (size friendnum : Z) : option bytes :=
  let nm := friend_name (calls (r_bot w)) friendnum in
  do! name := memcpy (replicate (Z.to_nat size) NUL) nm (zlen nm);
  do! name := CString.store name (zlen nm) NUL;
  Some (until_nul name).

Definition set_meta_flag (w : relayer D I) (friendnumber : Z) : option (relayer D I) :=
  do! e := relay_name_list w !! Z.to_nat friendnumber;
  Some (with_names w (upd (relay_name_list w) (Z.to_nat friendnumber)
    (mk_name (friend_number e) (public_key_str e) (nick_name e) (line_connect e) true (send_sn e)
      (receive_sn e)))).

Definition is_hello (message : bytes) : bool := strstr message ($"/HELLO") && strstr message ($"METACOM").

(** A line that starts with a slash. *)
Definition command_message (w : relayer D I) (friendnumber : Z) (message : bytes) (length : Z) : option (relayer D I) :=
  if is_hello message then
    do! w := set_meta_flag w friendnumber;
    Some (with_ini w (ini_puts (r_ini w) ($"meta_chat_flag") (key_number ($"meta") friendnumber) ($"1")))
  else if length =? 0 then Some w
  else
    do! (rc, w) := lift (execute friendnumber message length) w;
    if rc =? -1 then
      do! (_, w) := lift (reply friendnumber
        ($">> Invalid command to server. Type help for a list of commands")) w;
      Some w
    else Some w.

(** Any other text: kept as it is, or handed to the relay. *)
Definition text_message (w : relayer D I) (friendnumber : Z) (message : bytes) : option (relayer D I) :=
  do! tx_name := read_name w 128 friendnumber;
  let now := time (calls (r_bot w)) in
  if negb (strstr message ($"ZCZC")) then
    do! e := relay_name_list w !! Z.to_nat friendnumber;
    let '(_, d) := db_add (r_db w) friendnumber 0 now (public_key_str e) ($"incoming") message in
    Some (with_db w d)
  else
    Some (snd (relay_receive (Some (g_relay (self_public_key_str w))) w friendnumber (Some message)
                 (zlen message) now)).

Definition TOX_MESSAGE_TYPE_NORMAL : Z := 0.

Definition cb_friend_message (w : relayer D I) (friendnumber type : Z) (string : bytes) (length : Z)
    : option (relayer D I) :=
  if negb (type =? TOX_MESSAGE_TYPE_NORMAL) then Some w
  else if negb (friend_number_valid friendnumber) then Some w
  else
    match friend_public_key (calls (r_bot w)) friendnumber with
    | None => Some w
    | Some public_key =>
      do! (blocked, w) := lift (public_key_is_blocked public_key) w;
      if blocked then
        do! (_, w) := lift (perform (FriendDelete friendnumber) (fun _ => tt)) w;
        Some w
      else
        let w := with_pre_friend w friendnumber in
        do! (buffer, length) := copy_tox_str (replicate (Z.to_nat TOX_MAX_MESSAGE_LENGTH) NUL)
                                  TOX_MAX_MESSAGE_LENGTH string (u16 length);
        do! buffer := CString.store buffer length NUL;
        let message := until_nul buffer in
        if Z.of_nat (List.length (last_msg_tx w)) <=? friendnumber then None
        else
          let w := with_last_tx w (upd (last_msg_tx w) (Z.to_nat friendnumber) (time (calls (r_bot w)))) in
          match message with
          | c :: _ => if bool_decide (c = "/"%char) then command_message w friendnumber message length
                      else text_message w friendnumber message
          | [] => text_message w friendnumber message
          end
    end.

Definition cb_friend_request (w : relayer D I) (public_key : bytes) : option (relayer D I) :=
  do! (blocked, w) := lift (public_key_is_blocked public_key) w;
  if blocked then Some w
  else
    do! (_, w) := lift (perform (FriendAddNorequest public_key)
                          (fun h => friend_add_norequest h public_key)) w;
    do! (_, w) := lift (save_data (Some DATA_FILE)) w;
    get_relay_name_list w.

(** [groupnum] starts at -1 and stays there for an unknown conference type. *)
Definition join_group (friendnumber type : Z) (cookie : bytes) : M (option Z) :=
  if (type =? TOX_CONFERENCE_TYPE_TEXT) || (type =? TOX_CONFERENCE_TYPE_AV) then
    joined ← perform (ConferenceJoin friendnumber type cookie)
               (fun h => conference_join h friendnumber type cookie);
    let '(groupnum, err) := joined : Z * Z in
    mret (if type =? TOX_CONFERENCE_TYPE_TEXT
          then if negb (err =? 0) then None else Some (i32 groupnum)
          else if groupnum =? -1 then None else Some (i32 groupnum))
  else mret (Some (-1)).

Definition cb_group_invite (friendnumber type : Z) (cookie : bytes) : M unit :=
  _ ← get_name friendnumber;
  joined ← join_group friendnumber type cookie;
  match (joined : option Z) with
  | None => mret tt
  | Some groupnum =>
    rc ← add_to_table groupnum type None;
    if rc =? -1 then perform (ConferenceDelete (u32 groupnum)) (fun _ => tt) else mret tt
  end.

Definition cb_group_titlechange (groupnumber : Z) (text : bytes) (length : Z) : M unit :=
  copied ← or_undefined (copy_tox_str (replicate (Z.to_nat TOX_MAX_MESSAGE_LENGTH) NUL)
                           TOX_MAX_MESSAGE_LENGTH text (u16 length));
  let '(message, length) := copied : bytes * Z in
  idx ← find_index groupnumber;
  if idx =? -1 then mret tt
  else c ← slot idx; put_slot idx (set_title c (take (Z.to_nat length) message)).

Definition TOX_CONNECTION_NONE : Z := 0.

(** The connection came up (by TCP or UDP) or was lost; [max_friend_num] contacts
    were counted at start-up. *)
Definition cb_self_connection_change (w : relayer D I) (connection_status max_friend_num : Z) : option (relayer D I) :=
  let now := time (calls (r_bot w)) in
  if connection_status =? TOX_CONNECTION_NONE then
    do! (_, w) := lift (modify (set_last_bootstrap now)) w; Some w
  else
    do! (_, w) := lift (modify (set_last_connected now)) w;
    let n := Z.to_nat max_friend_num in
    if (List.length (last_msg_tx w) <? n)%nat then None
    else Some (with_last_tx w (replicate n now ++ drop n (last_msg_tx w))).

Definition cb_friend_connection_change (friendnumber : Z) : M unit :=
  _ ← modify (set_num_online_friends 0);
  list ← gets (fun s => friend_list (calls s));
  if zlen list =? 0 then mret tt
  else if negb (friend_number_valid friendnumber) then mret tt
  else
    online ← gets (fun s => zlen (filter (fun f => friend_online (calls s) f = true) list));
    modify (set_num_online_friends online).

(** [on_friend_name]: the new name is copied, filtered and dropped; the profile
    is stored. *)
Definition on_friend_name (string : bytes) (length : Z) : M unit :=
  copied ← or_undefined (copy_tox_str (replicate (Z.to_nat (TOXIC_MAX_NAME_LENGTH + 1)) NUL)
                           (TOXIC_MAX_NAME_LENGTH + 1) string (u16 length));
  let '(nick, length) := copied : bytes * Z in
  _ ← or_undefined (CString.store (filter_str nick length) length NUL);
  _ ← store_data false (Some DATA_FILE);
  mret tt.

(** ** Start-up and periodic work *)

Fixpoint load_chats (chats : list Z) : M unit :=
  match chats with
  | [] => mret tt
  | g :: chats =>
    type ← gets (fun s => conference_get_type (calls s) g);
    _ ← match (type : option Z) with
        | None => perform (ConferenceDelete g) (fun _ => tt)
        | Some type =>
          rc ← add_to_table g type None;
          if negb (rc =? 0) then perform (ConferenceDelete g) (fun _ => tt) else mret tt
        end;
    load_chats chats
  end.

(** The allocation is taken to succeed. *)
Definition load_conferences : M unit :=
  chats ← gets (fun s => chatlist (calls s)); load_chats chats.

(** Is the contact old enough to be removed? Both operands of the subtraction are
    unsigned. *)
Definition inactive (now last_online limit : Z) : bool := limit <? u64 (now - last_online).

Definition purge_friend (friendnum : Z) : M unit :=
  exists_ ← gets (fun s => friend_exists (calls s) friendnum);
  if negb exists_ then mret tt
  else
    online ← gets (fun s => friend_last_online (calls s) friendnum);
    match (online : option Z) with
    | None => mret tt
    | Some last_online =>
      now ← get_time;
      limit ← gets inactive_limit;
      if inactive now last_online limit then perform (FriendDelete friendnum) (fun _ => tt) else mret tt
    end.

Fixpoint purge_friends (l : list Z) : M unit :=
  match l with
  | [] => mret tt
  | f :: l => purge_friend f;; purge_friends l
  end.

Definition purge_inactive_friends : M unit :=
  l ← gets (fun s => friend_list (calls s)); purge_friends l.

(** The loop of [purge_empty_groups] from slot [i]: at most as many turns as
    there are slots in use. *)
Fixpoint purge_loop (fuel : nat) (i : Z) : M unit :=
  match fuel with
  | O => mret tt
  | S fuel =>
    t ← gets table;
    if chats_idx t <=? i then mret tt
    else
      c ← slot i;
      if negb (active c) then purge_loop fuel (i + 1)
      else
        peers ← gets (fun s => conference_peer_count (calls s) (groupnum c));
        if match (peers : option Z) with Some n => n <=? 1 | None => true end then
          _ ← perform (ConferenceDelete (groupnum c)) (fun _ => tt);
          t ← or_undefined (group_leave t (groupnum c));
          _ ← modify (set_table t);
          if chats_idx t <=? i then mret tt else purge_loop fuel (i + 1)
        else purge_loop fuel (i + 1)
  end.

Definition purge_empty_groups : M unit :=
  n ← gets (fun s => chats_idx (table s)); purge_loop (Z.to_nat n) 0.

Definition check_group_purge (last_group_purge cur_time connection_status last_connected : Z) : bool :=
  if negb (timed_out last_group_purge cur_time GROUP_PURGE_INTERVAL) then false
  else if connection_status =? TOX_CONNECTION_NONE then false
  else if negb (timed_out last_connected cur_time GROUP_PURGE_CONNECT_TIMEOUT) then false
  else true.

(** * Lemmas *)

(** ** The relay's environment keeps what its interface promises *)

Definition outgoing (w : relayer D I) : list (Z * bytes) :=
  (fun t => (t_friend t, t_text t)) <$> messages (r_queue w).

(** The telegrams the database accepted as received. *)
Definition received (w : relayer D I) : list delivery :=
  omap (fun '(f, sn, t, s, dir, m) =>
          if bool_decide (dir = $"incoming") then Some (f, sn, t, s, m) else None) (db_added (r_db w)).

Lemma count_bound q : wf_mq q -> (g_count q <= MQ_CAPACITY)%nat.
Proof. intros H. rewrite <- (wf_count _ H), <- (wf_length _ H). apply count_le_length. Qed.

Lemma relay_enqueue_ok (w : relayer D I) ch p now : wf_mq (r_queue w) -> 0 <= ch ->
  0 < zlen p < MQ_PAYLOAD_MAX ->
  exists q, relay_enqueue w ch p (zlen p) now =
      ((if (0 <? MQ_CAPACITY - g_count (r_queue w))%nat then 0 else -1), with_queue w q) /\ wf_mq q /\
    if (0 <? MQ_CAPACITY - g_count (r_queue w))%nat
    then outgoing (with_queue w q) ≡ₚ outgoing w ++ [(ch, p)] /\ (g_count q = S (g_count (r_queue w)))%nat
    else outgoing (with_queue w q) = outgoing w /\ g_count q = g_count (r_queue w).
Proof.
  intros Hw Hc Hp. pose proof (count_bound _ Hw) as Hb.
  destruct (enqueue_ok (r_queue w) ch p (zlen p) now Hw) as (rc & q & Hq & Hwq & Hr); [split_and!; lia || done |].
  unfold relay_enqueue. rewrite Hq. exists q.
  destruct (decide (g_count (r_queue w) = MQ_CAPACITY)) as [Hf | Hf].
  - rewrite (proj2 (Nat.ltb_ge _ _)) by lia. destruct Hr as (-> & Hst & _ & Hc' & _).
    split_and!; [done | done | | done]. unfold outgoing, messages. cbn. by rewrite Hst.
  - rewrite (proj2 (Nat.ltb_lt _ _)) by lia. destruct Hr as (-> & _ & Hc' & _ & sl & new & Hv & Hns & _ & Hrg & Hh & _ & (e & He & Hfr) & _).
    split_and!; [done | done | | done].
    destruct (enqueue_messages (r_queue w) q sl e new Hw Hwq He Hfr Hns Hrg Hh) as (l & l' & H1 & H2 & _).
    unfold outgoing, messages. cbn. rewrite H1, H2, !fmap_app, !fmap_cons, Hv. cbn.
    unfold zlen. rewrite Nat2Z.id, firstn_all. by rewrite <- Permutation_middle, Permutation_cons_append.
Qed.

Lemma valid_index (c : Z) : friend_number_valid c = true -> 0 <= c.
Proof. unfold friend_number_valid. intros H. by zbool. Qed.

#[export] Program Instance relayer_spec (self : bytes) : env_spec (g_relay self) := {|
  self_key := self; es_key := relay_peer_key; es_trackers := relay_tracker; es_store := relay_store;
  es_enqueue := relay_enqueue; es_fetch := relay_fetch_range; es_remember := relay_remember_serial;
  outbox := outgoing; inbox := received;
  space w := (MQ_CAPACITY - g_count (r_queue w))%nat;
  payload_limit := MQ_PAYLOAD_MAX; es_good w := wf_mq (r_queue w) |}.
Solve All Obligations with try done.
Next Obligation.
  intros self w ch t Hw. cbn. destruct (friend_number_valid ch) eqn:Ev; split_and!; try done.
  - intros t0 H%lookup_lt_Some. by apply lookup_upd_eq.
  - intros c Hc. destruct (friend_number_valid c) eqn:E; [| done].
    apply valid_index in E, Ev. apply lookup_upd_ne. lia.
Qed.
Next Obligation.
  intros self w ch sn ts s b Hw Hc. cbn. unfold relay_store.
  pose proof (db_add_law (r_db w) ch sn ts s ($"incoming") b Hc) as Hl.
  destruct (db_add _ _ _ _ _ _ _) as [rc d]. split_and!; try done.
  unfold received. cbn. rewrite Hl. destruct (rc =? 0); [| done]. by rewrite omap_app.
Qed.
Next Obligation.
  intros self w ch p now Hw Hc Hp. destruct (relay_enqueue_ok w ch p now Hw Hc Hp) as (q & -> & Hq & Hr).
  split_and!; try done. destruct (0 <? _)%nat eqn:E; [| split; [lia | apply Hr]]. apply Nat.ltb_lt in E.
  destruct Hr as [Hr Hn]. split_and!; [done | done |]. cbn. rewrite Hn. lia.
Qed.

(** ** The process keeps its invariant *)

(** What every handler relies on: the queue and the group table are well formed,
    the arrays indexed by contact have their size, the current contact is one of
    their indices. *)
Record relayer_ok (w : relayer D I) : Prop := {
  ok_queue : wf_mq (r_queue w);
  ok_table : wf_groups (table (r_bot w));
  ok_names : length (relay_name_list w) = Z.to_nat MAX_Friend_NUM;
  ok_last_tx : length (last_msg_tx w) = Z.to_nat MAX_Friend_NUM;
  ok_trackers : length (recv_tracker w) = Z.to_nat MAX_Friend_NUM;
  ok_current : friend_number_valid (pre_friendnumber w) = true }.

Lemma ok_with_queue (w : relayer D I) q : relayer_ok w -> wf_mq q -> relayer_ok (with_queue w q).
Proof. by intros [] ?; split. Qed.

Lemma ok_with_bot (w : relayer D I) b : relayer_ok w -> wf_groups (table b) -> relayer_ok (with_bot w b).
Proof. by intros [] ?; split. Qed.

Lemma ok_with_db (w : relayer D I) d : relayer_ok w -> relayer_ok (with_db w d).
Proof. by intros []; split. Qed.

Lemma ok_with_ini (w : relayer D I) i : relayer_ok w -> relayer_ok (with_ini w i).
Proof. by intros []; split. Qed.

Lemma ok_set_tracker (w : relayer D I) ch t : relayer_ok w -> relayer_ok (t_set relay_tracker w ch t).
Proof. intros []. cbn. destruct (friend_number_valid ch); split; try done. cbn. by rewrite length_upd. Qed.

(** The queue stays well formed whatever it is offered. *)
Lemma enqueue_any q f p len now r q' : wf_mq q -> mq_enqueue q f (Some p) len now = Some (r, q') -> wf_mq q'.
Proof.
  intros Hw H. destruct (decide (enqueue_args f p len)) as [Ha | Ha].
  - destruct (enqueue_ok q f p len now Hw Ha) as (rc & q1 & Hq & Hw1 & _). congruence.
  - unfold mq_enqueue in H. destruct ((f <? 0) || _ || _) eqn:E; [by injection H as _ <- |].
    destruct (find_slot_ok q Hw) as (o & t & Hf & Ht & _). rewrite Hf in H. destruct o as [sl|].
    + destruct (g_ring (set_tail q t) !! sl) as [e|]; [| done]. unfold memcpy in H.
      destruct (_ && _) eqn:E2 in H; [| done]. exfalso. zbool.
      apply Ha. split_and!; lia.
    + injection H as _ <-. apply (wf_same _ _ Ht); try done; apply Ht.
Qed.

Lemma ok_enqueue (w : relayer D I) ch p len now : relayer_ok w -> relayer_ok (snd (relay_enqueue w ch p len now)).
Proof.
  intros H. unfold relay_enqueue. destruct (mq_enqueue _ _ _ _ _) as [[rc q]|] eqn:E; [| done].
  apply ok_with_queue; [done |]. by eapply enqueue_any; [apply H | exact E].
Qed.

Lemma ok_store (w : relayer D I) ch sn ts s b : relayer_ok w -> relayer_ok (snd (relay_store w ch sn ts s b)).
Proof. intros H. unfold relay_store. destruct (db_add _ _ _ _ _ _ _). by apply ok_with_db. Qed.

Lemma ok_remember (w : relayer D I) ch sn : relayer_ok w -> relayer_ok (relay_remember_serial w ch sn).
Proof. apply ok_with_ini. Qed.

Lemma ok_request_gap self (w : relayer D I) ch from to now : relayer_ok w ->
  relayer_ok (snd (relay_request_gap (g_relay self) w ch from to now)).
Proof.
  intros H. unfold relay_request_gap. cbn [enqueue peer_key g_relay].
  destruct (relay_peer_key w ch); [| done]. destruct (tg_encode_cmd _ _ _ _ _) as [n wire].
  destruct (n <=? 0); [done |]. pose proof (ok_enqueue w ch (default [] wire) n now H) as He.
  destruct (relay_enqueue _ _ _ _ _) as [rc w1]. by destruct (negb _).
Qed.

(** [relay_deliver] once the tracker has classified the telegram. *)
Definition ok_tail self ch tg now (st : sn_result) (gf gt : Z) (w : relayer D I) : relay_outcome * relayer D I :=
  match st with
  | SN_DUPLICATE => (RELAY_DUPLICATE, w)
  | _ =>
    let w := snd (relay_store w ch (tg_sn tg) (tg_timestamp tg) (tg_sender tg) (tg_body tg)) in
    let w := relay_remember_serial w ch (tg_sn tg) in
    match st with
    | SN_GAP =>
      let '(out, w) := relay_request_gap (g_relay self) w ch gf gt now in
      (match out with RELAY_GAP_REQUESTED => RELAY_GAP_REQUESTED | _ => RELAY_STORED end, w)
    | SN_RECOVERED => (RELAY_RECOVERED, w)
    | SN_RESYNC => (RELAY_RESYNCED, w)
    | _ => (RELAY_STORED, w)
    end
  end.

Lemma ok_deliver self (w : relayer D I) ch tg now : relayer_ok w ->
  relayer_ok (snd (relay_deliver (g_relay self) w ch tg now)).
Proof.
  intros H. unfold relay_deliver. cbn [tracker store remember_serial g_relay].
  assert (Hrest : forall st gf gt w1, relayer_ok w1 ->
    relayer_ok (snd (ok_tail self ch tg now st gf gt w1))).
  { intros st gf gt w1 H1. unfold ok_tail.
    pose proof (ok_store w1 ch (tg_sn tg) (tg_timestamp tg) (tg_sender tg) (tg_body tg) H1) as Hs.
    set (w2 := snd (relay_store _ _ _ _ _ _)) in *. pose proof (ok_remember w2 ch (tg_sn tg) Hs) as Hr.
    destruct st; try done.
    pose proof (ok_request_gap self (relay_remember_serial w2 ch (tg_sn tg)) ch gf gt now Hr) as Hg.
    by destruct (relay_request_gap _ _ _ _ _ _) as [out w3]. }
  destruct (t_get relay_tracker w ch) as [t0|]; [| by apply (Hrest SN_IN_ORDER 0 0 w)].
  destruct (sn_tracker_accept _ _ _) as [[[st t] gf] gt]. apply (Hrest st gf gt).
  destruct t; [by apply ok_set_tracker | done].
Qed.

Lemma ok_replay peer self ch now recs : forall queued (w : relayer D I), relayer_ok w ->
  relayer_ok (snd (replay_loop relay_enqueue peer self ch now recs queued w)).
Proof.
  induction recs as [|r recs IH]; intros queued w H; cbn [replay_loop]; [done |].
  destruct (tg_encode_text _ _ _ _ _ _) as [len wire]. destruct (len <=? 0); [by apply IH |].
  pose proof (ok_enqueue w ch (default [] wire) len now H) as He.
  destruct (relay_enqueue _ _ _ _ _) as [rc w1]. by apply IH.
Qed.

Lemma ok_receive self (w : relayer D I) ch raw len now : relayer_ok w ->
  relayer_ok (snd (relay_receive (Some (g_relay self)) w ch (Some raw) len now)).
Proof.
  intros H. unfold relay_receive. cbn [self_public_key g_relay]. destruct (_ || _); [done |].
  destruct (tg_decode _ _) as [tg|]; [| done]. destruct (tg_knd tg); [done | |].
  - destruct (str_eq _ _); [by apply ok_deliver |]. unfold relay_forward.
    cbn [resolve_peer enqueue peer_is_metacom g_relay]. destruct (_ <? 0); [done |].
    match goal with |- context [relay_enqueue w ?c ?p ?l now] =>
      pose proof (ok_enqueue w c p l now H) as He; destruct (relay_enqueue w c p l now) as [rc w1] end.
    by destruct (negb _).
  - destruct (negb _); [done |]. unfold relay_serve_replay. cbn [fetch_range enqueue peer_key g_relay].
    destruct (relay_peer_key w ch) as [peer|]; [| done].
    destruct (relay_fetch_range _ _ _ _ _) as [[|r rs]|]; [done | | done].
    pose proof (ok_replay peer (self_public_key (g_relay self)) ch now (r :: rs) 0 w H) as Hr.
    cbn [self_public_key g_relay] in Hr. destruct (replay_loop _ _ _ _ _ _ _ _) as [n w1]. done.
Qed.

Lemma lift_safe {A} (m : M A) (w : relayer D I) : safe m -> relayer_ok w ->
  exists a b, lift m w = Some (a, with_bot w b) /\ relayer_ok (with_bot w b).
Proof.
  intros Hm Hw. pose proof (Hm (r_bot w) (ok_table _ Hw)) as H. apply wp_Some in H as (a & b & H & Hb).
  exists a, b. unfold lift. rewrite H. split; [done |]. by apply ok_with_bot.
Qed.

Lemma safe_blocked pk : safe (public_key_is_blocked pk).
Proof. apply safe_bind; [apply safe_on_disk | intros; apply safe_ret]. Qed.

(** [copy_tox_str] into an array of its declared size. *)
Lemma copy_ok size src n : 0 < size <= 2 ^ 16 -> 0 <= n <= zlen src ->
  exists b, copy_tox_str (replicate (Z.to_nat size) NUL) size src n = Some (b, Z.min n (size - 1)) /\
    zlen b = size /\ take (Z.to_nat (Z.min n (size - 1))) b = take (Z.to_nat (Z.min n (size - 1))) src.
Proof.
  intros Hs Hn. unfold copy_tox_str. rewrite (u64_id (size - 1)) by lia.
  destruct (memcpy_store (replicate (Z.to_nat size) NUL) src (Z.min n (size - 1)))
    as (b & b' & -> & Hst & Hz & Ht); [lia | zlen | lia |].
  rewrite Hst. exists b'. unfold u16. rewrite Z.mod_small by lia.
  split; [done |]. split; [| done]. rewrite Hz. zlen.
Qed.

Section Message.
Variable f : Z.
Hypothesis valid : friend_number_valid f = true.
Hypothesis short_name : forall h, zlen (friend_name h f) < Z.min 128 TOX_MAX_NAME_LENGTH.
Hypothesis few_chats : forall h, zlen (chatlist h) <= MAX_NUM_GROUPS.

Lemma name_here (w : relayer D I) : relayer_ok w -> exists e, relay_name_list w !! Z.to_nat f = Some e.
Proof.
  intros Hw. apply lookup_lt_is_Some_2. rewrite (ok_names _ Hw).
  unfold friend_number_valid in valid. zbool. lia.
Qed.

Lemma command_message_ok (w : relayer D I) message length : relayer_ok w ->
  exists w', command_message w f message length = Some w' /\ relayer_ok w'.
Proof.
  intros Hw. unfold command_message. destruct (is_hello message).
  - unfold set_meta_flag. destruct (name_here w Hw) as [e ->]. eexists. split; [done |].
    apply ok_with_ini. destruct Hw. split; try done. cbn. by rewrite length_upd.
  - destruct (length =? 0); [by exists w |].
    destruct (lift_safe (execute f message length) w) as (rc & b & -> & Hb); [| done |].
    { apply safe_execute; [| done]. intros h. specialize (short_name h). lia. }
    destruct (rc =? -1); [| by eexists].
    destruct (lift_safe (reply f ($">> Invalid command to server. Type help for a list of commands"))
      (with_bot w b)) as (u & b' & -> & Hb'); [apply safe_reply | done |]. by eexists.
Qed.

Lemma text_message_ok (w : relayer D I) message : relayer_ok w ->
  exists w', text_message w f message = Some w' /\ relayer_ok w'.
Proof.
  intros Hw. unfold text_message, read_name. specialize (short_name (calls (r_bot w))).
  destruct (memcpy_store (replicate (Z.to_nat 128) NUL) (friend_name (calls (r_bot w)) f)
    (zlen (friend_name (calls (r_bot w)) f))) as (b & b' & -> & -> & _); [zlen | zlen | lia |].
  destruct (negb _).
  - destruct (name_here w Hw) as [e ->]. destruct (db_add _ _ _ _ _ _ _).
    eexists. split; [done |]. by apply ok_with_db.
  - eexists. split; [done |]. by apply ok_receive.
Qed.

End Message.

Lemma cb_friend_message_ok f type string length (w : relayer D I) : relayer_ok w ->
  (forall h, zlen (friend_name h f) < Z.min 128 TOX_MAX_NAME_LENGTH) ->
  (forall h, zlen (chatlist h) <= MAX_NUM_GROUPS) -> 0 <= length < 2 ^ 16 -> length <= zlen string ->
  exists w', cb_friend_message w f type string length = Some w' /\ relayer_ok w' /\
    forall pk b, type = TOX_MESSAGE_TYPE_NORMAL -> friend_number_valid f = true ->
      friend_public_key (calls (r_bot w)) f = Some pk ->
      public_key_is_blocked pk (r_bot w) = Some (true, b) ->
      w' = with_bot w (record (FriendDelete f) b).
Proof.
  intros Hw Hn Hc Hl Hs. unfold cb_friend_message. pose proof message_size as Hm.
  destruct (type =? _) eqn:Et; cbn [negb]; [| by exists w; split_and!; [..| intros pk b ->]].
  destruct (friend_number_valid f) eqn:Hv; cbn [negb]; [| exists w; split_and!; done].
  destruct (friend_public_key _ f) as [pk|]; [| exists w; split_and!; done].
  destruct (lift_safe (public_key_is_blocked pk) w (safe_blocked pk) Hw) as (bl & b & Hb & Hok).
  rewrite Hb. assert (Hrun : public_key_is_blocked pk (r_bot w) = Some (bl, b)).
  { unfold lift in Hb. destruct (public_key_is_blocked pk (r_bot w)) as [[x y]|]; [| done].
    by injection Hb as -> ->. }
  destruct bl.
  - eexists. split; [done |]. split; [destruct Hok; by split |]. intros pk' b' _ _ [= <-] Hb'.
    rewrite Hrun in Hb'. by injection Hb' as <-.
  - assert (Hno : forall w' pk' b', Some pk = Some pk' ->
      public_key_is_blocked pk' (r_bot w) = Some (true, b') -> w' = with_bot w (record (FriendDelete f) b'))
      by (intros w' pk' b' [= <-]; rewrite Hrun; done).
    set (w1 := with_pre_friend (with_bot w b) f).
    assert (Hok1 : relayer_ok w1) by (destruct Hok; by split).
    unfold u16 at 1. rewrite Z.mod_small by lia.
    destruct (copy_ok TOX_MAX_MESSAGE_LENGTH string length) as (buf & -> & Hz & _); [lia | lia |].
    destruct (store_in buf (Z.min length (TOX_MAX_MESSAGE_LENGTH - 1)) NUL) as (buf' & -> & _); [lia |].
    pose proof Hv as Hv'. unfold friend_number_valid in Hv'. zbool.
    rewrite (proj2 (Z.leb_gt _ _)) by (rewrite (ok_last_tx _ Hok1); lia).
    set (w2 := with_last_tx w1 _). assert (Hok2 : relayer_ok w2).
    { destruct Hok1. split; try done. cbn. by rewrite length_upd. }
    destruct (command_message_ok f Hv Hn Hc w2 (until_nul buf') (Z.min length (TOX_MAX_MESSAGE_LENGTH - 1)) Hok2)
      as (wc & Hcm & Hokc).
    destruct (text_message_ok f Hv Hn w2 (until_nul buf') Hok2) as (wt & Htm & Hokt).
    destruct (until_nul buf') as [|c m]; [| destruct (bool_decide _)];
      rewrite ?Hcm, ?Htm; (eexists; split; [done |]; split; [done |]); intros pk' b' _ _; apply Hno.
Qed.

(** ** Empty rooms *)

(** A room with nobody else in it, or one the library does not know. *)
Definition lonely (peers : Z -> option Z) (c : Group_Chat) : bool :=
  match peers (groupnum c) with Some n => n <=? 1 | None => true end.

Section Purge.
Variable peers : Z -> option Z.
Hypothesis steady : forall h g g', g' <> g ->
  conference_peer_count (h ++ [ConferenceDelete g']) g = conference_peer_count h g.

(** The rooms of the slots in use have different numbers. *)
Definition distinct (t : groups) : Prop := forall i j c d,
  in_use t !! i = Some c -> in_use t !! j = Some d -> active c = true -> active d = true ->
  groupnum c = groupnum d -> i = j.

(** What the library says of the rooms still to be looked at. *)
Definition answers (s : bot) (i : nat) : Prop := forall j c,
  in_use (table s) !! j = Some c -> active c = true -> (i <= j)%nat ->
  conference_peer_count (calls s) (groupnum c) = peers (groupnum c).

Lemma answers_le s i j : answers s i -> (i <= j)%nat -> answers s j.
Proof. intros H Hij k c Hk Ha Hj. apply (H k c Hk Ha). lia. Qed.

(** The calls that give up the lonely rooms of a list of slots. *)
Definition given_up (g : list Group_Chat) : history :=
  (fun c => ConferenceDelete (groupnum c)) <$> filter (fun c => active c && lonely peers c = true) g.

Lemma given_up_none g : (forall c, c ∈ g -> active c = false) -> given_up g = [].
Proof.
  intros H. unfold given_up. rewrite list_filter_none; [done |]. intros c Hc. by rewrite H.
Qed.

(** The rooms before slot [i] are done: those worth keeping, and those still to be
    looked at, are where they were; nothing else is active. *)
Definition purged (t0 t : groups) (i : nat) : Prop :=
  (forall j c, in_use t !! j = Some c -> active c = true ->
     in_use t0 !! j = Some c /\ ((j < i)%nat -> lonely peers c = false)) /\
  (forall j c, in_use t0 !! j = Some c -> active c = true -> lonely peers c = false \/ (i <= j)%nat ->
     in_use t !! j = Some c).

(** Clearing the room in slot [i], the first that is lonely. *)
Lemma purged_leave t0 t i c : wf_groups t -> purged t0 t i -> in_use t !! i = Some c ->
  active c = true -> lonely peers c = true ->
  exists t', group_leave t (groupnum c) = Some t' /\ wf_groups t' /\ purged t0 t' (S i) /\
    (length (in_use t') <= length (in_use t))%nat.
Proof.
  intros Hw [H1 H2] Hc Ha Hl. destruct (group_leave_in_use t (groupnum c) Hw) as (t' & Hleave & Hw' & Hg).
  assert (Hpos : position (is_group (groupnum c)) (in_use t) = Some i).
  { apply position_intro with c; [done | by unfold is_group; rewrite Ha, Z.eqb_refl |].
    intros j d Hj Hd. unfold is_group. destruct (active d) eqn:Ed; [| done]. apply Z.eqb_neq. intros He.
    destruct (H1 j d Hd Ed) as [_ Hld]. specialize (Hld Hj). unfold lonely in *. rewrite He in Hld. congruence. }
  rewrite Hpos in Hg. cbv zeta in Hg. destruct Hg as (k & Hu & Hina).
  exists t'. split; [done |]. split; [done |].
  split; [| rewrite Hu, length_take, length_upd; lia]. split.
  - intros j d Hd Hd'. rewrite Hu in Hd. apply lookup_take_Some in Hd as [Hd _].
    apply lookup_upd_Some in Hd as [(_ & -> & _) | [Hne Hd]]; [done |].
    destruct (H1 j d Hd Hd') as [Ho Hlo]. split; [done |]. intros Hj. apply Hlo. lia.
  - intros j d Hd Hd' Hdl. assert (Ht : in_use t !! j = Some d).
    { apply H2; [done | done |]. destruct Hdl; [by left | right; lia]. }
    rewrite Hu. assert (j <> i) by (intros ->; rewrite Hc in Ht; injection Ht as <-; destruct Hdl; [congruence | lia]).
    assert (Hup : upd (in_use t) i zero_group !! j = Some d) by (by rewrite lookup_upd_ne).
    destruct (decide (j < k)%nat) as [Hlt | Hge]; [by rewrite lookup_take_lt |].
    rewrite (Hina j d) in Hd'; [done | lia | done].
Qed.

(** Nothing is left to do once the slots in use end. *)
Lemma purged_end t0 t i : purged t0 t i -> (length (in_use t) <= i)%nat -> given_up (drop i (in_use t0)) = [].
Proof.
  intros [_ H2] Hi. apply given_up_none. intros c [j Hc]%list_elem_of_lookup. rewrite lookup_drop in Hc.
  destruct (active c) eqn:Ea; [| done]. pose proof (H2 (i + j)%nat c Hc Ea ltac:(right; lia)) as Ht.
  apply lookup_lt_Some in Ht. lia.
Qed.

(** One slot further. *)
Lemma given_up_step t0 t i c : purged t0 t i -> in_use t !! i = Some c ->
  given_up (drop i (in_use t0)) =
    (if active c && lonely peers c then [ConferenceDelete (groupnum c)] else []) ++
    given_up (drop (S i) (in_use t0)).
Proof.
  intros [H1 H2] Hc. destruct (in_use t0 !! i) as [d|] eqn:Ed.
  - rewrite (drop_S _ _ _ Ed). unfold given_up. rewrite filter_cons.
    destruct (active c) eqn:Ea.
    + destruct (H1 i c Hc Ea) as [Ho _]. rewrite Ed in Ho. injection Ho as ->. rewrite Ea. cbn [andb].
      by destruct (lonely peers c).
    + assert (active d = false) as Hd.
      { destruct (active d) eqn:E; [| done]. pose proof (H2 i d Ed E ltac:(right; lia)). congruence. }
      by rewrite Hd.
  - apply lookup_ge_None in Ed. rewrite !drop_ge by lia. destruct (active c) eqn:Ea; [| done].
    destruct (H1 i c Hc Ea) as [Ho%lookup_lt_Some _]. lia.
Qed.

Lemma purged_skip t0 t i c : purged t0 t i -> in_use t !! i = Some c ->
  active c = false \/ lonely peers c = false -> purged t0 t (S i).
Proof.
  intros [H1 H2] Hc Hcase. split.
  - intros j d Hd Ha. destruct (H1 j d Hd Ha) as [Ho Hl].
    split; [done |]. intros Hj. destruct (decide (j = i)) as [-> | Hne]; [| apply Hl; lia].
    rewrite Hc in Hd. injection Hd as <-. destruct Hcase; congruence.
  - intros j d Hd Ha Hdl. apply H2; [done | done |]. destruct Hdl; [by left | right; lia].
Qed.

Lemma answers_leave t0 t' s i c : distinct t0 -> answers s i -> purged t0 (table s) i -> purged t0 t' (S i) ->
  in_use (table s) !! i = Some c -> active c = true ->
  answers (set_table t' (record (ConferenceDelete (groupnum c)) s)) (S i).
Proof.
  intros Hd Hans [H1 H2] [H1' _] Hc Ha j d Hj Had Hij. cbn in Hj |- *.
  destruct (H1' j d Hj Had) as [Ho _]. destruct (H1 i c Hc Ha) as [Hoc _].
  rewrite steady.
  - apply (Hans j d); [| done | lia]. apply H2; [done | done | right; lia].
  - intros He. pose proof (Hd i j c d Hoc Ho Ha Had He). lia.
Qed.

Lemma purge_loop_ok t0 fuel : distinct t0 -> forall i s, wf_groups (table s) -> purged t0 (table s) i ->
  answers s i -> (length (in_use (table s)) <= i + fuel)%nat ->
  exists s', purge_loop fuel (Z.of_nat i) s = Some (tt, s') /\ wf_groups (table s') /\
    calls s' = calls s ++ given_up (drop i (in_use t0)) /\
    exists k, purged t0 (table s') k /\ (length (in_use (table s')) <= k)%nat.
Proof.
  intros Hdis. induction fuel as [|fuel IH]; intros i s Hw Hp Hans Hf; cbn [purge_loop].
  { exists s. rewrite (purged_end t0 (table s) i Hp), app_nil_r by lia. split_and!; try done. exists i. split; [done | lia]. }
  pose proof (length_in_use _ Hw) as Hlen.
  unfold mbind at 1, M_bind at 1, gets at 1. destruct (Z.leb_spec (chats_idx (table s)) (Z.of_nat i)) as [Hi | Hi].
  { exists s. rewrite (purged_end t0 (table s) i Hp), app_nil_r by lia. split_and!; try done. exists i. split; [done | lia]. }
  destruct (lookup_lt_is_Some_2 (in_use (table s)) i) as [c Hc]; [lia |].
  assert (Hslot : slot (Z.of_nat i) s = Some (c, s)).
  { unfold slot, mbind, M_bind, gets, or_undefined. rewrite Nat2Z.id.
    apply lookup_take_Some in Hc as [-> _]. done. }
  rewrite (bind_eval _ _ _ _ _ Hslot). rewrite (given_up_step t0 (table s) i c Hp Hc).
  replace (Z.of_nat i + 1) with (Z.of_nat (S i)) by lia.
  destruct (active c) eqn:Ea; cbn [negb andb].
  2: { apply (IH (S i)); [done | by eapply purged_skip; [..| left] | eapply answers_le; [exact Hans | lia] | lia]. }
  unfold mbind at 1, M_bind at 1, gets at 1. rewrite (Hans i c Hc Ea (le_n i)). fold (lonely peers c).
  destruct (lonely peers c) eqn:El; cbn [andb].
  2: { apply (IH (S i)); [done | by eapply purged_skip; [..| right] | eapply answers_le; [exact Hans | lia] | lia]. }
  destruct (purged_leave t0 (table s) i c Hw Hp Hc Ea El) as (t' & Hlv & Hw' & Hp' & Hle).
  unfold mbind, M_bind, perform, or_undefined, modify. rewrite Hlv. cbn [option_bind mbind fmap].
  set (s1 := set_table t' (record (ConferenceDelete (groupnum c)) s)).
  pose proof (length_in_use t' Hw') as Hlen'. destruct (Z.leb_spec (chats_idx t') (Z.of_nat i)) as [Hd | Hd].
  - exists s1. rewrite (purged_end t0 t' (S i) Hp') by lia. split_and!; try done. exists (S i). split; [done |]. cbn. lia.
  - destruct (IH (S i) s1 Hw' Hp') as (s' & H1 & H2 & H3 & H4); [by eapply answers_leave | cbn; lia |].
    exists s'. split_and!; try done. rewrite H3. cbn. by rewrite <- app_assoc.
Qed.

Lemma purge_ok s : wf_groups (table s) -> distinct (table s) -> answers s 0 ->
  exists s', purge_empty_groups s = Some (tt, s') /\ wf_groups (table s') /\
    calls s' = calls s ++ given_up (in_use (table s)) /\
    forall j c, active c = true ->
      (in_use (table s') !! j = Some c <-> in_use (table s) !! j = Some c /\ lonely peers c = false).
Proof.
  intros Hw Hdis Hans. destruct (purge_loop_ok (table s) (Z.to_nat (chats_idx (table s))) Hdis 0 s Hw)
    as (s' & Hs & Hw' & Hc & k & [H1 H2] & Hk); [split; [split; [done | lia] | done] | done | rewrite length_in_use; done |].
  exists s'. split; [exact Hs |]. split_and!; [done | done |]. intros j c Ha. split.
  - intros Hj. destruct (H1 j c Hj Ha) as [Ho Hl]. split; [done |]. apply Hl.
    apply lookup_lt_Some in Hj. lia.
  - intros [Hj Hl]. apply H2; [done | done | by left].
Qed.

End Purge.

(** ** Contacts that have gone *)

Lemma purge_friend_ok f s : purge_friend f s = Some (tt,
  if friend_exists (calls s) f &&
     match friend_last_online (calls s) f with
     | Some lo => inactive (time (calls s)) lo (inactive_limit s) | None => false end
  then record (FriendDelete f) s else s).
Proof.
  unfold purge_friend, get_time, mbind, M_bind, gets, perform. destruct (friend_exists _ _); cbn [negb andb]; [| done].
  destruct (friend_last_online _ _); [| done]. by destruct (inactive _ _ _).
Qed.

Section Gone.
Hypothesis steady_exists : forall h f f', f' <> f -> friend_exists (h ++ [FriendDelete f']) f = friend_exists h f.
Hypothesis steady_last : forall h f f', f' <> f -> friend_last_online (h ++ [FriendDelete f']) f = friend_last_online h f.
Hypothesis steady_time : forall h f, time (h ++ [FriendDelete f]) = time h.

(** The difference is taken modulo 2^64. *)
Definition gone (h : history) (limit f : Z) : bool :=
  friend_exists h f && match friend_last_online h f with Some lo => limit <? u64 (time h - lo) | None => false end.

Lemma gone_delete h limit f f' : f' <> f -> gone (h ++ [FriendDelete f']) limit f = gone h limit f.
Proof. intros Hf. unfold gone. by rewrite steady_exists, steady_last, steady_time. Qed.

Lemma filter_bool_ext {A} (p q : A -> bool) (l : list A) : (forall x, x ∈ l -> p x = q x) ->
  filter (fun x => p x = true) l = filter (fun x => q x = true) l.
Proof.
  induction l as [|x l IH]; intros H; [done |]. rewrite !filter_cons, (H x), IH; [done | | by left].
  intros y Hy. apply H. by right.
Qed.

Lemma purge_friends_ok l : NoDup l -> forall s, exists s', purge_friends l s = Some (tt, s') /\
  same_bot s s' /\ table s' = table s /\
  calls s' = calls s ++ (FriendDelete <$> filter (fun f => gone (calls s) (inactive_limit s) f = true) l).
Proof.
  induction l as [|f l IH]; intros Hnd s; cbn [purge_friends].
  - exists s. cbn. rewrite app_nil_r. split_and!; done.
  - apply NoDup_cons in Hnd as [Hnin Hnd]. rewrite (bind_eval _ _ _ _ _ (purge_friend_ok f s)).
    unfold inactive. fold (gone (calls s) (inactive_limit s) f).
    rewrite filter_cons. destruct (gone (calls s) (inactive_limit s) f).
    + destruct (IH Hnd (record (FriendDelete f) s)) as (s' & -> & H1 & H2 & H3). exists s'.
      rewrite decide_True by done. split_and!; [done | done | done |]. rewrite H3. cbn.
      rewrite <- app_assoc. do 2 f_equal. cbn. do 2 f_equal. apply filter_bool_ext. intros g Hg.
      rewrite gone_delete; [done |]. by intros ->.
    + destruct (IH Hnd s) as (s' & -> & H1 & H2 & H3). exists s'. rewrite decide_False by done. done.
Qed.
End Gone.

(** ** Whom a key designates *)

(** What the loop leaves in the directory: the keys of the contacts in the slots it
    visits, the others as they were. *)
Lemma names_loop_ok h f n : forall i l l', 0 <= i -> names_loop h f n i l = Some l' ->
  length l' = length l /\
  (forall j, (j < Z.to_nat i \/ Z.to_nat i + n <= j)%nat -> l' !! j = l !! j) /\
  (forall j, (Z.to_nat i <= j < Z.to_nat i + n)%nat -> exists e pk, l' !! j = Some e /\
     friend_public_key h (Z.of_nat j) = Some pk /\
     public_key_str e = hex_text (take (Z.to_nat TOX_PUBLIC_KEY_SIZE) pk)).
Proof.
  induction n as [|n IH]; intros i l l' Hi; cbn [names_loop].
  { intros [= <-]. split_and!; [done | done | lia]. }
  destruct (l !! Z.to_nat i) as [old|] eqn:Eo; [| done].
  destruct (name_entry h f i old) as [e|] eqn:Ee; [| done]. intros H.
  apply IH in H as (H1 & H2 & H3); [| lia]. rewrite length_upd in H1.
  replace (Z.to_nat (i + 1)) with (S (Z.to_nat i)) in * by lia.
  split; [done |]. split.
  - intros j Hj. rewrite H2 by lia. apply lookup_upd_ne. lia.
  - intros j Hj. destruct (decide (j = Z.to_nat i)) as [-> | Hne]; [| apply H3; lia].
    rewrite H2 by lia. rewrite lookup_upd_eq by (by eapply lookup_lt_Some).
    unfold name_entry in Ee. rewrite Z2Nat.id by done. destruct (friend_public_key h i) as [pk|]; [| done].
    destruct (zlen (friend_name h i) <? 128); [| done]. injection Ee as <-.
    exists (read_settings f i (mk_name i (hex_text (take (Z.to_nat TOX_PUBLIC_KEY_SIZE) pk))
      (until_nul (friend_name h i)) false false (send_sn old) (receive_sn old))), pk.
    split_and!; [done | done |]. unfold read_settings. by repeat destruct (read_number _ _ _ _ _ _ _).
Qed.

(** The first entry that matches. *)
Lemma lookup_loop_first pk l : forall i k e, l !! k = Some e -> strstr pk (public_key_str e) = true ->
  (forall j d, (j < k)%nat -> l !! j = Some d -> strstr pk (public_key_str d) = false) ->
  lookup_loop pk l i = i + Z.of_nat k.
Proof.
  induction l as [|d l IH]; intros i k e Hk He Hj; [done |]. cbn [lookup_loop]. destruct k as [|k].
  - injection Hk as ->. rewrite He. lia.
  - rewrite (Hj 0%nat d) by (lia || done).
    rewrite (IH (i + 1) k e); [lia | done | done |]. intros j d' Hlt Hd. apply (Hj (S j)); [lia | done].
Qed.

Lemma strstr_same a b : zlen a = zlen b -> strstr a b = true -> a = b.
Proof.
  intros Hz (l & r & ->)%strstr_spec. rewrite !zlen_app in Hz.
  pose proof (zlen_nonneg l). pose proof (zlen_nonneg r).
  rewrite (zlen_0_nil l), (zlen_0_nil r) by lia. by rewrite app_nil_r.
Qed.

Lemma strstr_nil a : strstr a [] = true.
Proof. by destruct a. Qed.

Lemma hex_text_inj a b : hex_text a = hex_text b -> a = b.
Proof.
  intros H. pose proof (hex_loop_text a []) as Ha. pose proof (hex_loop_text b []) as Hb.
  rewrite app_nil_r in *. rewrite H, Hb in Ha. cbn in Ha. rewrite !app_nil_r in Ha. congruence.
Qed.

(** The channel the bot's own key leads to: the first slot without a contact. *)
Lemma own_key_unused (w w1 : relayer D I) key : get_relay_name_list w = Some w1 ->
  let n := length (friend_list (calls (r_bot w))) in
  (n < Z.to_nat MAX_Friend_NUM)%nat -> length (relay_name_list w) = Z.to_nat MAX_Friend_NUM ->
  (forall j e, (n <= j)%nat -> relay_name_list w !! j = Some e -> public_key_str e = []) ->
  zlen key = TOX_PUBLIC_KEY_SIZE ->
  (forall i pk, friend_public_key (calls (r_bot w)) i = Some pk ->
     zlen pk = TOX_PUBLIC_KEY_SIZE /\ pk <> key) ->
  lookup_ch_num w1 (hex_text key) = Z.of_nat n /\ r_queue w1 = r_queue w /\
  self_public_key_str w1 = hex_text (take (Z.to_nat TOX_ADDRESS_SIZE) self_address).
Proof.
  cbv zeta. intros Hget Hn Hlen Hun Hkey Hpk. unfold get_relay_name_list in Hget.
  set (n := length (friend_list (calls (r_bot w)))) in *. pose proof public_key_pos.
  rewrite (proj2 (Z.ltb_ge _ _)) in Hget by (unfold zlen; fold n; lia).
  destruct (names_loop _ _ _ _ _) as [names|] eqn:Enames; [| done].
  unfold zlen in Enames. rewrite Nat2Z.id in Enames. fold n in Enames.
  destruct (names_loop_ok _ _ _ _ _ _ (Z.le_refl 0) Enames) as (H1 & H2 & H3).
  assert (Hl : lookup_loop (hex_text key) names 0 = Z.of_nat n).
  { destruct (lookup_lt_is_Some_2 names n) as [e He]; [rewrite H1; lia |].
    rewrite (lookup_loop_first (hex_text key) names 0 n e); [lia | done | |].
    - rewrite H2 in He by (right; lia). rewrite (Hun n e) by done. apply strstr_nil.
    - intros j d Hj Hd. destruct (H3 j) as (e' & pk & He' & Hp & Hs); [cbn; lia |].
      rewrite Hd in He'. injection He' as <-. destruct (Hpk _ _ Hp) as [Hz Hne]. rewrite Hs.
      rewrite take_ge by (unfold zlen in *; lia).
      destruct (strstr (hex_text key) (hex_text pk)) eqn:E; [| done].
      apply strstr_same, hex_text_inj in E; [congruence |]. rewrite !zlen_hex_text. lia. }
  destruct (ini_gets _ _ _ _) as [ret text]. injection Hget as <-. unfold lookup_ch_num. cbn.
  split; [exact Hl |]. by split.
Qed.

(** What [mq_enqueue] accepts was a valid request. *)
Lemma enqueue_accepted (w : relayer D I) ch p len now w' :
  relay_enqueue w ch p len now = (0, w') -> 0 <= ch /\ len < MQ_PAYLOAD_MAX.
Proof.
  intros H. unfold relay_enqueue, mq_enqueue in H.
  destruct ((ch <? 0) || (len =? 0) || (MQ_PAYLOAD_MAX <=? len)) eqn:E; [done |]. zbool. lia.
Qed.

(** Queueing touches the queue only. *)
Lemma enqueue_rest (w : relayer D I) ch p len now : exists q, snd (relay_enqueue w ch p len now) = with_queue w q.
Proof.
  unfold relay_enqueue. destruct (mq_enqueue _ _ _ _ _) as [[rc q]|]; [by exists q |].
  exists (r_queue w). by destruct w.
Qed.

(** A request for missing serials puts one command on the channel. *)
Lemma request_gap_wire self (w w' : relayer D I) ch from to now key : wf_mq (r_queue w) ->
  relay_peer_key w ch = Some key -> cstring key -> cstring self ->
  relay_request_gap (g_relay self) w ch from to now = (RELAY_GAP_REQUESTED, w') ->
  exists wire, outgoing w' ≡ₚ outgoing w ++ [(ch, wire)] /\
    tg_decode (Some wire) (zlen wire) = Some (mk_tg_message TG_CMD key self from to 0 []).
Proof.
  intros Hw Hk Hck Hcs. unfold relay_request_gap. cbn [enqueue peer_key self_public_key g_relay]. rewrite Hk.
  destruct (tg_encode_cmd _ _ _ _ _) as [n [wr|]] eqn:Ec; [change (default [] (Some wr)) with wr |].
  2: { exfalso. unfold tg_encode_cmd in Ec. change (RELAY_WIRE_MAX =? 0) with false in Ec. cbv iota in Ec.
       by repeat case_match. }
  destruct (n <=? 0) eqn:En; [done |]. zbool.
  pose proof (tg_encode_cmd_inv _ _ _ _ _ _ _ Ec ltac:(lia) eq_refl) as (Hr & Hs & Hf & Ht & Hwr & Hn & _).
  destruct (relay_enqueue w ch wr n now) as [rc w1] eqn:Ee. destruct (rc =? 0) eqn:Erc; [| done]. zbool. subst rc.
  intros [= <-]. pose proof (enqueue_accepted _ _ _ _ _ _ Ee) as (H1 & H2).
  exists wr. rewrite Hn in *.
  destruct (relay_enqueue_ok w ch wr now Hw H1 ltac:(lia)) as (q & Hq & _ & Hr'). rewrite Ee in Hq.
  destruct (0 <? _)%nat; [| done]. injection Hq as ->. split; [apply Hr' |].
  rewrite Hwr. unfold cmd_wire. rewrite tg_decode_full. by apply tg_decode_cmd_wire.
Qed.

Lemma hex_text_cstring bs : cstring (hex_text bs).
Proof.
  unfold cstring. induction bs as [|c bs IH]; [done |]. rewrite hex_text_cons. cbn [has_char].
  rewrite IH. pose proof (code_range c).
  assert (Hu : forall n, 0 <= n < 16 -> hex_upper n <> NUL).
  { intros n Hn. assert (n ∈ seqZ 0 16) as Hin by (apply elem_of_seqZ; lia).
    revert Hin. apply (Forall_forall (fun n => hex_upper n <> NUL)). by vm_compute; repeat constructor. }
  rewrite !bool_decide_eq_false_2; [done |..]; apply Hu.
  - apply Z.mod_pos_bound. lia.
  - split; [apply Z.div_pos | apply Z.div_lt_upper_bound]; lia.
Qed.

(** The keys of the directory once it is loaded. *)
Lemma loaded_keys (w w1 : relayer D I) ch key : get_relay_name_list w = Some w1 ->
  zlen (friend_list (calls (r_bot w))) <= MAX_Friend_NUM ->
  relay_peer_key w1 ch = Some key -> ch < zlen (friend_list (calls (r_bot w))) ->
  r_queue w1 = r_queue w /\
  self_public_key_str w1 = hex_text (take (Z.to_nat TOX_ADDRESS_SIZE) self_address) /\
  exists pk, friend_public_key (calls (r_bot w)) ch = Some pk /\
    key = hex_text (take (Z.to_nat TOX_PUBLIC_KEY_SIZE) pk).
Proof.
  intros Hget Hn Hk Hch. unfold get_relay_name_list in Hget. rewrite (proj2 (Z.ltb_ge _ _)) in Hget by done.
  destruct (names_loop _ _ _ _ _) as [names|] eqn:Enames; [| done].
  destruct (names_loop_ok _ _ _ _ _ _ (Z.le_refl 0) Enames) as (_ & _ & H3).
  unfold relay_peer_key in Hk. destruct (friend_number_valid ch) eqn:Ev; [| done].
  pose proof (valid_index ch Ev) as Hch0.
  destruct (ini_gets _ _ _ _) as [ret text]. injection Hget as <-. cbn in Hk.
  split; [done |]. split; [done |].
  destruct (H3 (Z.to_nat ch)) as (e & pk & He & Hp & Hs); [lia |]. rewrite He in Hk. injection Hk as <-.
  rewrite Z2Nat.id in Hp by done. by exists pk.
Qed.

(** ** What a relayer makes of a telegram sent to one of its keys *)

(** Text for a key other than our own is forwarded: nothing but the queue changes. *)
Lemma receive_text_other self (w : relayer D I) ch raw tg now : str_eq (tg_receiver tg) self = false ->
  tg_decode (Some raw) (zlen raw) = Some tg -> tg_knd tg = TG_TEXT -> 0 <= ch ->
  0 <= lookup_ch_num w (tg_receiver tg) ->
  exists payload rc q,
    relay_enqueue w (lookup_ch_num w (tg_receiver tg)) payload (zlen payload) now = (rc, with_queue w q) /\
    relay_receive (Some (g_relay self)) w ch (Some raw) (zlen raw) now =
      ((if rc =? 0 then RELAY_RELAYED else RELAY_DISCARDED), with_queue w q).
Proof.
  intros Hs Hd Hk Hch Hl. unfold relay_receive. cbn [self_public_key g_relay].
  destruct ((zlen raw =? 0) || (ch <? 0)) eqn:E.
  { rewrite (proj2 (Z.ltb_ge ch 0) Hch), orb_false_r in E. unfold tg_decode in Hd. by rewrite E in Hd. }
  rewrite Hd, Hk, Hs. unfold relay_forward. cbn [resolve_peer enqueue peer_is_metacom g_relay].
  unfold relay_resolve_peer. rewrite (proj2 (Z.ltb_ge _ _) Hl).
  set (payload := if relay_peer_is_metacom w ch then _ else _). exists payload.
  destruct (enqueue_rest w (lookup_ch_num w (tg_receiver tg)) payload (zlen payload) now) as [q Hq].
  destruct (relay_enqueue _ _ _ _ _) as [rc w1]. cbn in Hq. subst w1. exists rc, q.
  split; [done |]. by destruct (rc =? 0).
Qed.

(** A command for a key other than our own is dropped. *)
Lemma receive_cmd_other {W} (env : relay_env W) self (w : W) ch raw tg now : self_public_key env = Some self ->
  str_eq (tg_receiver tg) self = false -> tg_decode (Some raw) (zlen raw) = Some tg ->
  tg_knd tg = TG_CMD -> relay_receive (Some env) w ch (Some raw) (zlen raw) now = (RELAY_DISCARDED, w).
Proof.
  intros He Hs Hd Hk. unfold relay_receive. rewrite He. destruct (_ || _); [done |]. by rewrite Hd, Hk, Hs.
Qed.

Lemma key_not_address (pk : bytes) : TOX_ADDRESS_SIZE <= zlen self_address ->
  str_eq (hex_text (take (Z.to_nat TOX_PUBLIC_KEY_SIZE) pk))
    (hex_text (take (Z.to_nat TOX_ADDRESS_SIZE) self_address)) = false.
Proof.
  intros Ha. unfold str_eq. apply bool_decide_eq_false_2. intros H%(f_equal zlen).
  rewrite !zlen_hex_text in H. unfold zlen in *. rewrite !length_take in H.
  pose proof public_key_pos. pose proof address_key. lia.
Qed.

Lemma loaded_self (w w1 : relayer D I) : get_relay_name_list w = Some w1 ->
  zlen (friend_list (calls (r_bot w))) <= MAX_Friend_NUM ->
  self_public_key_str w1 = hex_text (take (Z.to_nat TOX_ADDRESS_SIZE) self_address).
Proof.
  intros Hget Hn. unfold get_relay_name_list in Hget. rewrite (proj2 (Z.ltb_ge _ _)) in Hget by done.
  destruct (names_loop _ _ _ _ _); [| done]. destruct (ini_gets _ _ _ _). by injection Hget as <-.
Qed.

End Relayer.

(** ** A process to run examples on

    Two contacts, a three-slot queue, the message database over a connection
    that never fails and an INI file that forgets everything; room 3 has [peers] members, contact 1 was last
    seen at [seen]. *)

Definition pair_core (peers seen : Z) : toxcore := {|
  time _ := 1000;
  friend_name _ _ := $"alice";
  friend_public_key _ f := if (0 <=? f) && (f <? 2) then Some (replicate 32 (chr (97 + f))) else None;
  friend_online _ _ := true;
  friend_last_online _ f := Some (if f =? 1 then seen else 900);
  friend_list _ := [0; 1];
  friend_exists _ f := (0 <=? f) && (f <? 2);
  friend_send_message _ _ _ := (1, 0);
  friend_add_norequest _ _ := 0;
  self_address := replicate 38 "s"%char;
  chatlist _ := [3];
  conference_peer_count _ g := if g =? 3 then Some peers else None;
  conference_get_type _ _ := Some TOX_CONFERENCE_TYPE_TEXT;
  conference_new _ := (4, 0);
  add_av_groupchat _ := -1;
  conference_join _ _ _ _ := (0, 1);
  conference_delete _ _ := true;
  conference_send_message _ _ _ := (true, 0);
  conference_invite _ _ _ := (true, 0);
  conference_set_title _ _ _ := (true, 0);
  savedata _ := $"saved";
  pass_encrypt _ := None |}.

Abbreviation sample_store := (msg_db (gmap Z row) * list db_record)%type.

#[export] Instance sample_ini : ini_file unit := {|
  ini_gets _ _ _ dflt := (zlen dflt, dflt);
  ini_puts i _ _ _ := i |}.

Definition sample_relayer : relayer sample_store unit :=
  mk_relayer sample_bot one_stored (opened_db, []) tt (replicate (Z.to_nat MAX_Friend_NUM) zero_name)
    (replicate (Z.to_nat MAX_Friend_NUM) (sn_tracker_init TG_SN_MIN))
    (replicate (Z.to_nat MAX_Friend_NUM) 0) [] [] 0 0 0.

Lemma sample_ok : relayer_ok (cfg := mq_small) sample_relayer.
Proof.
  split; [apply one_stored_wf | apply sample_wf | apply length_replicate.. | done].
Qed.



(** Claim C32. Two relayers that have loaded their directories cannot recover a gap:
    the request is addressed with the 64 digits of the contact's public key, the
    contact compares it with its own 76-digit address, and drops it without any
    effect. (The policy itself does recover when both sides agree on the keys:
    see [relay_gap_recovery].) *)
Theorem gap_request_discarded `{tox_params, mq_config} {D I} `{!database D} `{!ini_file I}
    (coreA coreB : toxcore) (a0 a a' b0 b : relayer D I) ch chB from to now now' :
  get_relay_name_list (core := coreA) a0 = Some a -> wf_mq (r_queue a0) ->
  zlen (friend_list (toxcore := coreA) (calls (r_bot a0))) <= MAX_Friend_NUM ->
  ch < zlen (friend_list (toxcore := coreA) (calls (r_bot a0))) ->
  relay_request_gap (g_relay (self_public_key_str a)) a ch from to now = (RELAY_GAP_REQUESTED, a') ->
  get_relay_name_list (core := coreB) b0 = Some b ->
  zlen (friend_list (toxcore := coreB) (calls (r_bot b0))) <= MAX_Friend_NUM ->
  TOX_ADDRESS_SIZE <= zlen (self_address (toxcore := coreB)) ->
  exists wire, outgoing a' ≡ₚ outgoing a ++ [(ch, wire)] /\
    relay_receive (Some (g_relay (self_public_key_str b))) b chB (Some wire) (zlen wire) now' =
      (RELAY_DISCARDED, b).
Proof.
  intros Ha Hq Hna Hch Hr Hb Hnb Hadr.
  destruct (relay_peer_key a ch) as [key|] eqn:Ek.
  2: { unfold relay_request_gap in Hr. cbn [enqueue peer_key g_relay] in Hr. by rewrite Ek in Hr. }
  destruct (loaded_keys (core := coreA) a0 a ch key Ha Hna Ek Hch) as (Hqa & Hsa & pk & _ & ->).
  destruct (request_gap_wire (self_public_key_str a) a a' ch from to now _
    ltac:(by rewrite Hqa) Ek (hex_text_cstring _) ltac:(rewrite Hsa; apply hex_text_cstring) Hr) as (wire & Ho & Hd).
  exists wire. split; [done |].
  eapply (receive_cmd_other _ (self_public_key_str b)); [done | | exact Hd | done].
  rewrite (loaded_self (core := coreB) b0 b Hb Hnb). by apply (key_not_address (core := coreB)).
Qed.

(** Text sent to the bot's own public key is not recognised as its own
    and is never stored: the key is found in the first slot of the directory
    without a contact, whose empty text is part of every key, so the text is
    queued for that contact, who does not exist, or dropped. *)
Theorem own_text_forwarded `{tox_params, toxcore, mq_config} {D I} `{!database D} `{!ini_file I}
    (w w1 : relayer D I) ch raw tg now :
  let n := length (friend_list (calls (r_bot w))) in
  let key := take (Z.to_nat TOX_PUBLIC_KEY_SIZE) self_address in
  relayer_ok w -> get_relay_name_list w = Some w1 ->
  (n < Z.to_nat MAX_Friend_NUM)%nat -> TOX_ADDRESS_SIZE <= zlen self_address ->
  (forall j e, (n <= j)%nat -> relay_name_list w !! j = Some e -> public_key_str e = []) ->
  (forall i pk, friend_public_key (calls (r_bot w)) i = Some pk ->
     zlen pk = TOX_PUBLIC_KEY_SIZE /\ pk <> key) ->
  tg_decode (Some raw) (zlen raw) = Some tg -> tg_knd tg = TG_TEXT -> tg_receiver tg = hex_text key ->
  0 <= ch ->
  exists payload rc q,
    relay_enqueue w1 (Z.of_nat n) payload (zlen payload) now = (rc, with_queue w1 q) /\
    relay_receive (Some (g_relay (self_public_key_str w1))) w1 ch (Some raw) (zlen raw) now =
      ((if rc =? 0 then RELAY_RELAYED else RELAY_DISCARDED), with_queue w1 q).
Proof.
  cbv zeta. intros Hok Hget Hn Ha Hun Hpk Hd Hk Hr Hch.
  pose proof public_key_pos. pose proof address_key.
  destruct (own_key_unused w w1 (take (Z.to_nat TOX_PUBLIC_KEY_SIZE) self_address) Hget Hn (ok_names _ Hok) Hun)
    as (Hl & _ & Hs); [unfold zlen in *; rewrite length_take; lia | done |].
  destruct (receive_text_other (self_public_key_str w1) w1 ch raw tg now) as (payload & rc & q & He & Hrec);
    try done.
  - rewrite Hr, Hs. by apply key_not_address.
  - rewrite Hr, Hl. lia.
  - exists payload, rc, q. by rewrite Hr, Hl in He.
Qed.

(** The example once its directory is loaded, with a text for its own key. *)
Definition sample_loaded : relayer sample_store unit :=
  default sample_relayer (get_relay_name_list (core := pair_core 2 900) sample_relayer).

Lemma sample_loads : get_relay_name_list (core := pair_core 2 900) sample_relayer = Some sample_loaded.
Proof.
  unfold sample_loaded. destruct (get_relay_name_list (core := pair_core 2 900) sample_relayer) eqn:E; [done |].
  assert (Hn : is_Some (get_relay_name_list (core := pair_core 2 900) sample_relayer))
    by (apply is_Some_alt; vm_compute; exact Logic.I).
  rewrite E in Hn. by destruct Hn.
Qed.

Definition sample_gap : relay_outcome * relayer sample_store unit :=
  relay_request_gap (g_relay (cfg := mq_small) (self_public_key_str sample_loaded)) sample_loaded 1 3 5 100.

Lemma sample_gap_requested : fst sample_gap = RELAY_GAP_REQUESTED.
Proof. vm_compute. reflexivity. Qed.

Lemma gap_request_discarded_witness : exists wire,
  outgoing (snd sample_gap) ≡ₚ outgoing sample_loaded ++ [(1, wire)] /\
  relay_receive (Some (g_relay (cfg := mq_small) (self_public_key_str sample_loaded))) sample_loaded 0
    (Some wire) (zlen wire) 101 = (RELAY_DISCARDED, sample_loaded).
Proof.
  apply (@gap_request_discarded tox_02 mq_small _ _ _ _ (pair_core 2 900) (pair_core 2 900)
    sample_relayer sample_loaded (snd sample_gap) sample_relayer sample_loaded 1 0 3 5 100 101).
  - exact sample_loads.
  - apply one_stored_wf.
  - by vm_compute.
  - by vm_compute.
  - rewrite <- sample_gap_requested. unfold sample_gap. by destruct (relay_request_gap _ _ _ _ _ _).
  - exact sample_loads.
  - by vm_compute.
  - by vm_compute.
Defined.

Definition own_text : bytes := text_wire (hex_text (replicate 32 "s"%char)) ($"AABB") 7 1700000000 (Some ($"hi")).

Lemma own_text_forwarded_witness : exists payload rc q,
  relay_enqueue (cfg := mq_small) sample_loaded 2 payload (zlen payload) 100 = (rc, with_queue sample_loaded q) /\
  relay_receive (Some (g_relay (cfg := mq_small) (self_public_key_str sample_loaded))) sample_loaded 0
    (Some own_text) (zlen own_text) 100 =
    ((if rc =? 0 then RELAY_RELAYED else RELAY_DISCARDED), with_queue sample_loaded q).
Proof.
  apply (@own_text_forwarded tox_02 (pair_core 2 900) mq_small _ _ _ _ sample_relayer sample_loaded 0 own_text
    (mk_tg_message TG_TEXT (hex_text (replicate 32 "s"%char)) ($"AABB") 7 0 1700000000 ($"hi")) 100).
  - exact sample_ok.
  - exact sample_loads.
  - unfold MAX_Friend_NUM. cbn. lia.
  - by vm_compute.
  - intros j e _ Hj. apply lookup_replicate in Hj as [-> _]. done.
  - intros i pk Hpk. cbn in Hpk. destruct (_ && _) eqn:Ei in Hpk; [| done]. injection Hpk as <-. zbool.
    split; [done |]. assert (i = 0 \/ i = 1) as [-> | ->] by lia; by vm_compute.
  - vm_compute. reflexivity.
  - reflexivity.
  - vm_compute. reflexivity.
  - lia.
Defined.

(** [purge_empty_groups] gives up exactly the rooms with nobody else in
    them, or that the library no longer knows, once each and in table order; the
    others keep their slots. *)
Theorem purge_empty_groups_result `{tox_params, toxcore} s :
  (forall h g g', g' <> g ->
     conference_peer_count (h ++ [ConferenceDelete g']) g = conference_peer_count h g) ->
  wf_groups (table s) -> distinct (table s) ->
  let peers := conference_peer_count (calls s) in
  exists s', purge_empty_groups s = Some (tt, s') /\ wf_groups (table s') /\
    calls s' = calls s ++ given_up peers (in_use (table s)) /\
    forall j c, active c = true ->
      (in_use (table s') !! j = Some c <-> in_use (table s) !! j = Some c /\ lonely peers c = false).
Proof. intros Hs Hw Hd. by apply purge_ok. Qed.

Lemma purge_empty_groups_result_witness : exists s',
  purge_empty_groups (core := pair_core 1 900) sample_bot = Some (tt, s') /\
  calls s' = [ConferenceDelete 3].
Proof.
  destruct (@purge_empty_groups_result tox_02 (pair_core 1 900) sample_bot) as (s' & H1 & _ & H2 & _).
  - done.
  - apply sample_wf.
  - intros [|i] [|j] c d Hc Hd; done.
  - exists s'. split; [exact H1 |]. rewrite H2. vm_compute. reflexivity.
Defined.

(** [purge_inactive_friends] deletes exactly the contacts that exist and
    whose last connection is, modulo 2^64, older than the limit, once each and in
    list order, and changes nothing else. The difference wraps: a contact last
    seen after the clock's present time, as when the clock is set back, counts as
    inactive for ever and is deleted. *)
Theorem purge_inactive_friends_result `{tox_params, toxcore} s :
  let h := calls s in
  (forall h f f', f' <> f -> friend_exists (h ++ [FriendDelete f']) f = friend_exists h f) ->
  (forall h f f', f' <> f -> friend_last_online (h ++ [FriendDelete f']) f = friend_last_online h f) ->
  (forall h f, time (h ++ [FriendDelete f]) = time h) -> NoDup (friend_list h) ->
  (exists s', purge_inactive_friends s = Some (tt, s') /\ same_bot s s' /\ table s' = table s /\
    calls s' = h ++ (FriendDelete <$> filter (fun f => gone h (inactive_limit s) f = true) (friend_list h))) /\
  forall f lo, friend_exists h f = true -> friend_last_online h f = Some lo ->
    0 <= inactive_limit s -> time h < lo -> lo - time h + inactive_limit s < 2 ^ 64 ->
    gone h (inactive_limit s) f = true.
Proof.
  intros h He Hl Ht Hnd. split.
  - unfold purge_inactive_friends. unfold mbind, M_bind, gets. by apply purge_friends_ok.
  - intros f lo Hex Hlo Hlim Hlt Hb. unfold gone. rewrite Hex, Hlo. apply Z.ltb_lt. unfold u64.
    rewrite <- (Z_mod_plus_full _ 1), Z.mod_small; lia.
Qed.

Lemma purge_inactive_friends_result_witness : exists s',
  purge_inactive_friends (core := pair_core 2 1001) sample_bot = Some (tt, s') /\
  calls s' = [FriendDelete 1].
Proof.
  destruct (@purge_inactive_friends_result tox_02 (pair_core 2 1001) sample_bot) as [(s' & H1 & _ & _ & H2) _].
  - done.
  - done.
  - done.
  - apply NoDup_cons. split; [by rewrite list_elem_of_singleton |]. apply NoDup_singleton.
  - exists s'. split; [exact H1 |]. rewrite H2. vm_compute. reflexivity.
Defined.
