(* ===== verification/Rooms.v ===== *)
(** * The record of room members ([src/groupchats.c])

    Who was seen in which conference: the record filled when the process starts
    ([conference_peer_list_initial]) and compared with the conference at every
    change the library reports ([conference_peer_join_left]); and the display of a
    conference message and the listing of the conferences ([src/toxrelayer.c],
    [src/misc.c], [src/commands.c]). *)

From S2P Require Import Prelude.
From S2P Require Import CString.
From S2P Require Import MsgQueue.
From S2P Require Import Misc.
From S2P Require Import Log.
From S2P Require Import GroupChats.
From S2P Require Import Bot.
From S2P Require Import Toxrelayer.

Definition MAX_ROOM_PEER_NUMBER : Z := 1024.
Definition MAX_ROOM_NUMBER : Z := 128.

(** What else is asked of the library: the members of a conference, a key and a
    name each, and its title. [None] is an error. *)
Class toxpeers := {
  conference_peer : history -> Z -> Z -> option (bytes * bytes);
  conference_offline_peer_count : history -> Z -> option Z;
  conference_offline_peer : history -> Z -> Z -> option (bytes * bytes);
  conference_title : history -> Z -> option bytes;
  self_name : history -> bytes;
  self_status_message : history -> bytes;
  tox_version : Z * Z * Z }.

(** A member as recorded: its texts up to their terminators. *)
Record room_peer : Type := mk_room_peer {
  room_peer_nick_name : bytes;
  room_peer_key : bytes;
  online_flag : bool }.

Record rooms : Type := mk_rooms {
  room_peer_list : list (list room_peer);
  room_peer_list_number : list Z }.

(** The globals before any of them is set. *)
Definition zero_rooms : rooms :=
  mk_rooms (replicate (Z.to_nat MAX_ROOM_NUMBER)
              (replicate (Z.to_nat MAX_ROOM_PEER_NUMBER) (mk_room_peer [] [] false)))
    (replicate (Z.to_nat MAX_ROOM_NUMBER) 0).

Section Rooms.
Context `{tox : tox_params} `{core : toxcore} `{peers : toxpeers}.

(** The texts of a member: the key in hexadecimal, the name copied into an array of
    64 bytes. The arrays are not initialised, so a member that does not exist is
    not read. *)
Definition peer_texts (peer : option (bytes * bytes)) : option (bytes * bytes) :=
  do! (public_key, name) := peer;
  assert! 2 * TOX_PUBLIC_KEY_SIZE <? 100;
  assert! zlen name <? 64;
  Some (hex_text (take (Z.to_nat TOX_PUBLIC_KEY_SIZE) public_key), until_nul name).

Definition set_peer (r : rooms) (room i : Z) (p : room_peer) : option rooms :=
  do! l := room_peer_list r !! Z.to_nat room;
  if zlen l <=? i then None
  else Some (mk_rooms (upd (room_peer_list r) (Z.to_nat room) (upd l (Z.to_nat i) p)) (room_peer_list_number r)).

(** ** The record at the start *)

Definition clear_rooms (r : rooms) : rooms :=
  mk_rooms (map (map (fun p => mk_room_peer [] [] (online_flag p))) (room_peer_list r))
    (room_peer_list_number r).

(** Members [i] to [i + n - 1] of one kind, recorded from slot [base] on. *)
Fixpoint record_peers (get : Z -> option (bytes * bytes)) (online : bool) (room base : Z) (n : nat) (i : Z) (r : rooms)
    : option rooms :=
  match n with
  | O => Some r
  | S n =>
    do! (key, nick) := peer_texts (get i);
    do! r := set_peer r room (base + i) (mk_room_peer nick key online);
    record_peers get online room base n (i + 1) r
  end.

(** The slot of a conference is its position in the library's list. *)
Fixpoint record_rooms (h : history) (chats : list Z) (room : Z) (r : rooms) : option rooms :=
  match chats with
  | [] => Some r
  | groupnum :: chats =>
    do! online_num := conference_peer_count h groupnum;
    do! offline_num := conference_offline_peer_count h groupnum;
    if zlen (room_peer_list_number r) <=? room then None
    else
      let r := mk_rooms (room_peer_list r)
                 (upd (room_peer_list_number r) (Z.to_nat room) (i32 (online_num + offline_num))) in
      do! r := record_peers (conference_peer h groupnum) true room 0 (Z.to_nat online_num) 0 r;
      do! r := record_peers (conference_offline_peer h groupnum) false room online_num (Z.to_nat offline_num) 0 r;
      record_rooms h chats (room + 1) r
  end.

Definition conference_peer_list_initial (h : history) (r : rooms) : option rooms :=
  let r := clear_rooms r in
  if zlen (chatlist h) =? 0 then Some r
  else
    assert! zlen (chatlist h) <=? 256;
    record_rooms h (chatlist h) 0 r.

(** ** Joins and departures *)

(** The keys of the members present, read into an array of the stack. *)
Fixpoint online_keys (h : history) (groupnum : Z) (n : nat) (i : Z) : option (list bytes) :=
  match n with
  | O => Some []
  | S n =>
    do! (key, _) := peer_texts (conference_peer h groupnum i);
    if MAX_ROOM_PEER_NUMBER <=? i then None
    else do! keys := online_keys h groupnum n (i + 1); Some (key :: keys)
  end.

(** One comparison: the recorded flag and whether the recorded key is part of a key
    that is present. *)
Definition present (online : list bytes) (p : room_peer) : bool :=
  existsb (fun key => strstr key (room_peer_key p)) online.

Definition flip (p : room_peer) : room_peer :=
  mk_room_peer (room_peer_nick_name p) (room_peer_key p) (negb (online_flag p)).

(** The first record that disagrees is corrected, and the search ends. *)
Fixpoint compare_loop (online : list bytes) (groupnum : Z) (n : nat) (i : Z) (r : rooms) : option rooms :=
  match n with
  | O => Some r
  | S n =>
    do! l := room_peer_list r !! Z.to_nat groupnum;
    do! p := l !! Z.to_nat i;
    if eqb (online_flag p) (present online p) then compare_loop online groupnum n (i + 1) r
    else set_peer r groupnum i (flip p)
  end.

Definition conference_peer_join_left (h : history) (groupnum : Z) (r : rooms) : option rooms :=
  if zlen (chatlist h) =? 0 then Some r
  else
    do! online_num := conference_peer_count h groupnum;
    if online_num =? 0 then Some r
    else
      do! online := online_keys h groupnum (Z.to_nat online_num) 0;
      do! number := room_peer_list_number r !! Z.to_nat groupnum;
      compare_loop online groupnum (Z.to_nat number) 0 r.

Definition on_conference_peer_list_changed (h : history) (conferencenumber : Z) (r : rooms) : option rooms :=
  conference_peer_join_left h conferencenumber r.

(** ** Conference messages *)

(** The name put into the caller's array, which is to hold [TOXIC_MAX_NAME_LENGTH]
    bytes; the library writes the name whole. *)
Definition get_conference_nick_truncate (h : history) (buf : bytes) (peernum conferencenum : Z) : option bytes :=
  match conference_peer h conferencenum peernum with
  | None =>
    do! (buf, _) := copy_tox_str buf TOXIC_MAX_NAME_LENGTH UNKNOWN_NAME (zlen UNKNOWN_NAME);
    CString.store buf (zlen UNKNOWN_NAME) NUL
  | Some (_, name) =>
    do! buf := memcpy buf name (zlen name);
    let len := Z.min (zlen name) (TOXIC_MAX_NAME_LENGTH - 1) in
    do! buf := CString.store buf len NUL;
    Some (filter_str buf len)
  end.

(** What is displayed: the title, the name of the sender, the text. *)
Definition cb_conference_message (h : history) (conferencenumber peernumber : Z) (message : bytes) (length : Z)
    : option (bytes * bytes * bytes) :=
  do! (msg, msg_len) := copy_tox_str (replicate (Z.to_nat (TOX_MAX_MESSAGE_LENGTH + 1)) NUL)
                          (TOX_MAX_MESSAGE_LENGTH + 1) message (u16 length);
  do! msg := CString.store msg msg_len NUL;
  let title := default [] (conference_title h conferencenumber) in
  assert! zlen title <=? TOX_MAX_MESSAGE_LENGTH;
  let title := if TOX_MAX_MESSAGE_LENGTH <=? zlen title then [] else until_nul title in
  do! nick_name := get_conference_nick_truncate h (replicate 128 NUL) peernumber conferencenumber;
  Some (title, until_nul nick_name, until_nul msg).

(** ** The listing of the conferences ([src/commands.c]): what it prints *)

(** A name copied whole into an array of [size] bytes and terminated. *)
Definition name_in (size : Z) (name : bytes) : option bytes :=
  do! nick_name := memcpy (replicate (Z.to_nat size) NUL) name (zlen name);
  do! nick_name := CString.store nick_name (zlen name) NUL;
  Some (until_nul nick_name).

(** A member; its key is put into an array of 128 bytes and not shown. *)
Definition show_member (h : history) (groupnum i : Z) : option output :=
  do! (_, name) := conference_peer h groupnum i;
  do! nick_name := name_in 128 name;
  assert! 2 * TOX_PUBLIC_KEY_SIZE <? 128;
  console_out ($" %03d conference member   nick_name: %s" ++ [LF]) [ArgInt (i32 i); ArgStr nick_name].

Definition show_room (h : history) (groupnum : Z) : option output :=
  match conference_peer_count h groupnum with
  | None => Some []
  | Some num_peers =>
    let type := if bool_decide (conference_get_type h groupnum = Some TOX_CONFERENCE_TYPE_AV) then $"AV " else $"Text" in
    do! title := name_in 256 (default [] (conference_title h groupnum));
    console_out ([LF] ++ $" Room: %02d | %s | online peers: %d | Title: %s" ++ [LF])
      [ArgInt (i32 groupnum); ArgStr type; ArgInt (i32 num_peers); ArgStr title]
    >>> console_out ($"--------------------------------------------------------" ++ [LF]) []
    >>> each (fun _ i => show_member h groupnum i) 0 (seqZ 0 num_peers)
  end.

Definition show_away (h : history) (groupnum : Z) : option output :=
  match conference_offline_peer_count h groupnum with
  | None => Some []
  | Some offline_num =>
    each (fun _ i =>
      do! (_, name) := conference_offline_peer h groupnum i;
      do! nick_name := name_in 128 name;
      console_out ($" %03d conference offline  nick_name: %s" ++ [LF]) [ArgInt (i32 groupnum); ArgStr nick_name])
      0 (seqZ 0 (i32 offline_num))
  end.

(** The library writes its list whole into an array of 256 numbers. *)
Definition conference_basic_info_display (h : history) : option output :=
  (if zlen (chatlist h) =? 0 then console_out ($" No active groupchats" ++ [LF]) [] else Some [])
  >>> (assert! zlen (chatlist h) <=? 256; each (fun _ g => show_room h g) 0 (chatlist h))
  >>> console_out ([LF] ++ $" offline conference member :" ++ [LF]) []
  >>> each (fun _ g => show_away h g) 0 (chatlist h)
  >>> console_out [LF] [].

End Rooms.

(** * Lemmas *)

(** The arrays have their sizes, and no room has more members than slots. *)
Record wf_rooms (r : rooms) : Prop := {
  wf_list : length (room_peer_list r) = Z.to_nat MAX_ROOM_NUMBER;
  wf_slots : Forall (fun l => length l = Z.to_nat MAX_ROOM_PEER_NUMBER) (room_peer_list r);
  wf_number : length (room_peer_list_number r) = Z.to_nat MAX_ROOM_NUMBER;
  wf_bound : Forall (fun n => n <= MAX_ROOM_PEER_NUMBER) (room_peer_list_number r) }.

Lemma zero_rooms_wf : wf_rooms zero_rooms.
Proof. split; cbn; [done | by repeat constructor..]. Qed.

Lemma upd_same {A} (l : list A) i x : l !! i = Some x -> upd l i x = l.
Proof. apply list_insert_id. Qed.

Lemma upd_at {A} (pre l : list A) x y : upd (pre ++ x :: l) (length pre) y = pre ++ y :: l.
Proof. unfold upd. by rewrite insert_app_r_alt, Nat.sub_diag by lia. Qed.

(** The list of one room replaced. *)
Definition set_room (r : rooms) (g : Z) (l : list room_peer) : rooms :=
  mk_rooms (upd (room_peer_list r) (Z.to_nat g) l) (room_peer_list_number r).

Lemma set_room_same r g l : room_peer_list r !! Z.to_nat g = Some l -> set_room r g l = r.
Proof. intros H. destruct r as [a b]. unfold set_room. cbn in *. by rewrite upd_same. Qed.

Lemma set_room_twice r g l l' : set_room (set_room r g l) g l' = set_room r g l'.
Proof. unfold set_room. cbn. by rewrite upd_upd. Qed.

Lemma set_room_get r g l l0 : room_peer_list r !! Z.to_nat g = Some l0 ->
  room_peer_list (set_room r g l) !! Z.to_nat g = Some l.
Proof. intros H%lookup_lt_Some. by apply lookup_upd_eq. Qed.

Lemma set_room_wf r g l : wf_rooms r -> length l = Z.to_nat MAX_ROOM_PEER_NUMBER -> wf_rooms (set_room r g l).
Proof.
  intros Hr Hl. split; cbn; [rewrite length_upd; apply Hr | | apply Hr..].
  apply Forall_lookup. intros i x [(_ & -> & _) | [_ H]]%lookup_upd_Some; [done |]. exact (Forall_lookup_1 _ _ _ _ (wf_slots _ Hr) H).
Qed.

(** ** One comparison, on the list of a room *)

Fixpoint correct (online : list bytes) (n : nat) (l : list room_peer) : list room_peer :=
  match n, l with
  | S n, p :: l => if eqb (online_flag p) (present online p) then p :: correct online n l else flip p :: l
  | _, _ => l
  end.

Lemma length_correct online n l : length (correct online n l) = length l.
Proof. revert l. induction n as [|n IH]; intros [|p l]; cbn; try done. case_match; cbn; by rewrite ?IH. Qed.

Lemma compare_correct online g n : forall r pre l, room_peer_list r !! Z.to_nat g = Some (pre ++ l) -> (n <= length l)%nat ->
  compare_loop online g n (Z.of_nat (length pre)) r = Some (set_room r g (pre ++ correct online n l)).
Proof.
  induction n as [|n IH]; intros r pre l Hr Hn; cbn [compare_loop]; [by rewrite set_room_same |].
  destruct l as [|p l]; [cbn in Hn; lia |]. rewrite Hr, Nat2Z.id, lookup_app_r, Nat.sub_diag by lia. cbn [lookup list_lookup correct].
  destruct (eqb _ _).
  - specialize (IH r (pre ++ [p]) l). rewrite <- app_assoc, length_app in IH. cbn [length app] in IH.
    replace (Z.of_nat (length pre) + 1) with (Z.of_nat (length pre + 1)) by lia. rewrite IH by (done || cbn in Hn; lia).
    by rewrite <- app_assoc.
  - unfold set_peer. rewrite Hr. rewrite (proj2 (Z.leb_gt _ _)) by (unfold zlen; rewrite length_app; cbn; lia).
    rewrite Nat2Z.id, upd_at. done.
Qed.

(** ** Repeated comparisons *)

Definition disagrees (online : list bytes) (p : room_peer) : bool := negb (eqb (online_flag p) (present online p)).

Lemma flip_agrees online p : disagrees online p = true -> disagrees online (flip p) = false.
Proof.
  unfold disagrees, present, flip. cbn. destruct (online_flag p), (existsb _ _); done.
Qed.

Lemma correct_count online n : forall l, count (disagrees online) (take n (correct online n l)) =
  (count (disagrees online) (take n l) - 1)%nat.
Proof.
  induction n as [|n IH]; intros [|p l]; cbn; try done. destruct (eqb _ _) eqn:E; cbn.
  - assert (disagrees online p = false) as -> by (unfold disagrees; by rewrite E). cbn. apply IH.
  - assert (Hd : disagrees online p = true) by (unfold disagrees; by rewrite E).
    rewrite Hd, (flip_agrees _ _ Hd). cbn. lia.
Qed.

Lemma correct_done online n : forall l, count (disagrees online) (take n l) = 0%nat -> correct online n l = l.
Proof.
  induction n as [|n IH]; intros [|p l]; cbn; try done. unfold disagrees at 1. destruct (eqb _ _); cbn; [| done].
  intros H. by rewrite IH.
Qed.

(** Nothing but flags changes, and none after the first [n]. *)
Definition same_member (p q : room_peer) : Prop :=
  room_peer_nick_name p = room_peer_nick_name q /\ room_peer_key p = room_peer_key q.

#[export] Instance same_member_equivalence : Equivalence same_member.
Proof. split; [by intros ? | by intros ?? [] | intros ??? [] []; split; congruence]. Qed.

Lemma correct_same online n : forall l, Forall2 same_member (correct online n l) l /\ drop n (correct online n l) = drop n l.
Proof.
  induction n as [|n IH]; intros [|p l]; cbn; [by split.. |]. destruct (IH l) as [H1 H2].
  destruct (eqb _ _); cbn; split; try done; constructor; done.
Qed.

Section Joins.
Context `{tox : tox_params} `{core : toxcore} `{peers : toxpeers}.

(** The same conference reported [k] times. *)
Fixpoint repeat_join (k : nat) (h : history) (g : Z) (r : rooms) : option rooms :=
  match k with
  | O => Some r
  | S k => do! r := on_conference_peer_list_changed h g r; repeat_join k h g r
  end.

(** What one change of the member list does when the conference can be read. *)
Lemma change_corrects h g r l m n keys : zlen (chatlist h) <> 0 ->
  conference_peer_count h g = Some m -> 0 < m -> online_keys h g (Z.to_nat m) 0 = Some keys ->
  room_peer_list r !! Z.to_nat g = Some l -> room_peer_list_number r !! Z.to_nat g = Some n -> n <= zlen l ->
  on_conference_peer_list_changed h g r = Some (set_room r g (correct keys (Z.to_nat n) l)).
Proof.
  intros Hc Hm Hp Hk Hl Hn Hle. unfold on_conference_peer_list_changed, conference_peer_join_left.
  rewrite (proj2 (Z.eqb_neq _ _) Hc), Hm, (proj2 (Z.eqb_neq m 0)), Hk, Hn by lia.
  apply (compare_correct keys g (Z.to_nat n) r [] l); [done |]. unfold zlen in Hle. lia.
Qed.

Lemma repeat_corrects h g m n keys : zlen (chatlist h) <> 0 ->
  conference_peer_count h g = Some m -> 0 < m -> online_keys h g (Z.to_nat m) 0 = Some keys ->
  forall k r l, room_peer_list r !! Z.to_nat g = Some l -> room_peer_list_number r !! Z.to_nat g = Some n ->
  n <= zlen l -> repeat_join k h g r = Some (set_room r g (Nat.iter k (correct keys (Z.to_nat n)) l)).
Proof.
  intros Hc Hm Hp Hk. induction k as [|k IH]; intros r l Hl Hn Hle; cbn [repeat_join]; [by rewrite set_room_same |].
  rewrite (change_corrects h g r l m n keys) by done.
  rewrite (IH _ (correct keys (Z.to_nat n) l)); [| by eapply set_room_get | done | unfold zlen; by rewrite length_correct].
  rewrite set_room_twice. do 2 f_equal. symmetry. apply Nat.iter_succ_r.
Qed.

Lemma iter_correct keys n : forall k l,
  count (disagrees keys) (take n (Nat.iter k (correct keys n) l)) = (count (disagrees keys) (take n l) - k)%nat /\
  Forall2 same_member (Nat.iter k (correct keys n) l) l /\ drop n (Nat.iter k (correct keys n) l) = drop n l.
Proof.
  induction k as [|k IH]; intros l.
  { split_and!; [cbn; lia | done | done]. }
  destruct (IH l) as (H1 & H2 & H3). 
  change (Nat.iter (S k) (correct keys n) l) with (correct keys n (Nat.iter k (correct keys n) l)).
  rewrite correct_count.
  destruct (correct_same keys n (Nat.iter k (correct keys n) l)) as [H4 H5]. split_and!.
  - lia.
  - by transitivity (Nat.iter k (correct keys n) l).
  - by rewrite H5.
Qed.

(** ** The record at the start *)

Lemma set_peer_number r room i p r' : set_peer r room i p = Some r' -> room_peer_list_number r' = room_peer_list_number r.
Proof. unfold set_peer. intros H. destruct (_ !! _) as [l|]; [| done]. cbn in H. destruct (_ <=? _); [done |]. by injection H as <-. Qed.

Lemma record_peers_number get online room base n : forall i r r',
  record_peers get online room base n i r = Some r' -> room_peer_list_number r' = room_peer_list_number r.
Proof.
  induction n as [|n IH]; intros i r r' H; cbn [record_peers] in H; [by injection H as <- |].
  destruct (peer_texts _) as [[key nick]|]; [| done]. cbn in H.
  destruct (set_peer _ _ _ _) as [r1|] eqn:E; [| done]. cbn in H. apply IH in H. by rewrite H, (set_peer_number _ _ _ _ _ E).
Qed.

(** Only the first slots are given a number of members, one for each conference. *)
Lemma record_rooms_number h chats : forall room r r' j, 0 <= room -> record_rooms h chats room r = Some r' ->
  room + zlen chats <= j -> room_peer_list_number r' !! Z.to_nat j = room_peer_list_number r !! Z.to_nat j.
Proof.
  induction chats as [|g chats IH]; intros room r r' j Hr H Hj; cbn [record_rooms] in H; [by injection H as <- |].
  rewrite zlen_cons in Hj. pose proof (zlen_nonneg chats).
  destruct (conference_peer_count h g) as [a|]; [| done]. cbn in H.
  destruct (conference_offline_peer_count h g) as [b|]; [| done]. cbn in H. destruct (_ <=? room); [done |].
  destruct (record_peers _ _ _ _ _ _ _) as [r1|] eqn:E1; [| done]. cbn in H.
  destruct (record_peers _ _ _ _ _ _ r1) as [r2|] eqn:E2; [| done]. cbn in H.
  rewrite (IH (room + 1) r2 r' j) by (done || lia).
  rewrite (record_peers_number _ _ _ _ _ _ _ _ E2), (record_peers_number _ _ _ _ _ _ _ _ E1).
  cbn. apply lookup_upd_ne. lia.
Qed.

(** A member that cannot be recorded stops the reading. *)
Lemma online_keys_long h g n : forall i j, i <= j < i + Z.of_nat n ->
  peer_texts (conference_peer h g j) = None -> online_keys h g n i = None.
Proof.
  induction n as [|n IH]; intros i j Hj Hn; [lia |]. cbn [online_keys].
  destruct (decide (i = j)) as [-> | Hne]; [by rewrite Hn |].
  destruct (peer_texts (conference_peer h g i)) as [[key nick]|]; [| done].
  destruct (MAX_ROOM_PEER_NUMBER <=? i); [done |].
  by rewrite (IH (i + 1) j) by (lia || exact Hn).
Qed.

End Joins.

(** ** Nothing is overrun while the library's lists fit *)

Section Fitting.
Context `{tox : tox_params} `{core : toxcore} `{peers : toxpeers}.

(** What the record needs of the library: members that exist, with names and
    numbers that fit the arrays. *)
Record peers_ok : Prop := {
  key_fits : 2 * TOX_PUBLIC_KEY_SIZE < 100;
  few_rooms h : zlen (chatlist h) <= MAX_ROOM_NUMBER;
  listed_rooms h g : g ∈ chatlist h ->
    exists a b, conference_peer_count h g = Some a /\ conference_offline_peer_count h g = Some b /\
      0 <= b /\ a + b <= MAX_ROOM_PEER_NUMBER;
  few_members h g a : conference_peer_count h g = Some a -> 0 <= a <= MAX_ROOM_PEER_NUMBER;
  members h g a i : conference_peer_count h g = Some a -> 0 <= i < a ->
    exists key name, conference_peer h g i = Some (key, name) /\ zlen name < 64;
  members_away h g b i : conference_offline_peer_count h g = Some b -> 0 <= i < b ->
    exists key name, conference_offline_peer h g i = Some (key, name) /\ zlen name < 64;
  member_names h g i key name : conference_peer h g i = Some (key, name) -> zlen name < 128;
  titles h g t : conference_title h g = Some t -> zlen t < 256;
  own_name h : zlen (self_name h) < Z.min 128 TOX_MAX_NAME_LENGTH;
  own_status h : zlen (self_status_message h) < 256 }.

Hypothesis Hok : peers_ok.

Lemma texts_ok (p : option (bytes * bytes)) :
  (exists key name, p = Some (key, name) /\ zlen name < 64) -> is_Some (peer_texts p).
Proof.
  intros (key & name & -> & Hn). unfold peer_texts. cbn [mbind option_bind].
  rewrite (proj2 (Z.ltb_lt _ 100) (key_fits Hok)), (proj2 (Z.ltb_lt _ _) Hn). by eexists.
Qed.

Lemma set_peer_ok r room i p : wf_rooms r -> 0 <= room < MAX_ROOM_NUMBER -> 0 <= i < MAX_ROOM_PEER_NUMBER ->
  exists r', set_peer r room i p = Some r' /\ wf_rooms r'.
Proof.
  intros Hr Hroom Hi. unfold set_peer.
  destruct (lookup_lt_is_Some_2 (room_peer_list r) (Z.to_nat room)) as [l Hl]; [rewrite (wf_list _ Hr); lia |].
  pose proof (Forall_lookup_1 _ _ _ _ (wf_slots _ Hr) Hl) as Hz. cbn beta in Hz.
  rewrite Hl. cbn [mbind option_bind]. rewrite (proj2 (Z.leb_gt _ _)) by (unfold zlen; lia).
  eexists. split; [done |]. apply (set_room_wf r room); [done |]. by rewrite length_upd.
Qed.

Lemma record_peers_ok get online room base n : 0 <= room < MAX_ROOM_NUMBER -> forall i r, wf_rooms r -> 0 <= i -> 0 <= base ->
  base + i + Z.of_nat n <= MAX_ROOM_PEER_NUMBER ->
  (forall j, i <= j < i + Z.of_nat n -> is_Some (peer_texts (get j))) ->
  exists r', record_peers get online room base n i r = Some r' /\ wf_rooms r'.
Proof.
  intros Hroom. induction n as [|n IH]; intros i r Hr Hi Hb Hn Hget; cbn [record_peers]; [by eexists |].
  destruct (Hget i) as [[key nick] ->]; [lia |]. cbn [mbind option_bind].
  destruct (set_peer_ok r room (base + i) (mk_room_peer nick key online) Hr Hroom) as (r1 & -> & Hr1); [lia |].
  cbn [mbind option_bind]. apply IH; try done; try lia. intros j Hj. apply Hget. lia.
Qed.

Lemma record_rooms_ok h : forall chats room r, 0 <= room -> room + zlen chats <= MAX_ROOM_NUMBER ->
  (forall g, g ∈ chats -> g ∈ chatlist h) -> wf_rooms r ->
  exists r', record_rooms h chats room r = Some r' /\ wf_rooms r'.
Proof.
  induction chats as [|g chats IH]; intros room r Hroom Hn Hl Hr; cbn [record_rooms]; [by eexists |].
  rewrite zlen_cons in Hn. pose proof (zlen_nonneg chats).
  destruct (listed_rooms Hok h g) as (a & b & Ha & Hb & Hb0 & Hab); [apply Hl; by left |].
  pose proof (few_members Hok h g a Ha) as Ha0. rewrite Ha, Hb. cbn [mbind option_bind].
  rewrite (proj2 (Z.leb_gt _ _)) by (unfold zlen; rewrite (wf_number _ Hr); lia).
  rewrite (i32_id (a + b)) by (unfold MAX_ROOM_PEER_NUMBER in *; lia). set (r0 := mk_rooms _ _).
  assert (Hr0 : wf_rooms r0).
  { split; cbn; [apply Hr | apply Hr | rewrite length_upd; apply Hr |].
    apply Forall_lookup. intros j x [(_ & -> & _) | [_ Hx]]%lookup_upd_Some; [done |].
    exact (Forall_lookup_1 _ _ _ _ (wf_bound _ Hr) Hx). }
  destruct (record_peers_ok (conference_peer h g) true room 0 (Z.to_nat a)) with (i := 0) (r := r0) as (r1 & -> & Hr1);
    [lia | done | lia | lia | lia | intros j Hj; apply texts_ok, (members Hok h g a); [done | lia] |].
  cbn [mbind option_bind].
  destruct (record_peers_ok (conference_offline_peer h g) false room a (Z.to_nat b)) with (i := 0) (r := r1) as (r2 & -> & Hr2);
    [lia | done | lia | lia | lia | intros j Hj; apply texts_ok, (members_away Hok h g b); [done | lia] |].
  cbn [mbind option_bind]. apply IH; [lia | lia | intros x Hx; apply Hl; by right | done].
Qed.

Lemma initial_ok h r : wf_rooms r -> exists r', conference_peer_list_initial h r = Some r' /\ wf_rooms r'.
Proof.
  intros Hr. unfold conference_peer_list_initial.
  assert (Hc : wf_rooms (clear_rooms r)).
  { split; cbn; [rewrite length_map; apply Hr | | apply Hr..].
    apply Forall_fmap, (Forall_impl _ _ _ (wf_slots _ Hr)). intros l Hl. cbn. by rewrite length_map. }
  destruct (_ =? 0); [by eexists |]. pose proof (few_rooms Hok h) as Hf. unfold MAX_ROOM_NUMBER in Hf.
  rewrite (proj2 (Z.leb_le _ 256)) by lia. by apply record_rooms_ok.
Qed.

Lemma online_keys_ok h g a n : conference_peer_count h g = Some a -> forall i, 0 <= i -> i + Z.of_nat n <= a ->
  is_Some (online_keys h g n i).
Proof.
  intros Ha. pose proof (few_members Hok h g a Ha). induction n as [|n IH]; intros i Hi Hn; cbn [online_keys]; [by eexists |].
  destruct (texts_ok (conference_peer h g i)) as [[key nick] ->]; [apply (members Hok h g a); [done | lia] |].
  cbn [mbind option_bind]. rewrite (proj2 (Z.leb_gt _ _)) by lia. destruct (IH (i + 1)) as [keys ->]; [lia.. |]. by eexists.
Qed.

Lemma changed_ok h g r : wf_rooms r -> 0 <= g < MAX_ROOM_NUMBER -> is_Some (conference_peer_count h g) ->
  exists r', on_conference_peer_list_changed h g r = Some r' /\ wf_rooms r'.
Proof.
  intros Hr Hg [a Ha]. destruct (decide (zlen (chatlist h) = 0)) as [Hz | Hz].
  { exists r. split; [| done]. unfold on_conference_peer_list_changed, conference_peer_join_left. by rewrite Hz. }
  destruct (decide (a = 0)) as [-> | Hne].
  { exists r. split; [| done]. unfold on_conference_peer_list_changed, conference_peer_join_left.
    by rewrite (proj2 (Z.eqb_neq _ _) Hz), Ha. }
  pose proof (few_members Hok h g a Ha). destruct (online_keys_ok h g a (Z.to_nat a) Ha 0) as [keys Hk]; [lia.. |].
  destruct (lookup_lt_is_Some_2 (room_peer_list r) (Z.to_nat g)) as [l Hl]; [rewrite (wf_list _ Hr); lia |].
  destruct (lookup_lt_is_Some_2 (room_peer_list_number r) (Z.to_nat g)) as [n Hn]; [rewrite (wf_number _ Hr); lia |].
  pose proof (Forall_lookup_1 _ _ _ _ (wf_slots _ Hr) Hl) as Hlen. pose proof (Forall_lookup_1 _ _ _ _ (wf_bound _ Hr) Hn) as Hb.
  cbn beta in Hlen, Hb.
  rewrite (change_corrects h g r l a n keys); try done; [| lia | unfold zlen; lia].
  eexists. split; [done |]. apply set_room_wf; [done |]. by rewrite length_correct.
Qed.

Lemma title_short h g : zlen (default [] (conference_title h g)) < 256.
Proof. destruct (conference_title h g) as [t|] eqn:E; [exact (titles Hok _ _ _ E) | done]. Qed.

Lemma conference_message_ok h g p message length : 0 <= length < 2 ^ 16 -> length <= zlen message ->
  is_Some (cb_conference_message h g p message length).
Proof.
  intros Hl Hz. unfold cb_conference_message. pose proof message_size. unfold u16. rewrite Z.mod_small by lia.
  destruct (copy_ok (TOX_MAX_MESSAGE_LENGTH + 1) message length) as (b & -> & Hb & _); [lia | lia |].
  cbn [mbind option_bind]. destruct (store_in b (Z.min length (TOX_MAX_MESSAGE_LENGTH + 1 - 1)) NUL) as (b1 & -> & _); [lia |].
  cbn [mbind option_bind].
  pose proof (title_short h g) as Ht. rewrite (proj2 (Z.leb_le _ TOX_MAX_MESSAGE_LENGTH)) by lia. unfold get_conference_nick_truncate.
  destruct (conference_peer h g p) as [[key name]|] eqn:Ep; [| by eexists].
  pose proof (member_names Hok _ _ _ _ _ Ep) as Hn. pose proof (zlen_nonneg name).
  destruct (memcpy_store (replicate (Z.to_nat 128) NUL) name (zlen name)) as (b2 & b3 & H1 & H2 & _);
    [lia | unfold zlen in *; rewrite length_replicate; lia | lia |].
  change (Z.to_nat 128) with 128%nat in H1. rewrite H1. cbn [mbind option_bind].
  rewrite Z.min_l by (unfold TOXIC_MAX_NAME_LENGTH; lia). rewrite H2. by eexists.
Qed.

Lemma name_in_ok size name : zlen name < size -> is_Some (name_in size name).
Proof.
  intros Hn. pose proof (zlen_nonneg name). unfold name_in.
  destruct (memcpy_store (replicate (Z.to_nat size) NUL) name (zlen name)) as (b & b' & -> & -> & _);
    [lia | unfold zlen in *; rewrite length_replicate; lia | lia |]. by eexists.
Qed.

(** The members that are counted have names, short enough. *)
Lemma listed_members h g : g ∈ chatlist h ->
  (forall n i, conference_peer_count h g = Some n -> i ∈ seqZ 0 n ->
     exists key name, conference_peer h g i = Some (key, name) /\ zlen name < 64) /\
  (forall n i, conference_offline_peer_count h g = Some n -> i ∈ seqZ 0 (i32 n) ->
     exists key name, conference_offline_peer h g i = Some (key, name) /\ zlen name < 64).
Proof.
  intros Hg. destruct (listed_rooms Hok h g Hg) as (a & b & Ha & Hb & Hb0 & Hab).
  pose proof (few_members Hok h g a Ha). split; intros n i Hn Hi%elem_of_seqZ.
  - rewrite Ha in Hn. injection Hn as <-. apply (members Hok h g a); [done | lia].
  - rewrite Hb in Hn. injection Hn as <-. rewrite i32_id in Hi by (unfold MAX_ROOM_PEER_NUMBER in *; lia).
    apply (members_away Hok h g b); [done | lia].
Qed.

Lemma show_room_ok h g : g ∈ chatlist h -> is_Some (show_room h g) /\ is_Some (show_away h g).
Proof.
  intros Hg. destruct (listed_members h g Hg) as [Hin Haway]. unfold show_room, show_away. split.
  - destruct (conference_peer_count h g) as [n|]; [| by eexists].
    destruct (name_in_ok 256 _ (title_short h g)) as [t ->].
    apply followed_defined; [by eexists |]. apply followed_defined; [by eexists |].
    apply each_defined. intros _ i Hi. destruct (Hin n i eq_refl Hi) as (key & name & E & Hn). unfold show_member. rewrite E.
    destruct (name_in_ok 128 name) as [nm ->]; [lia |]. pose proof (key_fits Hok).
    rewrite (proj2 (Z.ltb_lt _ 128)) by lia. by eexists.
  - destruct (conference_offline_peer_count h g) as [n|]; [| by eexists]. apply each_defined. intros _ i Hi.
    destruct (Haway n i eq_refl Hi) as (key & name & -> & Hn). destruct (name_in_ok 128 name) as [nm ->]; [lia |]. by eexists.
Qed.

Lemma basic_display_ok h : is_Some (conference_basic_info_display h).
Proof.
  unfold conference_basic_info_display. pose proof (few_rooms Hok h) as Hf. unfold MAX_ROOM_NUMBER in Hf.
  rewrite (proj2 (Z.leb_le _ 256)) by lia.
  apply followed_defined; [destruct (_ =? _); by eexists |].
  apply followed_defined; [apply each_defined; intros _ g Hg; by apply show_room_ok |].
  apply followed_defined; [by eexists |].
  apply followed_defined; [apply each_defined; intros _ g Hg; by apply show_room_ok | by eexists].
Qed.

End Fitting.

(** * Properties *)

(** Claim C38. Once the members of a conference stop changing the record catches up:
    every change reported corrects one flag, and after as many reports as there
    were flags to correct each recorded member is marked present exactly when its
    key is among those present, a further report changes nothing, and nothing but
    flags of that room has changed. *)
Theorem room_record_converges `{tox_params, toxcore, toxpeers} h g r l m n keys :
  zlen (chatlist h) <> 0 -> conference_peer_count h g = Some m -> 0 < m ->
  online_keys h g (Z.to_nat m) 0 = Some keys ->
  room_peer_list r !! Z.to_nat g = Some l -> room_peer_list_number r !! Z.to_nat g = Some n -> n <= zlen l ->
  exists l', repeat_join (count (disagrees keys) (take (Z.to_nat n) l)) h g r = Some (set_room r g l') /\
    (forall i p, (i < Z.to_nat n)%nat -> l' !! i = Some p -> online_flag p = present keys p) /\
    on_conference_peer_list_changed h g (set_room r g l') = Some (set_room r g l') /\
    Forall2 same_member l' l /\ drop (Z.to_nat n) l' = drop (Z.to_nat n) l.
Proof.
  intros Hc Hm Hp Hk Hl Hn Hle. set (k := count _ _).
  exists (Nat.iter k (correct keys (Z.to_nat n)) l). set (l' := Nat.iter _ _ l).
  destruct (iter_correct keys (Z.to_nat n) k l) as (K1 & K2 & K3). fold l' in K1, K2, K3. unfold k in K1. rewrite Nat.sub_diag in K1.
  split_and!; [by apply (repeat_corrects h g m n keys Hc Hm Hp Hk) | | | done | done].
  - intros i p Hi Hlk. destruct (disagrees keys p) eqn:E; [exfalso |].
    + assert (0 < count (disagrees keys) (take (Z.to_nat n) l'))%nat; [| lia].
      apply (count_pos _ _ i p); [| done]. by rewrite lookup_take_lt.
    + unfold disagrees in E. apply negb_false_iff, eqb_prop in E. done.
  - rewrite (change_corrects h g _ l' m n keys); try done; [| by eapply set_room_get | unfold zlen in *; by rewrite (Forall2_length _ _ _ K2)].
    by rewrite set_room_twice, correct_done.
Qed.

(** The record of a conference is filled in by its position in the
    library's list and read by its number: a conference whose number is not below
    the number of conferences at the start has no record, and no join or departure
    is ever noticed. *)
Theorem room_record_misplaced `{tox_params, toxcore, toxpeers} h0 h g r r' :
  conference_peer_list_initial h0 zero_rooms = Some r -> zlen (chatlist h0) <= g < MAX_ROOM_NUMBER ->
  on_conference_peer_list_changed h g r = Some r' -> r' = r.
Proof.
  intros Hi Hg He. assert (Hn : room_peer_list_number r !! Z.to_nat g = Some 0).
  { unfold conference_peer_list_initial in Hi. pose proof (zlen_nonneg (chatlist h0)).
    assert (Hz : room_peer_list_number (clear_rooms zero_rooms) !! Z.to_nat g = Some 0).
    { apply lookup_replicate. split; [done |]. unfold MAX_ROOM_NUMBER in *. lia. }
    destruct (_ =? 0); [by injection Hi as <- |]. destruct (_ <=? 256); [| done].
    rewrite (record_rooms_number h0 (chatlist h0) 0 (clear_rooms zero_rooms) r g); [done | lia | done | lia]. }
  unfold on_conference_peer_list_changed, conference_peer_join_left in He.
  destruct (zlen (chatlist h) =? 0); [by injection He as <- |].
  destruct (conference_peer_count h g) as [m|]; [| done]. cbn in He. destruct (m =? 0); [by injection He as <- |].
  destruct (online_keys h g (Z.to_nat m) 0) as [keys|]; [| done]. cbn in He. rewrite Hn in He. by injection He as <-.
Qed.

(** Claim C39. Any member of a conference can overrun the bot's stack: a member
    whose name has 64 bytes or more (the protocol allows 128) is read into an array
    of 64 at the next change of the list; and a conference numbered 128 or more is
    looked up past the end of the record. *)
Theorem room_member_overruns `{tox_params, toxcore, toxpeers} h g r m i key name :
  zlen (chatlist h) <> 0 -> conference_peer_count h g = Some m -> 0 <= i < m ->
  conference_peer h g i = Some (key, name) -> wf_rooms r -> 64 <= zlen name \/ MAX_ROOM_NUMBER <= g ->
  on_conference_peer_list_changed h g r = None.
Proof.
  intros Hc Hm Hi Hp Hr Hbad. unfold on_conference_peer_list_changed, conference_peer_join_left.
  rewrite (proj2 (Z.eqb_neq _ _) Hc), Hm, (proj2 (Z.eqb_neq m 0)) by lia. destruct Hbad as [Hlong | Hg].
  - rewrite (online_keys_long h g (Z.to_nat m) 0 i); [done | lia |]. unfold peer_texts. rewrite Hp.
    destruct (_ <? 100); [| done]. by rewrite (proj2 (Z.ltb_ge _ _)).
  - destruct (online_keys _ _ _ _); [| done]. rewrite lookup_ge_None_2; [done |].
    rewrite (wf_number _ Hr). lia.
Qed.

(** ** A conference to run examples on

    Room 3 of the example library: two members present, one away. *)
#[export] Instance room_peers (name : bytes) : toxpeers := {|
  conference_peer _ g i := if (g =? 3) && (0 <=? i) && (i <? 2) then Some (replicate 32 (chr (97 + i)), name) else None;
  conference_offline_peer_count _ g := if g =? 3 then Some 1 else None;
  conference_offline_peer _ g i := if (g =? 3) && (i =? 0) then Some (replicate 32 "z"%char, $"zoe") else None;
  conference_title _ _ := Some ($"title");
  self_name _ := $"bot";
  self_status_message _ := $"here";
  tox_version := (0, 2, 18) |}.

Definition key_of (c : byte) : bytes := hex_text (replicate 32 c).

(** A record of room 3 in which one member has arrived and one has left since. *)
Definition stale_room : list room_peer :=
  mk_room_peer ($"ann") (key_of "a"%char) false :: mk_room_peer ($"zoe") (key_of "z"%char) true ::
  replicate (Z.to_nat MAX_ROOM_PEER_NUMBER - 2) (mk_room_peer [] [] false).

Definition stale_rooms : rooms :=
  mk_rooms (upd (room_peer_list zero_rooms) 3 stale_room) (upd (room_peer_list_number zero_rooms) 3 2).

Lemma room_record_converges_witness : exists l',
  repeat_join (core := pair_core 2 900) (peers := room_peers ($"alice")) 2 [] 3 stale_rooms = Some (set_room stale_rooms 3 l') /\
  (forall i p, (i < 2)%nat -> l' !! i = Some p ->
     online_flag p = present [key_of "a"%char; key_of "b"%char] p).
Proof.
  destruct (@room_record_converges tox_02 (pair_core 2 900) (room_peers ($"alice")) [] 3 stale_rooms stale_room 2 2
    [key_of "a"%char; key_of "b"%char]) as (l' & H1 & H2 & _).
  - done.
  - reflexivity.
  - lia.
  - vm_compute. reflexivity.
  - reflexivity.
  - reflexivity.
  - vm_compute. discriminate.
  - exists l'. exact (conj H1 H2).
Defined.

Definition first_record : option rooms :=
  conference_peer_list_initial (tox := tox_02) (core := pair_core 2 900) (peers := room_peers ($"alice")) [] zero_rooms.

Lemma room_record_misplaced_witness : exists r,
  first_record = Some r /\
  on_conference_peer_list_changed (core := pair_core 2 900) (peers := room_peers ($"alice")) [] 3 r = Some r.
Proof.
  destruct first_record as [r|] eqn:Er.
  2: { assert (Hn : is_Some first_record) by (apply is_Some_alt; vm_compute; exact Logic.I).
       rewrite Er in Hn. by destruct Hn. }
  destruct (on_conference_peer_list_changed (core := pair_core 2 900) (peers := room_peers ($"alice")) [] 3 r) as [r'|] eqn:E.
  - exists r. split; [done |]. rewrite E. f_equal.
    apply (@room_record_misplaced tox_02 (pair_core 2 900) (room_peers ($"alice")) [] [] 3 r r' Er); [by split | exact E].
  - exfalso. assert (Hn : is_Some (first_record ≫=
      on_conference_peer_list_changed (core := pair_core 2 900) (peers := room_peers ($"alice")) [] 3))
      by (apply is_Some_alt; vm_compute; exact Logic.I).
    rewrite Er in Hn. cbn [mbind option_bind] in Hn. rewrite E in Hn. by destruct Hn.
Defined.

Lemma room_member_overruns_witness :
  on_conference_peer_list_changed (core := pair_core 2 900) (peers := room_peers (replicate 64 "n"%char)) [] 3 zero_rooms = None.
Proof.
  apply (@room_member_overruns tox_02 (pair_core 2 900) (room_peers (replicate 64 "n"%char)) [] 3 zero_rooms 2 1
    (replicate 32 "b"%char) (replicate 64 "n"%char)).
  - done.
  - reflexivity.
  - lia.
  - reflexivity.
  - apply zero_rooms_wf.
  - left. vm_compute. discriminate.
Defined.

Lemma room_peers_ok : peers_ok (tox := tox_02) (core := pair_core 2 900) (peers := room_peers ($"alice")).
Proof.
  split; try done; cbn.
  - intros h g Hg. apply list_elem_of_singleton in Hg as ->. by exists 2, 1.
  - intros h g a H. case_match; [by injection H as <- | done].
  - intros h g a i H Hi. destruct (g =? 3); [| done]. injection H as <-. cbn.
    rewrite (proj2 (Z.leb_le 0 i)), (proj2 (Z.ltb_lt i 2)) by lia. by eexists _, _.
  - intros h g b i H Hi. destruct (g =? 3); [| done]. injection H as <-. assert (i = 0) as -> by lia. by eexists _, _.
  - intros h g i key name H. case_match; [by injection H as <- <- | done].
  - intros h g t [= <-]. done.
Qed.
