(* ===== verification/Console.v ===== *)
(** * Start-up, console and event loop ([src/toxrelayer.c])

    [main]: what is restored when the process starts, the loop around
    [tox_iterate] with its periodic work, and the operator's console, whose lines
    are commands or telegrams for the current contact. *)

From S2P Require Import Prelude.
From S2P Require Import CString.
From S2P Require Import Telegram.
From S2P Require Import SnTracker.
From S2P Require Import MsgQueue.
From S2P Require Import MqPersist.
From S2P Require Import Relay.
From S2P Require Import MsgDatabase.
From S2P Require Import Misc.
From S2P Require Import Log.
From S2P Require Import GroupChats.
From S2P Require Import Bot.
From S2P Require Import Network.
From S2P Require Import Commands.
From S2P Require Import Toxrelayer.
From S2P Require Import Rooms.

Definition FRIEND_PURGE_INTERVAL : Z := 60 * 60.
Definition BOOTSTRAP_INTERVAL : Z := 20.
Definition HELL_SIGNAL_INTERVAL : Z := 16.
Definition QUEUE_SAVE_INTERVAL : Z := 5.
Definition QUEUE_FILE : bytes := $"mq_queue.dat".
Definition BS : byte := "008"%char.

(** ** State

    The process with the rest of the globals: the tokenizer, the line being typed,
    the hello counters, and the times [main] keeps. *)
Record console (D I : Type) : Type := mk_console {
  k_relayer : relayer D I;
  k_rooms : rooms;
  token : bytes;
  lineindex : Z;
  cm_buffer : bytes;
  line_index : Z;
  max_friend_num : Z;
  hello_counter : list Z;
  g_queue_dirty : bool;
  cur_time : Z;
  last_queue_service : Z;
  last_queue_save : Z;
  last_friend_purge : Z;
  last_group_purge : Z }.
Arguments mk_console {D I}.
Arguments k_relayer {D I}.
Arguments k_rooms {D I}.
Arguments token {D I}.
Arguments lineindex {D I}.
Arguments cm_buffer {D I}.
Arguments line_index {D I}.
Arguments max_friend_num {D I}.
Arguments hello_counter {D I}.
Arguments g_queue_dirty {D I}.
Arguments cur_time {D I}.
Arguments last_queue_service {D I}.
Arguments last_queue_save {D I}.
Arguments last_friend_purge {D I}.
Arguments last_group_purge {D I}.

(** ** The tokenizer *)

Definition separator (c : byte) : bool :=
  bool_decide (c = SPC) || bool_decide (c = CR) || bool_decide (c = LF).

Definition line_end (c : byte) : bool :=
  bool_decide (c = NUL) || bool_decide (c = CR) || bool_decide (c = LF).

(** One turn of the loop copies a character or skips a blank, or returns: 128 turns
    are always enough. The token stays unterminated when the line is longer. *)
Fixpoint token_loop (fuel : nat) (mess token : bytes) (i lineindex : Z) : option (bytes * Z) :=
  match fuel with
  | O => None
  | S fuel =>
    if 127 <=? lineindex then Some (token, lineindex)
    else
      do! c := mess !! Z.to_nat lineindex;
      do! (token, i, lineindex) :=
        (if negb (separator c)
         then do! token := CString.store token i c; Some (token, i + 1, lineindex + 1)
         else Some (token, i, lineindex));
      do! c := mess !! Z.to_nat lineindex;
      let blank := bool_decide (c = SPC) in
      let lineindex := if blank then lineindex + 1 else lineindex in
      if blank && (0 <? i) then do! token := CString.store token i NUL; Some (token, lineindex)
      else
        do! c := mess !! Z.to_nat lineindex;
        if line_end c then do! token := CString.store token i NUL; Some (token, lineindex)
        else token_loop fuel mess token i lineindex
  end.

Section Console.
Context `{tox : tox_params} `{core : toxcore} `{peers : toxpeers} `{cfg : mq_config} {D I : Type} `{db : !database D} `{ini : !ini_file I}.

Definition with_relayer (k : console D I) (w : relayer D I) : console D I := mk_console w (k_rooms k) (token k) (lineindex k) (cm_buffer k) (line_index k)
  (max_friend_num k) (hello_counter k) (g_queue_dirty k) (cur_time k) (last_queue_service k) (last_queue_save k)
  (last_friend_purge k) (last_group_purge k).
Definition with_rooms (k : console D I) r : console D I := mk_console (k_relayer k) r (token k) (lineindex k) (cm_buffer k) (line_index k)
  (max_friend_num k) (hello_counter k) (g_queue_dirty k) (cur_time k) (last_queue_service k) (last_queue_save k)
  (last_friend_purge k) (last_group_purge k).
Definition with_token (k : console D I) t i : console D I := mk_console (k_relayer k) (k_rooms k) t i (cm_buffer k) (line_index k)
  (max_friend_num k) (hello_counter k) (g_queue_dirty k) (cur_time k) (last_queue_service k) (last_queue_save k)
  (last_friend_purge k) (last_group_purge k).
Definition with_line (k : console D I) b i : console D I := mk_console (k_relayer k) (k_rooms k) (token k) (lineindex k) b i
  (max_friend_num k) (hello_counter k) (g_queue_dirty k) (cur_time k) (last_queue_service k) (last_queue_save k)
  (last_friend_purge k) (last_group_purge k).
Definition with_counters (k : console D I) l : console D I := mk_console (k_relayer k) (k_rooms k) (token k) (lineindex k) (cm_buffer k) (line_index k)
  (max_friend_num k) l (g_queue_dirty k) (cur_time k) (last_queue_service k) (last_queue_save k)
  (last_friend_purge k) (last_group_purge k).
Definition with_dirty (k : console D I) b : console D I := mk_console (k_relayer k) (k_rooms k) (token k) (lineindex k) (cm_buffer k) (line_index k)
  (max_friend_num k) (hello_counter k) b (cur_time k) (last_queue_service k) (last_queue_save k)
  (last_friend_purge k) (last_group_purge k).
Definition with_times (k : console D I) now service save friends groups : console D I := mk_console (k_relayer k) (k_rooms k) (token k)
  (lineindex k) (cm_buffer k) (line_index k) (max_friend_num k) (hello_counter k) (g_queue_dirty k) now service save
  friends groups.

(** [on_queue_changed]: the flag is set by every change the queue reports. *)
Definition changes (q : mq) : nat :=
  List.length (filter (fun e => match e with EvChange => true | _ => false end = true) (q_events q)).

Definition note_queue (k : console D I) (w : relayer D I) : console D I :=
  with_dirty (with_relayer k w)
    (g_queue_dirty k || (changes (r_queue (k_relayer k)) <? changes (r_queue w))%nat).

Definition get_token (k : console D I) (mess : bytes) : option (console D I) :=
  do! (t, i) := token_loop 128 mess (token k) 0 (lineindex k); Some (with_token k t i).

(** ** The operator's commands *)

(** The name of a contact copied into an array of [size] bytes. The library gives
    the length of the name of a contact that does not exist as [SIZE_MAX], so the
    terminator is stored before the array. *)
Definition contact_name (w : relayer D I) (size friendnum : Z) : option bytes :=
  assert! friend_exists (calls (r_bot w)) friendnum;
  read_name w size friendnum.

(** [ESC] starts and ends the colour of a line. *)
Definition CYAN : bytes := "027"%char :: $"[36m".
Definition PLAIN : bytes := "027"%char :: $"[0m" ++ [LF].

(** The line of a contact and of a conference in [local_info_display]. *)
Definition info_contact (w : relayer D I) (i f : Z) : option output :=
  do! name := contact_name w 128 f;
  console_out (CYAN ++ $"    %03lu :  %s" ++ PLAIN) [ArgSize (i + 1); ArgStr name].

Definition info_conference (w : relayer D I) (groupnum : Z) : option output :=
  let h := calls (r_bot w) in
  match conference_peer_count h groupnum with
  | None => Some []
  | Some num_peers =>
    do! idx := group_index (table (r_bot w)) groupnum;
    do! title := if idx =? -1 then Some ($"None")
                 else do! c := g_chats (table (r_bot w)) !! Z.to_nat idx;
                      Some (if title_len c =? 0 then $"None" else title c);
    let type := if bool_decide (conference_get_type h groupnum = Some TOX_CONFERENCE_TYPE_AV) then $"Audio" else $"Text" in
    console_out ($" Group %d | %s | peers: %d | Title: %s" ++ [LF])
      [ArgInt (i32 groupnum); ArgStr type; ArgInt (i32 num_peers); ArgStr title]
  end.

(** The bot's own name and status message are read into arrays of 128 and 256 bytes;
    the list of conferences is written whole into [groupchat_list], although fewer
    would be shown. *)
Definition local_info_display (w : relayer D I) : option output :=
  let h := calls (r_bot w) in
  let numfriends := zlen (friend_list h) in
  if numfriends =? 0 then Some []
  else
    (do! name := name_in 128 (self_name h); console_out (CYAN ++ [LF] ++ $" NickName: %s" ++ PLAIN) [ArgStr name])
    >>> (do! status_msg := name_in 256 (self_status_message h);
         console_out ($" Status Message :" ++ [LF] ++ $"     %s" ++ [LF]) [ArgStr status_msg])
    >>> console_out ($" Uptime: %s" ++ [LF])
          [ArgStr (get_elapsed_time_str 64 (u64 (time h - start_time (r_bot w))))]
    >>> console_out (CYAN ++ $" Friends: %d (%d online)" ++ PLAIN)
          [ArgInt (i32 numfriends); ArgInt (num_online_friends (r_bot w))]
    >>> each (info_contact w) 0 (friend_list h)
    >>> console_out ($" Inactive friends are purged after %lu days" ++ [LF])
          [ArgSize (inactive_limit (r_bot w) / SECONDS_IN_DAY)]
    >>> if zlen (chatlist h) =? 0 then console_out ($" No active groupchats" ++ [LF]) []
        else
          (assert! zlen (chatlist h) <=? MAX_NUM_GROUPS;
           each (fun _ g => info_conference w g) 0 (take (Z.to_nat MAX_NUM_GROUPS) (chatlist h)))
          >>> conference_basic_info_display h.

Definition node_contact (w : relayer D I) (i f : Z) : option output :=
  do! name := contact_name w 128 f;
  let status_msg := if friend_online (calls (r_bot w)) f then $" online" else $"offline" in
  console_out ($"    %03zu :  %s  %s" ++ [LF]) [ArgSize i; ArgStr status_msg; ArgStr name].

Definition local_node_info_display (w : relayer D I) : option output :=
  let h := calls (r_bot w) in
  let numfriends := zlen (friend_list h) in
  if numfriends =? 0 then Some []
  else
    (do! name := name_in 128 (self_name h); console_out ($" Local Node NickName: %s" ++ [LF]) [ArgStr name])
    >>> (do! status_msg := name_in 256 (self_status_message h);
         console_out ([LF] ++ $" Status Message :" ++ [LF] ++ $"   %s" ++ [LF]) [ArgStr status_msg])
    >>> console_out ($" Friends: %02d" ++ [LF]) [ArgInt (i32 numfriends)]
    >>> each (node_contact w) 0 (friend_list h)
    >>> if zlen (chatlist h) =? 0 then console_out ($" No active groupchats" ++ [LF]) []
        else console_out ($" Active groupchats: %zu" ++ [LF]) [ArgSize (zlen (chatlist h))].

Definition set_relayer_public_key (k : console D I) (user_input_msg : bytes) : option (console D I) :=
  let k := with_token k (token k) 0 in
  do! k := get_token k user_input_msg;
  do! k := get_token k user_input_msg;
  let key := until_nul (token k) in
  let w := with_ini (k_relayer k)
             (ini_puts (r_ini (k_relayer k)) ($"metaCom_Relayer") ($"relay_public_key") key) in
  Some (with_relayer k (with_relay_number w (lookup_ch_num w key))).

(** The characters after the hash, as many as the array takes. *)
Definition channel_text (user_input : bytes) : bytes := take 15 (drop 2 user_input).

(** The last messages of the database. *)
Definition list_chat_msg (w : relayer D I) : option output :=
  let '(recent_count, recent) := db_top (r_db w) MAX_MSG_TOP in
  if 0 <? recent_count then
    each (fun _ m => console_out ($" >> %s : %s" ++ [LF]) [ArgStr (cm_sender m); ArgStr (cm_message m)])
      0 (take (Z.to_nat recent_count) recent)
  else if recent_count =? 0 then console_out ($"No stored messages." ++ [LF]) []
  else console_out ($"top_msg error: database unavailable (%d)." ++ [LF]) [ArgInt recent_count].

Definition switch_channel (k : console D I) (user_input : bytes) : option (console D I) :=
  match parse_int_range (Some (channel_text user_input)) 0 1023 with
  | None => do! _ := console_out ($" > Invalid command! /#2" ++ [LF]) []; Some k
  | Some index =>
    let w := with_pre_friend (k_relayer k) index in
    do! name := contact_name w TOX_MAX_NAME_LENGTH index;
    do! _ := console_out ($" >> Start chating with: %s" ++ [LF]) [ArgStr name] >>> list_chat_msg w;
    Some (with_relayer k w)
  end.

Definition perform_call (k : console D I) (c : call) : console D I :=
  let w := k_relayer k in with_relayer k (with_bot w (record c (r_bot w))).

Definition ADD_MESSAGE : bytes := $"arkMeta ask for Cyber future...".

Definition set_new_name (k : console D I) (input : bytes) : option (console D I) :=
  let k := with_token k (token k) 0 in
  do! k := get_token k input;
  do! k := get_token k input;
  let name := until_nul (token k) in
  if zlen name <? 3 then Some k else Some (perform_call k (SelfSetName name)).

Definition add_friend (k : console D I) (input : bytes) : option (console D I) :=
  let k := with_token k (token k) 1 in
  do! k := get_token k input;
  do! k := get_token k input;
  let id := until_nul (token k) in
  if negb (zlen id =? TOX_ADDRESS_SIZE * 2) then Some k
  else Some (perform_call k (FriendAdd (hex_string_to_bin (Some id)) ADD_MESSAGE)).

Definition command_help : option output := print
  [[LF] ++ $" IOT-Web3 DID Node Commands " ++ [LF];
   $" -------------------------------------------------------------- " ++ [LF];
   $" /help          - Prints this message" ++ [LF];
   $" /id            - Print the node ID" ++ [LF];
   $" /info          - Display node status" ++ [LF];
   $" /cur           - Display current user info" ++ [LF];
   $" /set new_name  - Set a new node name" ++ [LF];
   $" /#num          - Chat with new name_num";
   $" /add <web3-id> - Adds a new friend" ++ [LF];
   $" /default <n>   - Sets default groupchat room to n" ++ [LF];
   $" /gmess <n> <msg>  - Sends msg to groupchat n" ++ [LF];
   $" /title <n> <msg>  - Sets title for groupchat n" ++ [LF];
   $" /invite           - Request invite to default group chat" ++ [LF];
   $" /invite <n> <p>   - Invite to group chat n (with password p)" ++ [LF];
   $" /relay <pub_key>  - Set new mataRelayer public_key." ++ [LF];
   $" Enter your command: ?" ++ [LF; LF]].

Definition show_id (w : relayer D I) : option output :=
  console_out ($" web3-id: " ++ [LF] ++ $" %s" ++ [LF; LF])
    [ArgStr (hex_text (take (Z.to_nat TOX_ADDRESS_SIZE) self_address))]
  >>> local_node_info_display w.

(** The key of the current contact is read over its name, in the same array. *)
Definition show_current (w : relayer D I) : option output :=
  let f := pre_friendnumber w in
  do! name := contact_name w 256 f;
  do! key := friend_public_key (calls (r_bot w)) f;
  assert! TOX_PUBLIC_KEY_SIZE <=? 256;
  console_out ([LF] ++ $">> Current Friend: %s" ++ [LF]) [ArgStr name]
  >>> console_out ($">> PublicKey :" ++ [LF] ++ $"   %s" ++ [LF])
        [ArgStr (hex_text (take (Z.to_nat TOX_PUBLIC_KEY_SIZE) key))].

(** [input] is the array [cm_buffer], whose text is the line. What [/set] and [/add]
    report of the library's answer is left out; nothing else depends on it. No
    allocation fails. *)
Definition evaluate_input (k : console D I) (input : bytes) : option (console D I) :=
  let user_input := until_nul input in
  let has s := strstr user_input s in
  if has ($"/help") then do! _ := command_help; Some k
  else if has ($"/id") then do! _ := show_id (k_relayer k); Some k
  else if has ($"/#") then switch_channel k user_input
  else if has ($"/info") then do! _ := local_info_display (k_relayer k); Some k
  else if has ($"/relay") then set_relayer_public_key k input
  else if has ($"/set") then set_new_name k input
  else if has ($"/cur") then do! _ := show_current (k_relayer k); Some k
  else if has ($"/add") && (5 <? zlen user_input) then add_friend k input
  else do! _ := console_out ($">> Invalid command input,try again." ++ [LF]) []; Some k.

(** ** Typed telegrams *)

(** A line for the current contact: its serial is taken and kept, the record (or the
    bare line for a contact that does not speak the protocol) is queued, the line
    is stored. *)
Definition send_line (k : console D I) (line : bytes) : option (console D I) :=
  let w := k_relayer k in
  let f := pre_friendnumber w in
  do! _ := contact_name w 128 f;
  do! e := relay_name_list w !! Z.to_nat f;
  let send_sn := tg_sn_next (send_sn e) in
  let w := with_names w (upd (relay_name_list w) (Z.to_nat f)
             (mk_name (friend_number e) (public_key_str e) (nick_name e) (line_connect e) (meta_chat_flag e)
                send_sn (receive_sn e))) in
  let w := with_ini w (ini_puts (r_ini w) ($"outgoing_sn") (key_number ($"send") f) (fmt_0d 4 send_sn)) in
  let now := time (calls (r_bot w)) in
  let '(wire_len, wire) := tg_encode_text (Some (TOX_MAX_MESSAGE_LENGTH + 1)) (Some (public_key_str e))
                             (Some (self_public_key_str w)) send_sn now (Some line) in
  do! q := (if (wire_len <? 0) && meta_chat_flag e then Some (r_queue w)
            else
              let '(payload, len) := if meta_chat_flag e then (default [] wire, wire_len) else (line, zlen line) in
              do! (_, q) := mq_enqueue (r_queue w) (i32 f) (Some payload) len now; Some q);
  let w := with_queue w q in
  let '(_, d) := db_add (r_db w) (i32 f) send_sn now (self_public_key_str w) ($"outgoing") line in
  let w := with_db w d in
  if Z.of_nat (List.length (last_msg_tx w)) <=? f then None
  else Some (note_queue k (with_last_tx w (upd (last_msg_tx w) (Z.to_nat f) (time (calls (r_bot w)))))).

(** One key: a line is entered, a character taken back, or one added. The index is
    reset once the line has been handled; nothing in between reads it. *)
Definition key_typed (k : console D I) (inKey : byte) : option (console D I) :=
  if bool_decide (inKey = LF) || bool_decide (inKey = CR) then
    do! b := CString.store (cm_buffer k) (line_index k) inKey;
    do! b := CString.store b (line_index k + 1) NUL;
    let k := with_line k b 0 in
    match b with
    | c :: _ => if bool_decide (c = "/"%char) then evaluate_input k b else send_line k (until_nul b)
    | [] => None
    end
  else if bool_decide (inKey = BS) then
    if 0 <? line_index k then
      do! b := CString.store (cm_buffer k) (line_index k - 1) NUL;
      Some (with_line k b (line_index k - 1))
    else Some k
  else if line_index k <? 255 then
    do! b := CString.store (cm_buffer k) (line_index k) inKey;
    Some (with_line k b (line_index k + 1))
  else Some k.

(** ** The event loop *)

(** The callbacks of one [tox_iterate], with what they are given. *)
Inductive event : Type :=
| ESelfConnection (status : Z)
| EFriendConnection (friendnumber : Z)
| EFriendRequest (public_key : bytes)
| EFriendName (name : bytes)
| EReadReceipt (friendnumber receipt : Z)
| EFriendMessage (friendnumber type : Z) (message : bytes)
| EConferenceInvite (friendnumber type : Z) (cookie : bytes)
| EConferenceTitle (groupnumber : Z) (title : bytes)
| EConferenceMessage (conferencenumber peernumber : Z) (message : bytes)
| EPeerListChanged (conferencenumber : Z).

(** A handler that only touches the bot. *)
Definition lift_unit (m : M unit) (w : relayer D I) : option (relayer D I) :=
  do! (_, w) := lift m w; Some w.

(** What a handler leaves of the process, and whether the queue changed. *)
Definition noted (k : console D I) (w : option (relayer D I)) : option (console D I) :=
  do! w := w; Some (note_queue k w).

Definition callback (e : event) (k : console D I) : option (console D I) :=
  let w := k_relayer k in
  let h := calls (r_bot w) in
  match e with
  | ESelfConnection status => noted k (cb_self_connection_change w status (max_friend_num k))
  | EFriendConnection f => noted k (lift_unit (cb_friend_connection_change f) w)
  | EFriendRequest public_key => noted k (cb_friend_request w public_key)
  | EFriendName name => noted k (lift_unit (on_friend_name name (zlen name)) w)
  | EReadReceipt f receipt => noted k (cb_friend_read_receipt w f receipt)
  | EFriendMessage f type message => noted k (cb_friend_message w f type message (zlen message))
  | EConferenceInvite f type cookie => noted k (lift_unit (cb_group_invite f type cookie) w)
  | EConferenceTitle g title => noted k (lift_unit (cb_group_titlechange g title (zlen title)) w)
  | EConferenceMessage g p message => do! _ := cb_conference_message h g p message (zlen message); Some k
  | EPeerListChanged g => do! r := on_conference_peer_list_changed h g (k_rooms k); Some (with_rooms k r)
  end.

Fixpoint callbacks (es : list event) (k : console D I) : option (console D I) :=
  match es with [] => Some k | e :: es => do! k := callback e k; callbacks es k end.

Definition tox_iterate (es : list event) (k : console D I) : option (console D I) :=
  callbacks es (perform_call k Iterate).

(** Bootstrapping and the purges, at the times of the previous turn. *)
Definition housekeeping (status : Z) (k : console D I) : option (console D I) :=
  let w := k_relayer k in
  let now := cur_time k in
  do! w := (if (status =? TOX_CONNECTION_NONE) && timed_out (last_bootstrap (r_bot w)) now BOOTSTRAP_INTERVAL
            then do! w := lift_unit bootstrap_DHT w; lift_unit (modify (set_last_bootstrap now)) w
            else Some w);
  let purge := negb (status =? TOX_CONNECTION_NONE) && timed_out (last_friend_purge k) now FRIEND_PURGE_INTERVAL in
  do! w := (if purge
            then do! w := lift_unit purge_inactive_friends w;
                 do! (_, w) := lift (save_data (Some DATA_FILE)) w; Some w
            else Some w);
  let groups := check_group_purge (last_group_purge k) now status (last_connected (r_bot w)) in
  do! w := (if groups then lift_unit purge_empty_groups w else Some w);
  Some (with_times (with_relayer k w) now (last_queue_service k) (last_queue_save k)
          (if purge then now else last_friend_purge k) (if groups then now else last_group_purge k)).

(** The greeting of contacts not heard from for a while, from contact [i] on. *)
Fixpoint hello_loop (status : Z) (n : nat) (i : Z) (k : console D I) : option (console D I) :=
  match n with
  | O => Some k
  | S n =>
    let w := k_relayer k in
    do! last := last_msg_tx w !! Z.to_nat i;
    do! counter := hello_counter k !! Z.to_nat i;
    let k :=
      if (HELL_SIGNAL_INTERVAL <? cur_time k - last) && negb (status =? TOX_CONNECTION_NONE) then
        let hello_msg := snprintf 128 ($"/HELLO-" ++ fmt_0d 4 counter ++ $"  " ++ hello_selfname_msg w) in
        let counter := if 1000 <=? counter + 1 then 1 else counter + 1 in
        let w := with_bot w (record (SendMessage i hello_msg) (r_bot w)) in
        let w := with_last_tx w (upd (last_msg_tx w) (Z.to_nat i) (time (calls (r_bot w)))) in
        with_counters (with_relayer k w) (upd (hello_counter k) (Z.to_nat i) counter)
      else k in
    hello_loop status n (i + 1) k
  end.

Definition serve_queue (k : console D I) : option (console D I) :=
  let now := cur_time k in
  if 1 <? now - last_queue_service k then
    do! w := service (k_relayer k) now;
    Some (with_times (note_queue k w) now now (last_queue_save k) (last_friend_purge k) (last_group_purge k))
  else Some k.

Definition save_queue (k : console D I) : option (Z * console D I) :=
  let w := k_relayer k in
  do! (rc, disk) := mq_persist_save (r_queue w) (Some QUEUE_FILE) (disk (r_bot w));
  Some (rc, with_relayer k (with_bot w (set_disk (r_bot w) disk))).

Definition mirror_queue (k : console D I) : option (console D I) :=
  let now := cur_time k in
  if g_queue_dirty k && timed_out (last_queue_save k) now QUEUE_SAVE_INTERVAL then
    do! (rc, k) := save_queue k;
    let k := if rc =? MQ_PERSIST_OK then with_dirty k false else k in
    Some (with_times k now (last_queue_service k) now (last_friend_purge k) (last_group_purge k))
  else Some k.

(** One turn of the loop up to the console: the connection as it was at its start,
    and the callbacks that ran. *)
Definition turn (status : Z) (es : list event) (k : console D I) : option (console D I) :=
  do! k := housekeeping status k;
  do! k := tox_iterate es k;
  let k := with_times k (time (calls (r_bot (k_relayer k)))) (last_queue_service k) (last_queue_save k)
             (last_friend_purge k) (last_group_purge k) in
  do! k := hello_loop status (Z.to_nat (max_friend_num k)) 0 k;
  do! k := serve_queue k;
  mirror_queue k.

(** What the loop reacts to. *)
Inductive input : Type :=
| Turn (status : Z) (es : list event)
| Key (c : byte).

Definition react (i : input) (k : console D I) : option (console D I) :=
  match i with Turn status es => turn status es k | Key c => key_typed k c end.

Fixpoint main_loop (l : list input) (k : console D I) : option (console D I) :=
  match l with [] => Some k | i :: l => do! k := react i k; main_loop l k end.

Definition exit_toxrelayer (k : console D I) : option (console D I) :=
  do! (_, w) := lift (save_data (Some DATA_FILE)) (k_relayer k);
  do! (_, k) := save_queue (with_relayer k w);
  Some k.

(** ** Start-up *)

(** The globals as the process finds them, once the library has been started and
    the database opened. *)
Definition boot (b : bot) (q : mq) (d : D) (i : I) : relayer D I :=
  mk_relayer b q d i (replicate (Z.to_nat MAX_Friend_NUM) zero_name)
    (replicate (Z.to_nat MAX_Friend_NUM) (mk_sn_tracker 0 false []))
    (replicate (Z.to_nat MAX_Friend_NUM) 0) [] ($"/HELLO  BCEDDDDD  METACOM") 0 0 0.

(** [Bot_Name]. *)
Definition Bot_Name : bytes := $"ToxRelayer@" ++ (chr <$> [229; 133; 131; 229; 174; 135; 229; 174; 153]).

Definition VERSION : bytes := $"0.1.2".

(** What is printed at the start, and the number of contacts the loop greets. *)
Definition print_profile_info (w : relayer D I) : option (output * Z) :=
  let h := calls (r_bot w) in
  let '(major, minor, patch) := tox_version in
  do! name := name_in TOX_MAX_NAME_LENGTH (self_name h);
  do! out := console_out ($"%s" ++ [LF]) [ArgStr (snprintf 128 (Bot_Name ++ $" version " ++ VERSION))]
    >>> console_out ($"SoftwareCore version %d.%d.%d" ++ [LF]) [ArgInt (i32 major); ArgInt (i32 minor); ArgInt (i32 patch)]
    >>> console_out ($"arkMeta ID:" ++ [LF]) []
    >>> each (fun _ c => console_out ($"%s") [ArgStr (fmt_02X c)]) 0 (take (Z.to_nat TOX_ADDRESS_SIZE) self_address)
    >>> console_out [LF] []
    >>> console_out ($"Name: %s" ++ [LF]) [ArgStr name]
    >>> console_out ($"Contacts: %lu" ++ [LF]) [ArgSize (zlen (friend_list h))]
    >>> console_out ($"Active groups: %lu" ++ [LF]) [ArgSize (zlen (chatlist h))];
  Some (out, zlen (friend_list h)).

Definition startup (b : bot) (d : D) (i : I) : option (console D I) :=
  do! q := mq_init;
  let q := mq_set_change_hook (mq_set_drop_hook q true) true in
  do! r := conference_peer_list_initial (calls b) zero_rooms;
  do! (_, q, disk) := mq_persist_load q (Some QUEUE_FILE) (time (calls b)) (disk b);
  let w := boot (set_disk b disk) q d i in
  do! w := lift_unit init_toxrelayer_state w;
  do! w := lift_unit load_conferences w;
  do! w := lift_unit (perform (SelfSetStatusMessage ($"metaCom@relayer-swarm: Command '/help' for more info"))
                        (fun _ => tt)) w;
  do! w := lift_unit (perform (SelfSetName ($"arkMeta@" ++ (chr <$> [229; 133; 131; 229; 174; 135; 229; 174; 153])))
                        (fun _ => tt)) w;
  do! (_, max_friend_num) := print_profile_info w;
  do! w := get_relay_name_list w;
  let '(_, w) := relay_recover_trackers (Some (g_relay (self_public_key_str w))) (Some relay_last_stored_sn)
                   MAX_Friend_NUM w in
  let now := time (calls (r_bot w)) in
  let n := Z.to_nat max_friend_num in
  assert! max_friend_num <=? MAX_Friend_NUM;
  let w := with_last_tx w (replicate n now ++ drop n (last_msg_tx w)) in
  Some (mk_console w r (replicate 128 NUL) 0 (replicate 512 NUL) 0 max_friend_num
          (replicate n 1 ++ replicate (Z.to_nat MAX_Friend_NUM - n) 0) (0 <? changes q)%nat now now now now now).

End Console.

(** * Lemmas *)

(** ** The tokenizer stays in its arrays *)

Lemma char_at (mess : bytes) i : 0 <= i < zlen mess -> exists c, mess !! Z.to_nat i = Some c.
Proof. intros H. apply lookup_lt_is_Some_2. unfold zlen in H. lia. Qed.

(** A turn moves on, so the fuel is enough. *)
Lemma token_loop_ok fuel mess : 128 < zlen mess -> forall t i l, zlen t = 128 -> 0 <= i <= l ->
  127 - l < Z.of_nat fuel -> (0 < fuel)%nat ->
  exists t' l', token_loop fuel mess t i l = Some (t', l') /\ zlen t' = 128 /\ 0 <= l'.
Proof.
  intros Hm. induction fuel as [|fuel IH]; intros t i l Ht Hi Hf Hpos; [lia |]. cbn [token_loop].
  destruct (127 <=? l) eqn:El; zbool; [by exists t, l; split_and!; [done | done | lia] |].
  destruct (char_at mess l ltac:(lia)) as [c Hc]. rewrite Hc.
  assert (Hstep : exists t1 i1 l1,
    (if negb (separator c) then do! token := CString.store t i c; Some (token, i + 1, l + 1) else Some (t, i, l))
    = Some (t1, i1, l1) /\ zlen t1 = 128 /\ 0 <= i1 <= l1 /\ i1 < 128 /\ l <= l1 <= l + 1 /\
    (separator c = false -> l1 = l + 1) /\ (separator c = true -> l1 = l)).
  { destruct (separator c) eqn:Es; cbn [negb]; [by exists t, i, l; split_and!; lia || done |].
    destruct (store_in t i c ltac:(lia)) as (t1 & -> & Hz). exists t1, (i + 1), (l + 1). split_and!; lia || done. }
  destruct Hstep as (t1 & i1 & l1 & -> & Ht1 & Hi1 & Hi2 & Hl1 & Hs1 & Hs2).
  destruct (char_at mess l1 ltac:(lia)) as [c1 Hc1]. rewrite Hc1.
  assert (Hstore : forall d, exists t2, CString.store t1 i1 d = Some t2 /\ zlen t2 = 128).
  { intros d. destruct (store_in t1 i1 d ltac:(lia)) as (t2 & H & Hz). exists t2. split; [done | lia]. }
  destruct (Hstore NUL) as (t2 & Ht2 & Hz2).
  set (blank := bool_decide (c1 = SPC)). set (l2 := if blank then l1 + 1 else l1).
  assert (Hl2 : 0 <= l2 /\ l1 <= l2 <= 128) by (unfold l2; destruct blank; lia).
  destruct (blank && (0 <? i1)); [rewrite Ht2; exists t2, l2; split_and!; [done | done | lia] |].
  destruct (char_at mess l2 ltac:(lia)) as [c2 Hc2]. rewrite Hc2.
  destruct (line_end c2) eqn:Ee; [rewrite Ht2; exists t2, l2; split_and!; [done | done | lia] |].
  apply IH; [done | lia | | lia].
  destruct (separator c) eqn:Es; [| specialize (Hs1 eq_refl); lia]. specialize (Hs2 eq_refl). subst l1.
  rewrite Hc in Hc1. injection Hc1 as <-. unfold l2, blank in *. case_bool_decide as Eb; [lia |]. exfalso.
  rewrite Hc in Hc2. injection Hc2 as <-. unfold separator, line_end in *.
  revert Es Ee. by repeat case_bool_decide.
Qed.

(** ** Handlers of the bot *)

Ltac bot_step :=
  first
  [ apply safe_ret | apply safe_reply | apply safe_perform | apply safe_gets | apply safe_on_disk
  | apply safe_save_data | apply safe_add_to_table | apply safe_modify; reflexivity
  | apply safe_bind; [| intros ?] | case_match ].

Section Safety.
Context `{tox : tox_params} `{core : toxcore} `{peers : toxpeers} `{cfg : mq_config} {D I : Type} `{db : !database D} `{ini : !ini_file I}.
Hypothesis short_names : forall h f, zlen (friend_name h f) < Z.min 128 TOX_MAX_NAME_LENGTH.
Hypothesis listed : forall h f, f ∈ friend_list h -> friend_exists h f = true.
Hypothesis rooms_ok : peers_ok.
Hypothesis contiguous : forall h i, 0 <= i < zlen (friend_list h) -> is_Some (friend_public_key h i).

Lemma few_chats h : zlen (chatlist h) <= MAX_NUM_GROUPS.
Proof. pose proof (few_rooms rooms_ok h). unfold MAX_ROOM_NUMBER, MAX_NUM_GROUPS in *. lia. Qed.

Lemma safe_or_undefined {A} (a : A) : safe (or_undefined (Some a)).
Proof. intros s Hs. exact Hs. Qed.

Lemma safe_friend_connection f : safe (cb_friend_connection_change f).
Proof. unfold cb_friend_connection_change. repeat bot_step. Qed.

Lemma safe_store_data path : safe (store_data false path).
Proof. unfold store_data. repeat bot_step. Qed.

Lemma zlen_filter str n : zlen (filter_str str n) = zlen str.
Proof. unfold filter_str, zlen. rewrite length_app, length_fmap, length_take, length_drop. lia. Qed.

Lemma safe_friend_name string : zlen string < 2 ^ 16 -> safe (on_friend_name string (zlen string)).
Proof.
  intros Hz. unfold on_friend_name. pose proof (zlen_nonneg string).
  assert (Hmax : 0 < TOXIC_MAX_NAME_LENGTH < 2 ^ 15) by done.
  unfold u16. rewrite Z.mod_small by lia.
  destruct (copy_ok (TOXIC_MAX_NAME_LENGTH + 1) string (zlen string)) as (b & -> & Hb & _); [lia | lia |].
  set (n := Z.min _ _). intros s Hs. unfold wp. rewrite (bind_eval _ _ s (b, n) s) by done.
  destruct (store_in (filter_str b n) n NUL) as (b' & -> & _); [rewrite zlen_filter; unfold n; lia |].
  rewrite (bind_eval _ _ s b' s) by done. revert s Hs. change (safe (_ ← store_data false (Some DATA_FILE); mret tt)).
  apply safe_bind; [apply safe_store_data | intros ?; apply safe_ret].
Qed.

Lemma safe_load_chats l : safe (load_chats l).
Proof. induction l as [|g l IH]; cbn [load_chats]; [apply safe_ret |]. repeat bot_step; done. Qed.

Lemma safe_load_conferences : safe load_conferences.
Proof. apply safe_bind; [apply safe_gets | apply safe_load_chats]. Qed.

Lemma safe_purge_friends l : safe (purge_friends l).
Proof.
  induction l as [|f l IH]; cbn [purge_friends]; [apply safe_ret |]. apply safe_bind; [| done].
  unfold purge_friend, get_time. repeat bot_step.
Qed.

Lemma safe_purge_loop fuel : forall i, 0 <= i -> safe (purge_loop fuel i).
Proof.
  induction fuel as [|fuel IH]; intros i Hi; cbn [purge_loop]; [apply safe_ret |]. intros s Hs.
  unfold wp, mbind at 1, M_bind at 1, gets at 1. destruct (Z.leb_spec (chats_idx (table s)) i) as [Hle | Hlt]; [done |].
  destruct (lookup_lt_is_Some_2 (g_chats (table s)) (Z.to_nat i)) as [c Hc].
  { destruct Hs as (_ & Hs & _). unfold zlen in Hs. lia. }
  assert (Hslot : slot i s = Some (c, s)) by (unfold slot, mbind, M_bind, gets, or_undefined; by rewrite Hc).
  rewrite (bind_eval _ _ _ _ _ Hslot). destruct (negb (active c)); [by apply IH; [lia |] |].
  unfold mbind at 1, M_bind at 1, gets at 1. destruct (match _ with Some n => n <=? 1 | None => true end); [| by apply IH; [lia |]].
  unfold mbind, M_bind, perform, or_undefined, modify.
  destruct (group_leave_in_use (table s) (groupnum c) Hs) as (t' & -> & Hw & _). cbn [option_bind mbind fmap].
  destruct (chats_idx t' <=? i); [done |]. by apply IH; [lia |].
Qed.

Lemma safe_purge_groups : safe purge_empty_groups.
Proof. apply safe_bind; [apply safe_gets |]. intros n. by apply safe_purge_loop. Qed.

Lemma safe_invite f type cookie : safe (cb_group_invite f type cookie).
Proof.
  assert (Hn : forall h, zlen (friend_name h f) < TOX_MAX_NAME_LENGTH) by (intros h; specialize (short_names h f); lia).
  unfold cb_group_invite. apply safe_bind; [by apply safe_get_name |]. intros _.
  apply safe_bind; [unfold join_group; repeat bot_step |]. intros [g|]; repeat bot_step.
Qed.

Lemma safe_title g title : zlen title < 2 ^ 16 -> safe (cb_group_titlechange g title (zlen title)).
Proof.
  intros Hz. unfold cb_group_titlechange. pose proof (zlen_nonneg title). pose proof message_size.
  unfold u16. rewrite Z.mod_small by lia.
  destruct (copy_ok TOX_MAX_MESSAGE_LENGTH title (zlen title)) as (b & -> & _); [lia | lia |].
  apply safe_bind; [apply safe_or_undefined | intros [text n]].
  apply safe_slot; intros t.
  - rewrite Z.eqb_refl. apply inv_safe, safe_ret.
  - intros idx c Hn Hc. rewrite (proj2 (Z.eqb_neq idx (-1)) Hn). eapply inv_slot; [exact Hc |]. by apply (proj2 Hc).
Qed.

(** ** The process keeps its invariant at every event *)

Lemma lift_unit_ok m (w : relayer D I) : safe m -> relayer_ok w ->
  exists w', lift_unit m w = Some w' /\ relayer_ok w'.
Proof.
  intros Hm Hw. unfold lift_unit. destruct (lift_safe m w Hm Hw) as ([] & b & -> & H). by eexists.
Qed.

Lemma name_entry_ok h f i old : is_Some (friend_public_key h i) -> is_Some (name_entry h f i old).
Proof.
  intros [pk Hpk]. unfold name_entry. rewrite Hpk.
  assert ((zlen (friend_name h i) <? 128) = true) as -> by (apply Z.ltb_lt; specialize (short_names h i); lia).
  by eexists.
Qed.

Lemma names_loop_defined h f n : forall i l, 0 <= i -> (forall j, i <= j < i + Z.of_nat n -> is_Some (friend_public_key h j)) ->
  i + Z.of_nat n <= Z.of_nat (length l) -> is_Some (names_loop h f n i l).
Proof.
  induction n as [|n IH]; intros i l Hi Hk Hl; cbn [names_loop]; [by eexists |].
  destruct (lookup_lt_is_Some_2 l (Z.to_nat i)) as [old ->]; [lia |].
  destruct (name_entry_ok h f i old) as [e ->]; [apply Hk; lia |].
  apply IH; [lia | intros j Hj; apply Hk; lia | rewrite length_upd; lia].
Qed.

Lemma get_names_ok (w : relayer D I) : relayer_ok w -> exists w', get_relay_name_list w = Some w' /\ relayer_ok w'.
Proof.
  intros Hw. unfold get_relay_name_list. set (h := calls (r_bot w)).
  destruct (MAX_Friend_NUM <? zlen (friend_list h)) eqn:E; [by exists w |]. zbool.
  pose proof (zlen_nonneg (friend_list h)).
  destruct (names_loop_defined h (r_ini w) (Z.to_nat (zlen (friend_list h))) 0 (relay_name_list w)) as [l Hl].
  - done.
  - intros j Hj. apply contiguous. lia.
  - rewrite (ok_names _ Hw). lia.
  - rewrite Hl. apply names_loop_ok in Hl as [Hlen _]; [| done].
    destruct (ini_gets _ _ _ _) as [ret key]. eexists. split; [done |].
    destruct Hw. split; try done. cbn. by rewrite Hlen.
Qed.

Lemma ok_connection (w : relayer D I) status n : relayer_ok w -> 0 <= n <= MAX_Friend_NUM ->
  exists w', cb_self_connection_change w status n = Some w' /\ relayer_ok w'.
Proof.
  intros Hw Hn. unfold cb_self_connection_change. destruct (status =? _).
  - destruct (lift_safe (modify (set_last_bootstrap (time (calls (r_bot w))))) w) as (u & b & -> & Hb);
      [by apply safe_modify | done |]. by eexists.
  - destruct (lift_safe (modify (set_last_connected (time (calls (r_bot w))))) w) as (u & b & -> & Hb);
      [by apply safe_modify | done |].
    rewrite (ok_last_tx _ Hb). rewrite (proj2 (Nat.ltb_ge _ _)) by lia.
    eexists. split; [done |]. pose proof (ok_last_tx _ Hb) as Hl. destruct Hb. split; try done. cbn in *.
    rewrite length_app, length_replicate, length_drop. lia.
Qed.

Lemma ok_request (w : relayer D I) pk : relayer_ok w ->
  exists w', cb_friend_request w pk = Some w' /\ relayer_ok w'.
Proof.
  intros Hw. unfold cb_friend_request. destruct (lift_safe _ w (safe_blocked pk) Hw) as (bl & b & -> & H1).
  destruct bl; [by eexists |].
  destruct (lift_safe (perform (FriendAddNorequest pk) (fun h => friend_add_norequest h pk)) (with_bot w b))
    as (e & b2 & -> & H2); [apply safe_perform | done |].
  destruct (lift_safe (save_data (Some DATA_FILE)) (with_bot (with_bot w b) b2)) as (r & b3 & -> & H3);
    [apply safe_save_data | done |].
  by apply get_names_ok.
Qed.

Lemma confirm_any q f r : wf_mq q -> exists rc q', mq_confirm q f r = Some (rc, q') /\ wf_mq q'.
Proof.
  intros Hq. destruct (decide (0 <= f /\ 0 <= r)) as [[Hf Hr] | Hbad].
  - destruct (confirm_ok q f r Hq Hf Hr) as (rc & q' & -> & Hw & _). by exists rc, q'.
  - exists MQ_ERR_RANGE, q. unfold mq_confirm. destruct ((f <? 0) || (r <? 0)) eqn:E; [done |]. zbool. lia.
Qed.

Lemma ok_receipt (w : relayer D I) f r : relayer_ok w ->
  exists w', cb_friend_read_receipt w f r = Some w' /\ relayer_ok w'.
Proof.
  intros Hw. unfold cb_friend_read_receipt.
  destruct (confirm_any (r_queue w) (i32 f) (i32 r) (ok_queue _ Hw)) as (rc & q & -> & Hq).
  eexists. split; [done |]. unfold receipt_display. destruct (_ =? r); [| by apply ok_with_queue].
  destruct Hw. by split.
Qed.

(** Serving the queue sends messages and does nothing else to the bot. *)
Lemma tick_table l : forall (s : bot) now o s' l' d, tick tox_transport s now l = (o, s', l', d) -> table s' = table s.
Proof.
  assert (Htx : forall s f p r s', tox_transport s f p = (r, s') -> table s' = table s).
  { intros s f p r s' H. unfold tox_transport in H. repeat case_match; by simplify_eq. }
  assert (Hatt : forall t now s o s' t', attempt tox_transport s now t = (o, s', t') -> table s' = table s).
  { intros t now s o s' t' H. unfold attempt in H. destruct (tox_transport s _ _) as [r s1] eqn:E.
    specialize (Htx _ _ _ _ _ E). repeat case_match; by simplify_eq. }
  induction l as [|t l IH]; intros s now o s' l' d H; cbn [tick] in H; [by simplify_eq |].
  destruct (ready now t).
  - destruct (attempt tox_transport s now t) as [[r s1] t1] eqn:E. specialize (Hatt _ _ _ _ _ _ E).
    repeat case_match; by simplify_eq.
  - destruct (tick tox_transport s now l) as [[[o1 s1] l1] d1] eqn:E. specialize (IH _ _ _ _ _ _ E). by simplify_eq.
Qed.

Lemma ok_service (w : relayer D I) now : relayer_ok w -> exists w', service w now = Some w' /\ relayer_ok w'.
Proof.
  intros Hw. unfold service. pose proof (service_ok tox_transport (r_bot w) (r_queue w) now (ok_queue _ Hw)) as H.
  destruct (tick _ _ _ _) as [[[o b] l] d] eqn:Et. destruct H as (q & -> & Hq & _). eexists. split; [done |].
  apply ok_with_queue; [| done]. apply ok_with_bot; [done |].
  rewrite (tick_table _ _ _ _ _ _ _ Et). apply Hw.
Qed.

(** What the console and the loop rely on. *)
Record console_ok (k : console D I) : Prop := {
  ok_relayer : relayer_ok (k_relayer k);
  ok_rooms : wf_rooms (k_rooms k);
  ok_token : zlen (token k) = 128;
  ok_line : zlen (cm_buffer k) = 512;
  ok_line_index : 0 <= line_index k <= 255;
  ok_counters : length (hello_counter k) = Z.to_nat MAX_Friend_NUM;
  ok_friends : 0 <= max_friend_num k <= MAX_Friend_NUM }.

Lemma ok_with_relayer k w : console_ok k -> relayer_ok w -> console_ok (with_relayer k w).
Proof. by intros [] ?; split. Qed.

Lemma ok_note k w : console_ok k -> relayer_ok w -> console_ok (note_queue k w).
Proof. by intros [] ?; split. Qed.

Lemma ok_times k a b c d e : console_ok k -> console_ok (with_times k a b c d e).
Proof. by intros []; split. Qed.

Lemma ok_dirty k b : console_ok k -> console_ok (with_dirty k b).
Proof. by intros []; split. Qed.

Lemma ok_perform k c : console_ok k -> console_ok (perform_call k c).
Proof. intros Hk. apply ok_with_relayer; [done |]. apply ok_with_bot; apply Hk. Qed.

(** The library hands over texts whose length fits the 16 bits they are cut to, and
    reports changes of conferences that exist and have a slot. *)
Definition event_ok (e : event) : Prop :=
  match e with
  | EFriendName s | EFriendMessage _ _ s | EConferenceTitle _ s | EConferenceMessage _ _ s => zlen s < 2 ^ 16
  | EPeerListChanged g => 0 <= g < MAX_ROOM_NUMBER /\ forall h, is_Some (conference_peer_count h g)
  | _ => True
  end.

Lemma callback_ok e k : event_ok e -> console_ok k -> exists k', callback e k = Some k' /\ console_ok k'.
Proof.
  intros He Hk. pose proof (ok_relayer _ Hk) as Hw. unfold callback.
  assert (Hend : forall o : option (relayer D I), (exists w', o = Some w' /\ relayer_ok w') ->
    exists k', noted k o = Some k' /\ console_ok k').
  { intros o (w' & -> & H). eexists. split; [done |]. by apply ok_note. }
  destruct e as [status | f | pk | s | f r | f ty s | f ty c | g s | g p s | g]; cbn in He; try apply Hend.
  - apply ok_connection; [done | apply Hk].
  - by apply lift_unit_ok; [apply safe_friend_connection |].
  - by apply ok_request.
  - by apply lift_unit_ok; [apply safe_friend_name |].
  - by apply ok_receipt.
  - destruct (cb_friend_message_ok f ty s (zlen s) (k_relayer k)) as (w' & H1 & H2 & _); try done.
    + exact few_chats.
    + pose proof (zlen_nonneg s). lia.
    + by exists w'.
  - by apply lift_unit_ok; [apply safe_invite |].
  - by apply lift_unit_ok; [apply safe_title |].
  - destruct (conference_message_ok rooms_ok (calls (r_bot (k_relayer k))) g p s (zlen s)) as [shown ->]; [| lia | by exists k].
    pose proof (zlen_nonneg s). lia.
  - destruct He as [Hg Hc].
    destruct (changed_ok rooms_ok (calls (r_bot (k_relayer k))) g (k_rooms k) (ok_rooms _ Hk) Hg (Hc _)) as (r & -> & Hr).
    eexists. split; [done |]. destruct Hk. by split.
Qed.

Lemma callbacks_ok es : Forall event_ok es -> forall k, console_ok k ->
  exists k', callbacks es k = Some k' /\ console_ok k'.
Proof.
  induction 1 as [|e es He _ IH]; intros k Hk; cbn [callbacks]; [by exists k |].
  destruct (callback_ok e k He Hk) as (k1 & -> & H1). by apply IH.
Qed.

(** A statement that is skipped or run. *)
Lemma when_ok (b : bool) m (w : relayer D I) : safe m -> relayer_ok w ->
  exists w', (if b then lift_unit m w else Some w) = Some w' /\ relayer_ok w'.
Proof. intros Hm Hw. destruct b; [by apply lift_unit_ok | by exists w]. Qed.

Lemma safe_bootstrap : safe bootstrap_DHT.
Proof.
  unfold bootstrap_DHT. induction nodes as [|n l IH]; cbn [bootstrap_loop]; [apply safe_ret |].
  apply safe_bind; [| done]. apply safe_bind; [apply safe_perform | intros _; apply safe_perform].
Qed.

Lemma housekeeping_ok status k : console_ok k -> exists k', housekeeping status k = Some k' /\ console_ok k'.
Proof.
  intros Hk. unfold housekeeping.
  assert (H1 : forall b : bool, exists w1, (if b then do! w := lift_unit bootstrap_DHT (k_relayer k);
      lift_unit (modify (set_last_bootstrap (cur_time k))) w else Some (k_relayer k)) = Some w1 /\ relayer_ok w1).
  { intros []; [| exists (k_relayer k); split; [done | apply Hk]].
    destruct (lift_unit_ok bootstrap_DHT (k_relayer k)) as (w & -> & Hw);
      [apply safe_bootstrap | apply Hk |]. by apply lift_unit_ok; [apply safe_modify |]. }
  destruct (H1 ((status =? TOX_CONNECTION_NONE) &&
    timed_out (last_bootstrap (r_bot (k_relayer k))) (cur_time k) BOOTSTRAP_INTERVAL)) as (w1 & -> & Hw1).
  assert (H2 : forall b : bool, exists w2, (if b then do! w := lift_unit purge_inactive_friends w1;
      do! (_, w) := lift (save_data (Some DATA_FILE)) w; Some w else Some w1) = Some w2 /\ relayer_ok w2).
  { intros []; [| by exists w1].
    destruct (lift_unit_ok purge_inactive_friends w1) as (w & -> & Hw);
      [apply safe_bind; [apply safe_gets | apply safe_purge_friends] | done |].
    destruct (lift_safe (save_data (Some DATA_FILE)) w (safe_save_data _) Hw) as (r & b & -> & Hb). by eexists. }
  destruct (H2 (negb (status =? TOX_CONNECTION_NONE) &&
    timed_out (last_friend_purge k) (cur_time k) FRIEND_PURGE_INTERVAL)) as (w2 & -> & Hw2).
  destruct (when_ok (check_group_purge (last_group_purge k) (cur_time k) status (last_connected (r_bot w2)))
    purge_empty_groups w2 safe_purge_groups Hw2) as (w3 & -> & Hw3).
  eexists. split; [done |]. by apply ok_times, ok_with_relayer.
Qed.

Lemma hello_ok status n : forall i k, console_ok k -> 0 <= i -> i + Z.of_nat n <= MAX_Friend_NUM ->
  exists k', hello_loop status n i k = Some k' /\ console_ok k'.
Proof.
  induction n as [|n IH]; intros i k Hk Hi Hn; cbn [hello_loop]; [by exists k |].
  pose proof (ok_relayer _ Hk) as Hw. pose proof (ok_last_tx _ Hw) as Hl. pose proof (ok_counters _ Hk) as Hc.
  destruct (lookup_lt_is_Some_2 (last_msg_tx (k_relayer k)) (Z.to_nat i)) as [last ->]; [lia |].
  destruct (lookup_lt_is_Some_2 (hello_counter k) (Z.to_nat i)) as [c ->]; [lia |].
  apply IH; [| lia | lia]. destruct (_ && _); [| done]. destruct Hw. destruct Hk. split; try done; cbn.
  - split; try done. cbn. by rewrite length_upd.
  - by rewrite length_upd.
Qed.

Lemma save_queue_ok k : console_ok k -> exists rc k', save_queue k = Some (rc, k') /\ console_ok k'.
Proof.
  intros Hk. unfold save_queue. pose proof (ok_relayer _ Hk) as Hw.
  destruct (save_defined (r_queue (k_relayer k)) (Some QUEUE_FILE) (disk (r_bot (k_relayer k))) (ok_queue _ Hw))
    as (rc & w' & ->).
  eexists _, _. split; [done |]. apply ok_with_relayer; [done |]. apply ok_with_bot; [done |]. apply Hw.
Qed.

Lemma turn_ok status es k : Forall event_ok es -> console_ok k ->
  exists k', turn status es k = Some k' /\ console_ok k'.
Proof.
  intros He Hk. unfold turn. destruct (housekeeping_ok status k Hk) as (k1 & -> & H1).
  unfold tox_iterate. destruct (callbacks_ok es He _ (ok_perform _ Iterate H1)) as (k2 & -> & H2).
  set (k3 := with_times k2 _ _ _ _ _). assert (H3 : console_ok k3) by (by apply ok_times).
  destruct (hello_ok status (Z.to_nat (max_friend_num k3)) 0 k3 H3) as (k4 & -> & H4);
    [done | pose proof (ok_friends _ H3); lia |].
  assert (H5 : exists k5, serve_queue k4 = Some k5 /\ console_ok k5).
  { unfold serve_queue. destruct (1 <? _); [| by exists k4].
    destruct (ok_service (k_relayer k4) (cur_time k4) (ok_relayer _ H4)) as (w & -> & Hw).
    eexists. split; [done |]. by apply ok_times, ok_note. }
  destruct H5 as (k5 & -> & H5). unfold mirror_queue. destruct (_ && _); [| by exists k5].
  destruct (save_queue_ok k5 H5) as (rc & k6 & -> & H6). eexists. split; [done |]. apply ok_times.
  destruct (rc =? _); [by apply ok_dirty | done].
Qed.

(** ** The console *)

Hypothesis clock : forall h, is_long (time h).

Lemma get_token_ok k mess : console_ok k -> 128 < zlen mess -> 0 <= lineindex k ->
  exists k', get_token k mess = Some k' /\ console_ok k' /\ 0 <= lineindex k' /\ k_relayer k' = k_relayer k.
Proof.
  intros Hk Hm Hl. unfold get_token.
  destruct (token_loop_ok 128 mess Hm (token k) 0 (lineindex k) (ok_token _ Hk)) as (t & l & -> & Ht & H0); [lia.. |].
  eexists. split; [done |]. split; [| done]. destruct Hk. by split.
Qed.

(** Two tokens of a line, read from its start. *)
Lemma two_tokens k mess i : console_ok k -> 128 < zlen mess -> 0 <= i ->
  exists k1 k2, get_token (with_token k (token k) i) mess = Some k1 /\ get_token k1 mess = Some k2 /\
    console_ok k2 /\ k_relayer k2 = k_relayer k.
Proof.
  intros Hk Hm Hi. assert (H0 : console_ok (with_token k (token k) i)) by (destruct Hk; by split).
  destruct (get_token_ok _ mess H0 Hm Hi) as (k1 & H1 & Hk1 & Hl1 & Hr1).
  destruct (get_token_ok k1 mess Hk1 Hm Hl1) as (k2 & H2 & Hk2 & _ & Hr2).
  exists k1, k2. split_and!; try done. by rewrite Hr2, Hr1.
Qed.

Lemma read_name_ok (w : relayer D I) size f : 128 <= size -> is_Some (read_name w size f).
Proof.
  intros Hs. unfold read_name. pose proof (short_names (calls (r_bot w)) f) as Hn.
  pose proof (zlen_nonneg (friend_name (calls (r_bot w)) f)).
  destruct (memcpy_store (replicate (Z.to_nat size) NUL) (friend_name (calls (r_bot w)) f)
    (zlen (friend_name (calls (r_bot w)) f))) as (b & b' & -> & -> & _);
    [lia | unfold zlen in *; rewrite length_replicate; lia | lia |]. by eexists.
Qed.

(** A name copied into the library's own size. *)
Lemma read_name_max (w : relayer D I) f : is_Some (read_name w TOX_MAX_NAME_LENGTH f).
Proof.
  unfold read_name. pose proof (short_names (calls (r_bot w)) f) as Hn.
  pose proof (zlen_nonneg (friend_name (calls (r_bot w)) f)).
  destruct (memcpy_store (replicate (Z.to_nat TOX_MAX_NAME_LENGTH) NUL) (friend_name (calls (r_bot w)) f)
    (zlen (friend_name (calls (r_bot w)) f))) as (b & b' & -> & -> & _);
    [lia | unfold zlen in *; rewrite length_replicate; lia | lia |]. by eexists.
Qed.

(** The arrays of the displays hold what is copied into them. *)
Lemma contact_line_ok (w : relayer D I) f : f ∈ friend_list (calls (r_bot w)) -> is_Some (contact_name w 128 f).
Proof. intros Hf. unfold contact_name. rewrite listed by done. by apply read_name_ok. Qed.

Lemma self_names_ok h : is_Some (name_in 128 (self_name h)) /\ is_Some (name_in TOX_MAX_NAME_LENGTH (self_name h)) /\
  is_Some (name_in 256 (self_status_message h)).
Proof.
  pose proof (own_name rooms_ok h). pose proof (own_status rooms_ok h). split_and!; apply name_in_ok; lia.
Qed.

Lemma info_conference_ok (w : relayer D I) g : relayer_ok w -> is_Some (info_conference w g).
Proof.
  intros Hw. unfold info_conference. destruct (conference_peer_count _ g) as [n|]; [| by eexists].
  destruct (index_slot _ g (ok_table _ Hw)) as (idx & -> & [[-> _] | (Hi & c & -> & _)]); [by eexists |].
  rewrite (proj2 (Z.eqb_neq idx (-1))) by lia. by eexists.
Qed.

Lemma local_info_ok (w : relayer D I) : relayer_ok w -> is_Some (local_info_display w).
Proof.
  intros Hw. unfold local_info_display. destruct (self_names_ok (calls (r_bot w))) as ([nm ->] & _ & [st ->]).
  rewrite (proj2 (Z.leb_le _ _) (few_chats (calls (r_bot w)))). destruct (_ =? 0); [by eexists |].
  do 4 (apply followed_defined; [by eexists |]). apply followed_defined.
  { apply each_defined. intros i f Hf. unfold info_contact. destruct (contact_line_ok w f Hf) as [n ->]. by eexists. }
  apply followed_defined; [by eexists |]. destruct (_ =? 0); [by eexists |].
  apply followed_defined; [| apply (basic_display_ok rooms_ok)].
  apply each_defined. intros _ g _. by apply info_conference_ok.
Qed.

Lemma local_node_info_ok (w : relayer D I) : is_Some (local_node_info_display w).
Proof.
  unfold local_node_info_display. destruct (self_names_ok (calls (r_bot w))) as ([nm ->] & _ & [st ->]).
  destruct (_ =? 0); [by eexists |]. do 3 (apply followed_defined; [by eexists |]).
  apply followed_defined; [| destruct (_ =? 0); by eexists].
  apply each_defined. intros i f Hf. unfold node_contact. destruct (contact_line_ok w f Hf) as [n ->]. by eexists.
Qed.

Lemma show_id_ok (w : relayer D I) : is_Some (show_id w).
Proof. apply followed_defined; [by eexists | apply local_node_info_ok]. Qed.

Lemma show_current_ok (w : relayer D I) : friend_exists (calls (r_bot w)) (pre_friendnumber w) = true ->
  is_Some (friend_public_key (calls (r_bot w)) (pre_friendnumber w)) -> is_Some (show_current w).
Proof.
  intros Hf [key Hk]. unfold show_current, contact_name. rewrite Hf, Hk.
  destruct (read_name_ok w 256 (pre_friendnumber w)) as [nm ->]; [lia |]. pose proof (key_fits rooms_ok).
  rewrite (proj2 (Z.leb_le _ 256)) by lia. by eexists.
Qed.

Lemma chat_msgs_ok (w : relayer D I) : is_Some (list_chat_msg w).
Proof.
  unfold list_chat_msg. destruct (db_top _ _) as [n l]. destruct (0 <? n); [| destruct (n =? 0); by eexists].
  apply each_defined. intros. by eexists.
Qed.

Lemma profile_info_ok (w : relayer D I) :
  exists out, print_profile_info w = Some (out, zlen (friend_list (calls (r_bot w)))).
Proof.
  unfold print_profile_info. destruct tox_version as [[major minor] patch].
  destruct (self_names_ok (calls (r_bot w))) as (_ & [nm ->] & _).
  assert (H : forall o, is_Some o -> exists out, (do! x := o; Some (x, zlen (friend_list (calls (r_bot w))))) =
    Some (out : output, zlen (friend_list (calls (r_bot w))))) by (intros o [out ->]; by exists out).
  apply H. do 3 (apply followed_defined; [by eexists |]).
  apply followed_defined; [apply each_defined; intros; by eexists |].
  do 3 (apply followed_defined; [by eexists |]). by eexists.
Qed.

(** The contacts a line refers to exist. *)
Definition line_ok (k : console D I) (line : bytes) : Prop :=
  let h := calls (r_bot (k_relayer k)) in
  friend_exists h (pre_friendnumber (k_relayer k)) = true /\ is_Some (friend_public_key h (pre_friendnumber (k_relayer k))) /\
  forall i, parse_int_range (Some (channel_text line)) 0 1023 = Some i -> friend_exists h i = true.

Lemma ok_pre_friend (w : relayer D I) i : relayer_ok w -> 0 <= i <= 1023 -> relayer_ok (with_pre_friend w i).
Proof.
  intros [] Hi. split; try done. cbn. unfold friend_number_valid, MAX_Friend_NUM.
  rewrite (proj2 (Z.leb_le 0 i)), (proj2 (Z.ltb_lt i 4096)) by lia. done.
Qed.

Lemma parse_bounds text i : parse_int_range text 0 1023 = Some i -> 0 <= i <= 1023.
Proof.
  unfold parse_int_range. intros H. repeat case_match; simplify_eq. zbool. lia.
Qed.

Lemma switch_ok k line : console_ok k -> line_ok k line ->
  exists k', switch_channel k line = Some k' /\ console_ok k'.
Proof.
  intros Hk (_ & _ & Hl). unfold switch_channel. destruct (parse_int_range _ _ _) as [i|] eqn:Ei; [| by exists k].
  pose proof (parse_bounds _ _ Ei) as Hi. specialize (Hl i eq_refl). unfold contact_name.
  change (calls (r_bot (with_pre_friend (k_relayer k) i))) with (calls (r_bot (k_relayer k))). rewrite Hl.
  destruct (read_name_max (with_pre_friend (k_relayer k) i) i) as [nm ->].
  destruct (chat_msgs_ok (with_pre_friend (k_relayer k) i)) as [out ->]. eexists. split; [done |].
  apply ok_with_relayer; [done |]. apply ok_pre_friend; [apply Hk | done].
Qed.

Lemma evaluate_ok k input : console_ok k -> 128 < zlen input -> line_ok k (until_nul input) ->
  exists k', evaluate_input k input = Some k' /\ console_ok k'.
Proof.
  intros Hk Hz Hl. unfold evaluate_input, set_new_name, add_friend. 
  destruct (local_info_ok (k_relayer k) (ok_relayer _ Hk)) as [out1 Hd1]. destruct (show_id_ok (k_relayer k)) as [out2 Hd2].
  assert (Hh : is_Some command_help) by (vm_compute; by eexists). destruct Hh as [out0 Hd0].
  destruct (show_current_ok (k_relayer k) (proj1 Hl) (proj1 (proj2 Hl))) as [out3 Hd3].
  destruct (two_tokens k input 0 Hk Hz ltac:(lia)) as (k1 & k2 & H1 & H2 & Hk2 & Hr).
  destruct (strstr _ _); [rewrite Hd0; by exists k |]. destruct (strstr _ _); [rewrite Hd2; by exists k |].
  destruct (strstr _ _); [by apply switch_ok |]. destruct (strstr _ _); [rewrite Hd1; by exists k |].
  destruct (strstr _ _).
  { unfold set_relayer_public_key. rewrite H1, H2. eexists. split; [done |]. apply ok_with_relayer; [done |].
    pose proof (ok_relayer _ Hk2) as []. by split. }
  destruct (strstr _ _).
  { rewrite H1, H2. destruct (_ <? 3); [by exists k2 |]. eexists. split; [done |]. by apply ok_perform. }
  destruct (strstr _ _); [rewrite Hd3; by exists k |].
  destruct (_ && _); [| by exists k].
  destruct (two_tokens k input 1 Hk Hz ltac:(lia)) as (k3 & k4 & H3 & H4 & Hk4 & _). rewrite H3, H4.
  destruct (negb _); [by exists k4 |]. eexists. split; [done |]. by apply ok_perform.
Qed.

(** Queueing a text of its own length is defined whatever the length. *)
Lemma enqueue_defined q f p len now : wf_mq q -> 0 <= len <= zlen p ->
  exists rc q', mq_enqueue q f (Some p) len now = Some (rc, q') /\ wf_mq q'.
Proof.
  intros Hq Hl. destruct (decide (enqueue_args f p len)) as [Ha | Ha].
  - destruct (enqueue_ok q f p len now Hq Ha) as (rc & q' & H & Hw & _). by exists rc, q'.
  - exists MQ_ERR_RANGE, q. split; [| done]. unfold mq_enqueue.
    destruct ((f <? 0) || (len =? 0) || (MQ_PAYLOAD_MAX <=? len)) eqn:E; [done |]. exfalso. apply Ha. zbool.
    unfold enqueue_args. lia.
Qed.

Lemma send_ok k line : console_ok k -> friend_exists (calls (r_bot (k_relayer k))) (pre_friendnumber (k_relayer k)) = true ->
  exists k', send_line k line = Some k' /\ console_ok k'.
Proof.
  intros Hk Hf. pose proof (ok_relayer _ Hk) as Hw. unfold send_line, contact_name. rewrite Hf.
  destruct (read_name_ok (k_relayer k) 128 (pre_friendnumber (k_relayer k))) as [nm ->]; [lia |].
  pose proof (ok_current _ Hw) as Hv. unfold friend_number_valid in Hv. zbool.
  set (f := pre_friendnumber (k_relayer k)) in *. pose proof (ok_names _ Hw) as Hn.
  destruct (lookup_lt_is_Some_2 (relay_name_list (k_relayer k)) (Z.to_nat f)) as [e He]; [lia |]. rewrite He.
  cbn zeta. set (w1 := with_ini _ _). set (now := time _).
  assert (Hw1 : relayer_ok w1) by (destruct Hw; split; try done; cbn; by rewrite length_upd).
  pose proof (clock (calls (r_bot w1))) as Hts. fold now in Hts.
  destruct (tg_encode_text _ _ _ _ _ _) as [n wire] eqn:Et.
  set (o := if (n <? 0) && _ then _ else _).
  assert (Hq : exists q, o = Some q /\ wf_mq q).
  { unfold o. pose proof (ok_queue _ Hw1) as Hq.
    destruct (meta_chat_flag e); cbn [andb]; rewrite ?andb_true_r, ?andb_false_r.
    - destruct (n <? 0) eqn:En; [by eexists |]. zbool.
      assert (Hlen : 0 <= n <= zlen (default [] wire)).
      { destruct (decide (n = 0)) as [-> | Hne]; [pose proof (zlen_nonneg (default [] wire)); lia |].
        destruct wire as [wr|]; [| unfold tg_encode_text in Et; repeat case_match; simplify_eq; unfold TG_ERR_ARG in *; lia].
        pose proof message_size. destruct (tg_encode_text_inv _ _ _ _ _ _ _ _ Et) as (_ & _ & _ & _ & _ & -> & _);
          [lia | lia | done |]. unfold default, id. pose proof (zlen_nonneg wr). lia. }
      destruct (enqueue_defined (r_queue w1) (i32 f) (default [] wire) n now Hq Hlen) as (rc & q & -> & Hq'). by eexists.
    - destruct (enqueue_defined (r_queue w1) (i32 f) line (zlen line) now Hq) as (rc & q & -> & Hq');
        [pose proof (zlen_nonneg line); lia |]. by eexists. }
  destruct Hq as (q & -> & Hq). destruct (db_add _ _ _ _ _ _ _) as [rc d].
  cbn [last_msg_tx with_db with_queue]. rewrite (ok_last_tx _ Hw1), (proj2 (Z.leb_gt _ _)) by lia.
  eexists. split; [done |]. apply ok_note; [done |]. destruct Hw1. split; try done. cbn in *. by rewrite length_upd.
Qed.

(** The line a key enters, if it ends one. *)
Definition entered (k : console D I) (c : byte) : bytes :=
  default [] (do! b := CString.store (cm_buffer k) (line_index k) c;
              do! b := CString.store b (line_index k + 1) NUL; Some (until_nul b)).

Definition ends_line (c : byte) : bool := bool_decide (c = LF) || bool_decide (c = CR).

Lemma ok_line_edit k b i : console_ok k -> zlen b = 512 -> 0 <= i <= 255 -> console_ok (with_line k b i).
Proof. intros [] ? ?. by split. Qed.

Lemma key_ok k c : console_ok k -> (ends_line c = true -> line_ok k (entered k c)) ->
  exists k', key_typed k c = Some k' /\ console_ok k'.
Proof.
  intros Hk Hl. unfold key_typed. pose proof (ok_line_index _ Hk) as Hi. pose proof (ok_line _ Hk) as Hz.
  fold (ends_line c). destruct (ends_line c).
  - specialize (Hl eq_refl). unfold entered in Hl.
    destruct (store_in (cm_buffer k) (line_index k) c) as (b1 & Hb1 & Hz1); [lia |]. rewrite Hb1 in *.
    destruct (store_in b1 (line_index k + 1) NUL) as (b & Hb & Hz2); [lia |]. rewrite Hb in *.
    cbn [default] in Hl. unfold id in Hl.
    assert (Hk1 : console_ok (with_line k b 0)) by (apply ok_line_edit; [done | lia | lia]).
    destruct b as [|d b']; [zlen |]. destruct (bool_decide (d = "/"%char)).
    + apply evaluate_ok; [done | lia | exact Hl].
    + apply send_ok; [done | exact (proj1 Hl)].
  - destruct (bool_decide (c = BS)).
    + destruct (0 <? line_index k) eqn:E0; [| by exists k]. zbool.
      destruct (store_in (cm_buffer k) (line_index k - 1) NUL) as (b & -> & Hb); [lia |].
      eexists. split; [done |]. apply ok_line_edit; [done | lia | lia].
    + destruct (line_index k <? 255) eqn:E; [| by exists k]. zbool.
      destruct (store_in (cm_buffer k) (line_index k) c) as (b & -> & Hb); [lia |].
      eexists. split; [done |]. apply ok_line_edit; [done | lia | lia].
Qed.

(** ** From the start to the end of the process *)

Hypothesis few_friends : forall h, zlen (friend_list h) <= MAX_Friend_NUM.

Lemma safe_init : safe init_toxrelayer_state.
Proof.
  intros s Hs. unfold wp, init_toxrelayer_state, get_time, mbind, M_bind, gets, modify. cbn.
  split_and!; [done | done | apply zlen_nonneg |]. intros c Hc. done.
Qed.

Lemma recover_ok env_last n : forall c r (w : relayer D I), relayer_ok w ->
  relayer_ok (snd (recover_loop (g_relay (self_public_key_str w)) relay_tracker env_last n c r w)).
Proof.
  assert (H : forall env c (w : relayer D I), relayer_ok w -> relayer_ok (snd (recover_channel env relay_tracker env_last c w))).
  { intros env c w Hw. unfold recover_channel. repeat case_match; try done; by apply ok_set_tracker. }
  intros c r w. generalize (g_relay (self_public_key_str w)) as env. intros env. revert c r w.
  induction n as [|n IH]; intros c r w Hw; cbn [recover_loop]; [done |].
  specialize (H env c w Hw). destruct (recover_channel _ _ _ _ _) as [x w1]. by apply IH.
Qed.

Lemma recover_trackers_run (w : relayer D I) self : relay_recover_trackers (Some (g_relay self)) (Some relay_last_stored_sn) MAX_Friend_NUM w =
  recover_loop (g_relay self) relay_tracker relay_last_stored_sn (Z.to_nat MAX_Friend_NUM) 0 0 w.
Proof. unfold relay_recover_trackers. by rewrite (proj2 (Z.leb_gt MAX_Friend_NUM 0)). Qed.

Lemma hooks_ok q : wf_mq q -> wf_mq (mq_set_change_hook (mq_set_drop_hook q true) true).
Proof. intros H. by apply (wf_same q); try done; apply H. Qed.

Lemma boot_ok b q (d : D) (i : I) : wf_mq q -> wf_groups (table b) -> relayer_ok (boot b q d i).
Proof. intros Hq Hb. split; try done; apply length_replicate. Qed.

Lemma startup_ok b (d : D) (i : I) : wf_groups (table b) -> exists k, startup b d i = Some k /\ console_ok k.
Proof.
  intros Hb. unfold startup. destruct init_ok as (q0 & -> & Hq0 & _).
  destruct (initial_ok rooms_ok (calls b) zero_rooms zero_rooms_wf) as (r & -> & Hr).
  destruct (load_result (mq_set_change_hook (mq_set_drop_hook q0 true) true) QUEUE_FILE (time (calls b)) (disk b))
    as (rc & q & w & Hload & Hq & _); [by apply hooks_ok | done |].
  rewrite Hload.
  destruct (lift_unit_ok _ (boot (set_disk b w) q d i) safe_init) as (w1 & -> & H1); [by apply boot_ok |].
  destruct (lift_unit_ok _ w1 safe_load_conferences H1) as (w2 & -> & H2).
  match goal with |- context [lift_unit (perform (SelfSetStatusMessage ?m) ?g) w2] =>
    destruct (lift_unit_ok (perform (SelfSetStatusMessage m) g) w2 (safe_perform _ _) H2) as (w3 & -> & H3) end.
  match goal with |- context [lift_unit (perform (SelfSetName ?m) ?g) w3] =>
    destruct (lift_unit_ok (perform (SelfSetName m) g) w3 (safe_perform _ _) H3) as (w4 & -> & H4) end.
  destruct (profile_info_ok w4) as (out & ->).
  destruct (get_names_ok w4 H4) as (w5 & -> & H5). rewrite recover_trackers_run.
  pose proof (recover_ok relay_last_stored_sn (Z.to_nat MAX_Friend_NUM) 0 0 w5 H5) as H6.
  destruct (recover_loop _ _ _ _ _ _ w5) as [n w6]. cbn [snd] in H6.
  pose proof (few_friends (calls (r_bot w4))) as Hf. pose proof (zlen_nonneg (friend_list (calls (r_bot w4)))).
  rewrite (proj2 (Z.leb_le _ _) Hf). eexists. split; [done |]. pose proof (ok_last_tx _ H6) as Hl.
  split; cbn; [| done | done | done | lia | | lia].
  - destruct H6. split; try done. cbn in *. rewrite length_app, length_replicate, length_drop. lia.
  - rewrite length_app, !length_replicate. lia.
Qed.

(** The inputs the process can rely on, as it comes to them. *)
Fixpoint inputs_ok (l : list input) (k : console D I) : Prop :=
  match l with
  | [] => True
  | i :: l =>
    match i with
    | Turn _ es => Forall event_ok es
    | Key c => ends_line c = true -> line_ok k (entered k c)
    end /\ forall k', react i k = Some k' -> inputs_ok l k'
  end.

Lemma main_loop_ok l : forall k, console_ok k -> inputs_ok l k ->
  exists k', main_loop l k = Some k' /\ console_ok k'.
Proof.
  induction l as [|i l IH]; intros k Hk Hl; cbn [main_loop]; [by exists k |]. destruct Hl as [Hi Hl].
  assert (H : exists k1, react i k = Some k1 /\ console_ok k1).
  { destruct i as [status es | c]; [by apply turn_ok | by apply key_ok]. }
  destruct H as (k1 & Hr & Hk1). rewrite Hr. apply IH; auto.
Qed.

Lemma exit_ok k : console_ok k -> is_Some (exit_toxrelayer k).
Proof.
  intros Hk. unfold exit_toxrelayer.
  destruct (lift_safe (save_data (Some DATA_FILE)) (k_relayer k) (safe_save_data _) (ok_relayer _ Hk)) as (r & b & -> & Hb).
  destruct (save_queue_ok (with_relayer k (with_bot (k_relayer k) b))) as (rc & k' & -> & _); [| by eexists].
  by apply ok_with_relayer.
Qed.

End Safety.

(** * Properties *)

(** A process that starts with a well-formed group table gets through its
    start-up, through any sequence of turns of its loop and keys of its operator,
    and through its exit, without undefined behaviour and with its arrays, queue and
    tables well formed in between. The library is taken to keep its promises: names
    and lists that fit their arrays, the listed contacts existing and numbered from
    0, texts whose length fits 16 bits; and the operator to refer only to contacts
    that exist. *)
Theorem process_safe `{tox_params, toxcore, toxpeers, mq_config} {D I} `{!database D} `{!ini_file I} (b : bot) (d : D) (i : I) :
  (forall h f, zlen (friend_name h f) < Z.min 128 TOX_MAX_NAME_LENGTH) ->
  peers_ok ->
  (forall h f, f ∈ friend_list h -> friend_exists h f = true) ->
  (forall h j, 0 <= j < zlen (friend_list h) -> is_Some (friend_public_key h j)) ->
  (forall h, is_long (time h)) ->
  (forall h, zlen (friend_list h) <= MAX_Friend_NUM) ->
  wf_groups (table b) ->
  exists k0, startup b d i = Some k0 /\ console_ok k0 /\
    forall l, inputs_ok l k0 ->
    exists k, main_loop l k0 = Some k /\ console_ok k /\ is_Some (exit_toxrelayer k).
Proof.
  intros Hn Hr Hl Hk Ht Hf Hb. destruct (startup_ok Hn Hr Hk Hf b d i Hb) as (k0 & Hs & Hk0).
  exists k0. split_and!; [done | done |]. intros l Hi.
  destruct (main_loop_ok Hn Hl Hr Hk Ht l k0 Hk0 Hi) as (k & Hm & Hok).
  exists k. split_and!; [done | done |]. by apply exit_ok.
Qed.

Definition sample_start : option (console sample_store unit) :=
  startup (tox := tox_02) (core := pair_core 2 900) (peers := room_peers ($"alice")) (cfg := mq_small) sample_bot (opened_db, []) tt.

Lemma process_safe_witness : exists k0 k, sample_start = Some k0 /\
  main_loop (tox := tox_02) (core := pair_core 2 900) (peers := room_peers ($"alice")) (cfg := mq_small)
    [Key LF; Turn 1 [EFriendMessage 1 0 ($"/purge 1"); EPeerListChanged 3]; Key "h"%char] k0 = Some k /\
  console_ok (cfg := mq_small) k.
Proof.
  destruct (@process_safe tox_02 (pair_core 2 900) (room_peers ($"alice")) mq_small _ _ _ _ sample_bot (opened_db, []) tt)
    as (k0 & Hs & _ & Hrun).
  - done.
  - exact room_peers_ok.
  - intros h f Hf. cbn in *. set_unfold in Hf. by destruct Hf as [-> | [-> | []]].
  - intros h j Hj. change (0 <= j < 2) in Hj. cbn.
    destruct (decide (j = 0)) as [-> | ?]; [by eexists |]. destruct (decide (j = 1)) as [-> | ?]; [by eexists | lia].
  - done.
  - done.
  - apply sample_wf.
  - assert (Hline : option_map (fun k => (pre_friendnumber (k_relayer k), entered k LF)) sample_start = Some (0, [LF]))
      by (vm_compute; reflexivity).
    destruct (Hrun [Key LF; Turn 1 [EFriendMessage 1 0 ($"/purge 1"); EPeerListChanged 3]; Key "h"%char]) as (k & Hk & Hok & _).
    + unfold sample_start in Hline. rewrite Hs in Hline. cbn [option_map] in Hline. injection Hline as Hp He.
      split; [intros _; unfold line_ok; rewrite Hp, He; split_and!; [done | by eexists | done] |]. intros k1 _.
      split; [repeat constructor; [done | by eexists] |]. intros k2 _. by split.
    + exists k0, k. exact (conj Hs (conj Hk Hok)).
Defined.

(** ** The end of the process and its next start *)

(** The profile written when no call fails. *)
Lemma save_works p data w : w_plan w = [] -> let w' := snd (save_file (Some p) data w) in
  w_plan w' = [] /\ w_files w' = <[p := mk_file data false]> (w_files w).
Proof.
  destruct w as [m plan tr ds]. cbn. intros ->. unfold save_file, save_open, fopen_wb, fwrite, sys, ask. cbn.
  rewrite lookup_insert_eq. cbn. split; [by repeat case_match |]. repeat case_match; cbn; by rewrite firstn_all, insert_insert_eq.
Qed.

Lemma exit_saves `{tox_params, toxcore, mq_config} {D I} (k : console D I) :
  let w := disk (r_bot (k_relayer k)) in
  wf_mq (r_queue (k_relayer k)) -> w_plan w = [] ->
  exists k', exit_toxrelayer k = Some k' /\
    let files := w_files (disk (r_bot (k_relayer k'))) in
    files !! QUEUE_FILE = Some (mk_file (image_of (r_queue (k_relayer k))) true) /\
    files !! DATA_FILE = Some (mk_file (savedata (calls (r_bot (k_relayer k)))) false) /\
    forall p, p <> QUEUE_FILE ++ $".tmp" -> p <> QUEUE_FILE -> p <> DATA_FILE -> files !! p = w_files w !! p.
Proof.
  intros w Hq Hp. unfold exit_toxrelayer, lift, save_data, mbind, M_bind, gets, on_disk. cbn [option_bind].
  destruct (save_works DATA_FILE (savedata (calls (r_bot (k_relayer k)))) _ Hp) as [Hp1 Hf1]. unfold w in *.
  destruct (save_file _ _ _) as [rc w1] eqn:Es. cbn [snd] in Hp1, Hf1.
  unfold save_queue. cbn [k_relayer with_relayer r_queue r_bot with_bot disk set_disk].
  destruct (save_image (r_queue (k_relayer k)) QUEUE_FILE w1 Hq) as (w2 & Hs & Hf & Ho); [done | by vm_compute | done |].
  rewrite Hs. eexists. split; [done |]. cbn. split_and!; [exact Hf | by rewrite Ho, Hf1, lookup_insert_eq |].
  intros p K1 K2 K3. by rewrite Ho, Hf1, lookup_insert_ne.
Qed.

(** What the start-up does after the queue has been loaded leaves it alone. *)
Lemma lift_unit_queue `{tox_params, toxcore} {D I} m (w w' : relayer D I) :
  lift_unit m w = Some w' -> r_queue w' = r_queue w.
Proof. unfold lift_unit, lift. destruct (m _) as [[[] b]|]; [| done]. by intros [= <-]. Qed.

Lemma get_names_queue `{tox_params, toxcore} {D I} `{!ini_file I} (w w' : relayer D I) :
  get_relay_name_list w = Some w' -> r_queue w' = r_queue w.
Proof.
  unfold get_relay_name_list. destruct (_ <? _); [by intros [= <-] |]. destruct (names_loop _ _ _ _ _); [| done].
  destruct (ini_gets _ _ _ _). by intros [= <-].
Qed.

Lemma recover_queue `{tox_params, toxcore, mq_config} {D I} `{!database D} `{!ini_file I} env_last n :
  forall (env : relay_env (relayer D I)) c r (w : relayer D I), r_queue (snd (recover_loop env relay_tracker env_last n c r w)) = r_queue w.
Proof.
  induction n as [|n IH]; intros env c r w; cbn [recover_loop]; [done |].
  destruct (recover_channel _ _ _ _ _) as [x w1] eqn:E. rewrite IH. unfold recover_channel in E.
  cbn [t_get t_set relay_tracker] in E. repeat case_match; by simplify_eq.
Qed.

(** What the start-up consists of, once the queue has been loaded. *)
Lemma startup_steps `{tox_params, toxcore, toxpeers, mq_config} {D I} `{!database D} `{!ini_file I} b (d : D) (i : I) k q0 rc q dk :
  mq_init = Some q0 ->
  mq_persist_load (mq_set_change_hook (mq_set_drop_hook q0 true) true) (Some QUEUE_FILE) (time (calls b)) (disk b) =
    Some (rc, q, dk) ->
  startup b d i = Some k ->
  exists c c' w1 w2 w3 w4 w5 l,
    lift_unit init_toxrelayer_state (boot (set_disk b dk) q d i) = Some w1 /\ lift_unit load_conferences w1 = Some w2 /\
    lift_unit (perform c (fun _ => tt)) w2 = Some w3 /\ lift_unit (perform c' (fun _ => tt)) w3 = Some w4 /\
    get_relay_name_list w4 = Some w5 /\
    k_relayer k = with_last_tx (snd (recover_loop (g_relay (self_public_key_str w5)) relay_tracker relay_last_stored_sn
      (Z.to_nat MAX_Friend_NUM) 0 0 w5)) l /\
    g_queue_dirty k = (0 <? changes q)%nat.
Proof.
  intros Hi Hl Hs. unfold startup in Hs. rewrite Hi in Hs. destruct (conference_peer_list_initial _ _) as [r|]; [| done].
  rewrite Hl in Hs. destruct (lift_unit init_toxrelayer_state _) as [w1|] eqn:E1; [| done].
  destruct (lift_unit load_conferences w1) as [w2|] eqn:E2; [| done].
  destruct (lift_unit _ w2) as [w3|] eqn:E3; [| done]. destruct (lift_unit _ w3) as [w4|] eqn:E4; [| done].
  destruct (print_profile_info w4) as [[out n]|]; [| done]. destruct (get_relay_name_list w4) as [w5|] eqn:E5; [| done].
  rewrite recover_trackers_run in Hs. destruct (recover_loop _ _ _ _ _ _ w5) as [m w6] eqn:E6. destruct (n <=? _); [| done].
  injection Hs as <-. eexists _, _, w1, w2, w3, w4, w5, _. split_and!; [done | exact E2 | exact E3 | exact E4 | exact E5 | by rewrite E6 | done].
Qed.

Lemma startup_queue `{tox_params, toxcore, toxpeers, mq_config} {D I} `{!database D} `{!ini_file I} b (d : D) (i : I) k q0 rc q w :
  mq_init = Some q0 ->
  mq_persist_load (mq_set_change_hook (mq_set_drop_hook q0 true) true) (Some QUEUE_FILE) (time (calls b)) (disk b) =
    Some (rc, q, w) ->
  startup b d i = Some k -> r_queue (k_relayer k) = q.
Proof.
  intros Hi Hl Hs. destruct (startup_steps b d i k q0 rc q w Hi Hl Hs) as (c & c' & w1 & w2 & w3 & w4 & w5 & l & E1 & E2 & E3 & E4 & E5 & -> & _).
  pose proof (recover_queue relay_last_stored_sn (Z.to_nat MAX_Friend_NUM) (g_relay (self_public_key_str w5)) 0 0 w5) as E6.
  destruct (recover_loop _ _ _ _ _ _ w5) as [m w6]. cbn [snd with_last_tx r_queue] in *.
  by rewrite E6, (get_names_queue _ _ E5), (lift_unit_queue _ _ _ E4), (lift_unit_queue _ _ _ E3),
    (lift_unit_queue _ _ _ E2), (lift_unit_queue _ _ _ E1).
Qed.

(** A start on a directory whose file is the image of a queue finds its telegrams. *)
Lemma start_finds `{tox_params, toxcore, toxpeers, mq_config} {D I} `{!database D} `{!ini_file I} q m b (d : D) (i : I) :
  (forall h f, zlen (friend_name h f) < Z.min 128 TOX_MAX_NAME_LENGTH) -> peers_ok ->
  (forall h j, 0 <= j < zlen (friend_list h) -> is_Some (friend_public_key h j)) ->
  (forall h, zlen (friend_list h) <= MAX_Friend_NUM) ->
  wf_mq q -> Forall (fun t => t_friend t <= INT_MAX) (messages q) -> m !! QUEUE_FILE = Some (mk_file (image_of q) true) ->
  wf_groups (table b) -> disk b = mk_world m [] [] [] ->
  exists k, startup b d i = Some k /\
    messages (r_queue (k_relayer k)) =
      (fun t => new_telegram (t_friend t) (t_text t) (zlen (t_text t)) (time (calls b))) <$> messages q.
Proof.
  intros Hn Hr Hk Hf Hq Hint Hfile Hb Hd. destruct (startup_ok Hn Hr Hk Hf b d i Hb) as (k & Hs & _).
  exists k. split; [done |]. destruct init_ok as (q0 & Hi & Hq0 & _ & Hst & Hc & Hh & Ht).
  destruct (load_image q (mq_set_change_hook (mq_set_drop_hook q0 true) true) QUEUE_FILE (time (calls b)) m Hq)
    as (q2 & w2 & Hl & Hm & _); try done; [by apply hooks_ok |].
  rewrite <- Hd in Hl. by rewrite (startup_queue b d i k q0 _ q2 w2 Hi Hl Hs).
Qed.

(** A restart loses no telegram: when the process ends and its file
    operations work, the next start finds every telegram that was stored in the
    queue (unsent, or sent and not confirmed), in the same order, each due for a
    first attempt. *)
Theorem restart_keeps_queue `{tox_params, toxcore, toxpeers, mq_config} {D I} `{!database D} `{!ini_file I}
    (k : console D I) :
  (forall h f, zlen (friend_name h f) < Z.min 128 TOX_MAX_NAME_LENGTH) -> peers_ok ->
  (forall h j, 0 <= j < zlen (friend_list h) -> is_Some (friend_public_key h j)) ->
  (forall h, zlen (friend_list h) <= MAX_Friend_NUM) ->
  console_ok k -> w_plan (disk (r_bot (k_relayer k))) = [] ->
  Forall (fun t => t_friend t <= INT_MAX) (messages (r_queue (k_relayer k))) ->
  exists k', exit_toxrelayer k = Some k' /\
    forall b d i, wf_groups (table b) -> disk b = mk_world (w_files (disk (r_bot (k_relayer k')))) [] [] [] ->
    exists k2, startup b d i = Some k2 /\
      messages (r_queue (k_relayer k2)) =
        (fun t => new_telegram (t_friend t) (t_text t) (zlen (t_text t)) (time (calls b))) <$> messages (r_queue (k_relayer k)).
Proof.
  intros Hn Hr Hk Hf Hok Hplan Hint. pose proof (ok_queue _ (ok_relayer _ Hok)) as Hq.
  destruct (exit_saves k Hq Hplan) as (k' & He & Hfile & _). exists k'. split; [done |]. intros b d i Hb Hd.
  exact (start_finds _ _ b d i Hn Hr Hk Hf Hq Hint Hfile Hb Hd).
Qed.

(** What is queued for a contact that speaks the protocol. *)
Lemma typed_wire `{tox_params, mq_config} key self sn now line :
  tg_field_ok (Some key) = true -> tg_field_ok (Some self) = true -> tg_sn_valid sn = true -> is_long now ->
  tg_body_ok (Some line) = true -> 297 + zlen line < Z.min MQ_PAYLOAD_MAX TOX_MAX_MESSAGE_LENGTH ->
  exists wire, wire = text_wire key self sn now (Some line) /\ 0 < zlen wire < MQ_PAYLOAD_MAX /\
    tg_encode_text (Some (TOX_MAX_MESSAGE_LENGTH + 1)) (Some key) (Some self) sn now (Some line) = (zlen wire, Some wire).
Proof.
  intros Hk Hs Hsn Ht Hb Hl. exists (text_wire key self sn now (Some line)). split; [done |].
  pose proof (zlen_text_wire key self sn now (Some line) Hk Hs Hsn Ht) as Hz. unfold default, id in Hz.
  split; [lia |]. pose proof message_size. rewrite encode_text_accepted by (done || lia).
  unfold encoded. by rewrite (proj2 (Z.ltb_ge _ _)) by lia.
Qed.

(** Claim C3. A line typed for a contact that speaks the protocol takes the serial
    after the last one sent to it, and while the queue has room exactly one record
    is queued for the contact: the one that reads back as a text from the bot to it
    with that serial, the present time and the line as typed. The line is stored
    as sent when the database accepts it, the serial is kept, and the directory
    changes nowhere else. *)
Theorem typed_telegram `{tox_params, toxcore, mq_config} {D I} `{!database D} `{!ini_file I}
    (k : console D I) line e :
  let w := k_relayer k in
  let f := pre_friendnumber w in
  let self := self_public_key_str w in
  let sn := tg_sn_next (send_sn e) in
  let now := time (calls (r_bot w)) in
  console_ok k -> friend_exists (calls (r_bot w)) f = true -> is_Some (read_name w 128 f) ->
  relay_name_list w !! Z.to_nat f = Some e -> meta_chat_flag e = true ->
  tg_field_ok (Some (public_key_str e)) = true -> cstring (public_key_str e) ->
  tg_field_ok (Some self) = true -> cstring self -> is_long now ->
  cstring line -> tg_body_ok (Some line) = true -> body_fits line = true ->
  297 + zlen line < Z.min MQ_PAYLOAD_MAX TOX_MAX_MESSAGE_LENGTH -> (g_count (r_queue w) < MQ_CAPACITY)%nat ->
  exists k' wire, send_line k line = Some k' /\
    outgoing (k_relayer k') ≡ₚ outgoing w ++ [(f, wire)] /\
    tg_decode (Some wire) (zlen wire) = Some (mk_tg_message TG_TEXT (public_key_str e) self sn 0 now line) /\
    (exists e', relay_name_list (k_relayer k') !! Z.to_nat f = Some e' /\ send_sn e' = sn) /\
    (forall j, j <> Z.to_nat f -> relay_name_list (k_relayer k') !! j = relay_name_list w !! j) /\
    db_added (r_db (k_relayer k')) =
      if fst (db_add (r_db w) f sn now self ($"outgoing") line) =? 0
      then db_added (r_db w) ++ [(f, sn, now, self, $"outgoing", line)] else db_added (r_db w).
Proof.
  intros w f self sn now Hk Hf Hnm He Hm Hkey Hkc Hself Hsc Hnow Hlc Hb Hfit Hlen Hroom.
  pose proof (ok_relayer _ Hk) as Hw. pose proof (ok_current _ Hw) as Hv. fold w f in Hv.
  unfold friend_number_valid in Hv. zbool.
  assert (Hi : i32 f = f) by (apply i32_id; unfold MAX_Friend_NUM in *; lia).
  destruct (typed_wire (public_key_str e) self sn now line Hkey Hself (tg_sn_next_valid _) Hnow Hb Hlen)
    as (wire & Hwire & Hz & Henc).
  destruct (relay_enqueue_ok w f wire now (ok_queue _ Hw)) as (q & Hq & _ & Hr); [lia | done |].
  rewrite (proj2 (Nat.ltb_lt 0 _)) in Hq, Hr by (fold w in Hroom; lia). destruct Hr as [Hout _].
  destruct Hnm as [nm Hnm]. pose proof (lookup_lt_Some _ _ _ He) as Hlt.
  pose proof (db_add_law (r_db w) f sn now self ($"outgoing") line ltac:(lia)) as Hdb.
  unfold send_line, contact_name. fold w f self. rewrite Hf, Hnm, He. cbn zeta. fold sn now.
  cbn [calls r_bot r_queue r_db self_public_key_str with_ini with_names]. fold self now. rewrite Henc, Hm.
  rewrite (proj2 (Z.ltb_ge (zlen wire) 0)) by lia. cbn [andb default]. unfold id. rewrite Hi.
  assert (Hmq : exists rc, mq_enqueue (r_queue w) f (Some wire) (zlen wire) now = Some (rc, q)).
  { unfold relay_enqueue in Hq. destruct (mq_enqueue _ _ _ _ _) as [[rc q']|]; [| by injection Hq].
    injection Hq as _ Hq. exists rc. by rewrite Hq. }
  destruct Hmq as [rc ->]. cbn [with_queue]. destruct (db_add _ _ _ _ _ _ _) as [rd d] eqn:Ed.
  cbn [with_db with_queue with_ini with_names last_msg_tx]. pose proof (ok_last_tx _ Hw) as Hl. fold w in Hl.
  rewrite Hl, (proj2 (Z.leb_gt _ _)) by lia.
  eexists _, wire. split; [done |]. split_and!.
  - exact Hout.
  - rewrite Hwire. unfold text_wire. rewrite tg_decode_full.
    by apply (tg_decode_text_wire _ _ _ _ (Some line)); [done.. | apply tg_sn_next_valid | | | |].
  - eexists. split; [by apply lookup_upd_eq |]. done.
  - intros j Hj. cbn. by apply lookup_upd_ne.
  - exact Hdb.
Qed.

(** The example, its first contact speaking the protocol and 999 the last serial sent
    to it. *)
Definition sample_console : console sample_store unit :=
  mk_console
    (mk_relayer sample_bot one_stored (opened_db, []) tt
       (mk_name 0 ($"AABB") ($"alice") true true 999 1 :: replicate (Z.to_nat MAX_Friend_NUM - 1) zero_name)
       (replicate (Z.to_nat MAX_Friend_NUM) (sn_tracker_init TG_SN_MIN))
       (replicate (Z.to_nat MAX_Friend_NUM) 0) ($"CCDD") [] 0 0 0)
    zero_rooms (replicate 128 NUL) 0 (replicate 512 NUL) 0 2 (replicate (Z.to_nat MAX_Friend_NUM) 1) false 1000 1000 1000 1000 1000.

Lemma sample_console_ok : console_ok (cfg := mq_small) sample_console.
Proof.
  split; [| apply zero_rooms_wf | done.. | split; done | apply length_replicate | split; done].
  split; [apply one_stored_wf | apply sample_wf | | apply length_replicate.. | done].
  cbn [relay_name_list k_relayer sample_console length]. by rewrite length_replicate.
Qed.

Lemma typed_telegram_witness : exists k' wire,
  send_line (core := pair_core 2 900) (cfg := mq_small) sample_console ($"hello" ++ [LF]) = Some k' /\
  tg_decode (Some wire) (zlen wire) =
    Some (mk_tg_message TG_TEXT ($"AABB") ($"CCDD") 1 0 1000 ($"hello" ++ [LF])) /\
  db_added (r_db (k_relayer k')) = [(0, 1, 1000, $"CCDD", $"outgoing", $"hello" ++ [LF])].
Proof.
  destruct (@typed_telegram tox_02 (pair_core 2 900) mq_small _ _ _ _ sample_console ($"hello" ++ [LF])
    (mk_name 0 ($"AABB") ($"alice") true true 999 1)) as (k' & wire & H1 & _ & H2 & _ & _ & H3).
  - exact sample_console_ok.
  - reflexivity.
  - by eexists.
  - reflexivity.
  - reflexivity.
  - reflexivity.
  - reflexivity.
  - reflexivity.
  - reflexivity.
  - split; discriminate.
  - reflexivity.
  - reflexivity.
  - reflexivity.
  - reflexivity.
  - vm_compute. lia.
  - exists k', wire. exact (conj H1 (conj H2 H3)).
Defined.

Lemma restart_keeps_queue_witness : exists k',
  exit_toxrelayer (core := pair_core 2 900) (cfg := mq_small) sample_console = Some k' /\
  exists k2,
    startup (core := pair_core 2 900) (peers := room_peers ($"alice")) (cfg := mq_small)
      (set_disk sample_bot (mk_world (w_files (disk (r_bot (k_relayer k')))) [] [] [])) (opened_db, []) tt = Some k2 /\
    messages (r_queue (k_relayer k2)) = [mk_telegram 4 hello 1000 None 0 None].
Proof.
  destruct (@restart_keeps_queue tox_02 (pair_core 2 900) (room_peers ($"alice")) mq_small _ _ _ _ sample_console)
    as (k' & He & Hrun).
  - done.
  - exact room_peers_ok.
  - intros h j Hj. change (0 <= j < 2) in Hj. cbn.
    destruct (decide (j = 0)) as [-> | ?]; [by eexists |]. destruct (decide (j = 1)) as [-> | ?]; [by eexists | lia].
  - done.
  - exact sample_console_ok.
  - reflexivity.
  - assert (messages (r_queue (k_relayer sample_console)) = [mk_telegram 4 hello 100 None 0 None]) as -> by (by vm_compute).
    repeat constructor. unfold INT_MAX. cbn. lia.
  - exists k'. split; [exact He |].
    destruct (Hrun (set_disk sample_bot (mk_world (w_files (disk (r_bot (k_relayer k')))) [] [] [])) (opened_db, []) tt)
      as (k2 & Hs & Hm); [apply sample_wf | reflexivity |].
    exists k2. split; [exact Hs |].
    assert (messages (r_queue (k_relayer sample_console)) = [mk_telegram 4 hello 100 None 0 None]) as Hq by (by vm_compute).
    rewrite Hm, Hq. reflexivity.
Defined.

(** A text ending in a newline is no number. *)
Lemma parse_newline text c mn mx : c = LF \/ c = CR -> parse_int_range (Some (text ++ [c])) mn mx = None.
Proof.
  intros Hc. destruct (parse_int_range (Some (text ++ [c])) mn mx) as [v|] eqn:E; [exfalso | done].
  apply parse_int_range_exact in E as [(sg & ds & Heq & Hne & Hd & _) _].
  destruct ds as [|x ds' _] using rev_ind; [done |].
  rewrite app_assoc in Heq. apply app_inj_tail in Heq as [_ <-].
  rewrite forallb_app in Hd. zbool. cbn in H0. destruct Hc as [-> | ->]; done.
Qed.

Lemma not_in_line c hay needle : c ∈ needle -> ~ c ∈ hay -> strstr hay needle = false.
Proof.
  intros Hn Hh. destruct (strstr hay needle) eqn:E; [| done]. apply strstr_spec in E as (a & b & ->).
  destruct Hh. apply elem_of_app. right. apply elem_of_app. by left.
Qed.

(** The operator cannot switch the current contact by the number he types:
    the line still ends with the newline that entered it when the number is parsed,
    so a line of a hash and at most 14 digits is refused and changes nothing.
    (A longer numeral loses the newline to the array's size and is accepted.) *)
Theorem channel_switch_impossible `{tox_params, toxcore, toxpeers} {D I} `{!database D, !ini_file I}
    (k : console D I) input ds c :
  until_nul input = $"/#" ++ ds ++ [c] -> c = LF \/ c = CR -> forallb is_digit ds = true -> (length ds <= 14)%nat ->
  evaluate_input k input = Some k.
Proof.
  intros Hin Hc Hd Hl. unfold evaluate_input. rewrite Hin.
  assert (Hno : forall x, is_digit x = false -> x <> "/"%char -> x <> "#"%char -> x <> LF -> x <> CR ->
    ~ x ∈ $"/#" ++ ds ++ [c]).
  { intros x Hx N1 N2 N3 N4 [Hx'|[Hx'|Hx']%elem_of_app]%elem_of_app.
    - apply list_elem_of_In in Hx'. cbn in Hx'. by destruct Hx' as [<- | [<- | []]].
    - apply list_elem_of_In in Hx'. rewrite forallb_forall in Hd. rewrite (Hd x Hx') in Hx. done.
    - apply list_elem_of_singleton in Hx' as ->. by destruct Hc. }
  rewrite (not_in_line "h"%char) by (by apply Hno || (apply list_elem_of_In; cbn; tauto)).
  rewrite (not_in_line "d"%char) by (by apply Hno || (apply list_elem_of_In; cbn; tauto)).
  assert (Hs : strstr ($"/#" ++ ds ++ [c]) ($"/#") = true) by (apply strstr_spec; by exists [], (ds ++ [c])).
  rewrite Hs. unfold switch_channel, channel_text.
  change (drop 2 ($"/#" ++ ds ++ [c])) with (ds ++ [c]).
  rewrite take_ge by (rewrite length_app; cbn; lia). by rewrite parse_newline.
Qed.

Lemma channel_switch_impossible_witness :
  evaluate_input (core := pair_core 2 900) (peers := room_peers ($"alice")) sample_console ($"/#1" ++ LF :: replicate 508 NUL)
  = Some sample_console.
Proof.
  apply (@channel_switch_impossible tox_02 (pair_core 2 900) (room_peers ($"alice")) _ _ _ _ sample_console _ ($"1") LF);
    [reflexivity | by left | reflexivity | cbn; lia].
Defined.

(** Padded with zeros to the size of the array the number is accepted. *)
Example padded_switch :
  option_map (fun k => pre_friendnumber (k_relayer k))
    (evaluate_input (core := pair_core 2 900) (peers := room_peers ($"alice")) sample_console
       ($"/#000000000000001" ++ LF :: replicate 494 NUL)) = Some 1.
Proof. vm_compute. reflexivity. Qed.

(** What [/cur], the choice of a contact and [/info] print. *)
Definition shown (o : option output) : option bytes := option_map (fun l => concat (snd <$> l)) o.

Example current_shown :
  shown (show_current (core := pair_core 2 900) sample_relayer) =
  Some ([LF] ++ $">> Current Friend: alice" ++ [LF] ++ $">> PublicKey :" ++ [LF] ++ $"   " ++
        hex_text (replicate 32 "a"%char) ++ [LF]).
Proof. vm_compute. reflexivity. Qed.

Example stored_shown :
  shown (list_chat_msg (with_db sample_relayer (snd (db_add (r_db sample_relayer) 0 1 1000 ($"bob") ($"incoming") ($"hi"))))) =
  Some ($" >> bob : hi" ++ [LF]).
Proof. vm_compute. reflexivity. Qed.

Example rooms_shown :
  shown (conference_basic_info_display (core := pair_core 2 900) (peers := room_peers ($"alice")) []) =
  Some ([LF] ++ $" Room: 03 | Text | online peers: 2 | Title: title" ++ [LF] ++
        $"--------------------------------------------------------" ++ [LF] ++
        $" 000 conference member   nick_name: alice" ++ [LF] ++ $" 001 conference member   nick_name: alice" ++ [LF; LF] ++
        $" offline conference member :" ++ [LF] ++ $" 003 conference offline  nick_name: zoe" ++ [LF; LF]).
Proof. vm_compute. reflexivity. Qed.

(** Reading the directory is undefined once a contact has been deleted from
    the middle: the contacts are taken to be numbered from 0 to their count, the
    key of one that does not exist is not filled in, and it is printed as it is. *)
Theorem directory_needs_contiguous_numbers `{tox_params, toxcore} {D I} `{!ini_file I}
    (w : relayer D I) i :
  let h := calls (r_bot w) in
  zlen (friend_list h) <= MAX_Friend_NUM -> 0 <= i < zlen (friend_list h) -> friend_public_key h i = None ->
  get_relay_name_list w = None.
Proof.
  intros h Hn Hi Hk. unfold get_relay_name_list. fold h. rewrite (proj2 (Z.ltb_ge _ _)) by done.
  assert (Hloop : forall n j l, 0 <= j -> j <= i < j + Z.of_nat n -> names_loop h (r_ini w) n j l = None).
  { induction n as [|n IH]; intros j l Hj Hr; [lia |]. cbn [names_loop]. destruct (l !! Z.to_nat j) as [old|]; [| done].
    unfold name_entry. destruct (decide (j = i)) as [-> | Hne]; [by rewrite Hk |].
    destruct (friend_public_key h j); [| done]. destruct (zlen _ <? 128); [| done]. apply IH; lia. }
  rewrite (Hloop (Z.to_nat (zlen (friend_list h))) 0 _); [done | lia | lia].
Qed.

(** Two contacts, the second numbered 2. *)
Definition hole_core : toxcore := {|
  time := time (toxcore := pair_core 2 900);
  friend_name := friend_name (toxcore := pair_core 2 900);
  friend_public_key h f := if f =? 1 then None else Some (replicate 32 "k"%char);
  friend_online := friend_online (toxcore := pair_core 2 900);
  friend_last_online := friend_last_online (toxcore := pair_core 2 900);
  friend_list _ := [0; 2];
  friend_exists h f := (f =? 0) || (f =? 2);
  friend_send_message := friend_send_message (toxcore := pair_core 2 900);
  friend_add_norequest := friend_add_norequest (toxcore := pair_core 2 900);
  self_address := self_address (toxcore := pair_core 2 900);
  chatlist := chatlist (toxcore := pair_core 2 900);
  conference_peer_count := conference_peer_count (toxcore := pair_core 2 900);
  conference_get_type := conference_get_type (toxcore := pair_core 2 900);
  conference_new := conference_new (toxcore := pair_core 2 900);
  add_av_groupchat := add_av_groupchat (toxcore := pair_core 2 900);
  conference_join := conference_join (toxcore := pair_core 2 900);
  conference_delete := conference_delete (toxcore := pair_core 2 900);
  conference_send_message := conference_send_message (toxcore := pair_core 2 900);
  conference_invite := conference_invite (toxcore := pair_core 2 900);
  conference_set_title := conference_set_title (toxcore := pair_core 2 900);
  savedata := savedata (toxcore := pair_core 2 900);
  pass_encrypt := pass_encrypt (toxcore := pair_core 2 900) |}.

Lemma directory_needs_contiguous_numbers_witness :
  get_relay_name_list (core := hole_core) sample_relayer = None.
Proof.
  apply (@directory_needs_contiguous_numbers tox_02 hole_core _ _ _ sample_relayer 1).
  - by vm_compute.
  - split; [done | by vm_compute].
  - reflexivity.
Defined.
