(* ===== verification/Settings.v ===== *)
(** * Settings kept between runs

    What the relayer expects of its INI file ([ini_promise]): a value written for a
    setting is the one read from then on, and other settings stay. minIni keeps the
    promise over the files of the working directory ([min_ini_promise]); against it,
    what the callbacks and the console write to [metaCom.config] (the serials sent
    and received, the flag of a contact that speaks the protocol) is what
    [get_relay_name_list] finds when the program starts again. *)

From S2P Require Import Prelude.
From S2P Require Import CString.
From S2P Require Import Misc.
From S2P Require Import Telegram.
From S2P Require Import SnTracker.
From S2P Require Import MsgQueue.
From S2P Require Import MqPersist.
From S2P Require Import Relay.
From S2P Require Import MsgDatabase.
From S2P Require Import Ini.
From S2P Require Import IniWrite.
From S2P Require Import GroupChats.
From S2P Require Import Bot.
From S2P Require Import Commands.
From S2P Require Import Toxrelayer.
From S2P Require Import Rooms.
From S2P Require Import Console.

(** ** The promise *)

(** Names and values a file can hold: see [section_ok], [key_ok] and [value_ok]. *)
Definition entry_ok (section key value : bytes) : bool :=
  section_ok section && key_name_ok key && value_ok value && fits key value.

Class ini_promise (I : Type) `{!ini_file I} := {
  ini_wf : I -> Prop;
  ini_value : I -> bytes -> bytes -> option bytes;
  gets_value i section key dflt : ini_wf i ->
    let v := take 127 (default dflt (ini_value i section key)) in
    Toxrelayer.ini_gets i section key dflt = (zlen v, v);
  puts_wf i section key value : ini_wf i -> entry_ok section key value = true ->
    ini_wf (Toxrelayer.ini_puts i section key value);
  puts_value i section key value section' key' : ini_wf i -> entry_ok section key value = true ->
    ini_value (Toxrelayer.ini_puts i section key value) section' key' =
      if same_setting section key section' key' then Some value else ini_value i section' key' }.

(** ** minIni keeps it *)

(** The files of the working directory, no operation failing; the callers' buffers
    hold 128 characters, and a call is never left by an undefined operation. *)
#[export] Instance min_ini : ini_file (gmap bytes file) := {|
  Toxrelayer.ini_gets files section key dflt :=
    match Ini.ini_gets (Some section) (Some key) (Some dflt) (replicate 128 NUL) 128 config (mk_world files [] [] []) with
    | Some (n, text, _) => (n, text)
    | None => (0, [])
    end;
  Toxrelayer.ini_puts files section key value :=
    match IniWrite.ini_puts (Some section) (Some key) (Some value) config (mk_world files [] [] []) with
    | Some (_, w) => w_files w
    | None => files
    end |}.

Lemma entry_args section key value : entry_ok section key value = true -> put_args (Some section) key value config.
Proof.
  unfold entry_ok. intros H. zbool. split; try done. split_and!; [done | | done].
  unfold INI_BUFFERSIZE. cbn. lia.
Qed.

Definition files_ok (files : gmap bytes file) : Prop := ini_file_ok (content config (mk_world files [] [] [])).
Definition files_value (files : gmap bytes file) (section key : bytes) : option bytes :=
  setting section key (lines (content config (mk_world files [] [] []))).

(** The promise speaks of files alone: what a call leaves in the rest of the state. *)
Lemma content_files w : content config (mk_world (w_files w) [] [] []) = content config w.
Proof. done. Qed.

Lemma min_ini_puts files section key value : files_ok files -> entry_ok section key value = true ->
  files_ok (Toxrelayer.ini_puts files section key value) /\
  forall section' key', files_value (Toxrelayer.ini_puts files section key value) section' key' =
    if same_setting section key section' key' then Some value else files_value files section' key'.
Proof.
  intros Hi Ha%entry_args. destruct (put_gets _ _ _ _ (mk_world files [] [] []) Ha eq_refl Hi) as (w' & E & _ & Hi' & Hv & Ho & _).
  cbn [Toxrelayer.ini_puts min_ini]. rewrite E. split; [exact Hi' |]. intros section' key'. unfold files_value.
  rewrite content_files. destruct (same_setting section key section' key') eqn:Es; [| by apply Ho].
  apply andb_true_iff in Es as [E1 E2]. by rewrite (setting_case _ _ _ _ _ E1 E2).
Qed.

#[export, refine] Instance min_ini_promise : ini_promise (gmap bytes file) := {|
  ini_wf := files_ok;
  ini_value := files_value;
  gets_value := _ |}.
Proof.
  - intros files section key dflt Hi v. cbn [Toxrelayer.ini_gets min_ini].
    by rewrite (ini_gets_works (Some section)) by (done || by apply file_ok_text).
  - intros. by apply min_ini_puts.
  - intros. by apply min_ini_puts.
Defined.

(** ** What is kept of a contact *)

(** The part of a contact's entry that comes from the file. *)
Definition kept (e : RELAY_NAME_LIST) : Z * Z * bool := (send_sn e, receive_sn e, meta_chat_flag e).

(** The serials the program writes, all of them. *)
Definition serials : list Z := Z.of_nat <$> seq 1 (Z.to_nat TG_SN_MAX).

Lemma in_range a n z : 0 <= n -> Z.of_nat a <= z < Z.of_nat a + n -> z ∈ Z.of_nat <$> seq a (Z.to_nat n).
Proof. intros Hn Hz. apply list_elem_of_fmap. exists (Z.to_nat z). rewrite elem_of_seq. lia. Qed.

Lemma all_of {A} (f : A -> bool) l x : forallb f l = true -> x ∈ l -> f x = true.
Proof. rewrite forallb_forall. intros H Hx. apply H. by apply list_elem_of_In. Qed.

Lemma serial_in sn : tg_sn_valid sn = true -> sn ∈ serials.
Proof. unfold tg_sn_valid. intros H. zbool. apply in_range; unfold TG_SN_MAX, TG_SN_MIN in *; lia. Qed.

(** The keys: a prefix and digits, from which the number can be told. *)
Lemma contact_digits f : friend_number_valid f = true ->
  all_digits (fmt_0d 3 f) /\ (exists d, last (fmt_0d 3 f) = Some d /\ is_digit d = true) /\ (length (fmt_0d 3 f) <= 22)%nat.
Proof.
  unfold friend_number_valid, MAX_Friend_NUM, fmt_0d. intros H. zbool. rewrite (proj2 (Z.ltb_ge _ _)) by lia.
  destruct (dec_long f) as (Hd & Hne & _ & Hl); [lia |]. unfold zlen in *. split_and!.
  - apply Forall_app_2; [by apply Forall_replicate | done].
  - rewrite last_app. destruct (last (dec f)) as [d|] eqn:E; [| by apply last_None in E].
    exists d. split; [done |]. apply last_Some in E as [l E]. rewrite E in Hd. apply Forall_app in Hd as [_ Hd]. by inversion Hd.
  - rewrite length_app, length_replicate. lia.
Qed.

Lemma keys_ok prefix f : prefix ∈ [$"send"; $"recev"; $"meta"] -> friend_number_valid f = true ->
  key_name_ok (key_number prefix f) = true /\ (length (key_number prefix f) <= 27)%nat.
Proof.
  intros Hp Hf. destruct (contact_digits f Hf) as (Hd & (d & Hlast & Hdig) & Hl).
  assert (Hblank : blank d = false) by (unfold blank; apply andb_false_iff; right; apply Z.leb_gt; unfold is_digit in Hdig; zbool; lia).
  assert (Hlast' : last (prefix ++ fmt_0d 3 f) = Some d) by (by rewrite last_app, Hlast).
  destruct prefix as [|c p]; [rewrite !elem_of_cons in Hp; by destruct Hp as [| [| [| ?%elem_of_nil]]] |].
  unfold key_number, key_name_ok, one_line. rewrite !has_char_app, !(has_char_digits _ (fmt_0d 3 f)) by done.
  cbn [app] in *. unfold first_and_last. rewrite Hlast', Hblank. cbn [length]. rewrite length_app.
  rewrite !elem_of_cons in Hp. destruct Hp as [[= -> ->] | [[= -> ->] | [[= -> ->] | []%elem_of_nil]]]; cbn; (split; [done | lia]).
Qed.

Lemma number_read f : friend_number_valid f = true -> strtol (tolower <$> fmt_0d 3 f) = Some (f, false, []).
Proof.
  intros Hf. destruct (contact_digits f Hf) as (Hd & _ & _).
  assert (Hlow : forall ds, all_digits ds -> tolower <$> ds = ds).
  { induction 1 as [|c ds Hc _ IH]; [done |]. rewrite fmap_cons, IH. f_equal. unfold tolower, is_digit in *. zbool.
    by rewrite (proj2 (Z.leb_gt 65 _)) by lia. }
  rewrite Hlow by done. rewrite <- (app_nil_r (fmt_0d 3 f)). apply strtol_fmt_0d; [| done].
  unfold friend_number_valid, MAX_Friend_NUM, LONG_MAX in *. zbool. lia.
Qed.

Lemma key_number_case prefix f g : friend_number_valid f = true -> friend_number_valid g = true ->
  str_caseeq (key_number prefix f) (key_number prefix g) = bool_decide (g = f).
Proof.
  intros Hf Hg. case_bool_decide as E; [subst g; apply caseeq_refl |]. apply not_true_iff_false. intros H%caseeq_true.
  apply E. unfold key_number in H. rewrite !fmap_app in H. apply app_inv_head in H.
  pose proof (number_read f Hf) as H1. rewrite H, (number_read g Hg) in H1. by injection H1.
Qed.

Lemma serial_text sn : tg_sn_valid sn = true ->
  parse_int_range (Some (fmt_0d 4 sn)) TG_SN_MIN TG_SN_MAX = Some sn /\ value_ok (fmt_0d 4 sn) = true /\
  value_text (fmt_0d 4 sn) = fmt_0d 4 sn /\ zlen (fmt_0d 4 sn) = 4.
Proof.
  intros Hs%serial_in.
  pose proof (all_of (fun sn => bool_decide (parse_int_range (Some (fmt_0d 4 sn)) TG_SN_MIN TG_SN_MAX = Some sn) &&
    value_ok (fmt_0d 4 sn) && bool_decide (value_text (fmt_0d 4 sn) = fmt_0d 4 sn) && (zlen (fmt_0d 4 sn) =? 4)) serials sn) as H.
  specialize (H ltac:(vm_compute; reflexivity) Hs). cbv beta in H. zbool. by split_and!.
Qed.

Section Kept.
Context {I : Type} `{ini : !ini_file I} `{promise : !ini_promise I}.

(** What is read for a number that has been written; nothing, or an empty text,
    leaves the contact's remaining fields alone. *)
Lemma read_number_value (i : I) section key dflt mn mx fallback : ini_wf i ->
  read_number i section key dflt mn mx fallback =
    (let v := take 127 (default dflt (ini_value i section key)) in
     if zlen v <? 1 then None else Some (default fallback (parse_int_range (Some v) mn mx))).
Proof. intros Hi. unfold read_number. by rewrite gets_value by done. Qed.

Lemma read_serial (i : I) section key dflt sn : ini_wf i -> tg_sn_valid sn = true ->
  ini_value i section key = Some (fmt_0d 4 sn) ->
  read_number i section key dflt TG_SN_MIN TG_SN_MAX TG_SN_MIN = Some sn.
Proof.
  intros Hi Hs Hv. destruct (serial_text sn Hs) as (Hp & _ & _ & Hz). rewrite read_number_value, Hv by done.
  cbn [default]. unfold id. cbn zeta. rewrite take_ge by (unfold zlen in Hz; lia). by rewrite Hz, Hp.
Qed.

(** Two files that agree on a contact's settings give the same entry. *)
Definition same_contact (i i' : I) (j : Z) : Prop := forall section prefix,
  (section, prefix) ∈ [($"outgoing_sn", $"send"); ($"incoming_sn", $"recev"); ($"meta_chat_flag", $"meta")] ->
  ini_value i' section (key_number prefix j) = ini_value i section (key_number prefix j).

Lemma read_settings_same (i i' : I) j e : ini_wf i -> ini_wf i' -> same_contact i i' j ->
  read_settings i' j e = read_settings i j e.
Proof.
  intros Hi Hi' H. unfold read_settings. rewrite !read_number_value by done.
  by rewrite !H by (rewrite !elem_of_cons; auto).
Qed.

Lemma kept_settings (i : I) j e e' : kept e = kept e' -> kept (read_settings i j e) = kept (read_settings i j e').
Proof.
  unfold kept, read_settings. intros [= H1 H2 H3].
  repeat destruct (read_number _ _ _ _ _ _ _); cbn; congruence.
Qed.

(** The number of one contact written: it is read for that contact, and nothing
    changes for another contact or under another heading. *)
Definition put_serial (i : I) (section prefix : bytes) (f sn : Z) : I :=
  Toxrelayer.ini_puts i section (key_number prefix f) (fmt_0d 4 sn).

Lemma serial_entry section prefix f sn : (section, prefix) ∈ [($"outgoing_sn", $"send"); ($"incoming_sn", $"recev")] ->
  friend_number_valid f = true -> tg_sn_valid sn = true -> entry_ok section (key_number prefix f) (fmt_0d 4 sn) = true.
Proof.
  intros Hs Hf Hsn. destruct (serial_text sn Hsn) as (_ & Hv & Hq & Hz). unfold zlen in Hz.
  assert (Hp : section_ok section = true /\ prefix ∈ [$"send"; $"recev"; $"meta"]).
  { rewrite !elem_of_cons in *. destruct Hs as [[= -> ->] | [[= -> ->] | []%elem_of_nil]]; split; auto. }
  destruct Hp as [Hsec Hp]. destruct (keys_ok prefix f Hp Hf) as [H H0].
  unfold entry_ok, fits. rewrite Hsec, Hv, Hq, H. apply Nat.leb_le. lia.
Qed.

Lemma put_serial_value i section prefix f sn : ini_wf i -> (section, prefix) ∈ [($"outgoing_sn", $"send"); ($"incoming_sn", $"recev")] ->
  friend_number_valid f = true -> tg_sn_valid sn = true ->
  let i' := put_serial i section prefix f sn in
  ini_wf i' /\ ini_value i' section (key_number prefix f) = Some (fmt_0d 4 sn) /\
  (forall section' key', str_caseeq section section' = false -> ini_value i' section' key' = ini_value i section' key') /\
  (forall j, friend_number_valid j = true -> j <> f -> same_contact i i' j).
Proof.
  intros Hi Hs Hf Hsn i'. pose proof (serial_entry section prefix f sn Hs Hf Hsn) as He.
  assert (Hframe : forall section' key', same_setting section (key_number prefix f) section' key' = false ->
    ini_value i' section' key' = ini_value i section' key').
  { intros s k Hne. unfold i', put_serial. by rewrite puts_value, Hne by done. }
  split_and!.
  - by apply puts_wf.
  - unfold i', put_serial. rewrite puts_value by done. unfold same_setting. by rewrite !caseeq_refl.
  - intros s k Hne. apply Hframe. unfold same_setting. by rewrite Hne.
  - intros j Hj Hne s p Hsp. apply Hframe. unfold same_setting. apply andb_false_iff.
    destruct (str_caseeq section s) eqn:Ess; [right | by left].
    assert (p = prefix) as ->; [| rewrite key_number_case by done; by apply bool_decide_eq_false_2].
    rewrite !elem_of_cons in *.
    destruct Hs as [[= -> ->] | [[= -> ->] | []%elem_of_nil]]; destruct Hsp as [[= -> ->] | [[= -> ->] | [[= -> ->] | []%elem_of_nil]]];
      by vm_compute in Ess.
Qed.
End Kept.

(** ** The directory at the start *)

Lemma names_loop_at `{tox_params, toxcore} {I} `{!ini_file I} h (f : I) n : forall i l l', 0 <= i -> names_loop h f n i l = Some l' ->
  forall j, i <= j < i + Z.of_nat n ->
  exists old e, l !! Z.to_nat j = Some old /\ name_entry h f j old = Some e /\ l' !! Z.to_nat j = Some e.
Proof.
  induction n as [|n IH]; intros i l l' Hi; [lia |]. cbn [names_loop].
  destruct (l !! Z.to_nat i) as [old|] eqn:Eo; [| done].
  destruct (name_entry h f i old) as [e|] eqn:Ee; [| done]. intros Hloop j Hj.
  destruct (decide (j = i)) as [-> | Hne].
  - exists old, e. split_and!; [done | done |]. apply names_loop_ok in Hloop as (_ & Hloop & _); [| lia].
    rewrite Hloop by lia. apply lookup_upd_eq. by eapply lookup_lt_Some.
  - destruct (IH (i + 1) _ _ ltac:(lia) Hloop j ltac:(lia)) as (o & x & Ho & Hx & Hl). exists o, x.
    rewrite lookup_upd_ne in Ho by lia. done.
Qed.

(** What the recovery of the trackers leaves alone. *)
Lemma recover_directory `{tox_params, toxcore, mq_config} {D I} `{!database D} `{!ini_file I} env_last n :
  forall (env : relay_env (relayer D I)) c r (w : relayer D I),
  let w' := snd (recover_loop env relay_tracker env_last n c r w) in
  relay_name_list w' = relay_name_list w /\ r_bot w' = r_bot w /\ r_ini w' = r_ini w.
Proof.
  induction n as [|n IH]; intros env c r w; cbn [recover_loop]; [done |].
  destruct (recover_channel _ _ _ _ _) as [x w1] eqn:E. destruct (IH env (c + 1) (r + x) w1) as (-> & -> & ->).
  unfold recover_channel in E. cbn [t_get t_set relay_tracker] in E. repeat case_match; by simplify_eq.
Qed.

Lemma lift_unit_directory `{tox_params, toxcore} {D I} m (w w' : relayer D I) :
  lift_unit m w = Some w' -> relay_name_list w' = relay_name_list w /\ r_ini w' = r_ini w.
Proof. unfold lift_unit, lift. destruct (m _) as [[[] b]|]; [| done]. by intros [= <-]. Qed.

(** The directory after the start: one entry per contact, from the settings. *)
Lemma startup_directory `{tox_params, toxcore, toxpeers, mq_config} {D I} `{!database D} `{!ini_file I} b (d : D) (i : I) k :
  (forall h, zlen (friend_list h) <= MAX_Friend_NUM) -> startup b d i = Some k ->
  r_ini (k_relayer k) = i /\
  forall j, 0 <= j < zlen (friend_list (calls (r_bot (k_relayer k)))) ->
  exists e, relay_name_list (k_relayer k) !! Z.to_nat j = Some e /\ kept e = kept (read_settings i j zero_name).
Proof.
  intros Hf Hs. assert (Hload : exists q0 rc q dk, mq_init = Some q0 /\
    mq_persist_load (mq_set_change_hook (mq_set_drop_hook q0 true) true) (Some QUEUE_FILE) (time (calls b)) (disk b) = Some (rc, q, dk)).
  { unfold startup in Hs. destruct mq_init as [q0|]; [| done]. destruct (conference_peer_list_initial _ _) as [r|]; [| done].
    destruct (mq_persist_load _ _ _ _) as [[[rc q] dk]|] eqn:El; [| done]. by exists q0, rc, q, dk. }
  destruct Hload as (q0 & rc & q & dk & Hi & Hl).
  destruct (startup_steps b d i k q0 rc q dk Hi Hl Hs) as (c & c' & w1 & w2 & w3 & w4 & w5 & lt & E1 & E2 & E3 & E4 & E5 & -> & _).
  apply lift_unit_directory in E1 as [N1 I1], E2 as [N2 I2], E3 as [N3 I3], E4 as [N4 I4].
  rewrite N3, N2, N1 in N4. rewrite I3, I2, I1 in I4. clear N1 N2 N3 I1 I2 I3. cbn [boot relay_name_list r_ini] in N4, I4.
  destruct (recover_directory relay_last_stored_sn (Z.to_nat MAX_Friend_NUM) (g_relay (self_public_key_str w5)) 0 0 w5) as (N6 & B6 & I6).
  destruct (recover_loop _ _ _ _ _ _ w5) as [m w6]. cbn [snd with_last_tx r_ini r_bot relay_name_list] in *. rewrite N6, B6, I6.
  unfold get_relay_name_list in E5. rewrite (proj2 (Z.ltb_ge _ _)) in E5 by apply Hf.
  destruct (names_loop _ _ _ _ _) as [l|] eqn:El; [| done]. rewrite I4, N4 in El.
  assert (E : relay_name_list w5 = l /\ r_bot w5 = r_bot w4 /\ r_ini w5 = i).
  { destruct (Toxrelayer.ini_gets _ _ _ _). by injection E5 as <-. }
  destruct E as (-> & -> & ->). split; [done |]. intros j Hj.
  destruct (names_loop_at _ _ _ 0 _ _ ltac:(lia) El j ltac:(lia)) as (old & e & Ho & He & Hel). exists e. split; [exact Hel |].
  unfold name_entry in He. destruct (friend_public_key _ j); [| done]. destruct (_ <? 128); [| done]. injection He as <-.
  apply kept_settings. apply lookup_replicate in Ho as [-> _]. done.
Qed.

(** What a typed line writes. *)
Lemma send_line_ini `{tox_params, toxcore, mq_config} {D I} `{!database D} `{!ini_file I} (k k' : console D I) line :
  let w := k_relayer k in
  let f := pre_friendnumber w in
  send_line k line = Some k' -> exists e, relay_name_list w !! Z.to_nat f = Some e /\
    r_ini (k_relayer k') = put_serial (r_ini w) ($"outgoing_sn") ($"send") f (tg_sn_next (send_sn e)).
Proof.
  intros w f Hs. unfold send_line in Hs. fold w f in Hs. destruct (contact_name w 128 f) as [nm|]; [| done].
  destruct (relay_name_list w !! Z.to_nat f) as [e|]; [| done]. exists e. split; [done |].
  destruct (tg_encode_text _ _ _ _ _ _) as [n wire]. cbn [r_queue r_db with_queue with_ini with_names] in Hs.
  match type of Hs with (match ?x with _ => _ end = _) => destruct x as [q|]; [| done] end.
  destruct (db_add _ _ _ _ _ _ _) as [rd d]. destruct (_ <=? f); [done |]. by injection Hs as <-.
Qed.

(** * Properties *)

(** Claim C8. The serials sent survive a restart: the serial a typed line took is the
    one its contact has when the program starts again on the file as the line left it,
    so that the next line takes the one after; every other contact has the serials
    and the flag the file held before. *)
Theorem serial_survives_restart `{tox_params, toxcore, toxpeers, mq_config} {D I} `{!database D} `{!ini_file I} `{!ini_promise I}
    (k k' : console D I) line :
  let f := pre_friendnumber (k_relayer k) in
  (forall h f, zlen (friend_name h f) < Z.min 128 TOX_MAX_NAME_LENGTH) -> peers_ok ->
  (forall h j, 0 <= j < zlen (friend_list h) -> is_Some (friend_public_key h j)) ->
  (forall h, zlen (friend_list h) <= MAX_Friend_NUM) ->
  console_ok k -> ini_wf (r_ini (k_relayer k)) -> send_line k line = Some k' ->
  exists e, relay_name_list (k_relayer k) !! Z.to_nat f = Some e /\
    forall b d, wf_groups (table b) ->
    exists k2, startup b d (r_ini (k_relayer k')) = Some k2 /\ ini_wf (r_ini (k_relayer k2)) /\
      forall j, 0 <= j < zlen (friend_list (calls (r_bot (k_relayer k2)))) ->
      exists e2, relay_name_list (k_relayer k2) !! Z.to_nat j = Some e2 /\
        if j =? f then send_sn e2 = tg_sn_next (send_sn e)
        else kept e2 = kept (read_settings (r_ini (k_relayer k)) j zero_name).
Proof.
  intros f Hn Hr Hk Hf Hok Hi Hs. destruct (send_line_ini k k' line Hs) as (e & He & Hini). exists e. split; [done |].
  intros b d Hb. destruct (startup_ok Hn Hr Hk Hf b d (r_ini (k_relayer k')) Hb) as (k2 & Hs2 & _).
  exists k2. split; [done |]. destruct (startup_directory b d _ k2 Hf Hs2) as [-> Hdir].
  pose proof (ok_current _ (ok_relayer _ Hok)) as Hv.
  destruct (put_serial_value (r_ini (k_relayer k)) ($"outgoing_sn") ($"send") f (tg_sn_next (send_sn e)) Hi ltac:(left) Hv
    (tg_sn_next_valid _)) as (Hi' & Hsn & _ & Ho). fold f in Hini. rewrite <- Hini in Hi', Hsn, Ho. split; [done |].
  intros j Hj. destruct (Hdir j Hj) as (e2 & He2 & Hkept). exists e2. split; [exact He2 |].
  destruct (j =? f) eqn:Ej; zbool.
  - subst j. apply (f_equal fst), (f_equal fst) in Hkept. cbn [kept fst] in Hkept. rewrite Hkept. unfold read_settings.
    rewrite (read_serial _ _ _ _ _ Hi' (tg_sn_next_valid _) Hsn). by repeat destruct (read_number _ _ _ _ _ _ _).
  - rewrite Hkept. f_equal. apply read_settings_same; [done | done |]. apply Ho; [| done].
    pose proof (Hf (calls (r_bot (k_relayer k2)))). unfold friend_number_valid. zbool. lia.
Qed.

(** The first contact's line is written to a file that names it in other letters. *)
Definition sample_files : gmap bytes file := {[ config := mk_file sample_config true ]}.

Definition sample_kept : console sample_store (gmap bytes file) :=
  mk_console
    (mk_relayer sample_bot one_stored (opened_db, []) sample_files
       (mk_name 0 ($"AABB") ($"alice") true true 41 1 :: replicate (Z.to_nat MAX_Friend_NUM - 1) zero_name)
       (replicate (Z.to_nat MAX_Friend_NUM) (sn_tracker_init TG_SN_MIN))
       (replicate (Z.to_nat MAX_Friend_NUM) 0) ($"CCDD") [] 0 0 0)
    zero_rooms (replicate 128 NUL) 0 (replicate 512 NUL) 0 2 (replicate (Z.to_nat MAX_Friend_NUM) 1) false 1000 1000 1000 1000 1000.

Lemma sample_kept_ok : console_ok (cfg := mq_small) sample_kept.
Proof.
  split; [| apply zero_rooms_wf | done.. | split; done | apply length_replicate | split; done].
  split; [apply one_stored_wf | apply sample_wf | | apply length_replicate.. | done].
  cbn [relay_name_list k_relayer sample_kept length]. by rewrite length_replicate.
Qed.

Lemma sample_files_ok : files_ok sample_files.
Proof. unfold files_ok, ini_file_ok. vm_compute (close _). repeat constructor; unfold INI_BUFFERSIZE; cbn; lia || done. Qed.

Lemma serial_survives_restart_witness : exists k' k2 e2 e3,
  send_line (core := pair_core 2 900) (cfg := mq_small) sample_kept ($"hello" ++ [LF]) = Some k' /\
  startup (core := pair_core 2 900) (peers := room_peers ($"alice")) (cfg := mq_small)
    sample_bot (opened_db, []) (r_ini (k_relayer k')) = Some k2 /\
  relay_name_list (k_relayer k2) !! 0%nat = Some e2 /\ send_sn e2 = 42 /\
  relay_name_list (k_relayer k2) !! 1%nat = Some e3 /\ kept e3 = (1, 1, false).
Proof.
  assert (Hsend : is_Some (send_line (core := pair_core 2 900) (cfg := mq_small) sample_kept ($"hello" ++ [LF]))).
  { apply is_Some_alt. vm_compute. exact I. }
  destruct Hsend as [k' Hs].
  destruct (@serial_survives_restart tox_02 (pair_core 2 900) (room_peers ($"alice")) mq_small _ _ _ _ _ sample_kept k' ($"hello" ++ [LF]))
    as (e & He & Hrun).
  - done.
  - exact room_peers_ok.
  - intros h j Hj. change (0 <= j < 2) in Hj. cbn.
    destruct (decide (j = 0)) as [-> | ?]; [by eexists |]. destruct (decide (j = 1)) as [-> | ?]; [by eexists | lia].
  - done.
  - exact sample_kept_ok.
  - exact sample_files_ok.
  - exact Hs.
  - destruct (Hrun sample_bot (opened_db, []) ltac:(apply sample_wf)) as (k2 & Hk2 & _ & Hdir).
    destruct (Hdir 0) as (e2 & H2 & V2); [change (0 <= 0 < 2); lia |].
    destruct (Hdir 1) as (e3 & H3 & V3); [change (0 <= 1 < 2); lia |].
    exists k', k2, e2, e3. injection He as <-.
    assert (D3 : kept (read_settings (r_ini (k_relayer sample_kept)) 1 zero_name) = (1, 1, false)) by (vm_compute; reflexivity).
    exact (conj Hs (conj Hk2 (conj H2 (conj V2 (conj H3 (eq_trans V3 D3)))))).
Defined.
