(* ===== verification/Durability.v ===== *)
(** * The queue and its file while the process runs

    Whatever the process does to its queue is a sequence of calls of the queue's
    module, in which every read receipt of the library appears once ([Ledger.v] says
    what such a sequence can have done); the transport is [tox_transport].

    [on_queue_changed] sets a flag at every change of the queue and the loop mirrors
    the queue to its file while the flag is set ([src/toxrelayer.c]). Here: whenever
    the flag is clear the file is the image of the queue, whatever happened before,
    so that a crash at that point loses nothing, and whatever its state no telegram
    leaves the queue unnoticed. *)

From S2P Require Import Prelude.
From S2P Require Import CString.
From S2P Require Import Telegram.
From S2P Require Import SnTracker.
From S2P Require Import MsgQueue.
From S2P Require Import MqPersist.
From S2P Require Import Ledger.
From S2P Require Import Relay.
From S2P Require Import MsgDatabase.
From S2P Require Import Misc.
From S2P Require Import Log.
From S2P Require Import GroupChats.
From S2P Require Import Bot.
From S2P Require Import Network.
From S2P Require Import Commands.
From S2P Require Import Toxrelayer.
From S2P Require Import Rooms.
From S2P Require Import Console.

(** ** What the queue promises to its change hook

    Reports only accumulate, and without a new one the recipients and texts that
    would be saved are the same. *)
Record watched (q q' : mq) : Prop := {
  watched_hook : g_change_fn q' = g_change_fn q;
  watched_grows : (changes q <= changes q')%nat;
  watched_same : g_change_fn q = true -> changes q' = changes q -> saved <$> messages q' = saved <$> messages q }.

#[export] Instance watched_preorder : PreOrder watched.
Proof.
  split; [by intros q; split |]. intros a b c [H1 H2 H3] [K1 K2 K3].
  split; [congruence | lia |]. intros Hh Hc. rewrite K3, H3; done || congruence || lia.
Qed.

Section Queue.
Context `{cfg : mq_config} (T : (Z -> bytes -> Z) -> Prop).

(** A step of a well-formed queue: calls of its module, of which those of [mq_confirm]
    handed on the receipts [rs]. *)
Definition queue_told (rs : list (Z * Z)) (q q' : mq) : Prop :=
  wf_mq q -> wf_mq q' /\ watched q q' /\ called T rs q q'.
Definition queue_step : mq -> mq -> Prop := queue_told [].

Lemma queue_told_trans rs rs' q q1 q2 : queue_told rs q q1 -> queue_told rs' q1 q2 -> queue_told (rs ++ rs') q q2.
Proof.
  intros H K Hq. destruct (H Hq) as (Hq1 & Hw & Hc). destruct (K Hq1) as (Hq2 & Kw & Kc).
  split_and!; [done | by transitivity q1 | by apply (called_trans T rs rs' q q1)].
Qed.

#[export] Instance queue_step_preorder : PreOrder queue_step.
Proof.
  split; [intros q Hq; split_and!; [done | done | apply called_refl] |]. intros a b c. apply (queue_told_trans [] []).
Qed.

Lemma changes_events q q' l : q_events q' = q_events q ++ l ->
  changes q' = (changes q + length (filter (fun e => match e with EvChange => true | _ => false end = true) l))%nat.
Proof. unfold changes. intros ->. by rewrite filter_app, length_app. Qed.

Lemma same_change_hook q q' : hooks q' = hooks q -> g_change_fn q' = g_change_fn q.
Proof. unfold hooks. congruence. Qed.

(** A reported change. *)
Lemma watched_reported q q' l : hooks q' = hooks q -> q_events q' = q_events q ++ l ++ change_events q ->
  watched q q'.
Proof.
  intros Hh%same_change_hook He. pose proof (changes_events _ _ _ He) as Hc. rewrite filter_app, length_app in Hc.
  split; [done | lia |]. intros Hf Hs. exfalso. unfold change_events in Hc. rewrite Hf in Hc.
  rewrite filter_cons_True in Hc by done. cbn [length] in Hc. lia.
Qed.

(** A step that reports nothing and changes nothing to save. *)
Lemma watched_silent q q' : hooks q' = hooks q -> q_events q' = q_events q ->
  saved <$> messages q' = saved <$> messages q -> watched q q'.
Proof. intros Hh%same_change_hook He Hs. split; [done | unfold changes; by rewrite He | done]. Qed.

Lemma enqueue_queue_step q f p len now rc q' : mq_enqueue q f p len now = Some (rc, q') -> queue_step q q'.
Proof.
  intros H Hq. pose proof (enqueue_hook _ _ _ _ _ _ _ H) as Hh. destruct (enqueue_done q f p len now rc q' Hq H) as [Hw Hc].
  split_and!; [done | | exact (called_enqueue T _ _ _ _ _ _ _ H)].
  destruct Hc as [(x & _ & _ & _ & He) | (Hm & He & _)]; [by apply (watched_reported q q' []) |].
  apply watched_silent; [done | done | by rewrite Hm].
Qed.

Lemma confirm_queue_told q f r rc q' : mq_confirm q f r = Some (rc, q') -> queue_told [(f, r)] q q'.
Proof.
  intros H Hq. pose proof (confirm_hook _ _ _ _ _ H) as Hh. destruct (confirm_done q f r rc q' Hq H) as [Hw Hc].
  split_and!; [done | | exact (called_confirm T _ _ _ _ _ H)].
  destruct Hc as [(l & t & l' & _ & _ & _ & _ & He) | ->]; [by apply (watched_reported q q' []) | done].
Qed.

Lemma service_queue_step {X} (tx : X -> Z -> bytes -> Z * X) x q now o x' q' : T (offered tx x) ->
  mq_service (Some tx) x q now = Some (o, x', q') -> queue_step q q'.
Proof.
  intros HT H Hq. pose proof (mq_service_hook _ _ _ _ _ _ _ H) as Hh.
  pose proof (service_ok tx x q now Hq) as Hs. destruct (tick tx x now (messages q)) as [[[o1 x1] l] d] eqn:Et.
  destruct Hs as (q1 & H1 & Hw & Hm & _ & He & _). rewrite H in H1. injection H1 as <- <- <-.
  split_and!; [done | | exact (called_service T tx _ _ _ _ _ _ HT H)]. destruct d as [t|].
  - unfold drop_events in He. by eapply watched_reported.
  - cbn [drop_events] in He. rewrite app_nil_r in He. apply watched_silent; [done | done |].
    rewrite Hm. exact (proj1 (tick_saved _ _ _ _ _ _ _ _ Et)).
Qed.

End Queue.

(** ** What the relay does to its world

    A relation that every callback of the environment respects is respected by the
    whole policy. *)
Section Policy.
Context {W : Type} (R : W -> W -> Prop) `{!PreOrder R}.

Record env_steps (env : relay_env W) : Prop := {
  step_tracker acc w c t : tracker env = Some acc -> R w (t_set acc w c t);
  step_store f w c sn ts s b : store env = Some f -> R w (snd (f w c sn ts s b));
  step_enqueue f w c p len now : enqueue env = Some f -> R w (snd (f w c p len now));
  step_remember f w c sn : remember_serial env = Some f -> R w (f w c sn) }.

Variable env : relay_env W.
Hypothesis Henv : env_steps env.

Lemma request_steps w c from to now : R w (snd (relay_request_gap env w c from to now)).
Proof.
  unfold relay_request_gap. destruct (enqueue env) as [enq|] eqn:Ee; [| done]. destruct (peer_key env) as [key|]; [| done].
  destruct (key w c) as [peer|]; [| done]. destruct (tg_encode_cmd _ _ _ _ _) as [n wire]. destruct (n <=? 0); [done |].
  pose proof (step_enqueue _ Henv enq w c (default [] wire) n now Ee) as H.
  destruct (enq w c (default [] wire) n now) as [rc w1]. by destruct (negb _).
Qed.

Lemma deliver_steps w c tg now : R w (snd (relay_deliver env w c tg now)).
Proof.
  unfold relay_deliver.
  set (o := match tracker env with
    | None => (SN_IN_ORDER, 0, 0, w)
    | Some acc =>
      match t_get acc w c with
      | None => (SN_IN_ORDER, 0, 0, w)
      | Some t =>
        let '(state, t, gap_from, gap_to) := sn_tracker_accept (Some t) (tg_sn tg) RELAY_MAX_GAP in
        (state, gap_from, gap_to, match t with Some t => t_set acc w c t | None => w end)
      end
    end).
  assert (Ho : R w o.2).
  { unfold o. destruct (tracker env) as [acc|] eqn:Et; [| done]. destruct (t_get acc w c) as [t|]; [| done].
    destruct (sn_tracker_accept _ _ _) as [[[st t1] gf] gt]. destruct t1 as [t1|]; [| done].
    by apply (step_tracker _ Henv). }
  destruct o as [[[st gf] gt] w0]. cbn [snd] in Ho.
  set (w1 := match store env with
    | None => w0
    | Some f => snd (f w0 c (tg_sn tg) (tg_timestamp tg) (tg_sender tg) (tg_body tg)) end).
  assert (H1 : R w w1).
  { unfold w1. destruct (store env) as [f|] eqn:Es; [| done]. transitivity w0; [done |]. by apply (step_store _ Henv). }
  set (w2 := match remember_serial env with None => w1 | Some f => f w1 c (tg_sn tg) end).
  assert (H2 : R w w2).
  { unfold w2. destruct (remember_serial env) as [f|] eqn:Er; [| done]. transitivity w1; [done |]. by apply (step_remember _ Henv). }
  destruct st; try done. pose proof (request_steps w2 c gf gt now) as H3.
  destruct (relay_request_gap env w2 c gf gt now) as [out w3]. cbn [snd] in *. by transitivity w2.
Qed.

Lemma forward_steps w c raw tg now : R w (snd (relay_forward env w c raw tg now)).
Proof.
  unfold relay_forward. destruct (resolve_peer env) as [resolve|]; [| done]. destruct (enqueue env) as [enq|] eqn:Ee; [| done].
  destruct (resolve w _ <? 0); [done |]. set (p := if match peer_is_metacom env with None => false | Some f => f w c end then until_nul raw else until_nul (tg_body tg)).
  pose proof (step_enqueue _ Henv enq w (resolve w (tg_receiver tg)) p (zlen p) now Ee) as H.
  destruct (enq w _ p (zlen p) now) as [rc w1]. by destruct (negb _).
Qed.

Lemma replay_steps enq peer self c now rs : enqueue env = Some enq -> forall n w,
  R w (snd (replay_loop enq peer self c now rs n w)).
Proof.
  intros Ee. induction rs as [|r rs IH]; intros n w; cbn [replay_loop]; [done |].
  destruct (tg_encode_text _ _ _ _ _ _) as [len wire]. destruct (len <=? 0); [apply IH |].
  pose proof (step_enqueue _ Henv enq w c (default [] wire) len now Ee) as H.
  destruct (enq w c (default [] wire) len now) as [rc w1]. transitivity w1; [done | apply IH].
Qed.

Lemma serve_steps w c cmd now : R w (snd (relay_serve_replay env w c cmd now)).
Proof.
  unfold relay_serve_replay. destruct (fetch_range env) as [fetch|]; [| done]. destruct (enqueue env) as [enq|] eqn:Ee; [| done].
  destruct (peer_key env) as [key|]; [| done]. destruct (key w c) as [peer|]; [| done].
  destruct (fetch _ _ _ _ _) as [[|r rs]|]; [done | | done].
  pose proof (replay_steps enq peer (self_public_key env) c now (r :: rs) Ee 0 w) as H.
  by destruct (replay_loop enq peer (self_public_key env) c now (r :: rs) 0 w).
Qed.

Lemma receive_steps w c raw len now : R w (snd (relay_receive (Some env) w c raw len now)).
Proof.
  unfold relay_receive. destruct raw as [r|]; [| done]. destruct (self_public_key env) as [self|]; [| done].
  destruct (_ || _); [done |]. destruct (tg_decode _ _) as [tg|]; [| done]. destruct (tg_knd tg).
  - done.
  - destruct (str_eq _ _); [apply deliver_steps | apply forward_steps].
  - destruct (negb _); [done | apply serve_steps].
Qed.

Lemma recover_steps acc last n : tracker env = Some acc -> forall c r w, R w (snd (recover_loop env acc last n c r w)).
Proof.
  intros Ha. induction n as [|n IH]; intros c r w; cbn [recover_loop]; [done |].
  assert (H : R w (snd (recover_channel env acc last c w))).
  { unfold recover_channel. repeat case_match; cbn [snd]; done || by apply (step_tracker _ Henv). }
  destruct (recover_channel _ _ _ _ _) as [x w1]. cbn [snd] in H. by transitivity w1.
Qed.

End Policy.

(** ** What the relayer's handlers do to its queue and the file *)

Definition queue_file_of (b : bot) : option file := w_files (disk b) !! QUEUE_FILE.

Section Relayer.
Context `{tox : tox_params} `{core : toxcore} `{cfg : mq_config} {D I : Type} `{db : !database D} `{ini : !ini_file I}.

(** The queue's transport is toxcore in some state of the bot. *)
Definition transports (tx : Z -> bytes -> Z) : Prop := exists s : bot, tx = offered tox_transport s.

(** A step of the process between two looks at the flag, in which the receipts [rs]
    arrived. *)
Definition relayer_told (rs : list (Z * Z)) (w w' : relayer D I) : Prop :=
  wf_mq (r_queue w) ->
  wf_mq (r_queue w') /\ watched (r_queue w) (r_queue w') /\ called transports rs (r_queue w) (r_queue w') /\
  queue_file_of (r_bot w') = queue_file_of (r_bot w).
Definition relayer_step : relayer D I -> relayer D I -> Prop := relayer_told [].

#[export] Instance relayer_step_preorder : PreOrder relayer_step.
Proof.
  split; [intros w Hw; split_and!; try done; apply called_refl |]. intros a b c H K Ha.
  destruct (H Ha) as (Hb & H1 & H2 & H3). destruct (K Hb) as (Hc & K1 & K2 & K3).
  split_and!; [done | by transitivity (r_queue b) | by apply (called_trans transports [] [] _ (r_queue b)) | congruence].
Qed.

Lemma step_queue rs (w w' : relayer D I) : queue_told transports rs (r_queue w) (r_queue w') ->
  queue_file_of (r_bot w') = queue_file_of (r_bot w) -> relayer_told rs w w'.
Proof. intros H Hf Hw. destruct (H Hw) as (? & ? & ?). by split_and!. Qed.

(** Steps that touch neither. *)
Lemma step_same (w w' : relayer D I) : r_queue w' = r_queue w -> queue_file_of (r_bot w') = queue_file_of (r_bot w) ->
  relayer_step w w'.
Proof. intros H1 H2. apply step_queue; [rewrite H1; apply (reflexivity (R := queue_step transports)) | done]. Qed.

Lemma relay_env_steps self : env_steps relayer_step (g_relay self).
Proof.
  split.
  - intros acc w c t [= <-]. apply step_same; cbn; by case_match.
  - intros f w c sn ts s b [= <-]. unfold relay_store. destruct (db_add _ _ _ _ _ _ _). by apply step_same.
  - intros f w c p len now [= <-]. unfold relay_enqueue. destruct (mq_enqueue _ _ _ _ _) as [[rc q]|] eqn:E; [| done].
    apply step_queue; [| done]. exact (enqueue_queue_step _ _ _ _ _ _ _ _ E).
  - intros f w c sn [= <-]. by apply step_same.
Qed.

End Relayer.

(** ** The bot's handlers leave the queue's file alone *)

Definition same_file (s s' : bot) : Prop := queue_file_of s' = queue_file_of s.

#[export] Instance same_file_preorder : PreOrder same_file.
Proof. split; [by intros s |]. unfold same_file. intros a b c. congruence. Qed.

(** A call of the C library on other files. *)
Definition elsewhere {A} (f : world -> A * world) : Prop :=
  forall w, w_files (snd (f w)) !! QUEUE_FILE = w_files w !! QUEUE_FILE.

Lemma set_files_elsewhere w path f : path <> QUEUE_FILE ->
  w_files (set_files w (<[path := f]> (w_files w))) !! QUEUE_FILE = w_files w !! QUEUE_FILE.
Proof. intros Hp. cbn. by rewrite lookup_insert_ne. Qed.

Lemma sys_elsewhere : elsewhere sys.
Proof. intros w. by rewrite (proj1 (sys_files w)). Qed.

Lemma fopen_wb_elsewhere path : path <> QUEUE_FILE -> elsewhere (fopen_wb path).
Proof.
  intros Hp w. unfold fopen_wb. pose proof (sys_elsewhere w) as H. destruct (sys w) as [[] w1]; [| done].
  cbn [snd] in *. by rewrite set_files_elsewhere.
Qed.

Lemma fopen_a_elsewhere path : path <> QUEUE_FILE -> elsewhere (fopen_a path).
Proof.
  intros Hp w. unfold fopen_a. pose proof (sys_elsewhere w) as H. destruct (sys w) as [[] w1]; [| done].
  cbn [snd] in *. destruct (w_files w1 !! path); [done |]. by rewrite set_files_elsewhere.
Qed.

Lemma fwrite_elsewhere path data : path <> QUEUE_FILE -> elsewhere (fwrite path data).
Proof.
  intros Hp w. unfold fwrite. pose proof (sys_elsewhere w) as H. unfold sys in H.
  destruct (ask w) as [[] w1]; cbn [snd] in *; by rewrite set_files_elsewhere.
Qed.

Lemma rename_elsewhere from to : from <> QUEUE_FILE -> to <> QUEUE_FILE -> elsewhere (rename from to).
Proof.
  intros Hf Ht w. unfold rename. pose proof (sys_elsewhere w) as H. destruct (sys w) as [[] w1]; [| done].
  cbn [snd] in *. destruct (w_files w1 !! from); [| done]. cbn. by rewrite lookup_insert_ne, lookup_delete_ne.
Qed.

Lemma append_elsewhere path line : path <> QUEUE_FILE -> elsewhere (append_line path line).
Proof.
  intros Hp w. unfold append_line. pose proof (fwrite_elsewhere path (line ++ [LF]) Hp w) as H.
  destruct (fwrite _ _ w) as [n w1]. cbn [snd] in *. by rewrite sys_elsewhere.
Qed.

Lemma key_elsewhere `{tox_params} pk path : path <> QUEUE_FILE -> elsewhere (key_in_file pk path).
Proof.
  intros Hp w. unfold key_in_file. pose proof (sys_elsewhere w) as Hs. destruct (sys w) as [ok w1]. cbn [snd] in Hs.
  destruct (file_contains_key _ _ _ _ _) as [found files]. cbn [snd].
  destruct (w_files w1 !! path) as [f|]; [done |]. destruct (files !! path); [| done]. by rewrite set_files_elsewhere.
Qed.

Lemma save_elsewhere path data : path <> QUEUE_FILE -> elsewhere (save_file (Some path) data).
Proof.
  intros Hp w. unfold save_file. pose proof (fopen_wb_elsewhere path Hp w) as H1. destruct (fopen_wb path w) as [ok w1].
  cbn [snd] in H1. destruct ok; [| done]. cbn [negb]. unfold save_open.
  pose proof (sys_elsewhere w1) as H2. destruct (sys w1) as [al w2]. cbn [snd] in H2.
  destruct al; cbn [negb]; [| cbn [snd]; rewrite sys_elsewhere; congruence].
  pose proof (fwrite_elsewhere path data Hp w2) as H3. destruct (fwrite path data w2) as [n w3]. cbn [snd] in H3.
  pose proof (sys_elsewhere w3) as H4. destruct (sys w3) as [cl w4]. cbn [snd] in *. congruence.
Qed.

(** [store_data] changes its temporary file and the profile. *)
Lemma store_elsewhere `{tox_params, toxcore} data : elsewhere (store_file false (Some DATA_FILE) data).
Proof.
  assert (Ht : DATA_FILE ++ TEMP_PROFILE_EXT <> QUEUE_FILE) by (vm_compute; discriminate).
  assert (Hd : DATA_FILE <> QUEUE_FILE) by (vm_compute; discriminate).
  intros w. unfold store_file. pose proof (sys_elsewhere w) as K1. destruct (sys w) as [al w1]. cbn [snd] in K1.
  destruct al; cbn [negb]; [| done]. pose proof (fopen_wb_elsewhere _ Ht w1) as K2. destruct (fopen_wb _ w1) as [ok w2].
  cbn [snd] in K2. destruct ok; cbn [negb snd]; [| congruence]. unfold store_open.
  pose proof (sys_elsewhere w2) as K3. destruct (sys w2) as [al2 w3]. cbn [snd] in K3.
  destruct al2; cbn [negb]; [| cbn [snd]; rewrite sys_elsewhere; congruence].
  pose proof (fwrite_elsewhere _ data Ht w3) as K4. destruct (fwrite _ data w3) as [n w4]. cbn [snd] in K4.
  destruct (_ || _); [cbn [snd]; rewrite sys_elsewhere; congruence |].
  pose proof (rename_elsewhere _ _ Ht Hd (snd (sys w4))) as K5. destruct (rename _ _ _) as [re w5]. cbn [snd] in *.
  rewrite K5, sys_elsewhere. congruence.
Qed.

(** A handler. *)
Abbreviation spares m := (leads same_file m).

Lemma spares_modify g : (forall s, disk (g s) = disk s) -> spares (modify g).
Proof. intros H s a s' [= _ <-]. unfold same_file, queue_file_of. by rewrite H. Qed.

Lemma spares_perform {A} c (answer : history -> A) : spares (perform c answer).
Proof. by apply leads_perform. Qed.

Lemma spares_on_disk {A} (f : world -> A * world) : elsewhere f -> spares (on_disk f).
Proof. intros H s a s'. unfold on_disk. specialize (H (disk s)). destruct (f (disk s)). intros [= _ <-]. exact H. Qed.

Create HintDb spares.

(** One step through a handler: a rule for its head, or a lemma about the call. *)
Ltac spare_step :=
  first
  [ apply leads_ret; apply _ | apply leads_gets; apply _ | apply leads_or_undefined; apply _
  | apply spares_perform | apply spares_modify; reflexivity
  | solve [eauto 2 with spares nocore]
  | apply leads_bind; [apply _ | | intros ?] | case_match ].
Ltac spare := repeat spare_step.

Section Handlers.
Context `{tox : tox_params} `{core : toxcore}.

Lemma spares_reply f msg : spares (reply f msg).
Proof. apply spares_perform. Qed.

Lemma spares_save_data : spares (save_data (Some DATA_FILE)).
Proof. unfold save_data. spare. apply spares_on_disk, save_elsewhere. vm_compute. discriminate. Qed.

Lemma spares_bootstrap : spares bootstrap_DHT.
Proof. unfold bootstrap_DHT. induction nodes as [|n l IH]; cbn [bootstrap_loop]; unfold bootstrap_node; spare. Qed.

Lemma spares_store_data : spares (store_data false (Some DATA_FILE)).
Proof. unfold store_data. spare. apply spares_on_disk, store_elsewhere. Qed.

Lemma spares_key pk path : path <> QUEUE_FILE -> spares (on_disk (key_in_file pk path)).
Proof. intros H. by apply spares_on_disk, key_elsewhere. Qed.

Lemma spares_master f : spares (friend_is_master f).
Proof. unfold friend_is_master. spare. apply spares_key. vm_compute. discriminate. Qed.

Lemma spares_blocked pk : spares (public_key_is_blocked pk).
Proof. unfold public_key_is_blocked. spare. apply spares_key. vm_compute. discriminate. Qed.

#[local] Hint Resolve spares_reply spares_save_data spares_store_data spares_master spares_blocked : spares.

Lemma spares_master_only f body : spares body -> spares (master_only f body).
Proof. intros H. unfold master_only, authent_failed. by spare. Qed.

Lemma spares_group f arg error body : (forall n, spares (body n)) -> spares (with_group_number f arg error body).
Proof. intros H. unfold with_group_number. by spare. Qed.

Lemma spares_get_name f : spares (get_name f).
Proof. unfold get_name. spare. Qed.

Lemma spares_replies f l : spares (replies f l).
Proof. induction l; cbn [replies]; spare. Qed.

Lemma spares_new type : spares (new_conference type).
Proof. unfold new_conference. spare. Qed.

Lemma spares_add g type password : spares (add_to_table g type password).
Proof. unfold add_to_table. spare. Qed.

Lemma spares_find g : spares (find_index g).
Proof. unfold find_index. spare. Qed.

Lemma spares_slot i : spares (slot i).
Proof. unfold slot. spare. Qed.

Lemma spares_put i c : spares (put_slot i c).
Proof. unfold put_slot. spare. Qed.

Lemma spares_error f msg err : spares (send_error f msg err).
Proof. unfold send_error. spare. Qed.

Lemma spares_argument argv i : spares (argument argv i).
Proof. unfold argument. spare. Qed.

#[local] Hint Resolve spares_get_name spares_replies spares_new spares_add spares_find spares_slot
  spares_put spares_error spares_argument : spares.

Lemma spares_info_group f g : spares (info_group f g).
Proof. unfold info_group. spare. Qed.

Lemma spares_info_groups f l : spares (info_groups f l).
Proof. induction l; cbn [info_groups]; [spare |]. apply leads_bind; [apply _ | apply spares_info_group | done]. Qed.

#[local] Hint Resolve spares_info_groups : spares.

Lemma spares_masters_file id : spares (on_disk (append_line MASTERLIST_FILE id)).
Proof. apply spares_on_disk, append_elsewhere. vm_compute. discriminate. Qed.

Lemma spares_open_masters : spares (on_disk (fopen_a MASTERLIST_FILE)).
Proof. apply spares_on_disk, fopen_a_elsewhere. vm_compute. discriminate. Qed.

#[local] Hint Resolve spares_masters_file spares_open_masters : spares.

(** A handler whose body runs for a master, on a room's number. *)
Ltac spare_command :=
  repeat first [ apply spares_master_only | apply spares_group; intros ? | spare_step ].

Lemma spares_command f argc argv name g : In (name, g) commands -> spares (g f argc argv).
Proof.
  unfold commands. cbn [In]. intros H. repeat destruct H as [[= <- <-] | H]; [.. | done].
  - unfold cmd_default. spare_command.
  - unfold cmd_group. spare_command.
  - unfold cmd_gmessage. spare_command.
  - unfold cmd_help. spare_command.
  - unfold cmd_id. spare_command.
  - unfold cmd_info. spare_command.
  - unfold cmd_invite. spare_command.
  - unfold cmd_leave. spare_command.
  - unfold cmd_master. spare_command.
  - unfold cmd_name. spare_command.
  - unfold cmd_passwd. spare_command.
  - unfold cmd_purge. spare_command.
  - unfold cmd_status. spare_command.
  - unfold cmd_statusmessage. spare_command.
  - unfold cmd_title_set. spare_command.
Qed.

Lemma spares_execute f input length : spares (execute f input length).
Proof.
  intros s a s' H. rewrite execute_dispatched in H.
  destruct (dispatched input length) as [[g args]|] eqn:E; [| by injection H as _ <-].
  apply dispatched_command in E as (name & Hin & _).
  destruct (g f _ args s) as [[u s1]|] eqn:Eg; [| done]. injection H as _ <-.
  exact (spares_command f _ args name g Hin s u s1 Eg).
Qed.

Lemma spares_connection f : spares (cb_friend_connection_change f).
Proof. unfold cb_friend_connection_change. spare. Qed.

Lemma spares_friend_name s n : spares (on_friend_name s n).
Proof. unfold on_friend_name. spare. Qed.

Lemma spares_invite f type cookie : spares (cb_group_invite f type cookie).
Proof. unfold cb_group_invite, join_group. spare. Qed.

Lemma spares_title g text n : spares (cb_group_titlechange g text n).
Proof. unfold cb_group_titlechange. spare. Qed.

Lemma spares_load_chats l : spares (load_chats l).
Proof. induction l; cbn [load_chats]; spare. Qed.

Lemma spares_load : spares load_conferences.
Proof. unfold load_conferences. spare. apply spares_load_chats. Qed.

Lemma spares_purge_friends l : spares (purge_friends l).
Proof. induction l; cbn [purge_friends]; [spare |]. apply leads_bind; [apply _ | unfold purge_friend, get_time; spare | done]. Qed.

Lemma spares_inactive : spares purge_inactive_friends.
Proof. unfold purge_inactive_friends. spare. apply spares_purge_friends. Qed.

Lemma spares_purge_loop fuel : forall i, spares (purge_loop fuel i).
Proof. induction fuel as [|fuel IH]; intros i; cbn [purge_loop]; spare; apply IH. Qed.

Lemma spares_groups : spares purge_empty_groups.
Proof. unfold purge_empty_groups. spare. apply spares_purge_loop. Qed.

Lemma spares_init : spares init_toxrelayer_state.
Proof. unfold init_toxrelayer_state, get_time. spare. Qed.

End Handlers.

(** ** The handlers of the process *)

Section Process.
Context `{tox : tox_params} `{core : toxcore} `{peers : toxpeers} `{cfg : mq_config} {D I : Type} `{db : !database D} `{ini : !ini_file I}.

Lemma lift_steps {A} (m : M A) (w : relayer D I) a w' : spares m -> lift m w = Some (a, w') ->
  relayer_step w w' /\ r_queue w' = r_queue w.
Proof.
  intros Hm. unfold lift. destruct (m (r_bot w)) as [[x b]|] eqn:E; [| done]. intros [= <- <-].
  split; [| done]. apply step_same; [done |]. exact (Hm _ _ _ E).
Qed.

Lemma lift_unit_steps m (w w' : relayer D I) : spares m -> lift_unit m w = Some w' -> relayer_step w w' /\ r_queue w' = r_queue w.
Proof.
  intros Hm. unfold lift_unit. destruct (lift m w) as [[[] w1]|] eqn:E; [| done]. intros [= <-]. exact (lift_steps _ _ _ _ Hm E).
Qed.

Lemma lift_modify_steps g u (w w' : relayer D I) : (forall s, disk (g s) = disk s) -> lift (modify g) w = Some (u, w') ->
  relayer_step w w'.
Proof. intros Hg H. by destruct (lift_steps _ _ _ _ (spares_modify g Hg) H). Qed.

Lemma names_steps (w w' : relayer D I) : get_relay_name_list w = Some w' -> relayer_step w w'.
Proof.
  intros H. apply step_same; [exact (get_names_queue _ _ H) |]. unfold get_relay_name_list in H.
  destruct (_ <? _); [by injection H as <- |]. destruct (names_loop _ _ _ _ _); [| done].
  destruct (ini_gets _ _ _ _). by injection H as <-.
Qed.

Lemma command_steps (w w' : relayer D I) f message n : command_message w f message n = Some w' -> relayer_step w w'.
Proof.
  unfold command_message. destruct (is_hello message).
  - unfold set_meta_flag. destruct (_ !! _); [| done]. intros [= <-]. by apply step_same.
  - destruct (n =? 0); [by intros [= <-] |].
    destruct (lift _ w) as [[rc w1]|] eqn:E; [| done]. cbn [mbind option_bind].
    destruct (lift_steps _ _ _ _ (spares_execute _ _ _) E) as [H1 _]. destruct (rc =? -1); [| by intros [= <-]].
    destruct (lift _ w1) as [[u w2]|] eqn:E2; [| done]. intros [= <-].
    destruct (lift_steps _ _ _ _ (spares_reply _ _) E2) as [H2 _]. by transitivity w1.
Qed.

Lemma text_steps (w w' : relayer D I) f message : text_message w f message = Some w' -> relayer_step w w'.
Proof.
  unfold text_message. destruct (read_name _ _ _); [| done]. cbn [mbind option_bind]. destruct (negb _).
  - destruct (_ !! _); [| done]. cbn [mbind option_bind]. destruct (db_add _ _ _ _ _ _ _). intros [= <-]. by apply step_same.
  - intros [= <-].
    exact (receive_steps relayer_step (g_relay _) (relay_env_steps _) w f (Some message) (zlen message) _).
Qed.

Lemma message_steps (w w' : relayer D I) f type string n : cb_friend_message w f type string n = Some w' -> relayer_step w w'.
Proof.
  unfold cb_friend_message. destruct (negb _); [by intros [= <-] |]. destruct (negb _); [by intros [= <-] |].
  destruct (friend_public_key _ f) as [pk|]; [| by intros [= <-]].
  destruct (lift _ w) as [[blocked w1]|] eqn:E1; [| done]. cbn [mbind option_bind].
  destruct (lift_steps _ _ _ _ (spares_blocked _) E1) as [H1 _]. destruct blocked.
  - destruct (lift _ w1) as [[u w2]|] eqn:E2; [| done]. intros [= <-].
    destruct (lift_steps _ _ _ _ (spares_perform _ _) E2) as [H2 _]. by transitivity w1.
  - destruct (copy_tox_str _ _ _ _) as [[buffer len]|]; [| done]. cbn [mbind option_bind].
    destruct (CString.store _ _ _) as [b|]; [| done]. cbn [mbind option_bind]. destruct (_ <=? _); [done |].
    set (w2 := with_last_tx _ _). assert (H2 : relayer_step w w2) by (transitivity w1; [done | by apply step_same]).
    intros H. transitivity w2; [done |]. destruct (until_nul b) as [|c t]; [exact (text_steps _ _ _ _ H) |].
    destruct (bool_decide (c = "/"%char)); [exact (command_steps _ _ _ _ _ H) | exact (text_steps _ _ _ _ H)].
Qed.

Lemma request_added_steps (w w' : relayer D I) pk : cb_friend_request w pk = Some w' -> relayer_step w w'.
Proof.
  unfold cb_friend_request. destruct (lift _ w) as [[blocked w1]|] eqn:E1; [| done]. cbn [mbind option_bind].
  destruct (lift_steps _ _ _ _ (spares_blocked _) E1) as [H1 _]. destruct blocked; [by intros [= <-] |].
  destruct (lift _ w1) as [[e w2]|] eqn:E2; [| done]. cbn [mbind option_bind].
  destruct (lift_steps _ _ _ _ (spares_perform _ _) E2) as [H2 _].
  destruct (lift _ w2) as [[r w3]|] eqn:E3; [| done]. cbn [mbind option_bind].
  destruct (lift_steps _ _ _ _ spares_save_data E3) as [H3 _]. intros H4%names_steps.
  transitivity w1; [done |]. transitivity w2; [done |]. by transitivity w3.
Qed.

Lemma connection_steps (w w' : relayer D I) status n : cb_self_connection_change w status n = Some w' -> relayer_step w w'.
Proof.
  unfold cb_self_connection_change. destruct (status =? _).
  - destruct (lift _ w) as [[u w1]|] eqn:E; [| done]. intros [= <-].
    by apply lift_modify_steps in E.
  - destruct (lift _ w) as [[u w1]|] eqn:E; [| done]. cbn [mbind option_bind].
    apply lift_modify_steps in E; [| done].
    destruct (_ <? _)%nat; [done |]. intros [= <-]. transitivity w1; [exact E | by apply step_same].
Qed.

Lemma receipt_steps (w w' : relayer D I) f r : cb_friend_read_receipt w f r = Some w' ->
  relayer_told [(i32 f, i32 r)] w w'.
Proof.
  unfold cb_friend_read_receipt. destruct (mq_confirm _ _ _) as [[rc q]|] eqn:E; [| done]. intros [= <-].
  apply (confirm_queue_told transports) in E. apply step_queue; unfold receipt_display; by destruct (_ =? _).
Qed.

(** The transport sends messages and nothing else. *)
Lemma tick_disk l : forall (s : bot) now o s' l' d, tick tox_transport s now l = (o, s', l', d) -> disk s' = disk s.
Proof.
  assert (Htx : forall s f p r s', tox_transport s f p = (r, s') -> disk s' = disk s).
  { intros s f p r s' H. unfold tox_transport in H. repeat case_match; by simplify_eq. }
  assert (Hatt : forall t now s o s' t', attempt tox_transport s now t = (o, s', t') -> disk s' = disk s).
  { intros t now s o s' t' H. unfold attempt in H. destruct (tox_transport s _ _) as [r s1] eqn:E.
    specialize (Htx _ _ _ _ _ E). repeat case_match; by simplify_eq. }
  induction l as [|t l IH]; intros s now o s' l' d H; cbn [tick] in H; [by simplify_eq |].
  destruct (ready now t).
  - destruct (attempt tox_transport s now t) as [[r s1] t1] eqn:E. specialize (Hatt _ _ _ _ _ _ E).
    repeat case_match; by simplify_eq.
  - destruct (tick tox_transport s now l) as [[[o1 s1] l1] d1] eqn:E. specialize (IH _ _ _ _ _ _ E). by simplify_eq.
Qed.

Lemma service_steps (w w' : relayer D I) now : service w now = Some w' -> relayer_step w w'.
Proof.
  unfold service. destruct (mq_service _ _ _ _) as [[[o s] q]|] eqn:E; [| done]. intros [= <-] Hw.
  pose proof (service_ok tox_transport (r_bot w) (r_queue w) now Hw) as H.
  destruct (tick tox_transport (r_bot w) now (messages (r_queue w))) as [[[o1 s1] l] d] eqn:Et.
  destruct H as (q1 & H & _). rewrite E in H. injection H as <- <- <-.
  destruct (service_queue_step transports _ _ _ _ _ _ _ (ex_intro _ _ eq_refl) E Hw) as (Hq & Hwt & Hc).
  split_and!; [done | done | done |].
  unfold queue_file_of. cbn. by rewrite (tick_disk _ _ _ _ _ _ _ Et).
Qed.

End Process.

(** ** The console and the loop *)

Section Loop.
Context `{tox : tox_params} `{core : toxcore} `{peers : toxpeers} `{cfg : mq_config} {D I : Type} `{db : !database D} `{ini : !ini_file I}.
Variables (f0 : option file) (q0 : mq).

(** The file holds the queue; or, as a start-up without a usable file leaves it, the
    queue is empty and the file is what it was at first. *)
Definition mirrored (k : console D I) : Prop :=
  let q := r_queue (k_relayer k) in
  queue_file_of (r_bot (k_relayer k)) = Some (mk_file (image_of q) true) \/
  messages q = [] /\ queue_file_of (r_bot (k_relayer k)) = f0.

(** [rs] is what arrived since the queue was [q0]. *)
Record clean (rs : list (Z * Z)) (k : console D I) : Prop := {
  clean_queue : wf_mq (r_queue (k_relayer k));
  clean_hook : g_change_fn (r_queue (k_relayer k)) = true;
  clean_file : g_queue_dirty k = false -> mirrored k;
  clean_calls : called transports rs q0 (r_queue (k_relayer k)) }.

(** What changes neither the queue, the file nor the flag. *)
Lemma clean_same {rs} k k' : r_queue (k_relayer k') = r_queue (k_relayer k) ->
  queue_file_of (r_bot (k_relayer k')) = queue_file_of (r_bot (k_relayer k)) ->
  g_queue_dirty k' = g_queue_dirty k -> clean rs k -> clean rs k'.
Proof. intros Hq Hf Hd [H1 H2 H3 H4]. split; unfold mirrored; rewrite ?Hq, ?Hf, ?Hd; done. Qed.

(** A step of the process after which the flag is brought up to date. *)
Lemma clean_told {rs} rs' k w : relayer_told rs' (k_relayer k) w -> clean rs k -> clean (rs ++ rs') (note_queue k w).
Proof.
  intros Hs [H1 H2 H3 H4]. destruct (Hs H1) as (Hq & [Hh Hg Hsame] & Hcalls & Hf).
  split; unfold mirrored, image_of in *; cbn [k_relayer note_queue with_dirty with_relayer g_queue_dirty] in *;
    [done | by rewrite Hh | | exact (called_trans _ _ _ _ _ _ H4 Hcalls)].
  intros [Hd Hc]%orb_false_iff. apply Nat.ltb_ge in Hc. specialize (Hsame H2 ltac:(lia)). specialize (H3 Hd).
  rewrite Hf, Hsame. destruct H3 as [H3 | [Hm H3]]; [by left | right].
  split; [| done]. rewrite Hm in Hsame. by apply fmap_nil_inv in Hsame.
Qed.

Lemma clean_noted {rs} k w : relayer_step (k_relayer k) w -> clean rs k -> clean rs (note_queue k w).
Proof. intros H Hk. rewrite <- (app_nil_r rs). by apply clean_told. Qed.

Lemma noted_clean {rs} rs' k w k' : (forall w', w = Some w' -> relayer_told rs' (k_relayer k) w') -> noted k w = Some k' ->
  clean rs k -> clean (rs ++ rs') k'.
Proof. unfold noted. intros H. destruct w as [w|]; [| done]. intros [= <-]. apply clean_told. by apply H. Qed.

(** A handler of the bot run from the loop, which does not look at the flag. *)
Lemma clean_bot {rs} k w : relayer_step (k_relayer k) w /\ r_queue w = r_queue (k_relayer k) -> clean rs k -> clean rs (with_relayer k w).
Proof.
  intros [Hs Hq] Hk. destruct (Hs (clean_queue _ _ Hk)) as (_ & _ & _ & Hf). by apply (clean_same k).
Qed.

(** The receipts that a callback, a turn and a run of the loop hand on. *)
Definition receipt_in (e : event) : list (Z * Z) :=
  match e with EReadReceipt f r => [(i32 f, i32 r)] | _ => [] end.
Definition receipts_in (i : input) : list (Z * Z) :=
  match i with Turn _ es => es ≫= receipt_in | Key _ => [] end.

Lemma callback_clean {rs} e k k' : callback e k = Some k' -> clean rs k -> clean (rs ++ receipt_in e) k'.
Proof.
  unfold callback. destruct e as [status | f | pk | s | f r | f ty s | f ty c | g s | g p s | g]; cbn [receipt_in].
  - apply noted_clean. intros w'. apply connection_steps.
  - apply noted_clean. intros w' H. exact (proj1 (lift_unit_steps _ _ _ (spares_connection f) H)).
  - apply noted_clean. intros w'. apply request_added_steps.
  - apply noted_clean. intros w' H. exact (proj1 (lift_unit_steps _ _ _ (spares_friend_name _ _) H)).
  - apply noted_clean. intros w'. apply receipt_steps.
  - apply noted_clean. intros w'. apply message_steps.
  - apply noted_clean. intros w' H. exact (proj1 (lift_unit_steps _ _ _ (spares_invite _ _ _) H)).
  - apply noted_clean. intros w' H. exact (proj1 (lift_unit_steps _ _ _ (spares_title _ _ _) H)).
  - destruct (cb_conference_message _ _ _ _ _); [| done]. rewrite app_nil_r. by intros [= <-].
  - destruct (on_conference_peer_list_changed _ _ _); [| done]. rewrite app_nil_r. intros [= <-]. by apply clean_same.
Qed.

Lemma callbacks_clean es : forall rs k k', callbacks es k = Some k' -> clean rs k -> clean (rs ++ (es ≫= receipt_in)) k'.
Proof.
  induction es as [|e es IH]; intros rs k k' H Hk; cbn [callbacks] in H; [injection H as <-; by rewrite app_nil_r |].
  destruct (callback e k) as [k1|] eqn:E; [| done]. cbn [mbind list_bind]. rewrite app_assoc.
  exact (IH _ _ _ H (callback_clean _ _ _ E Hk)).
Qed.

(** Steps of the bot one after the other. *)
Definition bot_steps (w w' : relayer D I) : Prop := relayer_step w w' /\ r_queue w' = r_queue w.

#[export] Instance bot_steps_preorder : PreOrder bot_steps.
Proof.
  split; [by intros w; split |]. intros a b c [H1 H2] [K1 K2]. split; [by transitivity b | congruence].
Qed.

Lemma housekeeping_clean {rs} status k k' : housekeeping status k = Some k' -> clean rs k -> clean rs k'.
Proof.
  unfold housekeeping. intros H Hk.
  destruct (if _ && _ then _ else Some (k_relayer k)) as [w1|] eqn:E1; [| done]. cbn [mbind option_bind] in H.
  assert (H1 : bot_steps (k_relayer k) w1).
  { destruct (_ && _) in E1; [| by injection E1 as <-].
    destruct (lift_unit bootstrap_DHT _) as [w|] eqn:E; [| done].
    transitivity w; [exact (lift_unit_steps _ _ _ spares_bootstrap E) |].
    exact (lift_unit_steps _ _ _ (spares_modify (set_last_bootstrap (cur_time k)) (fun _ => eq_refl)) E1). }
  destruct (if _ && _ then _ else Some w1) as [w2|] eqn:E2; [| done]. cbn [mbind option_bind] in H.
  assert (H2 : bot_steps w1 w2).
  { destruct (_ && _) in E2; [| by injection E2 as <-].
    destruct (lift_unit purge_inactive_friends _) as [w|] eqn:E; [| done]. cbn [mbind option_bind] in E2.
    destruct (lift _ w) as [[u w']|] eqn:E'; [| done]. injection E2 as <-.
    transitivity w; [exact (lift_unit_steps _ _ _ spares_inactive E) | exact (lift_steps _ _ _ _ spares_save_data E')]. }
  destruct (if check_group_purge _ _ _ _ then _ else Some w2) as [w3|] eqn:E3; [| done]. injection H as <-.
  assert (H3 : bot_steps w2 w3).
  { destruct (check_group_purge _ _ _ _) in E3; [| by injection E3 as <-]. exact (lift_unit_steps _ _ _ spares_groups E3). }
  apply (clean_same (with_relayer k w3)); [done.. |]. apply clean_bot; [| done].
  change (bot_steps (k_relayer k) w3). transitivity w1; [done |]. by transitivity w2.
Qed.

Lemma hello_clean {rs} status n : forall i k k', hello_loop status n i k = Some k' -> clean rs k -> clean rs k'.
Proof.
  induction n as [|n IH]; intros i k k' H Hk; cbn [hello_loop] in H; [by injection H as <- |].
  destruct (_ !! _); [| done]. destruct (_ !! _); [| done]. cbn [mbind option_bind] in H.
  apply IH in H; [done |]. destruct (_ && _); [| done]. by apply (clean_same k).
Qed.

Lemma serve_clean {rs} k k' : serve_queue k = Some k' -> clean rs k -> clean rs k'.
Proof.
  unfold serve_queue. destruct (_ <? _); [| by intros [= <-]]. destruct (service _ _) as [w|] eqn:E; [| done].
  intros [= <-] Hk. apply (clean_same (note_queue k w)); [done.. |]. apply clean_noted; [| done]. exact (service_steps _ _ _ E).
Qed.

(** Saving writes the image of the queue or leaves the file. *)
Lemma save_queue_disk (k : console D I) rc k' : wf_mq (r_queue (k_relayer k)) -> save_queue k = Some (rc, k') ->
  r_queue (k_relayer k') = r_queue (k_relayer k) /\ g_queue_dirty k' = g_queue_dirty k /\
  (if rc =? MQ_PERSIST_OK
   then queue_file_of (r_bot (k_relayer k')) = Some (mk_file (image_of (r_queue (k_relayer k))) true)
   else queue_file_of (r_bot (k_relayer k')) = queue_file_of (r_bot (k_relayer k))).
Proof.
  intros Hq. unfold save_queue. set (w := disk (r_bot (k_relayer k))).
  destruct (save_ok (w_trace w) (r_queue (k_relayer k)) QUEUE_FILE w Hq) as ([rc1 w1] & Hs & Hend & _);
    [done | by vm_compute | done |].
  rewrite Hs. intros [= <- <-]. split_and!; [done | done |]. unfold save_end, queue_file_of in *. cbn.
  destruct Hend as [[-> [H1 _]] | [-> (w0 & _ & _ & _ & Hnew)]]; cbn; [| done]. by apply H1.
Qed.

Lemma mirror_clean {rs} k k' : mirror_queue k = Some k' -> clean rs k -> clean rs k'.
Proof.
  unfold mirror_queue. destruct (_ && _) eqn:Eb; [| by intros [= <-]].
  apply andb_true_iff in Eb as [Ed _]. destruct (save_queue k) as [[rc k1]|] eqn:E; [| done]. intros [= <-] Hk.
  destruct (save_queue_disk _ _ _ (clean_queue _ _ Hk) E) as (Hq & Hd & Hf).
  split; destruct (rc =? MQ_PERSIST_OK); cbn; rewrite ?Hq; try apply Hk.
  - intros _. left. cbn. by rewrite Hq.
  - by rewrite Hd, Ed.
Qed.

Lemma turn_clean {rs} status es k k' : turn status es k = Some k' -> clean rs k -> clean (rs ++ (es ≫= receipt_in)) k'.
Proof.
  unfold turn. intros H Hk. destruct (housekeeping status k) as [k1|] eqn:E1; [| done].
  apply (housekeeping_clean (rs := rs)) in E1; [| done]. cbn [mbind option_bind] in H.
  unfold tox_iterate in H. destruct (callbacks _ _) as [k2|] eqn:E2; [| done].
  apply (callbacks_clean _ rs) in E2; [| by apply (clean_same k1)]. cbn [mbind option_bind] in H.
  destruct (hello_loop _ _ _ _) as [k3|] eqn:E3; [| done]. apply (hello_clean (rs := rs ++ (es ≫= receipt_in))) in E3; [| by apply (clean_same k2)].
  cbn [mbind option_bind] in H. destruct (serve_queue k3) as [k4|] eqn:E4; [| done].
  apply (serve_clean (rs := rs ++ (es ≫= receipt_in))) in E4; [| done]. exact (mirror_clean _ _ H E4).
Qed.

(** ** The operator's keys *)

Lemma token_relayer (k k' : console D I) mess : get_token k mess = Some k' ->
  k_relayer k' = k_relayer k /\ g_queue_dirty k' = g_queue_dirty k.
Proof. unfold get_token. destruct (token_loop _ _ _ _ _) as [[t i]|]; [| done]. by intros [= <-]. Qed.

Lemma clean_token {rs} k k' mess : get_token k mess = Some k' -> clean rs k -> clean rs k'.
Proof. intros [Hr Hd]%token_relayer. apply clean_same; by rewrite ?Hr. Qed.

Lemma evaluate_clean {rs} k input k' : evaluate_input k input = Some k' -> clean rs k -> clean rs k'.
Proof.
  unfold evaluate_input. intros H Hk.
  assert (Htok : forall i m (r : console D I -> option (console D I)),
    (do! k1 := get_token (with_token k (token k) i) m; do! k2 := get_token k1 m; r k2) = Some k' ->
    exists k2, r k2 = Some k' /\ clean rs k2).
  { intros i m r Hr. destruct (get_token _ m) as [k1|] eqn:E1; [| done]. cbn [mbind option_bind] in Hr.
    destruct (get_token k1 m) as [k2|] eqn:E2; [| done]. exists k2. split; [done |].
    apply (clean_token _ _ _ E2), (clean_token _ _ _ E1). by apply (clean_same k). }
  assert (Hshow : forall (o : option output) k1, (do! _ := o; Some k1) = Some k' -> clean rs k1 -> clean rs k')
    by (intros [out|] k1 Ho ?; [by injection Ho as <- | done]).
  destruct (strstr _ _); [by eapply Hshow |]. destruct (strstr _ _); [by eapply Hshow |].
  destruct (strstr _ _).
  { unfold switch_channel in H. destruct (parse_int_range _ _ _) as [i|]; [| by eapply Hshow].
    destruct (contact_name _ _ _); [| done]. eapply Hshow; [exact H |]. by apply (clean_same k). }
  destruct (strstr _ _); [by eapply Hshow |].
  destruct (strstr _ _); [unfold set_relayer_public_key in H; apply Htok in H as (k2 & H & Hk2); injection H as <-; by apply (clean_same k2) |].
  destruct (strstr _ _).
  { apply Htok in H as (k2 & H & Hk2). destruct (_ <? 3); injection H as <-; [done | by apply (clean_same k2)]. }
  destruct (strstr _ _); [by eapply Hshow |].
  destruct (_ && _); [| by eapply Hshow].
  apply Htok in H as (k2 & H & Hk2). destruct (negb _); injection H as <-; [done | by apply (clean_same k2)].
Qed.

Lemma send_line_clean {rs} k line k' : send_line k line = Some k' -> clean rs k -> clean rs k'.
Proof.
  unfold send_line. destruct (contact_name _ _ _); [| done]. destruct (_ !! _) as [e|]; [| done]. cbn [mbind option_bind].
  destruct (tg_encode_text _ _ _ _ _ _) as [n wire]. set (o := if _ && _ then _ else _). destruct o as [q|] eqn:E; [| done].
  cbn [mbind option_bind]. destruct (db_add _ _ _ _ _ _ _) as [rd d]. destruct (_ <=? _); [done |]. intros [= <-].
  apply clean_noted. apply step_queue; [| done]. cbn [r_queue with_last_tx with_db with_queue]. unfold o in E.
  destruct (_ && _); [by injection E as <- |]. destruct (if meta_chat_flag e then _ else _) as [payload len].
  destruct (mq_enqueue _ _ _ _ _) as [[rc q1]|] eqn:Eq; [| done]. injection E as <-. exact (enqueue_queue_step _ _ _ _ _ _ _ _ Eq).
Qed.

Lemma key_clean {rs} c k k' : key_typed k c = Some k' -> clean rs k -> clean rs k'.
Proof.
  unfold key_typed. intros H Hk. destruct (_ || _).
  - destruct (CString.store _ _ _) as [b1|]; [| done]. cbn [mbind option_bind] in H.
    destruct (CString.store _ _ _) as [b|]; [| done]. cbn [mbind option_bind] in H. destruct b as [|d t]; [done |].
    assert (H0 : clean rs (with_line k (d :: t) 0)) by (by apply (clean_same k)).
    destruct (bool_decide (d = "/"%char)); [exact (evaluate_clean _ _ _ H H0) | exact (send_line_clean _ _ _ H H0)].
  - repeat case_match; simplify_eq; try done; try (by apply (clean_same k)).
    all: destruct (CString.store _ _ _); [| done]; injection H as <-; by apply (clean_same k).
Qed.

Lemma main_loop_clean l : forall rs k k', main_loop l k = Some k' -> clean rs k -> clean (rs ++ (l ≫= receipts_in)) k'.
Proof.
  induction l as [|i l IH]; intros rs k k' H Hk; cbn [main_loop] in H; [injection H as <-; by rewrite app_nil_r |].
  destruct (react i k) as [k1|] eqn:E; [| done]. cbn [mbind list_bind]. rewrite app_assoc. apply (IH _ _ _ H).
  destruct i as [status es | c]; [exact (turn_clean _ _ _ _ E Hk) | cbn; rewrite app_nil_r; exact (key_clean _ _ _ E Hk)].
Qed.

End Loop.

(** ** The start-up *)

Section Start.
Context `{tox : tox_params} `{core : toxcore} `{peers : toxpeers} `{cfg : mq_config} {D I : Type} `{db : !database D} `{ini : !ini_file I}.

Lemma import_queue_step buf now n : forall off l q rc l' q', import_loop n buf off now l q = Some (rc, l', q') -> queue_step transports q q'.
Proof.
  induction n as [|n IH]; intros off l q rc l' q' H; cbn [import_loop] in H; [by injection H as _ _ <- |].
  destruct (le_get_i32 _ _) as [f|]; [| done]. cbn [mbind option_bind] in H. destruct (le_get_u32 _ _) as [len|]; [| done].
  cbn [mbind option_bind] in H. destruct (mq_enqueue _ _ _ _ _) as [[r q1]|] eqn:E; [| done]. cbn [mbind option_bind] in H.
  apply (enqueue_queue_step transports) in E. destruct (r =? MQ_OK); [transitivity q1; [done | by eapply IH] |].
  destruct (r =? MQ_ERR_FULL); by injection H as _ _ <-.
Qed.

Lemma load_queue_step q path now w rc q' w' : mq_persist_load q path now w = Some (rc, q', w') -> queue_step transports q q'.
Proof.
  unfold mq_persist_load. destruct path as [[|c p]|]; [by intros [= _ <- _] | | by intros [= _ <- _]].
  destruct (mq_read_all _ _) as [[frc buf] w1]. destruct (negb (frc =? _)); [by intros [= _ <- _] |].
  destruct (le_get_u32 buf 8) as [v|]; [| done]. cbn [mbind option_bind]. destruct (_ || _); [by intros [= _ <- _] |].
  destruct (le_get_u32 buf 12) as [n|]; [| done]. cbn [mbind option_bind].
  destruct (if _ <? n then _ else _) as [valid|]; [| done]. cbn [mbind option_bind].
  destruct (negb valid); [by intros [= _ <- _] |].
  destruct (import_loop _ _ _ _ _ _) as [[[r l] q1]|] eqn:E; [| done]. intros [= _ <- _].
  exact (import_queue_step _ _ _ _ _ _ _ _ _ E).
Qed.

Lemma startup_clean b d i (k : console D I) q0 : startup b d i = Some k -> mq_init = Some q0 ->
  clean (w_files (disk b) !! QUEUE_FILE) (mq_set_change_hook (mq_set_drop_hook q0 true) true) [] k.
Proof.
  intros Hs Hi. destruct init_ok as (q00 & Hi' & Hq0 & _ & Hst & Hc & Hh & Ht). rewrite Hi in Hi'. injection Hi' as <-.
  pose proof (hooks_ok _ Hq0) as Hq1. set (q1 := mq_set_change_hook _ _) in *.
  destruct (load_result q1 QUEUE_FILE (time (calls b)) (disk b) Hq1) as (rc & q & w & Hl & Hq & Hw & _); [done |].
  pose proof (startup_queue b d i k q0 rc q w Hi Hl Hs) as Hkq.
  destruct (load_queue_step _ _ _ _ _ _ _ Hl Hq1) as (_ & [Hhook Hgrow Hsame] & Hcalls).
  destruct (startup_steps b d i k q0 rc q w Hi Hl Hs) as (c & c' & w1 & w2 & w3 & w4 & w5 & l & E1 & E2 & E3 & E4 & E5 & Ek & Edirty).
  set (w0 := boot _ q d i) in E1.
  apply lift_unit_steps in E1 as [E1 _]; [| exact spares_init]. apply lift_unit_steps in E2 as [E2 _]; [| exact spares_load].
  apply lift_unit_steps in E3 as [E3 _]; [| apply spares_perform].
  apply lift_unit_steps in E4 as [E4 _]; [| apply spares_perform]. apply names_steps in E5.
  pose proof (recover_steps relayer_step (g_relay (self_public_key_str w5)) (relay_env_steps _) relay_tracker
    relay_last_stored_sn (Z.to_nat MAX_Friend_NUM) eq_refl 0 0 w5) as E6.
  destruct (recover_loop _ _ _ _ _ _ w5) as [m w6]. cbn [snd] in E6, Ek.
  assert (Hsteps : relayer_step w0 w6).
  { transitivity w1; [done |]. transitivity w2; [done |]. transitivity w3; [done |]. transitivity w4; [done |].
    by transitivity w5. }
  destruct (Hsteps Hq) as (Hw6 & _ & _ & Hf6). rewrite Ek in Hkq. cbn [r_queue with_last_tx] in Hkq.
  split; rewrite ?Ek; cbn [r_queue with_last_tx]; [done | by rewrite Hkq, Hhook | | by rewrite Hkq].
  unfold mirrored. rewrite ?Ek. cbn [r_queue r_bot with_last_tx]. rewrite Hkq, Hf6, Edirty. intros Hd.
  apply Nat.ltb_ge in Hd. right. split; [| by unfold queue_file_of; cbn; rewrite Hw].
  apply (fmap_nil_inv saved). rewrite Hsame; [| done | lia]. unfold messages. change (stored q1) with (stored q0). by rewrite Hst.
Qed.

End Start.

(** * Properties *)

(** Claim C4. A process killed without warning loses nothing that it had declared
    saved. However the process was started, whatever it was given and whichever
    file operations failed on the way, whenever its flag for unsaved changes is
    clear the queue's file is the complete image of the queue, forced to the device
    (or the queue is empty and the file is the one found at the start); so a process
    started on the files left behind finds every telegram that was stored, in order,
    each due for a first attempt. *)
Theorem crash_loses_nothing `{tox_params, toxcore, toxpeers, mq_config} {D I} `{!database D} `{!ini_file I}
    b (d : D) (i : I) k0 l k :
  (forall h f, zlen (friend_name h f) < Z.min 128 TOX_MAX_NAME_LENGTH) -> peers_ok ->
  (forall h j, 0 <= j < zlen (friend_list h) -> is_Some (friend_public_key h j)) ->
  (forall h, zlen (friend_list h) <= MAX_Friend_NUM) ->
  startup b d i = Some k0 -> main_loop l k0 = Some k -> g_queue_dirty k = false ->
  Forall (fun t => t_friend t <= INT_MAX) (messages (r_queue (k_relayer k))) ->
  let q := r_queue (k_relayer k) in
  let files := w_files (disk (r_bot (k_relayer k))) in
  mirrored (w_files (disk b) !! QUEUE_FILE) k /\
  forall b' d' i', wf_groups (table b') -> disk b' = mk_world files [] [] [] ->
  exists k2, startup b' d' i' = Some k2 /\
    (messages q = [] \/
     messages (r_queue (k_relayer k2)) =
       (fun t => new_telegram (t_friend t) (t_text t) (zlen (t_text t)) (time (calls b'))) <$> messages q).
Proof.
  intros Hn Hr Hk Hf Hs Hl Hd Hint q files.
  destruct init_ok as (q0 & Hi & _).
  destruct (main_loop_clean _ _ l _ _ _ Hl (startup_clean _ _ _ _ q0 Hs Hi)) as [Hq _ Hfile _]. specialize (Hfile Hd).
  split; [exact Hfile |]. intros b' d' i' Hb Hw. destruct Hfile as [Hfile | [Hm _]].
  - destruct (start_finds q files b' d' i' Hn Hr Hk Hf Hq Hint Hfile Hb Hw) as (k2 & K2 & Hm). exists k2. by split; [| right].
  - destruct (startup_ok Hn Hr Hk Hf b' d' i' Hb) as (k2 & K2 & _). exists k2. by split; [| left].
Qed.

(** The example with a clock and contacts of its own. *)
Definition clocked (clock : history -> Z) (online : history -> Z -> bool) : toxcore := {|
  time := clock;
  friend_name := friend_name (toxcore := pair_core 2 900);
  friend_public_key := friend_public_key (toxcore := pair_core 2 900);
  friend_online := online;
  friend_last_online := friend_last_online (toxcore := pair_core 2 900);
  friend_list := friend_list (toxcore := pair_core 2 900);
  friend_exists := friend_exists (toxcore := pair_core 2 900);
  friend_send_message := friend_send_message (toxcore := pair_core 2 900);
  friend_add_norequest := friend_add_norequest (toxcore := pair_core 2 900);
  self_address := self_address (toxcore := pair_core 2 900);
  chatlist := chatlist (toxcore := pair_core 2 900);
  conference_peer_count := conference_peer_count (toxcore := pair_core 2 900);
  conference_get_type := conference_get_type (toxcore := pair_core 2 900);
  conference_new := conference_new (toxcore := pair_core 2 900);
  add_av_groupchat := add_av_groupchat (toxcore := pair_core 2 900);
  conference_join := conference_join (toxcore := pair_core 2 900);
  conference_delete := conference_delete (toxcore := pair_core 2 900);
  conference_send_message := conference_send_message (toxcore := pair_core 2 900);
  conference_invite := conference_invite (toxcore := pair_core 2 900);
  conference_set_title := conference_set_title (toxcore := pair_core 2 900);
  savedata := savedata (toxcore := pair_core 2 900);
  pass_encrypt := pass_encrypt (toxcore := pair_core 2 900) |}.

(** A clock that moves by twenty seconds at every call; nobody is online. *)
Definition ticking_core : toxcore :=
  clocked (fun h => 1000 + 20 * Z.of_nat (length h)) (friend_online (toxcore := pair_core 2 900)).
Definition offline_core : toxcore := clocked (fun _ => 1000) (fun _ _ => false).

(** The file of a queue that holds one text for contact 4, the disk without room for
    the first save. *)
Definition kept_files : gmap bytes file := {[ QUEUE_FILE := mk_file (image_of one_stored) true ]}.
Definition kept_bot (plan : list MqPersist.answer) : bot := set_disk sample_bot (mk_world kept_files plan [] []).
Definition kept_run plan l : option (console sample_store unit) :=
  do! k := startup (tox := tox_02) (core := ticking_core) (peers := room_peers ($"alice")) (cfg := mq_small) (kept_bot plan) (opened_db, []) tt;
  main_loop (tox := tox_02) (core := ticking_core) (peers := room_peers ($"alice")) (cfg := mq_small)
    l k.

Lemma ticking_peers_ok : peers_ok (tox := tox_02) (core := ticking_core) (peers := room_peers ($"alice")).
Proof. destruct room_peers_ok. by split. Qed.

Definition full_disk : list MqPersist.answer := replicate 8 Works ++ [Fails].
Definition kept : list stored_telegram := [mk_telegram 4 hello 1000 (Some 1140) 1 (Some 1)].

(** The text of the first run is sent and not confirmed; the first save fails, the
    second does not, and the process is killed. *)
Lemma crash_loses_nothing_witness : exists k k2,
  kept_run full_disk [Turn 1 []; Turn 1 []] = Some k /\ messages (r_queue (k_relayer k)) = kept /\
  option_map (fun k => g_queue_dirty k) (kept_run full_disk [Turn 1 []]) = Some true /\
  startup (tox := tox_02) (core := ticking_core) (peers := room_peers ($"alice")) (cfg := mq_small)
    (set_disk sample_bot (mk_world (w_files (disk (r_bot (k_relayer k)))) [] [] [])) (opened_db, []) tt = Some k2 /\
  messages (r_queue (k_relayer k2)) = [mk_telegram 4 hello 1000 None 0 None].
Proof.
  assert (Hsum : option_map (fun k => (g_queue_dirty k, messages (r_queue (k_relayer k)))) (kept_run full_disk [Turn 1 []; Turn 1 []])
    = Some (false, kept)) by (vm_compute; reflexivity).
  destruct (kept_run full_disk [Turn 1 []; Turn 1 []]) as [k|] eqn:Erun; [| done]. cbn [option_map] in Hsum. injection Hsum as Hd Hm.
  assert (Hrun := Erun). unfold kept_run in Hrun.
  destruct (startup (core := ticking_core) (kept_bot full_disk) (opened_db, []) tt) as [k0|] eqn:Es; [| done].
  destruct (@crash_loses_nothing tox_02 ticking_core (room_peers ($"alice")) mq_small _ _ _ _ (kept_bot full_disk)
    (opened_db, []) tt k0 [Turn 1 []; Turn 1 []] k) as [_ Hnext].
  - done.
  - exact ticking_peers_ok.
  - intros h j Hj. change (0 <= j < 2) in Hj. cbn.
    destruct (decide (j = 0)) as [-> | ?]; [by eexists |]. destruct (decide (j = 1)) as [-> | ?]; [by eexists | lia].
  - done.
  - exact Es.
  - exact Hrun.
  - exact Hd.
  - rewrite Hm. repeat constructor. unfold INT_MAX. cbn. lia.
  - destruct (Hnext (set_disk sample_bot (mk_world (w_files (disk (r_bot (k_relayer k)))) [] [] [])) (opened_db, []) tt)
      as (k2 & Hs2 & Hm2); [apply sample_wf | reflexivity |].
    exists k, k2. assert (Hlast : messages (r_queue (k_relayer k2)) = [mk_telegram 4 hello 1000 None 0 None]).
    { rewrite Hm in Hm2. by destruct Hm2 as [? | ->]. }
    assert (H1 : option_map (fun k => g_queue_dirty k) (kept_run full_disk [Turn 1 []]) = Some true) by (vm_compute; reflexivity).
    exact (conj eq_refl (conj Hm (conj H1 (conj Hs2 Hlast)))).
Defined.

(** What a transport of the process refuses for good, when the receipts of the library
    are counted from 0. *)
Lemma refused_for_good `{tox_params, toxcore} tx f x :
  (forall h f x, 0 <= (friend_send_message h f x).1 <= INT_MAX) -> transports tx -> tx f x = MQ_SEND_FATAL ->
  friend_number_valid f = false.
Proof.
  intros Hr [s ->]. unfold offered, tox_transport. destruct (Z.ltb_spec f 0) as [Hf | Hf].
  { intros _. unfold friend_number_valid. by rewrite (proj2 (Z.leb_gt _ _) Hf). }
  destruct (friend_number_valid f); [| done]. cbn [negb].
  destruct (negb (friend_online _ f)); [done |]. specialize (Hr (calls s) f x).
  destruct (friend_send_message _ f x) as [r err]. destruct (negb _); [done |]. cbn [fst] in *.
  unfold INT_MAX, MQ_SEND_FATAL in *. rewrite i32_id by lia. lia.
Qed.

Lemma init_empty `{mq_config} q0 : mq_init = Some q0 -> let q := mq_set_change_hook (mq_set_drop_hook q0 true) true in
  wf_mq q /\ messages q = [] /\ drops q = [] /\ g_drop_fn q = true /\ g_stats q = mk_stats 0 0 0 0 0.
Proof.
  intros Hi q. destruct init_ok as (q1 & Hi1 & Hq & _ & Hst & _). rewrite Hi in Hi1. injection Hi1 as <-.
  split_and!; [by apply hooks_ok | | | done |].
  - unfold messages. change (stored q) with (stored q0). by rewrite Hst.
  - unfold mq_init in Hi. destruct (mq_check_invariants _); [| done]. by injection Hi as <-.
  - unfold mq_init in Hi. destruct (mq_check_invariants _); [| done]. by injection Hi as <-.
Qed.

(** The queue served at the given times. *)
Fixpoint services `{tox_params, toxcore, mq_config} {D I} (w : relayer D I) (ts : list Z) : option (relayer D I) :=
  match ts with [] => Some w | now :: ts => do! w := service w now; services w ts end.

(** One turn for a single telegram that can be attempted and whose contact is offline. *)
Lemma service_offline `{tox_params, toxcore, mq_config} {D I} (w : relayer D I) now t :
  wf_mq (r_queue w) -> messages (r_queue w) = [t] -> t_receipt t = None -> ready now t = true ->
  t_attempts t < MQ_MAX_ATTEMPTS -> friend_number_valid (t_friend t) = true ->
  (forall h, friend_online h (t_friend t) = false) ->
  let t' := mk_telegram (t_friend t) (t_text t) (t_since t) (Some now) (t_attempts t + 1) None in
  let last := MQ_MAX_ATTEMPTS <=? t_attempts t + 1 in
  exists q, service w now = Some (with_queue w q) /\ wf_mq q /\ hooks q = hooks (r_queue w) /\
    messages q = (if last then [] else [t']) /\
    q_events q = q_events (r_queue w) ++ drop_events (r_queue w) (if last then Some t' else None).
Proof.
  intros Hq Hm Hn Hr Ha Hv Ho t' last. pose proof (service_ok tox_transport (r_bot w) (r_queue w) now Hq) as Hs.
  rewrite Hm in Hs. cbn [tick] in Hs. rewrite Hr in Hs. unfold attempt, expire in Hs. rewrite Hn in Hs.
  rewrite (proj2 (Z.leb_gt _ _) Ha) in Hs. unfold tox_transport at 1 in Hs.
  assert (Hf : (t_friend t <? 0) = false) by (unfold friend_number_valid in Hv; zbool; by apply Z.ltb_ge).
  rewrite Hf, Hv, Ho in Hs. cbn [negb Z.leb Z.compare MQ_SEND_RETRYABLE] in Hs.
  change (0 <=? MQ_SEND_RETRYABLE) with false in Hs. change (MQ_SEND_RETRYABLE =? MQ_SEND_FATAL) with false in Hs.
  cbn [orb t_attempts] in Hs. fold last t' in Hs. unfold service.
  destruct last; destruct Hs as (q & E & Hw & Hmq & _ & He & _); rewrite E; exists q;
    (split_and!; [by destruct w | done | exact (mq_service_hook _ _ _ _ _ _ _ E) | done | done]).
Qed.

(** A run of such turns uses up the attempts. *)
Lemma services_offline `{tox_params, toxcore, mq_config} {D I} ts : forall (w : relayer D I) t last,
  wf_mq (r_queue w) -> g_drop_fn (r_queue w) = true -> messages (r_queue w) = [t] -> t_receipt t = None ->
  ready (last + MQ_RETRY_BACKOFF_SEC) t = true -> spaced last ts ->
  ts <> [] -> t_attempts t + zlen ts = MQ_MAX_ATTEMPTS -> friend_number_valid (t_friend t) = true ->
  (forall h, friend_online h (t_friend t) = false) ->
  exists w', services w ts = Some w' /\ r_bot w' = r_bot w /\ messages (r_queue w') = [] /\
    drops (r_queue w') = drops (r_queue w) ++ [EvDrop (t_friend t) MQ_MAX_ATTEMPTS].
Proof.
  induction ts as [|now ts IH]; intros w t last Hq Hh Hm Hn Hr Hsp Hne Ha Hv Ho; [done |].
  destruct Hsp as [Hnow Hsp]. rewrite zlen_cons in Ha. pose proof (zlen_nonneg ts). cbn [services].
  assert (Hrn : ready now t = true) by (eapply ready_later; [| exact Hr]; lia).
  destruct (service_offline w now t Hq Hm Hn Hrn ltac:(lia) Hv Ho) as (q & -> & Hw & Hhq & Hmq & He).
  pose proof (drops_app _ _ _ He) as Hd. destruct ts as [|now2 ts].
  - cbn [services]. rewrite (proj2 (Z.leb_le _ _)) in Hmq, Hd by (change (zlen (@nil Z)) with 0 in Ha; lia).
    eexists. split; [done |]. split_and!; [done | exact Hmq |]. cbn [r_queue with_queue]. rewrite Hd.
    cbn [drop_events]. rewrite Hh, omap_app, drops_change. cbn. do 3 f_equal. change (zlen (@nil Z)) with 0 in Ha. lia.
  - rewrite zlen_cons in Ha. pose proof (zlen_nonneg ts). rewrite (proj2 (Z.leb_gt _ _)) in Hmq, Hd by lia.
    cbn [drop_events omap list_omap] in Hd. rewrite app_nil_r in Hd.
    destruct (IH (with_queue w q) (mk_telegram (t_friend t) (t_text t) (t_since t) (Some now) (t_attempts t + 1) None) now)
      as (w' & -> & Hb & Hm' & Hd'); try done.
    + cbn. unfold hooks in Hhq. cbn in Hhq. congruence.
    + unfold ready. cbn. apply Z.leb_le. lia.
    + cbn [t_attempts]. rewrite zlen_cons. lia.
    + exists w'. split_and!; [done | done | done |]. rewrite Hd'. cbn [r_queue with_queue]. by rewrite Hd.
Qed.


(** The text of the saved file is sent, and the contact acknowledges it. *)
Definition acknowledged_run : list input := [Turn 1 []; Turn 1 [EReadReceipt 4 1]].


(** The one element of a list that passes a test. *)
Lemma split_unique {A} (p : A -> bool) l1 x l2 l y l' : l1 ++ x :: l2 = l ++ y :: l' -> p y = true ->
  Forall (fun u => p u = false) (l1 ++ l2) -> l = l1 /\ l' = l2.
Proof.
  revert l. induction l1 as [|z l1 IH]; intros [|v l] H Hy Hf; cbn [app] in *; injection H as E H.
  - done.
  - subst l2. apply Forall_app in Hf as [_ Hf]. apply Forall_cons in Hf as [? _]. congruence.
  - subst z. apply Forall_cons in Hf as [? _]. congruence.
  - subst v. apply Forall_cons in Hf as [_ Hf]. by destruct (IH l H Hy Hf) as [-> ->].
Qed.

(** Claim C6. A telegram that can be attempted reaches a contact who is online: the next turn of
    the queue that comes to it hands exactly its text to the library, and the read
    receipt that answers it takes it, and no other telegram, out of the queue. *)
Theorem online_telegram_delivered `{tox_params, toxcore, mq_config} {D I} (w : relayer D I) now t l1 l2 r :
  let f := t_friend t in
  wf_mq (r_queue w) -> messages (r_queue w) = l1 ++ t :: l2 ->
  Forall (fun u => ready now u = false) l1 -> ready now t = true -> t_attempts (expire t) < MQ_MAX_ATTEMPTS ->
  friend_number_valid f = true -> friend_online (calls (r_bot w)) f = true ->
  friend_send_message (calls (r_bot w)) f (t_text t) = (r, 0) -> 0 <= r <= INT_MAX ->
  Forall (fun u => acknowledges f r u = false) (l1 ++ l2) ->
  exists w1 w2, services w [now] = Some w1 /\ calls (r_bot w1) = calls (r_bot w) ++ [SendMessage f (t_text t)] /\
    Permutation (saved <$> messages (r_queue w1)) (saved <$> messages (r_queue w)) /\
    cb_friend_read_receipt w1 f r = Some w2 /\ messages (r_queue w2) = l1 ++ l2 /\
    drops (r_queue w2) = drops (r_queue w) /\
    total_confirmed (g_stats (r_queue w2)) = u64 (total_confirmed (g_stats (r_queue w)) + 1).
Proof.
  intros f Hq Hm Hl1 Hr Ha Hv Ho Hs Hri Hno. assert (Hf : 0 <= f < 2 ^ 31).
  { unfold friend_number_valid in Hv. zbool. unfold MAX_Friend_NUM in *. lia. }
  pose proof (service_ok tox_transport (r_bot w) (r_queue w) now Hq) as Hsv. rewrite Hm, tick_skip, tick_act in Hsv by done.
  assert (He : t_friend (expire t) = f /\ t_text (expire t) = t_text t) by (unfold expire, f; by destruct (t_receipt t)).
  destruct He as [He1 He2]. unfold attempt in Hsv. rewrite (proj2 (Z.leb_gt _ _) Ha) in Hsv. cbv zeta in Hsv.
  rewrite He1, He2 in Hsv. unfold tox_transport at 1 in Hsv.
  rewrite (proj2 (Z.ltb_ge _ _) (proj1 Hf)), Hv, Ho, Hs in Hsv. cbn [negb] in Hsv. change (0 =? 0) with true in Hsv. cbn [negb] in Hsv.
  rewrite i32_id in Hsv by (unfold INT_MAX in Hri; lia). rewrite (proj2 (Z.leb_le _ _) (proj1 Hri)) in Hsv.
  cbn [dropped app] in Hsv.
  match type of Hsv with context [l1 ++ ?x :: l2] => set (t' := x) in Hsv end.
  assert (Hst : saved t' = saved t) by done.
  assert (Hack : acknowledges f r t' = true).
  { unfold acknowledges, t'. cbn [t_friend t_receipt]. rewrite Z.eqb_refl. by apply bool_decide_eq_true_2. }
  clearbody t'. destruct Hsv as (q1 & E1 & Hw1 & Hm1 & Hst1 & Hev1 & _).
  destruct (mq_confirm q1 f r) as [[rc q2]|] eqn:E2.
  2: { exfalso. destruct (confirm_ok q1 f r Hw1) as (? & ? & ? & _); [lia | lia | congruence]. }
  cbn [services]. unfold service. rewrite E1. eexists _, _. split; [done |].
  split; [done |]. split.
  { cbn [r_queue with_queue]. by rewrite Hm1, Hm, !fmap_app, !fmap_cons, Hst. }
  unfold cb_friend_read_receipt. cbn [r_queue with_queue].
  rewrite !i32_id by (unfold INT_MAX in Hri; lia).
  rewrite E2. split; [done |]. destruct (confirm_done _ _ _ _ _ Hw1 E2) as [Hw2 Hc].
  pose proof (drops_app _ _ _ Hev1) as Hd1. cbn [drop_events omap list_omap] in Hd1. rewrite app_nil_r in Hd1.
  destruct Hc as [(l & u & l' & Hl & Hl' & Hu & Hst2 & Hev2) | ->].
  - rewrite Hm1 in Hl. destruct (split_unique _ _ _ _ _ _ _ Hl Hu Hno) as [-> ->].
    assert (Hq2 : forall s : relayer D I, r_queue (receipt_display s r) = r_queue s) by (intros s; unfold receipt_display; by destruct (_ =? _)).
    rewrite Hq2. cbn [r_queue with_queue]. split; [done |]. rewrite Hst2, Hst1. split; [| done].
    by rewrite (drops_app _ _ _ Hev2), drops_change, app_nil_r.
  - exfalso. destruct (confirm_ok q1 f r Hw1) as (rc1 & q3 & E3 & _ & Hc); [lia | lia |]. rewrite E2 in E3. injection E3 as <- <-.
    destruct Hc as [(_ & _ & Hlt & _) | (_ & _ & Hn)]; [lia |].
    assert (Hin : t' ∈ messages q1) by (rewrite Hm1; apply elem_of_app; right; left).
    apply list_elem_of_fmap in Hin as (e & -> & Hin). rewrite confirms_view, (Hn e Hin) in Hack. done.
Qed.

(** Claim C7. A telegram for a contact who is offline is lost within as many turns of
    the queue as there are attempts, the retry backoff apart: each turn counts as a
    failed attempt although nothing could be sent, and after the last one the telegram
    is given up. The header allows eight attempts and the loop serves the queue every
    two seconds. *)
Theorem offline_telegram_dropped `{tox_params, toxcore, mq_config} {D I} (w : relayer D I) f x len t0 last ts :
  wf_mq (r_queue w) -> g_drop_fn (r_queue w) = true -> messages (r_queue w) = [new_telegram f x len t0] ->
  friend_number_valid f = true -> (forall h, friend_online h f = false) ->
  spaced last ts -> zlen ts = MQ_MAX_ATTEMPTS ->
  exists w', services w ts = Some w' /\ calls (r_bot w') = calls (r_bot w) /\ messages (r_queue w') = [] /\
    drops (r_queue w') = drops (r_queue w) ++ [EvDrop f MQ_MAX_ATTEMPTS].
Proof.
  intros Hq Hh Hm Hv Ho Hsp Hl. pose proof attempts_pos.
  destruct (services_offline ts w (new_telegram f x len t0) last Hq Hh Hm eq_refl eq_refl Hsp) as (w' & Hr & Hb & Hw');
    [intros ->; change (zlen (@nil Z)) with 0 in Hl; lia | done | done | done |].
  exists w'. split; [done |]. rewrite Hb. by split.
Qed.

Lemma wf_drop_hook `{mq_config} q b : wf_mq q -> wf_mq (mq_set_drop_hook q b).
Proof. intros Hq. by apply (wf_same q); try done; apply Hq. Qed.

Definition waiting : relayer sample_store unit := mk_relayer sample_bot (mq_set_drop_hook one_stored true) (opened_db, []) tt
  [] [] [] ($"CCDD") [] 0 0 0.

(** Two attempts, the small build's budget, two seconds apart. *)
Lemma offline_telegram_dropped_witness : exists w',
  @services tox_02 offline_core mq_small _ _ waiting [1000; 1002] = Some w' /\
  messages (r_queue w') = [] /\ drops (r_queue w') = [EvDrop 4 2].
Proof.
  assert (Hm : messages (r_queue waiting) = [new_telegram 4 hello (zlen hello) 100]) by (vm_compute; reflexivity).
  assert (Hd : drops (r_queue waiting) = []) by (vm_compute; reflexivity).
  destruct (@offline_telegram_dropped tox_02 offline_core mq_small _ _ waiting 4 hello (zlen hello) 100 900 [1000; 1002])
    as (w' & H1 & _ & H2 & H3); [| done | exact Hm | done | done | | done |].
  - exact (wf_drop_hook _ true one_stored_wf).
  - cbn. lia.
  - rewrite Hd in H3. exists w'. exact (conj H1 (conj H2 H3)).
Defined.

(** The same queue when the contact is online. *)
Lemma online_telegram_delivered_witness : exists w1 w2,
  @services tox_02 ticking_core mq_small _ _ waiting [1000] = Some w1 /\
  cb_friend_read_receipt (cfg := mq_small) w1 4 1 = Some w2 /\
  messages (r_queue w2) = [] /\ total_confirmed (g_stats (r_queue w2)) = 1.
Proof.
  assert (Hm : messages (r_queue waiting) = [] ++ [new_telegram 4 hello (zlen hello) 100]) by (vm_compute; reflexivity).
  assert (Hc : total_confirmed (g_stats (r_queue waiting)) = 0) by (vm_compute; reflexivity).
  destruct (@online_telegram_delivered tox_02 ticking_core mq_small _ _ waiting 1000 (new_telegram 4 hello (zlen hello) 100) [] [] 1)
    as (w1 & w2 & H1 & _ & _ & H2 & H3 & _ & H4);
    [exact (wf_drop_hook _ true one_stored_wf) | exact Hm | constructor | done | done | done | done | done | | constructor |].
  - unfold INT_MAX. lia.
  - rewrite Hc in H4. exists w1, w2. exact (conj H1 (conj H2 (conj H3 H4))).
Defined.
