(* ===== verification/Main.v ===== *)
(** * From the arguments to the exit

    [main] of [src/toxrelayer.c] as a whole: the profile's legacy name, the options,
    the library started on the profile ([init_tox] over [load_tox]), then the start-up,
    the loop and the exit of [Console.v]. The process ends early with a status, or runs
    until its loop is stopped. *)

From S2P Require Import Prelude.
From S2P Require Import CString.
From S2P Require Import Telegram.
From S2P Require Import MsgQueue.
From S2P Require Import MqPersist.
From S2P Require Import MsgDatabase.
From S2P Require Import Misc.
From S2P Require Import Options.
From S2P Require Import Ini.
From S2P Require Import GroupChats.
From S2P Require Import Bot.
From S2P Require Import Network.
From S2P Require Import Commands.
From S2P Require Import Toxrelayer.
From S2P Require Import Rooms.
From S2P Require Import Console.

(** The library before it is started: the options it allocates and their defaults,
    whether an instance can be created from options and a profile, and the answers of
    the instance created from a profile, or from none. *)
Record library : Type := mk_library {
  options_new : bool;
  options_default : tox_options;
  tox_new : tox_options -> option bytes -> bool;
  core_of : option bytes -> toxcore;
  peers_of : option bytes -> toxpeers }.

Definition EXIT_SUCCESS : Z := 0.
Definition EXIT_FAILURE : Z := 1.

(** How [main] ends: with a status before the loop, or after it, on the profile it
    was started with. *)
Inductive finished (D I : Type) : Type :=
| Exited (status : Z) (w : world)
| Ran (profile : option bytes) (k : console D I).
Arguments Exited {D I}.
Arguments Ran {D I}.

(** [Tox_Bot] as the process finds it. *)
Definition zero_bot (w : world) : bot := mk_bot [] w 0 0 0 0 0 0 (mk_groups [] 0).

(** The end of [init_tox]: a profile without a status message or a name gets one. *)
Definition init_self `{toxcore} `{toxpeers} : M unit :=
  s_len ← gets (fun s => zlen (self_status_message (calls s)));
  _ ← (if s_len =? 0 then perform (SelfSetStatusMessage ($"arkMeta World: Command '/help' for more info")) (fun _ => tt)
       else mret tt);
  n_len ← gets (fun s => zlen (self_name (calls s)));
  if n_len =? 0 then perform (SelfSetName Bot_Name) (fun _ => tt) else mret tt.

Section Main.
Context `{tox : tox_params} `{cfg : mq_config} {D I G : Type} `{db : !database D} `{ini : !ini_file I} `{go : !getopt G}.
Variable lib : library.

(** What the profile of a new profile is. *)
Definition fresh : bytes := @savedata (core_of lib None) [].

(** [None] on the left is the exit for want of options, or the null pointer: [main]
    exits with the same status. *)
Definition init_tox (o : options) (w : world) : option (world + option bytes * bot) :=
  if negb (options_new lib) then Some (inl w)
  else
    let tox_opts := init_tox_options o (options_default lib) in
    let '(m, w) := load_tox (tox_new lib tox_opts) fresh DATA_FILE w in
    match m with
    | None => Some (inl w)
    | Some profile =>
      do! (_, b) := @init_self (core_of lib profile) (peers_of lib profile) (zero_bot w);
      Some (inr (profile, b))
    end.

(** The rest of [main], once the library runs. *)
Definition run (profile : option bytes) (b : bot) (d : D) (i : I) (l : list input) : option (finished D I) :=
  do! k := startup (core := core_of lib profile) (peers := peers_of lib profile) b d i;
  do! k := main_loop (core := core_of lib profile) (peers := peers_of lib profile) l k;
  do! k := exit_toxrelayer (core := core_of lib profile) k;
  Some (Ran profile k).

Definition main (g : G) (w : world) (d : D) (i : I) (l : list input) : option (finished D I) :=
  let '(ret, w) := legacy_data_file_rename w in
  if negb (ret =? 0) then Some (Exited EXIT_FAILURE w)
  else
    do! parsed := parse_args g;
    match parsed with
    | Usage => Some (Exited EXIT_SUCCESS w)
    | Refused => Some (Exited EXIT_FAILURE w)
    | Parsed o =>
      do! m := init_tox o w;
      match m with
      | inl w => Some (Exited EXIT_FAILURE w)
      | inr (profile, b) => run profile b d i l
      end
    end.

End Main.

(** * Lemmas *)

(** What is asked of the library and of the contacts it knows, for every profile it
    can be started on: see [process_safe]. *)
Record library_ok `{tox_params} (lib : library) : Prop := {
  lib_names p h f : zlen (@friend_name (core_of lib p) h f) < Z.min 128 TOX_MAX_NAME_LENGTH;
  lib_peers p : @peers_ok _ (core_of lib p) (peers_of lib p);
  lib_exist p h f : f ∈ @friend_list (core_of lib p) h -> @friend_exists (core_of lib p) h f = true;
  lib_keys p h j : 0 <= j < zlen (@friend_list (core_of lib p) h) -> is_Some (@friend_public_key (core_of lib p) h j);
  lib_clock p h : is_long (@time (core_of lib p) h);
  lib_friends p h : zlen (@friend_list (core_of lib p) h) <= MAX_Friend_NUM }.

Lemma zero_bot_wf w : wf_groups (table (zero_bot w)).
Proof. by split_and!. Qed.

(** The profile read, when no call fails. *)
Lemma load_works (tox_new : option bytes -> bool) fresh w : w_plan w = [] ->
  exists r w', load_tox tox_new fresh DATA_FILE w = (r, w') /\ w_plan w' = [] /\
    match w_files w !! DATA_FILE with
    | None => if tox_new None then r = Some None /\ w_files w' = <[DATA_FILE := mk_file fresh false]> (w_files w)
              else r = None /\ w' = w
    | Some f => w' = w /\ r = if (0 <? zlen (f_data f)) && tox_new (Some (f_data f)) then Some (Some (f_data f)) else None
    end.
Proof.
  intros Hp. unfold load_tox. rewrite (sys_works w Hp). destruct (w_files w !! DATA_FILE) as [f|] eqn:Ef.
  - unfold load_open, file_size. rewrite Ef. cbn [fmap option_fmap option_map default compose]. unfold id.
    destruct (zlen (f_data f) <=? 0) eqn:Ez; zbool.
    + rewrite (sys_works w Hp). eexists _, _. split; [done |]. split_and!; [done | done |]. by rewrite (proj2 (Z.ltb_ge _ _)) by lia.
    + rewrite !(sys_works w Hp). cbn [negb snd]. rewrite ?(sys_works w Hp). cbn [snd].
      eexists _, _. split; [done |]. split_and!; [done | done |]. by rewrite (proj2 (Z.ltb_lt _ _)) by lia.
  - destruct (tox_new None); [| by eexists _, _]. destruct (save_works DATA_FILE fresh w Hp) as [H1 H2]. by eexists _, _.
Qed.

Section Facts.
Context `{tox : tox_params} `{cfg : mq_config} {D I G : Type} `{db : !database D} `{ini : !ini_file I} `{go : !getopt G}.
Variable lib : library.

(** The two settings [init_tox] may make. *)
Lemma init_self_runs `{toxcore} `{toxpeers} b : exists b', init_self b = Some (tt, b') /\ disk b' = disk b /\ table b' = table b.
Proof. unfold init_self, perform, mbind, M_bind, mret, M_ret, gets. by destruct (_ =? 0); destruct (_ =? 0); eexists; split_and!. Qed.

Lemma init_tox_runs o w : exists r, init_tox lib o w = Some r /\ forall p b, r = inr (p, b) -> wf_groups (table b).
Proof.
  unfold init_tox. destruct (options_new lib); [cbn [negb] | by eexists].
  destruct (load_tox _ _ _ w) as [[p|] w1]; [| by eexists].
  destruct (@init_self_runs (core_of lib p) (peers_of lib p) (zero_bot w1)) as (b & -> & _ & Ht).
  eexists. split; [done |]. intros p' b' [= <- <-]. rewrite Ht. apply zero_bot_wf.
Qed.

Lemma run_ok p b (d : D) (i : I) l : library_ok lib -> wf_groups (table b) ->
  (forall k, startup (core := core_of lib p) (peers := peers_of lib p) b d i = Some k ->
     inputs_ok (core := core_of lib p) (peers := peers_of lib p) l k) ->
  exists k, run lib p b d i l = Some (Ran p k).
Proof.
  intros [Hn Hr Hx Hk Ht Hf] Hb Hin. unfold run.
  destruct (startup_ok (core := core_of lib p) (peers := peers_of lib p) (Hn p) (Hr p) (Hk p) (Hf p) b d i Hb) as (k0 & Hs & Hk0).
  rewrite Hs. destruct (main_loop_ok (core := core_of lib p) (peers := peers_of lib p) (Hn p) (Hx p) (Hr p) (Hk p) (Ht p) l k0 Hk0 (Hin k0 Hs))
    as (k & -> & Hok).
  destruct (exit_ok (core := core_of lib p) k Hok) as [k' ->]. by exists k'.
Qed.
End Facts.

(** * Properties *)


(** The library of the example: it takes any options and any profile. *)
Definition sample_library : library := {|
  options_new := true;
  options_default := mk_tox_options true true TOX_PROXY_TYPE_NONE true 0 [];
  tox_new _ _ := true;
  core_of _ := pair_core 2 900;
  peers_of _ := room_peers ($"alice") |}.

Lemma sample_library_ok : library_ok sample_library.
Proof.
  split; try done.
  - intros p. exact room_peers_ok.
  - intros p h f Hf. cbn in *. set_unfold in Hf. by destruct Hf as [-> | [-> | []]].
  - intros p h j Hj. change (0 <= j < 2) in Hj. cbn.
    destruct (decide (j = 0)) as [-> | ?]; [by eexists |]. destruct (decide (j = 1)) as [-> | ?]; [by eexists | lia].
Qed.

(** [toxrelayer -L], on a directory whose files cannot be written. *)
Definition sample_args : listing := ([("L"%char, None, 2)], 1, [$"toxrelayer"; $"-L"]).

Definition failing_world : world := mk_world {[ DATA_FILE := mk_file ($"old") true ]} [Works; Works; Works; Works; Fails; Fails; Fails] [] [].


(** The profile a start finds: under its own name or its old one, or none; not under
    both. *)
Definition found_profile (files : gmap bytes file) : option (option bytes) :=
  match f_data <$> files !! DATA_FILE_PRE_0_1_1, f_data <$> files !! DATA_FILE with
  | Some _, Some _ => None
  | Some data, None | None, Some data => Some (Some data)
  | None, None => Some None
  end.

Definition accepted (lib : library) (o : options) (p : option bytes) : bool :=
  options_new lib && tox_new lib (init_tox_options o (options_default lib)) p &&
  match p with Some data => 0 <? zlen data | None => true end.

(** What a start leaves in the profile's files. *)
Definition profile_kept (w w' : world) (data : option bytes) : Prop :=
  w_plan w' = [] /\ w_files w' !! DATA_FILE_PRE_0_1_1 = None /\ f_data <$> w_files w' !! DATA_FILE = data /\
  forall q, q <> DATA_FILE -> q <> DATA_FILE_PRE_0_1_1 -> w_files w' !! q = w_files w !! q.

Lemma legacy_works w p : w_plan w = [] -> found_profile (w_files w) = Some p ->
  exists w', legacy_data_file_rename w = (0, w') /\ profile_kept w w' p.
Proof.
  intros Hp Hf. unfold found_profile in Hf. unfold legacy_data_file_rename, file_exists, rename, profile_kept.
  destruct (w_files w !! DATA_FILE_PRE_0_1_1) as [old|] eqn:Eo; cbn [fmap option_fmap option_map] in Hf.
  - destruct (w_files w !! DATA_FILE) as [f|] eqn:Ef; cbn in Hf; [done |]. injection Hf as <-.
    rewrite (bool_decide_eq_true_2 (is_Some (Some old))), (bool_decide_eq_false_2 (is_Some None)) by (done || by intros []).
    cbn [negb]. rewrite sys_works, Eo by done. eexists. split; [done |]. cbn. split_and!; [done | | by rewrite lookup_insert_eq |].
    + rewrite lookup_insert_ne by done. apply lookup_delete_eq.
    + intros q H1 H2. by rewrite lookup_insert_ne, lookup_delete_ne by done.
  - rewrite (bool_decide_eq_false_2 (is_Some None)) by (by intros []). cbn [negb]. exists w.
    split; [done |]. split_and!; [done | done | by destruct (w_files w !! DATA_FILE); injection Hf as <- | done].
Qed.

Lemma init_tox_works lib o w p : w_plan w = [] -> w_files w !! DATA_FILE_PRE_0_1_1 = None -> f_data <$> w_files w !! DATA_FILE = p ->
  exists w', profile_kept w w' (if accepted lib o p then Some (default (fresh lib) p) else p) /\ (is_Some p -> w' = w) /\
    if accepted lib o p then exists b, disk b = w' /\ wf_groups (table b) /\ init_tox lib o w = Some (inr (p, b))
    else init_tox lib o w = Some (inl w').
Proof.
  intros Hp Hpre Hd. unfold init_tox, accepted. destruct (options_new lib); cbn [negb andb]; [| by exists w].
  destruct (load_works (tox_new lib (init_tox_options o (options_default lib))) (fresh lib) w Hp) as (r & w' & -> & Hp' & Hr).
  exists w'. destruct (w_files w !! DATA_FILE) as [f|] eqn:Ef; cbn in Hd; subst p.
  - destruct Hr as [-> ->]. rewrite andb_comm.
    assert (Hk : profile_kept w w (Some (f_data f))) by (split_and!; rewrite ?Ef; done).
    destruct (_ && _); [| split; [exact Hk | by split]]. split; [exact Hk |]. split; [done |].
    destruct (@init_self_runs (core_of lib (Some (f_data f))) (peers_of lib (Some (f_data f))) (zero_bot w)) as (b & -> & Hb & Ht).
    exists b. split_and!; [done | rewrite Ht; apply zero_bot_wf | done].
  - rewrite andb_true_r. destruct (tox_new _ _ None); destruct Hr as [-> Hw].
    + split; [| split].
      * split_and!; [done | by rewrite Hw, lookup_insert_ne | by rewrite Hw, lookup_insert_eq |].
        intros q H1 _. by rewrite Hw, lookup_insert_ne.
      * by intros [].
      * destruct (@init_self_runs (core_of lib None) (peers_of lib None) (zero_bot w')) as (b & -> & Hb & Ht).
        exists b. split_and!; [done | rewrite Ht; apply zero_bot_wf | done].
    + subst w'. split; [by split_and!; rewrite ?Ef | by split].
Qed.

(** Claim C33. Which identity the bot runs on, when no file operation fails: the profile
    under its name, or the one under its old name, which is moved, or a new one, which
    is saved at once; a profile under both names, an empty one and one the library
    refuses end the process with status 1, and no profile is changed. *)
Theorem main_profile `{tox_params, mq_config} {D I G} `{!database D} `{!ini_file I} `{!getopt G}
    (lib : library) (g : G) w (d : D) (i : I) l o :
  w_plan w = [] -> parse_args g = Some (Parsed o) ->
  match found_profile (w_files w) with
  | None => main lib g w d i l = Some (Exited EXIT_FAILURE w)
  | Some p => exists w', profile_kept w w' (if accepted lib o p then Some (default (fresh lib) p) else p) /\
      if accepted lib o p then exists b, disk b = w' /\ main lib g w d i l = run lib p b d i l
      else main lib g w d i l = Some (Exited EXIT_FAILURE w')
  end.
Proof.
  intros Hp Hargs. unfold main. destruct (found_profile (w_files w)) as [p|] eqn:Ef.
  - destruct (legacy_works w p Hp Ef) as (w1 & -> & Hp1 & Hpre & Hdata & Hother). cbn [negb Z.eqb]. rewrite Hargs. cbn [mbind option_bind].
    destruct (init_tox_works lib o w1 p Hp1 Hpre Hdata) as (w2 & (K1 & K2 & K3 & K4) & _ & Hrun). exists w2.
    split; [split_and!; [done | done | done | intros q H1 H2; rewrite K4, Hother; done] |].
    destruct (accepted lib o p); [destruct Hrun as (b & Hb & _ & ->); by exists b | by rewrite Hrun].
  - unfold found_profile in Ef. unfold legacy_data_file_rename, file_exists.
    destruct (w_files w !! DATA_FILE_PRE_0_1_1); [| by destruct (w_files w !! DATA_FILE)].
    by destruct (w_files w !! DATA_FILE).
Qed.

Definition legacy_world : world := mk_world {[ DATA_FILE_PRE_0_1_1 := mk_file ($"old") true ]} [] [] [].

Lemma sample_parsed : parse_args sample_args = Some (Parsed (mk_options TOX_PROXY_TYPE_NONE [] 0 false true false)).
Proof. vm_compute. reflexivity. Qed.

Lemma main_profile_witness : exists b,
  w_files (disk b) !! DATA_FILE_PRE_0_1_1 = None /\ f_data <$> w_files (disk b) !! DATA_FILE = Some ($"old") /\
  main (cfg := mq_small) sample_library sample_args legacy_world
    (opened_db, []) tt [Key "h"%char] =
  run (cfg := mq_small) sample_library (Some ($"old")) b (opened_db, []) tt [Key "h"%char].
Proof.
  pose proof (@main_profile tox_02 mq_small _ _ _ _ _ _ sample_library sample_args legacy_world (opened_db, []) tt [Key "h"%char]
    (mk_options TOX_PROXY_TYPE_NONE [] 0 false true false) eq_refl sample_parsed) as H.
  assert (E : found_profile (w_files legacy_world) = Some (Some ($"old"))) by (vm_compute; reflexivity).
  rewrite E in H. destruct H as (w' & (_ & H1 & H2 & _) & b & Hb & H3).
  exists b. rewrite Hb. exact (conj H1 (conj H2 H3)).
Defined.

(** Claim C2. A restart continues where the process ended: when file operations work,
    the next [main] runs on the profile as the library had it at the exit, and its
    start finds every telegram that was in the queue, in order. *)
Theorem restart_continues `{tox_params, mq_config} {D I G} `{!database D} `{!ini_file I} `{!getopt G}
    (lib : library) (g : G) p (k : console D I) (d : D) (i : I) l o :
  let profile := @savedata (core_of lib p) (calls (r_bot (k_relayer k))) in
  library_ok lib -> console_ok k -> w_plan (disk (r_bot (k_relayer k))) = [] ->
  Forall (fun t => t_friend t <= INT_MAX) (messages (r_queue (k_relayer k))) ->
  w_files (disk (r_bot (k_relayer k))) !! DATA_FILE_PRE_0_1_1 = None ->
  parse_args g = Some (Parsed o) -> accepted lib o (Some profile) = true ->
  exists k', exit_toxrelayer (core := core_of lib p) k = Some k' /\
    exists b, main lib g (mk_world (w_files (disk (r_bot (k_relayer k')))) [] [] []) d i l = run lib (Some profile) b d i l /\
    exists k2, startup (core := core_of lib (Some profile)) (peers := peers_of lib (Some profile)) b d i = Some k2 /\
      messages (r_queue (k_relayer k2)) =
        (fun t => new_telegram (t_friend t) (t_text t) (zlen (t_text t)) (@time (core_of lib (Some profile)) (calls b)))
        <$> messages (r_queue (k_relayer k)).
Proof.
  intros profile [Hn Hr _ Hk Ht Hf] Hok Hplan Hint Hpre Hargs Hacc. pose proof (ok_queue _ (ok_relayer _ Hok)) as Hq.
  destruct (exit_saves (H0 := core_of lib p) k Hq Hplan) as (k' & He & Hqueue & Hdata & Hother).
  exists k'. split; [exact He |]. set (w := mk_world (w_files (disk (r_bot (k_relayer k')))) [] [] []).
  assert (Hpre' : w_files w !! DATA_FILE_PRE_0_1_1 = None) by (cbn [w w_files]; by rewrite Hother).
  destruct (init_tox_works lib o w (Some profile) eq_refl Hpre') as (w' & _ & Hw & Hrun);
    [cbn [w w_files]; by rewrite Hdata |]. rewrite Hacc in Hrun. destruct Hrun as (b & Hb & Hg & Hinit).
  rewrite Hw in Hb by done. exists b. split.
  - unfold main, legacy_data_file_rename, file_exists. rewrite Hpre', bool_decide_eq_false_2 by (by intros []). cbn [negb Z.eqb].
    rewrite Hargs. cbn [mbind option_bind]. by rewrite Hinit.
  - exact (start_finds (H0 := core_of lib (Some profile)) (H1 := peers_of lib (Some profile)) (r_queue (k_relayer k)) (w_files w) b d i
      (Hn _) (Hr _) (Hk _) (Hf _) Hq Hint Hqueue Hg Hb).
Qed.

Lemma restart_continues_witness : exists k' b k2,
  exit_toxrelayer (core := pair_core 2 900) (cfg := mq_small) sample_console = Some k' /\
  main (cfg := mq_small) sample_library sample_args (mk_world (w_files (disk (r_bot (k_relayer k')))) [] [] []) (opened_db, []) tt
    [Key "h"%char] = run (cfg := mq_small) sample_library (Some ($"saved")) b (opened_db, []) tt [Key "h"%char] /\
  startup (core := pair_core 2 900) (peers := room_peers ($"alice")) (cfg := mq_small) b (opened_db, []) tt = Some k2 /\
  messages (r_queue (k_relayer k2)) = [mk_telegram 4 hello 1000 None 0 None].
Proof.
  assert (Hq : messages (r_queue (k_relayer sample_console)) = [mk_telegram 4 hello 100 None 0 None]) by (by vm_compute).
  destruct (@restart_continues tox_02 mq_small _ _ _ _ _ _ sample_library sample_args None sample_console (opened_db, []) tt
    [Key "h"%char] (mk_options TOX_PROXY_TYPE_NONE [] 0 false true false) sample_library_ok sample_console_ok)
    as (k' & He & b & Hm & k2 & Hs & Hk2).
  - reflexivity.
  - rewrite Hq. repeat constructor. unfold INT_MAX. cbn. lia.
  - vm_compute. reflexivity.
  - exact sample_parsed.
  - reflexivity.
  - exists k', b, k2. rewrite Hq in Hk2. exact (conj He (conj Hm (conj Hs Hk2))).
Defined.

(** Claim C34. Any failure to open the profile for reading is taken for a missing one: a
    bot whose profile exists and cannot be opened starts on a new identity, and saves
    it over the old one. *)
Theorem unreadable_profile_overwritten `{tox_params, mq_config} {D I G} `{!database D} `{!ini_file I} `{!getopt G}
    (lib : library) (g : G) (old : file) w (d : D) (i : I) l o :
  w_files w !! DATA_FILE = Some old -> w_files w !! DATA_FILE_PRE_0_1_1 = None -> w_plan w = [Fails] ->
  parse_args g = Some (Parsed o) -> accepted lib o None = true ->
  exists b, main lib g w d i l = run lib None b d i l /\
    w_files (disk b) !! DATA_FILE = Some (mk_file (fresh lib) false).
Proof.
  intros Hold Hpre Hplan Hargs Hacc. unfold main, legacy_data_file_rename, file_exists.
  rewrite Hpre, bool_decide_eq_false_2 by (by intros []). cbn [negb Z.eqb]. rewrite Hargs. cbn [mbind option_bind].
  unfold accepted in Hacc. rewrite andb_true_r in Hacc. apply andb_true_iff in Hacc as [Hnew Hacc].
  unfold init_tox. rewrite Hnew. cbn [negb]. unfold load_tox, sys at 1, ask at 1. rewrite Hplan, Hacc.
  destruct (save_works DATA_FILE (fresh lib) (mk_world (w_files w) [] (w_trace w) (w_dirs w)) eq_refl) as [_ Hf].
  destruct (@init_self_runs (core_of lib None) (peers_of lib None)
    (zero_bot (snd (save_file (Some DATA_FILE) (fresh lib) (mk_world (w_files w) [] (w_trace w) (w_dirs w)))))) as (b & -> & Hb & _).
  exists b. split; [done |]. by rewrite Hb; cbn [zero_bot disk]; rewrite Hf, lookup_insert_eq.
Qed.

Definition unreadable_world : world := mk_world {[ DATA_FILE := mk_file ($"old") true ]} [Fails] [] [].

Lemma unreadable_profile_overwritten_witness : exists b,
  main (cfg := mq_small) sample_library sample_args unreadable_world (opened_db, []) tt [Key "h"%char] =
  run (cfg := mq_small) sample_library None b (opened_db, []) tt [Key "h"%char] /\
  w_files (disk b) !! DATA_FILE = Some (mk_file ($"saved") false).
Proof.
  assert (H1 : w_files unreadable_world !! DATA_FILE = Some (mk_file ($"old") true)) by (vm_compute; reflexivity).
  assert (H2 : w_files unreadable_world !! DATA_FILE_PRE_0_1_1 = None) by (vm_compute; reflexivity).
  exact (@unreadable_profile_overwritten tox_02 mq_small _ _ _ _ _ _ sample_library sample_args _ unreadable_world (opened_db, []) tt
    [Key "h"%char] _ H1 H2 eq_refl sample_parsed eq_refl).
Defined.
